(* ===== verification/_CoqProject ===== *)
-Q . S2P
Prelude.v
Bitvec.v
Queue.v
Queues.v
Machine.v
Kthread.v
Uthread.v
Client.v
Eval.v
UthreadEval.v
Sched.v
Api.v
Demo.v
UthreadProps.v
Spec.v
SpecProps.v
Owned.v
Refine.v
Init.v
Whole.v
Teardown.v
KthreadProps.v
Logic.v
Locks.v
LogicSound.v
Interleave.v
Start.v
Boot.v
BootProps.v
Race.v
Tests.v
Asm.v
Valgrind.v
ValgrindProps.v
CallFn.v
CallFnProps.v
CallPpc.v
CallArm.v
CallMips.v
Calls.v
CallCheck.v
CallSound.v
CallsProps.v
