(* ===== verification/Prelude.v ===== *)
(** * A verification development for the uthread userspace threading library

    The library multiplexes many threads (M) on a few kernel threads (N).  Its parts:

    - bitvec.c, a bit vector that records which thread identifiers are in use;
    - queue.c, a linked list with a tail pointer, for the ready queue, the join
      queue of a thread and the waiters of a semaphore;
    - kthread.c, kernel threads over pthreads with a table from gettid() values,
      and wrappers of mutexes, semaphores, condition variables and the signal mask;
    - uthread.c, the scheduler: a context per kernel thread runs [schedule], every
      thread has a control block with a context; a call that blocks leaves a task
      for its scheduler and swaps to it, with [tcbs_lock] held until the scheduler
      has put the thread on a queue.  A timer signal per kernel thread only sets a
      flag, which the next call of the library looks at;
    - valgrind.h, vendored: requests to Valgrind and hand-made calls, as inline
      assembly for ten platforms; the library registers its stacks with it;
    - test.h and test-*.c, programs that use the library.

    ** Files

    Prelude: faults and results, C conversions ([to_uint], [to_int], [int_of]),
    bounded loops ([for_find], [pfor]), arrays indexed by Z, the hint database
    uthread.

    Bitvec: bitvec.c over bytes.  Queue: queue.c over a heap of nodes, where a freed
    node is gone, so that a use after free or a second free is a fault.  Queues: any
    number of queues in one heap, which is why the machine below may hold lists.

    Machine: the types of uthread.h and the static variables of uthread.c and
    kthread.c, as one record [machine]; the commands a C function consists of, one
    per access to a shared variable and per call of the C library, with their
    effects ([exec]); C functions are programs [prog] of the free monad over the
    commands.  [step] executes one command of one kernel thread, lets a timer
    expire, or delivers a signal; its label says which and whether the environment
    grants a call it may refuse (malloc, pthread_create, timer_create), so every
    interleaving of kernel threads is a list of labels ([run], [steps]).  A context
    of ucontext.h is a saved program.

    Kthread, Uthread: one definition per function of kthread.c and uthread.c.
    Client: programs over the calls of uthread.h, and [text], the body of every
    function called by name, which links a client with the library.  Loops that may
    not end ([while] around pthread calls and around a semaphore's counter) call
    themselves by name, one step per turn, so they need no fuel.

    Eval, UthreadEval: programs run without interleaving ([ksteps], [lrun]: the runs in
    which one kernel thread alone moves and no timer expires); the helpers of uthread.c.
    Sched: what [schedule] does.  Api: every call of uthread.h, from each state that
    matters.  Demo: a machine with three threads, for witnesses.  UthreadProps,
    KthreadProps: the properties of the two files.

    One kernel thread.  Spec: the abstract scheduler, which has no kernel threads,
    locks, contexts or memory ([sstep] is executable); SpecProps: its fairness.
    Owned: which block, stack and context belongs to whom.  Refine: uthread.c
    simulates the abstract scheduler call by call.  Init: [uthread_init] establishes
    the simulation.  Whole: the theorems on the library from [uthread_init] on.
    Teardown: the end of the last thread, back to the caller of [uthread_init].

    Any number of kernel threads.  Logic: a program logic that is modular in the
    threads; a rule per command says what a thread must own to execute it.  Locks:
    what each function of uthread.c owns, and a proof in the logic for each.
    LogicSound: the rules against [step], for every interleaving.  Interleave: what
    follows for all machines reached from one that is [started].  Start: an interleaving
    in which [uthread_init] returns, by evaluation.  Boot: a second logic,
    for [uthread_init] itself, in which one kernel thread at a time moves, the main one
    or the one [kthread_create] waits for, and an invariant of every interleaving in
    that phase; BootProps: [uthread_init] and [kthread_create] in that logic, and the
    theorems of Interleave from main() on.  Race: an interleaving of two kernel threads
    that goes wrong.

    Tests: test.h and the test programs as clients.

    Asm: straight-line assembly and extended asm.  Valgrind: the platform selection,
    the request macros and special sequences of valgrind.h; ValgrindProps: their
    meaning on a real CPU and under Valgrind.  CallFn, CallFnProps: CALL_FN_W_* for
    x86 and amd64.  CallPpc, CallArm, CallMips: CALL_FN_W_* for the other platforms;
    Calls: the calling conventions of the platforms, and how the macros make a call.
    CallCheck: a symbolic execution that decides whether a macro keeps to a convention;
    CallSound: that its answer is right; CallsProps: the answer for every macro.

    ** Theorems

    Whole: for one kernel thread, [uthread_init(1, q)], and a run in which it alone moves
    and no timer expires: a client sees the abstract scheduler, for any number of calls;
    at the state after as many calls the queues, locks, thread states and identifiers
    agree; no wake-up is lost, no thread overtakes another in the ready queue.  Such a run
    exists (the commands are deterministic but for what malloc answers); preemption is in
    the theorems of BootProps.  Teardown: when the last thread has exited, the library
    frees everything and returns.

    BootProps: with any number of kernel threads, in every interleaving from the start of
    main() of a client without teardown, once [uthread_init] has set [inited], the
    accesses for which [guard] names a lock are only made with that lock held; a thread
    that takes from the ready queue finds one; locks are taken in an order, so that the
    only circle of kernel threads that wait for locks is one that waits for itself, after
    a client went on although [uthread_create] failed, and a client that is [careful]
    not to has none; a lock is released by its owner; a kernel thread finds its entry of
    [kthread_info].  The number of kernel threads, the quantum and the client are
    arbitrary, as is what malloc and pthread_create answer.  [guard] covers the ready
    queue, the bit vector, and of a control block the state, identifier and return value,
    the join queue but queue_destroy, and the stores of stack and context; it does not
    cover loads of [tcbs], setcontext and [destroy_thread], where the code has no lock
    (Race shows what comes of it).
    Start: [uthread_init] does return, with up to twelve kernel threads and any quantum
    up to 999999999 (0 for none), by the schedule in which they run one after the other;
    asked for more than 64 it never does, by any schedule (BootProps).

    Queue, Queues, Bitvec: refinement of lists and of a finite set for every sequence
    of operations; the scan for a clear bit finds what a scan bit by bit finds, on vectors
    an [int] can index, and overflows on longer ones; where
    queue_destroy frees, and what queue_clear, queue_remove_item and the scan do wrong.
    UthreadProps, KthreadProps: the effect of each call on each branch, errors included.
    ValgrindProps, CallFnProps, CallsProps: functional behaviour of the macros for
    every register allocation the constraints allow; where the macros of s390x and mips64
    break the convention is an exception of the theorem and a lemma.  Tests: runs of the
    test programs, one schedule each.

    ** Bounds

    An [int] of the source is a Z; its arithmetic is checked ([int_of]: a signed overflow
    is a fault) and conversions wrap ([to_int], [to_uint], [to_size_t]).  Not checked are
    the counters of the loops of uthread.c and kthread.c over kernel threads, threads and
    the table of kthread.c ([pfor], [pfind]): they stay below [UTHREAD_MAX_THREADS],
    [MAX_KTHREADS] or [num_kthreads], which BootProps shows to be at most 64 once
    [inited] is set.  ([uthread_init] converts a negative [int] to a huge number of kernel
    threads; C's counter then overflows, the model's fails to create a kernel thread.)
    [UTHREAD_MAX_THREADS] and [MAX_KTHREADS] are the source's.  Loops with a bound
    ([pfor], [for_find]) run as often as the source's; fuel occurs in the loop of
    queue_remove_item and in queue_destroy, where the number of nodes is enough, and in
    the evaluation of a test ([t_run]: the number of commands), where the theorem says
    that the process has ended.  Machine words of the assembly wrap ([word]);
    [CallCheck.depth] bounds how far below the stack pointer a macro may write.

    ** Not modelled

    Messages on stderr.  ss_flags, and the registration of stacks with Valgrind in
    allocate_stack: ValgrindProps shows that on a real CPU it changes nothing.  The
    memory of stacks.  A context that is resumed twice continues from the saved
    program, but the values of its local variables are those at the save.  Data races
    are interleavings of whole accesses (sequential consistency).  The memory of the
    assembly is addressed by words: two addresses that differ do not overlap.  Teardown
    with several kernel threads: [uthread_teardown] is modelled, its theorem is for one,
    and the theorems on interleavings are for clients that do not call it.  [OrigFn], a
    struct of one or two words, is passed as its words. *)
From Stdlib Require Export ZArith Lia.
From stdpp Require Export base numbers strings gmap list.

#[export] Set Default Goal Selector "!".
#[export] Set Warnings "-clear-no-such-hyp,-level-tolerance".
#[global] Open Scope Z_scope.

(** ** Faults

    What the C program can do wrong: every undefined behaviour, failed
    [assert] and [abort()] the modelled code can reach is a value. *)
Inductive fault : Type :=
| AssertFail            (* assert(e) with e = 0 *)
| Aborted               (* abort() *)
| NullDeref             (* dereference of NULL *)
| UseAfterFree          (* access to a block that is not live *)
| BadFree               (* free() of something malloc did not return *)
| OutOfBounds           (* array access outside the array *)
| ShiftUB               (* shift by a negative count or by the width or more *)
| SignedOverflow        (* int arithmetic outside [INT_MIN, INT_MAX] *)
| MutexMisuse           (* unlock of a mutex the caller does not hold *)
| BadContext            (* setcontext to a context never initialised *)
| OutOfFuel             (* a loop of the model ran out of fuel *)
| Exited (code : Z).    (* no fault: exit(code) ended the process *)

#[export] Instance fault_eq_dec : EqDecision fault.
Proof. solve_decision. Defined.

(** ** Results: a value or a fault *)
Inductive res (A : Type) : Type :=
| Ok (a : A)
| Fault (f : fault).
Arguments Ok {_} _.
Arguments Fault {_} _.

#[export] Instance res_ret : MRet res := λ A, Ok.
#[export] Instance res_bind : MBind res := λ A B f r,
  match r with Ok a => f a | Fault e => Fault e end.

Definition is_ok {A} (r : res A) : bool :=
  match r with Ok _ => true | Fault _ => false end.

(** [assert(b)] *)
Definition assert_ (b : bool) : res unit :=
  if b then Ok tt else Fault AssertFail.

(** An option read as a result. *)
Definition of_opt {A} (f : fault) (o : option A) : res A :=
  match o with Some a => Ok a | None => Fault f end.

Lemma of_opt_Ok {A} f (o : option A) a : of_opt f o = Ok a ↔ o = Some a.
Proof. destruct o; naive_solver. Qed.

Lemma res_bind_assoc {A B C} (r : res A) (f : A → res B) (g : B → res C) :
  (r ≫= f) ≫= g = r ≫= (λ a, f a ≫= g).
Proof. by destruct r. Qed.

Lemma res_bind_Ok {A B} (r : res A) (f : A → res B) b :
  r ≫= f = Ok b ↔ ∃ a, r = Ok a ∧ f a = Ok b.
Proof.
  destruct r as [a|e]; cbn; split.
  - eauto.
  - intros (a' & Ha & ?). by injection Ha as ->.
  - done.
  - by intros (a' & Ha & ?).
Qed.

(** ** Machine-width integers *)
Definition INT_MAX : Z := 2147483647.
Definition INT_MIN : Z := -2147483648.

(** Conversions to [unsigned char], [unsigned int] and [size_t] wrap. *)
Definition to_uchar (z : Z) : Z := z mod 256.
Definition to_uint (z : Z) : Z := z mod 4294967296.
Definition to_size_t (z : Z) : Z := z mod 18446744073709551616.

(** [unsigned int] to [int], as gcc converts *)
Definition to_int (z : Z) : Z :=
  let u := to_uint z in if u <=? INT_MAX then u else u - 4294967296.

(** [int] arithmetic is undefined when the result does not fit. *)
Definition in_int (z : Z) : bool := (INT_MIN <=? z) && (z <=? INT_MAX).
Definition int_of (z : Z) : res Z := if in_int z then Ok z else Fault SignedOverflow.

Lemma in_int_spec z : in_int z = true ↔ INT_MIN ≤ z ≤ INT_MAX.
Proof. unfold in_int. rewrite andb_true_iff, !Z.leb_le. done. Qed.

Lemma int_of_Ok z : INT_MIN ≤ z ≤ INT_MAX → int_of z = Ok z.
Proof. intros ?. unfold int_of. by rewrite (proj2 (in_int_spec z)). Qed.

Lemma int_of_Fault z : INT_MAX < z → int_of z = Fault SignedOverflow.
Proof.
  intros ?. unfold int_of, in_int. rewrite (proj2 (Z.leb_gt z INT_MAX)) by done.
  by rewrite andb_false_r.
Qed.

Lemma to_uint_small z : 0 ≤ z < 4294967296 → to_uint z = z.
Proof. apply Z.mod_small. Qed.

Lemma to_int_small z : 0 ≤ z ≤ INT_MAX → to_int z = z.
Proof.
  intros Hz. unfold to_int. rewrite to_uint_small by (unfold INT_MAX in *; lia). cbn zeta.
  by rewrite (proj2 (Z.leb_le _ _)) by lia.
Qed.

(** ** Loops

    [for_find n i body] is
    [for (k = i; k < i + n; k++) { if body(k) returns, return }] over an [int k]: the
    body returns [Some r] to leave the loop with [r], and [k++] is checked. *)
Fixpoint for_find {R} (n : nat) (i : Z) (body : Z → res (option R)) : res (option R) :=
  match n with
  | O => Ok None
  | S n' => o ← body i;
            match o with
            | Some r => Ok (Some r)
            | None => i' ← int_of (i + 1); for_find n' i' body
            end
  end.

(** A loop in two parts. *)
Lemma for_find_app {R} n m i (body : Z → res (option R)) :
  for_find (n + m) i body =
  (o ← for_find n i body;
   match o with Some r => Ok (Some r) | None => for_find m (i + Z.of_nat n) body end).
Proof.
  revert i. induction n as [|n IH]; intros i; cbn [for_find Nat.add].
  { by rewrite Z.add_0_r. }
  destruct (body i) as [[r|]|f]; [done| |done]. cbn.
  unfold int_of. destruct (in_int (i + 1)); [|done]. cbn. rewrite IH.
  by replace (i + 1 + Z.of_nat n) with (i + Z.of_nat (S n)) by lia.
Qed.

(** A loop whose body is a pure test, within the range of an [int]. *)
Lemma for_find_pure {R} n i (body : Z → res (option R)) (f : Z → option R) :
  INT_MIN ≤ i → i + Z.of_nat n ≤ INT_MAX →
  (∀ k, i ≤ k < i + Z.of_nat n → body k = Ok (f k)) →
  (∃ k r, i ≤ k < i + Z.of_nat n ∧ f k = Some r ∧ (∀ j, i ≤ j < k → f j = None) ∧
          for_find n i body = Ok (Some r)) ∨
  ((∀ j, i ≤ j < i + Z.of_nat n → f j = None) ∧ for_find n i body = Ok None).
Proof.
  revert i. induction n as [|n IH]; intros i Hlo Hhi Hb; cbn [for_find].
  { right. split; [lia|done]. }
  rewrite Hb by lia. cbn. destruct (f i) as [r|] eqn:Hf.
  - left. exists i, r. split_and!; [lia|lia|done|lia|done].
  - rewrite int_of_Ok by lia. cbn.
    destruct (IH (i + 1)) as [(k & r & Hk & Hr & Hlt & Heq)|[Hall Heq]];
      [lia|lia|intros k Hk; apply Hb; lia| |].
    + left. exists k, r. split_and!; [lia|lia|done| |done].
      intros j Hj. destruct (decide (j = i)) as [->|]; [done|]. apply Hlt. lia.
    + right. split; [|done].
      intros j Hj. destruct (decide (j = i)) as [->|]; [done|]. apply Hall. lia.
Qed.

(** ** Lists indexed by C integers *)
Definition znth {A} (l : list A) (i : Z) : option A :=
  if decide (0 ≤ i) then l !! Z.to_nat i else None.
Definition zupd {A} (l : list A) (i : Z) (x : A) : option (list A) :=
  if decide (0 ≤ i < Z.of_nat (length l)) then Some (<[Z.to_nat i := x]> l) else None.

Lemma znth_is_Some {A} (l : list A) i :
  is_Some (znth l i) ↔ 0 ≤ i < Z.of_nat (length l).
Proof.
  unfold znth. case_decide.
  - rewrite lookup_lt_is_Some. lia.
  - split; [by intros [? ?]|lia].
Qed.

Lemma znth_of_nat {A} (l : list A) (k : nat) : znth l (Z.of_nat k) = l !! k.
Proof. unfold znth. rewrite decide_True by lia. by rewrite Nat2Z.id. Qed.

Lemma zupd_in {A} (l : list A) i x :
  0 ≤ i < Z.of_nat (length l) → zupd l i x = Some (<[Z.to_nat i := x]> l).
Proof. intros. unfold zupd. by rewrite decide_True. Qed.

Lemma znth_insert {A} (l : list A) i j x :
  0 ≤ i < Z.of_nat (length l) →
  znth (<[Z.to_nat i := x]> l) j = if decide (j = i) then Some x else znth l j.
Proof.
  intros Hi. unfold znth. repeat case_decide; subst; try done; try lia.
  - apply list_lookup_insert_eq. lia.
  - apply list_lookup_insert_ne. lia.
Qed.

(** ** Automation shared by the components *)
Create HintDb uthread.
Create Rewrite HintDb uthread.
#[export] Hint Rewrite @zupd_in using lia : uthread.
#[export] Hint Resolve to_uint_small int_of_Ok : uthread.

(** Split every hypothesis that is a conjunction or an existential. *)
Ltac split_hyps :=
  repeat match goal with
  | H : _ ∧ _ |- _ => destruct H
  | H : ∃ _, _ |- _ => destruct H
  end.
