(* ===== verification/Bitvec.v ===== *)
(** * bitvec.c: the bit vector that records which thread identifiers are in use

    The structure keeps its three fields; [vec] is [None] for a NULL pointer.
    Bytes are integers in [0, 256), updated through the C conversions.  An index is
    the [int] parameter of the source: the argument is converted at the call, and the
    scan's [int] variables [i], [j] and [start] overflow where C's do. *)
From S2P Require Import Prelude.

Record bitvec_t : Type := Bitvec {
  nbits : Z;
  nbytes : Z;
  vec : option (list Z);
}.

(** [calloc] either returns a zeroed block or NULL ([calloc_ok]). *)
Definition bitvec_init (calloc_ok : bool) (n : Z) : res (Z * bitvec_t) :=
  _ ← assert_ (0 <? n);
  let nby := to_size_t (7 + n) / 8 in
  if calloc_ok
  then Ok (0, Bitvec n nby (Some (replicate (Z.to_nat nby) 0)))
  else Ok (-1, Bitvec n nby None).

(** [free(bv->vec)]: the block is gone, no later access can succeed. *)
Definition bitvec_destroy (bv : bitvec_t) : bitvec_t := Bitvec (nbits bv) (nbytes bv) None.

(** [bv->vec[k]], read and written *)
Definition load_byte (bv : bitvec_t) (k : Z) : res Z :=
  v ← of_opt NullDeref (vec bv);
  of_opt OutOfBounds (znth v k).

Definition store_byte (bv : bitvec_t) (k : Z) (b : Z) : res bitvec_t :=
  v ← of_opt NullDeref (vec bv);
  v' ← of_opt OutOfBounds (zupd v k (to_uchar b));
  Ok (Bitvec (nbits bv) (nbytes bv) (Some v')).

(** [1 << s] for an [int] shift count *)
Definition shl1 (s : Z) : res Z :=
  if decide (0 ≤ s < 31) then Ok (Z.shiftl 1 s) else Fault ShiftUB.

(** The parameter [int i] takes the value [to_int] of the argument; C's [/] and [%]
    truncate towards zero. *)
Definition bitvec_get (bv : bitvec_t) (arg : Z) : res Z :=
  let i := to_int arg in
  b ← load_byte bv (Z.quot i 8);
  m ← shl1 (Z.rem i 8);
  Ok (Z.shiftr (Z.land b m) (Z.rem i 8)).

Definition bitvec_set (bv : bitvec_t) (arg : Z) : res bitvec_t :=
  let i := to_int arg in
  b ← load_byte bv (Z.quot i 8);
  m ← shl1 (Z.rem i 8);
  store_byte bv (Z.quot i 8) (Z.lor b m).

Definition bitvec_clear (bv : bitvec_t) (arg : Z) : res bitvec_t :=
  let i := to_int arg in
  b ← load_byte bv (Z.quot i 8);
  m ← shl1 (Z.rem i 8);
  store_byte bv (Z.quot i 8) (Z.land b (Z.lnot m)).

(** The body of the scan's outer loop: the guard [if (~bv->vec[i])] on the promoted
    byte, then the inner loop over the eight bits of the byte.  [start + 8] is the
    bound the inner loop's test computes, before the first bit already. *)
Definition scan_byte (bv : bitvec_t) (i : Z) : res (option Z) :=
  b ← load_byte bv i;
  if decide (Z.lnot b = 0) then Ok None
  else
    start ← int_of (i * 8);
    _ ← int_of (start + 8);
    for_find 8 start (λ j,
      g ← bitvec_get bv j;
      Ok (if decide (g = 0) then Some j else None)).

(** [i < bv->nbytes] compares as [size_t]: [i] is not negative. *)
Definition bitvec_first_cleared_index (bv : bitvec_t) : res Z :=
  o ← for_find (Z.to_nat (nbytes bv)) 0 (scan_byte bv);
  Ok (default (-1) o).

(** ** Specification: a vector of booleans *)

(** The bit the code calls number [i]. *)
Definition bit_at (bv : bitvec_t) (i : Z) : bool :=
  match vec bv with
  | Some v => Z.testbit (default 0 (znth v (i / 8))) (i mod 8)
  | None => false
  end.

(** The number of bits the vector really stores. *)
Definition capacity (bv : bitvec_t) : Z := 8 * nbytes bv.

Record bitvec_wf (bv : bitvec_t) : Prop := {
  wf_nbits : 0 < nbits bv;
  wf_nbytes : nbytes bv = (7 + nbits bv) / 8;
  wf_vec : ∃ v, vec bv = Some v ∧ Z.of_nat (length v) = nbytes bv ∧
                Forall (λ b, 0 ≤ b < 256) v;
}.

(** ** Bit arithmetic *)

Lemma div8_at k t : 0 ≤ t < 8 → (k * 8 + t) / 8 = k.
Proof. intros. rewrite Z.div_add_l, (Z.div_small t) by lia. lia. Qed.

Lemma mod8_at k t : 0 ≤ t < 8 → (k * 8 + t) mod 8 = t.
Proof. intros. rewrite Z.add_comm, Z.mod_add by lia. by apply Z.mod_small. Qed.

Lemma testbit_above_byte b t : 0 ≤ b < 256 → 8 ≤ t → Z.testbit b t = false.
Proof.
  intros Hb Ht. destruct (decide (b = 0)) as [->|]; [apply Z.testbit_0_l|].
  apply Z.bits_above_log2; [lia|]. pose proof (Z.log2_lt_pow2 b 8). cbn in *. lia.
Qed.

Lemma land_pow2_shiftr b s : 0 ≤ s → Z.shiftr (Z.land b (Z.shiftl 1 s)) s = Z.b2z (Z.testbit b s).
Proof.
  intros Hs. apply Z.bits_inj'. intros n Hn.
  rewrite Z.shiftr_spec, Z.land_spec, Z.shiftl_spec by lia.
  replace (n + s - s) with n by lia.
  destruct (decide (n = 0)) as [->|Hne].
  - rewrite Z.add_0_l, Z.b2z_bit0. by rewrite andb_true_r.
  - rewrite (Z.bits_above_log2 1 n) by (cbn; lia).
    rewrite andb_false_r. symmetry. destruct (Z.testbit b s); cbn.
    + apply Z.bits_above_log2; cbn; lia.
    + apply Z.testbit_0_l.
Qed.

Lemma uchar_range z : 0 ≤ to_uchar z < 256.
Proof. apply Z.mod_pos_bound. lia. Qed.

Lemma uchar_testbit z s : 0 ≤ s < 8 → Z.testbit (to_uchar z) s = Z.testbit z s.
Proof. intros. unfold to_uchar. change 256 with (2 ^ 8). by rewrite Z.mod_pow2_bits_low by lia. Qed.

Lemma testbit_shl1 s t : 0 ≤ s → 0 ≤ t → Z.testbit (Z.shiftl 1 s) t = bool_decide (s = t).
Proof.
  intros. rewrite Z.shiftl_1_l, Z.pow2_bits_eqb by lia.
  destruct (Z.eqb_spec s t); by case_bool_decide.
Qed.

(** ** Facts about well-formed vectors *)
Section wf.
Context (bv : bitvec_t) (Hwf : bitvec_wf bv).

Lemma wf_range i : 0 ≤ i < capacity bv → 0 ≤ i / 8 < nbytes bv.
Proof. unfold capacity. intros. pose proof (Z.div_mod i 8). pose proof (Z.mod_pos_bound i 8). lia. Qed.

Lemma quot_rem_pos i : 0 ≤ i → Z.quot i 8 = i / 8 ∧ Z.rem i 8 = i mod 8.
Proof. intros. split; [apply Z.quot_div_nonneg|apply Z.rem_mod_nonneg]; lia. Qed.

Lemma wf_nbytes_nonneg : 0 < nbytes bv.
Proof. destruct Hwf as [H1 -> _]. apply Z.div_str_pos. lia. Qed.

Lemma capacity_nbits : nbits bv ≤ capacity bv < nbits bv + 8.
Proof.
  unfold capacity. destruct Hwf as [? -> _].
  pose proof (Z.div_mod (7 + nbits bv) 8). pose proof (Z.mod_pos_bound (7 + nbits bv) 8). lia.
Qed.

Lemma load_byte_ok k : 0 ≤ k < nbytes bv →
  ∃ v b, vec bv = Some v ∧ znth v k = Some b ∧ load_byte bv k = Ok b ∧ 0 ≤ b < 256.
Proof.
  intros Hk. destruct Hwf as [_ _ (v & Hv & Hlen & Hall)].
  destruct (proj2 (znth_is_Some v k)) as [b Hb]; [lia|].
  exists v, b. split; [done|]. split; [done|]. split.
  - unfold load_byte. rewrite Hv. cbn. by rewrite Hb.
  - apply (Forall_lookup_1 _ _ (Z.to_nat k) _ Hall).
    unfold znth in Hb. by rewrite decide_True in Hb by lia.
Qed.

Lemma shl1_mod i : shl1 (i mod 8) = Ok (Z.shiftl 1 (i mod 8)).
Proof. unfold shl1. pose proof (Z.mod_pos_bound i 8). by rewrite decide_True by lia. Qed.

Lemma bit_at_byte i b v :
  vec bv = Some v → znth v (i / 8) = Some b → bit_at bv i = Z.testbit b (i mod 8).
Proof. intros Hv Hb. unfold bit_at. by rewrite Hv, Hb. Qed.

Lemma store_byte_ok k b : 0 ≤ k < nbytes bv →
  ∃ v, vec bv = Some v ∧
    store_byte bv k b =
      Ok (Bitvec (nbits bv) (nbytes bv) (Some (<[Z.to_nat k := to_uchar b]> v))).
Proof.
  intros Hk. destruct Hwf as [_ _ (v & Hv & Hlen & Hall)].
  exists v. split; [done|]. unfold store_byte. rewrite Hv. cbn.
  autorewrite with uthread. done.
Qed.

(** A store keeps the vector well formed and changes only the bits of its byte. *)
Lemma store_byte_wf k b bv' :
  0 ≤ k < nbytes bv → store_byte bv k b = Ok bv' →
  bitvec_wf bv' ∧ nbits bv' = nbits bv ∧ nbytes bv' = nbytes bv ∧
  ∀ j, 0 ≤ j → bit_at bv' j = if decide (j / 8 = k) then Z.testbit b (j mod 8) else bit_at bv j.
Proof.
  intros Hk Hst. destruct (store_byte_ok k b Hk) as (v & Hv & Heq).
  rewrite Heq in Hst. injection Hst as <-.
  destruct Hwf as [Hn Hb (v' & Hv' & Hlen & Hall)]. simplify_eq.
  split_and!; [|done|done|].
  - split; cbn; [done|done|]. eexists. split_and!; [done|by rewrite length_insert|].
    apply Forall_insert; [done|]. apply uchar_range.
  - intros j Hj. unfold bit_at. cbn. rewrite Hv.
    rewrite znth_insert by lia. case_decide; [|done]. cbn.
    apply uchar_testbit. apply Z.mod_pos_bound. lia.
Qed.
End wf.

(** [bitvec_get] returns the bit. *)
Lemma bitvec_get_spec bv i : bitvec_wf bv → 0 ≤ i < capacity bv → i ≤ INT_MAX →
  bitvec_get bv i = Ok (Z.b2z (bit_at bv i)).
Proof.
  intros Hwf Hi Hint. unfold bitvec_get. rewrite to_int_small by lia. cbn zeta.
  destruct (quot_rem_pos i) as [-> ->]; [lia|].
  destruct (load_byte_ok bv Hwf (i / 8)) as (v & b & Hv & Hb & -> & _); [by apply wf_range|].
  cbn. rewrite shl1_mod. cbn.
  rewrite land_pow2_shiftr by (apply Z.mod_pos_bound; lia).
  by rewrite (bit_at_byte bv i b v).
Qed.

(** A read-modify-write of the byte holding bit [i]. *)
Lemma bitvec_update_spec bv i (f : Z → Z → Z) :
  bitvec_wf bv → 0 ≤ i < capacity bv →
  ∃ b bv', znth (default [] (vec bv)) (i / 8) = Some b ∧
    (b' ← load_byte bv (Z.quot i 8); m ← shl1 (Z.rem i 8);
     store_byte bv (Z.quot i 8) (f b' m)) = Ok bv' ∧
    bitvec_wf bv' ∧ nbits bv' = nbits bv ∧ nbytes bv' = nbytes bv ∧
    ∀ j, 0 ≤ j → bit_at bv' j =
      if decide (j / 8 = i / 8) then Z.testbit (f b (Z.shiftl 1 (i mod 8))) (j mod 8)
      else bit_at bv j.
Proof.
  intros Hwf Hi. destruct (quot_rem_pos i) as [-> ->]; [lia|].
  destruct (load_byte_ok bv Hwf (i / 8)) as (v & b & Hv & Hb & -> & _); [by apply wf_range|].
  cbn. rewrite shl1_mod. cbn.
  destruct (store_byte_ok bv Hwf (i / 8) (f b (Z.shiftl 1 (i mod 8)))) as (w & Hw & Heq);
    [by apply wf_range|].
  eexists b, _. split; [by rewrite Hv|]. split; [exact Heq|].
  eapply store_byte_wf; [done| |exact Heq]. by apply wf_range.
Qed.

Lemma same_bit i j : 0 ≤ i → 0 ≤ j → i / 8 = j / 8 → (i mod 8 = j mod 8 ↔ i = j).
Proof. intros. pose proof (Z.div_mod i 8). pose proof (Z.div_mod j 8). lia. Qed.

(** Membership as a set: what [bitvec_set] and [bitvec_clear] do to every bit. *)
Lemma bitvec_set_bits bv i : bitvec_wf bv → 0 ≤ i < capacity bv → i ≤ INT_MAX →
  ∃ bv', bitvec_set bv i = Ok bv' ∧ bitvec_wf bv' ∧ nbits bv' = nbits bv ∧
    nbytes bv' = nbytes bv ∧
    ∀ j, 0 ≤ j → bit_at bv' j = if decide (j = i) then true else bit_at bv j.
Proof.
  intros Hwf Hi Hint. unfold bitvec_set. rewrite to_int_small by lia. cbn zeta.
  destruct (bitvec_update_spec bv i Z.lor Hwf Hi)
    as (b & bv' & Hb & Heq & Hwf' & Hn & Hn' & Hbits).
  exists bv'. split_and!; [done..|]. intros j Hj. rewrite Hbits by done.
  pose proof (Z.mod_pos_bound j 8). pose proof (Z.mod_pos_bound i 8).
  pose proof (same_bit j i). repeat case_decide; subst; try done.
  - rewrite Z.lor_spec, testbit_shl1 by lia. rewrite bool_decide_true by done. apply orb_true_r.
  - rewrite Z.lor_spec, testbit_shl1 by lia. rewrite bool_decide_false by lia.
    rewrite orb_false_r. destruct (wf_vec _ Hwf) as (v & Hv & _).
    rewrite Hv in Hb. cbn in Hb. symmetry. apply (bit_at_byte bv j b v); congruence.
Qed.

Lemma bitvec_clear_bits bv i : bitvec_wf bv → 0 ≤ i < capacity bv → i ≤ INT_MAX →
  ∃ bv', bitvec_clear bv i = Ok bv' ∧ bitvec_wf bv' ∧ nbits bv' = nbits bv ∧
    nbytes bv' = nbytes bv ∧
    ∀ j, 0 ≤ j → bit_at bv' j = if decide (j = i) then false else bit_at bv j.
Proof.
  intros Hwf Hi Hint. unfold bitvec_clear. rewrite to_int_small by lia. cbn zeta.
 
  destruct (bitvec_update_spec bv i (λ b m, Z.land b (Z.lnot m)) Hwf Hi)
    as (b & bv' & Hb & Heq & Hwf' & Hn & Hn' & Hbits).
  exists bv'. split_and!; [done..|]. intros j Hj. rewrite Hbits by done.
  pose proof (Z.mod_pos_bound j 8). pose proof (Z.mod_pos_bound i 8).
  pose proof (same_bit j i). repeat case_decide; subst; try done.
  - rewrite Z.land_spec, Z.lnot_spec, testbit_shl1 by lia.
    rewrite bool_decide_true by done. apply andb_false_r.
  - rewrite Z.land_spec, Z.lnot_spec, testbit_shl1 by lia. rewrite bool_decide_false by lia.
    rewrite andb_true_r. destruct (wf_vec _ Hwf) as (v & Hv & _).
    rewrite Hv in Hb. cbn in Hb. symmetry. apply (bit_at_byte bv j b v); congruence.
Qed.

(** The guard [if (~bv->vec[i])]: the byte is promoted to [int] before [~], so
    the complement of a byte is never zero and no byte is ever skipped. *)
Lemma lnot_byte_nonzero b : 0 ≤ b → Z.lnot b ≠ 0.
Proof. unfold Z.lnot. lia. Qed.

(** Well-formed vectors of the same size and with the same bits are equal. *)
Lemma bitvec_ext bv1 bv2 :
  bitvec_wf bv1 → bitvec_wf bv2 → nbits bv1 = nbits bv2 →
  (∀ i, 0 ≤ i < capacity bv1 → bit_at bv1 i = bit_at bv2 i) → bv1 = bv2.
Proof.
  destruct bv1 as [n1 y1 w1], bv2 as [n2 y2 w2].
  intros [_ Hy1 (v1 & Hv1 & Hl1 & Ha1)] [_ Hy2 (v2 & Hv2 & Hl2 & Ha2)] Hn Hb.
  cbn in *. subst n2 w1 w2. assert (y1 = y2) as <- by congruence. do 2 f_equal.
  apply list_eq_same_length with (n := length v1); [lia|done|].
  intros k b1 b2 Hk Hb1 Hb2. apply Z.bits_inj'. intros t Ht.
  assert (0 ≤ b1 < 256) by apply (Forall_lookup_1 _ _ _ _ Ha1 Hb1).
  assert (0 ≤ b2 < 256) by apply (Forall_lookup_1 _ _ _ _ Ha2 Hb2).
  destruct (decide (t < 8)).
  - specialize (Hb (Z.of_nat k * 8 + t)). unfold capacity, bit_at in Hb. cbn in Hb.
    rewrite div8_at, mod8_at, !znth_of_nat, Hb1, Hb2 in Hb by lia.
    apply Hb. lia.
  - by rewrite !testbit_above_byte by lia.
Qed.

(** ** The scan *)

(** [r] is the first clear bit of the range [lo, hi). *)
Definition first_clear (bv : bitvec_t) (lo hi r : Z) : Prop :=
  lo ≤ r < hi ∧ bit_at bv r = false ∧ ∀ j, lo ≤ j < r → bit_at bv j = true.

Definition all_set (bv : bitvec_t) (lo hi : Z) : Prop :=
  ∀ j, lo ≤ j < hi → bit_at bv j = true.

Lemma all_set_app bv lo mid hi : all_set bv lo mid → all_set bv mid hi → all_set bv lo hi.
Proof. intros H1 H2 j Hj. destruct (decide (j < mid)); [apply H1|apply H2]; lia. Qed.

Lemma scan_byte_spec bv i : bitvec_wf bv → 0 ≤ i < nbytes bv → i * 8 + 8 ≤ INT_MAX →
  (∃ r, first_clear bv (i * 8) (i * 8 + 8) r ∧ scan_byte bv i = Ok (Some r)) ∨
  (all_set bv (i * 8) (i * 8 + 8) ∧ scan_byte bv i = Ok None).
Proof.
  intros Hwf Hi Hint. unfold scan_byte.
  destruct (load_byte_ok bv Hwf i Hi) as (v & b & _ & _ & -> & Hb).
  cbn [mbind res_bind]. rewrite decide_False by (apply lnot_byte_nonzero; lia).
  assert (INT_MIN ≤ 0) by done. rewrite int_of_Ok by lia. cbn [mbind res_bind].
  rewrite int_of_Ok by lia. cbn [mbind res_bind].
  destruct (for_find_pure 8 (i * 8) (λ j,
      g ← bitvec_get bv j; Ok (if decide (g = 0) then Some j else None))
      (λ j, if bit_at bv j then None else Some j)) as [(k & r & Hk & Hr & Hlt & ->)|[Hall ->]].
  - lia.
  - lia.
  - intros k Hk. rewrite bitvec_get_spec by (done || (unfold capacity in *; lia)).
    cbn. by destruct (bit_at bv k).
  - left. destruct (bit_at bv k) eqn:Hbit; [done|]. injection Hr as <-.
    exists k. split; [|done]. split_and!; [lia|lia|done|].
    intros j Hj. specialize (Hlt j Hj). by destruct (bit_at bv j).
  - right. split; [|done]. intros j Hj. specialize (Hall j).
    destruct (bit_at bv j); [done|]. ospecialize (Hall _); [lia|done].
Qed.

Lemma scan_loop_spec bv : bitvec_wf bv → capacity bv ≤ INT_MAX →
  ∀ n i, 0 ≤ i → i + Z.of_nat n = nbytes bv →
  (∃ r, first_clear bv (i * 8) (capacity bv) r ∧ for_find n i (scan_byte bv) = Ok (Some r)) ∨
  (all_set bv (i * 8) (capacity bv) ∧ for_find n i (scan_byte bv) = Ok None).
Proof.
  unfold capacity. intros Hwf Hint. induction n as [|n IH]; intros i Hi Hn; cbn [for_find].
  { right. split; [|done]. intros j Hj. lia. }
  destruct (scan_byte_spec bv i Hwf) as [(r & (Hr & Hbit & Hlt) & ->)|[Hall ->]]; [lia|lia| |].
  - left. exists r. unfold first_clear. split_and!; [lia|lia|done|done|done].
  - cbn. assert (INT_MIN ≤ 0) by done. rewrite int_of_Ok by lia. cbn.
    destruct (IH (i + 1)) as [(r & (Hr & Hbit & Hlt) & ->)|[Hall' ->]]; [lia|lia| |].
    + left. exists r. split; [|done]. split_and!; [lia|lia|done|].
      apply (all_set_app _ _ (i * 8 + 8)); [done|].
      by replace ((i + 1) * 8) with (i * 8 + 8) in Hlt by lia.
    + right. split; [|done]. apply (all_set_app _ _ (i * 8 + 8)); [done|].
      by replace ((i + 1) * 8) with (i * 8 + 8) in Hall' by lia.
Qed.

Lemma first_cleared_cases bv : bitvec_wf bv → capacity bv ≤ INT_MAX →
  (∃ r, first_clear bv 0 (capacity bv) r ∧ bitvec_first_cleared_index bv = Ok r) ∨
  (all_set bv 0 (capacity bv) ∧ bitvec_first_cleared_index bv = Ok (-1)).
Proof.
  intros Hwf Hint. unfold bitvec_first_cleared_index. pose proof (wf_nbytes_nonneg bv Hwf).
  destruct (scan_loop_spec bv Hwf Hint (Z.to_nat (nbytes bv)) 0) as [(r & ? & ->)|[? ->]];
    [lia|lia| |]; naive_solver.
Qed.

(** ** The vector as a finite set of identifiers

    [bv_rep bv S]: the vector is well formed, an [int] can index it, and its set bits
    are exactly the elements of [S] below its capacity. *)
Definition bv_rep (bv : bitvec_t) (S : gset Z) : Prop :=
  bitvec_wf bv ∧ capacity bv ≤ INT_MAX ∧
  ∀ i, 0 ≤ i < capacity bv → bit_at bv i = bool_decide (i ∈ S).

Lemma bv_rep_bit bv S i : bv_rep bv S → 0 ≤ i < capacity bv →
  bit_at bv i = true ↔ i ∈ S.
Proof. intros (_ & _ & H) Hi. rewrite H by done. apply bool_decide_eq_true. Qed.

Lemma init_byte_count n : 0 < n → 7 + n ≤ INT_MAX → to_size_t (7 + n) / 8 = (7 + n) / 8.
Proof. unfold INT_MAX. intros. unfold to_size_t. rewrite Z.mod_small; [done|]. lia. Qed.

Lemma bitvec_init_rep n : 0 < n → 7 + n ≤ INT_MAX →
  ∃ bv, bitvec_init true n = Ok (0, bv) ∧ nbits bv = n ∧ bv_rep bv ∅.
Proof.
  intros Hn Hint. unfold bitvec_init. rewrite (proj2 (Z.ltb_lt 0 n)) by lia. cbn [assert_].
  rewrite init_byte_count by done. eexists. split_and!; [done|done|].
  assert (0 ≤ (7 + n) / 8) by (apply Z.div_pos; lia).
  split; [|split].
  - split; cbn [nbits nbytes vec]; [lia|done|]. eexists. split_and!; [done| |].
    + rewrite length_replicate. lia.
    + apply Forall_replicate. lia.
  - unfold capacity. cbn [nbytes]. pose proof (Z.mul_div_le (7 + n) 8). lia.
  - intros i Hi. unfold bit_at, capacity in *. cbn [vec nbytes] in *.
    rewrite bool_decide_false by set_solver.
    unfold znth. case_decide as Hd; [|apply Z.testbit_0_l].
    destruct (_ !! _) as [b|] eqn:Hb; [|apply Z.testbit_0_l].
    apply lookup_replicate in Hb as [-> _]. apply Z.testbit_0_l.
Qed.

Lemma bitvec_set_rep bv S i : bv_rep bv S → 0 ≤ i < capacity bv →
  ∃ bv', bitvec_set bv i = Ok bv' ∧ nbits bv' = nbits bv ∧ nbytes bv' = nbytes bv ∧
    bv_rep bv' ({[i]} ∪ S).
Proof.
  intros (Hwf & Hint & HS) Hi.
  destruct (bitvec_set_bits bv i Hwf Hi ltac:(lia)) as (bv' & Heq & Hwf' & Hn & Hn' & Hb).
  exists bv'. split_and!; [done..|]. split; [done|]. unfold capacity in *. rewrite Hn'.
  split; [done|].
  intros j Hj. rewrite Hb by lia. rewrite HS by (unfold capacity; lia).
  case_decide; [subst; symmetry; apply bool_decide_eq_true; clear; set_solver|].
  apply bool_decide_ext. revert select (j ≠ i). clear. set_solver.
Qed.

Lemma bitvec_clear_rep bv S i : bv_rep bv S → 0 ≤ i < capacity bv →
  ∃ bv', bitvec_clear bv i = Ok bv' ∧ nbits bv' = nbits bv ∧ nbytes bv' = nbytes bv ∧
    bv_rep bv' (S ∖ {[i]}).
Proof.
  intros (Hwf & Hint & HS) Hi.
  destruct (bitvec_clear_bits bv i Hwf Hi ltac:(lia)) as (bv' & Heq & Hwf' & Hn & Hn' & Hb).
  exists bv'. split_and!; [done..|]. split; [done|]. unfold capacity in *. rewrite Hn'.
  split; [done|].
  intros j Hj. rewrite Hb by lia. rewrite HS by (unfold capacity; lia).
  case_decide; [subst; symmetry; apply bool_decide_eq_false; clear; set_solver|].
  apply bool_decide_ext. revert select (j ≠ i). clear. set_solver.
Qed.

Lemma first_cleared_rep bv S : bv_rep bv S →
  (∃ r, 0 ≤ r < capacity bv ∧ r ∉ S ∧ (∀ j, 0 ≤ j < r → j ∈ S) ∧
        bitvec_first_cleared_index bv = Ok r) ∨
  ((∀ j, 0 ≤ j < capacity bv → j ∈ S) ∧ bitvec_first_cleared_index bv = Ok (-1)).
Proof.
  intros Hrep. destruct (first_cleared_cases bv (proj1 Hrep) (proj1 (proj2 Hrep)))
    as [(r & (Hr & Hbit & Hlt) & Heq)|[Hall Heq]].
  - left. exists r. split_and!; [lia|lia| | |done].
    + intros Hin. apply (bv_rep_bit bv S r Hrep Hr) in Hin. congruence.
    + intros j Hj. apply (bv_rep_bit bv S j Hrep); [lia|]. by apply Hlt.
  - right. split; [|done]. intros j Hj.
    apply (bv_rep_bit bv S j Hrep Hj). by apply Hall.
Qed.
#[export] Hint Resolve bitvec_set_rep bitvec_clear_rep bitvec_init_rep first_cleared_rep : uthread.

(** ** Operation sequences: the vector refines the finite set *)

Inductive bv_op : Type :=
| OpGet (i : Z) | OpSet (i : Z) | OpClear (i : Z) | OpFirst.

Definition op_in_range (cap : Z) (o : bv_op) : Prop :=
  match o with OpGet i | OpSet i | OpClear i => 0 ≤ i < cap | OpFirst => True end.

(** One operation on the bit vector, with the value it returns (0 for the two
    [void] operations). *)
Definition bv_exec (bv : bitvec_t) (o : bv_op) : res (Z * bitvec_t) :=
  match o with
  | OpGet i => r ← bitvec_get bv i; Ok (r, bv)
  | OpSet i => bv' ← bitvec_set bv i; Ok (0, bv')
  | OpClear i => bv' ← bitvec_clear bv i; Ok (0, bv')
  | OpFirst => r ← bitvec_first_cleared_index bv; Ok (r, bv)
  end.

(** The specification: the least non-member below [cap]. *)
Fixpoint least_absent (n : nat) (i : Z) (S : gset Z) : Z :=
  match n with
  | O => -1
  | Datatypes.S n' => if decide (i ∈ S) then least_absent n' (i + 1) S else i
  end.

Definition set_exec (cap : Z) (S : gset Z) (o : bv_op) : Z * gset Z :=
  match o with
  | OpGet i => (Z.b2z (bool_decide (i ∈ S)), S)
  | OpSet i => (0, {[i]} ∪ S)
  | OpClear i => (0, S ∖ {[i]})
  | OpFirst => (least_absent (Z.to_nat cap) 0 S, S)
  end.

Fixpoint bv_run (bv : bitvec_t) (ops : list bv_op) : res (list Z) :=
  match ops with
  | [] => Ok []
  | o :: ops' => '(r, bv') ← bv_exec bv o; rs ← bv_run bv' ops'; Ok (r :: rs)
  end.

Fixpoint set_run (cap : Z) (S : gset Z) (ops : list bv_op) : list Z :=
  match ops with
  | [] => []
  | o :: ops' => let '(r, S') := set_exec cap S o in r :: set_run cap S' ops'
  end.

Lemma least_absent_found n i S r :
  i ≤ r < i + Z.of_nat n → r ∉ S → (∀ j, i ≤ j < r → j ∈ S) → least_absent n i S = r.
Proof.
  revert i. induction n as [|n IH]; intros i Hr Hout Hin; cbn; [lia|].
  destruct (decide (i = r)) as [->|]; [by rewrite decide_False|].
  rewrite decide_True by (apply Hin; lia). apply IH; [lia|done|].
  intros j Hj. apply Hin. lia.
Qed.

Lemma least_absent_none n i S :
  (∀ j, i ≤ j < i + Z.of_nat n → j ∈ S) → least_absent n i S = -1.
Proof.
  revert i. induction n as [|n IH]; intros i Hin; cbn; [done|].
  rewrite decide_True by (apply Hin; lia). apply IH. intros j Hj. apply Hin. lia.
Qed.

Lemma bv_exec_refines bv S o : bv_rep bv S → op_in_range (capacity bv) o →
  ∃ bv', bv_exec bv o = Ok ((set_exec (capacity bv) S o).1, bv') ∧
    capacity bv' = capacity bv ∧ bv_rep bv' (set_exec (capacity bv) S o).2.
Proof.
  intros Hrep Ho. destruct o as [i|i|i|]; cbn in *.
  - exists bv. split; [|done]. destruct Hrep as (Hwf & Hint & HS).
    rewrite bitvec_get_spec by (done || lia). cbn. by rewrite HS.
  - destruct (bitvec_set_rep bv S i Hrep Ho) as (bv' & -> & _ & Hn & ?).
    exists bv'. unfold capacity. by rewrite Hn.
  - destruct (bitvec_clear_rep bv S i Hrep Ho) as (bv' & -> & _ & Hn & ?).
    exists bv'. unfold capacity. by rewrite Hn.
  - exists bv. split; [|done].
    pose proof (wf_nbytes_nonneg bv (proj1 Hrep)).
    destruct (first_cleared_rep bv S Hrep) as [(r & ? & ? & ? & ->)|[Hall ->]]; cbn; do 2 f_equal.
    + symmetry. apply least_absent_found; [unfold capacity in *; lia|done|done].
    + symmetry. apply least_absent_none. unfold capacity in *. intros j ?. apply Hall. lia.
Qed.

Lemma bv_run_refines ops : ∀ bv S, bv_rep bv S → Forall (op_in_range (capacity bv)) ops →
  bv_run bv ops = Ok (set_run (capacity bv) S ops).
Proof.
  induction ops as [|o ops IH]; intros bv S Hrep Hops; cbn; [done|].
  apply Forall_cons_1 in Hops as [Ho Hops].
  destruct (bv_exec_refines bv S o Hrep Ho) as (bv' & -> & Hcap & Hrep').
  destruct (set_exec _ S o) as [r S']. cbn in *.
  rewrite <- Hcap in Hops. rewrite (IH bv' S' Hrep' Hops). by rewrite Hcap.
Qed.

(** ** Properties *)

(** C17. The bit vector refines a finite set of identifiers: after [bitvec_init] of at
    most [INT_MAX - 7] bits, every sequence of [bitvec_get], [bitvec_set],
    [bitvec_clear] and [bitvec_first_cleared_index] with indices the vector stores
    returns exactly what the set returns, with no fault: no index conversion and none of
    the scan's [int] computations overflows. *)
Theorem bitvec_refines_set (n : Z) (ops : list bv_op) :
  0 < n → n + 7 ≤ INT_MAX → Forall (op_in_range n) ops →
  ∃ bv, bitvec_init true n = Ok (0, bv) ∧
        bv_run bv ops = Ok (set_run (8 * ((7 + n) / 8)) ∅ ops).
Proof.
  intros Hn Hint Hops. destruct (bitvec_init_rep n Hn ltac:(lia)) as (bv & Heq & Hnb & Hrep).
  exists bv. split; [done|].
  pose proof (capacity_nbits bv (proj1 Hrep)) as Hcap.
  replace (8 * ((7 + n) / 8)) with (capacity bv)
    by (unfold capacity; rewrite (wf_nbytes _ (proj1 Hrep)); congruence).
  apply bv_run_refines; [done|]. eapply Forall_impl; [exact Hops|].
  intros [i|i|i|]; cbn; [lia|lia|lia|done].
Qed.

Example bitvec_refines_set_witness :
  ∃ bv, bitvec_init true 1024 = Ok (0, bv) ∧
    bv_run bv [OpSet 0; OpSet 1; OpFirst; OpClear 0; OpGet 1; OpFirst] = Ok [0; 0; 2; 0; 1; 0].
Proof.
  destruct (bitvec_refines_set 1024 [OpSet 0; OpSet 1; OpFirst; OpClear 0; OpGet 1; OpFirst])
    as (bv & H & H').
  - reflexivity.
  - discriminate.
  - repeat constructor; discriminate.
  - exists bv. split; [exact H|]. rewrite H'. vm_compute. reflexivity.
Defined.

(** [bitvec_first_cleared_index] returns the least clear bit of the bytes it
    stores, and -1 exactly when they are all set; on a vector an [int] can index it
    never faults and never skips a byte. *)
Theorem first_cleared_least (bv : bitvec_t) : bitvec_wf bv → capacity bv ≤ INT_MAX →
  ∃ r, bitvec_first_cleared_index bv = Ok r ∧
    (first_clear bv 0 (capacity bv) r ∨ (r = -1 ∧ all_set bv 0 (capacity bv))).
Proof.
  intros Hwf Hint. destruct (first_cleared_cases bv Hwf Hint) as [(r & ? & ?)|[? ?]]; [|exists (-1)]; eauto.
Qed.

(** Three bits of a one-byte vector are set. *)
Definition bv_sample : bitvec_t := Bitvec 8 1 (Some [7]).
Lemma bv_sample_wf : bitvec_wf bv_sample.
Proof. split; [reflexivity|reflexivity|]. exists [7]. split_and!; [reflexivity..|]. repeat constructor; lia. Qed.

Example first_cleared_least_witness :
  bitvec_first_cleared_index bv_sample = Ok 3 ∧ first_clear bv_sample 0 8 3.
Proof.
  destruct (first_cleared_least bv_sample bv_sample_wf ltac:(done)) as (r & Hr & Hs).
  assert (r = 3) as -> by (vm_compute in Hr; congruence).
  split; [exact Hr|]. destruct Hs as [Hs|[Hs _]]; [exact Hs|discriminate].
Defined.

(** Round trip: clearing a bit that was clear before it was set gives back
    the original vector, byte for byte. *)
Theorem set_clear_roundtrip (bv : bitvec_t) (i : Z) :
  bitvec_wf bv → 0 ≤ i < capacity bv → i ≤ INT_MAX → bit_at bv i = false →
  (bv' ← bitvec_set bv i; bitvec_clear bv' i) = Ok bv.
Proof.
  intros Hwf Hi Hint Hbit.
  destruct (bitvec_set_bits bv i Hwf Hi Hint) as (b1 & -> & Hwf1 & Hn1 & Hm1 & Hb1). cbn.
  destruct (bitvec_clear_bits b1 i Hwf1) as (b2 & -> & Hwf2 & Hn2 & Hm2 & Hb2);
    [unfold capacity in *; lia|done|].
  f_equal. apply bitvec_ext; [done|done|congruence|]. unfold capacity. intros j Hj.
  rewrite Hb2, Hb1 by lia. repeat case_decide; congruence.
Qed.

Example set_clear_roundtrip_witness :
  (bv' ← bitvec_set bv_sample 5; bitvec_clear bv' 5) = Ok bv_sample.
Proof.
  apply (set_clear_roundtrip bv_sample 5 bv_sample_wf); [split; discriminate || reflexivity|discriminate|reflexivity].
Defined.

(** C32. The scan runs over whole bytes, not over [nbits]: once all [nbits] bits
    are in use and the next padding bit is clear, [bitvec_first_cleared_index]
    returns [nbits] itself, an index outside the vector, where its comment
    promises -1.  The vector is one an [int] can index: its bytes hold at most [INT_MAX]
    bits.  (1024 is a multiple of 8, so uthread.c never meets it.) *)
Theorem first_cleared_overruns (bv : bitvec_t) :
  bitvec_wf bv → capacity bv ≤ INT_MAX → nbits bv < capacity bv →
  all_set bv 0 (nbits bv) → bit_at bv (nbits bv) = false →
  bitvec_first_cleared_index bv = Ok (nbits bv).
Proof.
  intros Hwf Hint Hcap Hall Hbit.
  destruct (first_cleared_cases bv Hwf Hint) as [(r & ([Hr0 Hr1] & Hrb & Hlt) & ->)|[Hfull _]].
  - f_equal. destruct (Z.lt_trichotomy r (nbits bv)) as [?|[?|?]]; [|done|].
    + rewrite Hall in Hrb by lia. done.
    + pose proof (wf_nbits _ Hwf). rewrite Hlt in Hbit by lia. done.
  - pose proof (wf_nbits _ Hwf). rewrite Hfull in Hbit by lia. done.
Qed.

Example first_cleared_overruns_witness :
  bitvec_first_cleared_index (Bitvec 3 1 (Some [7])) = Ok 3.
Proof.
  apply (first_cleared_overruns (Bitvec 3 1 (Some [7]))).
  - split; [reflexivity|reflexivity|]. exists [7]. split_and!; [reflexivity..|].
    repeat constructor; lia.
  - discriminate.
  - reflexivity.
  - intros j Hj. assert (j = 0 ∨ j = 1 ∨ j = 2) as [-> | [-> | ->]] by (cbn in Hj; lia); reflexivity.
  - reflexivity.
Defined.

(** The scan bit by bit, without looking at bytes first. *)
Definition test_bit (bv : bitvec_t) (j : Z) : res (option Z) :=
  g ← bitvec_get bv j; Ok (if decide (g = 0) then Some j else None).
Definition plain_scan (bv : bitvec_t) : res Z :=
  o ← for_find (8 * Z.to_nat (nbytes bv)) 0 (test_bit bv); Ok (default (-1) o).

(** The elements of the vector are bytes; nothing is said of its length. *)
Definition byte_vec (bv : bitvec_t) : Prop :=
  ∀ v, vec bv = Some v → Forall (λ b, 0 ≤ b < 256) v.

Lemma load_byte_nonneg bv i b : byte_vec bv → load_byte bv i = Ok b → 0 ≤ b.
Proof.
  intros Hb Hl. unfold load_byte in Hl. destruct (vec bv) as [v|] eqn:Hv; [|done].
  cbn in Hl. unfold znth in Hl. case_decide; [|done].
  destruct (v !! Z.to_nat i) eqn:Hvi; [|done]. injection Hl as ->.
  by apply (proj1 (Forall_lookup _ v) (Hb v Hv) _ _ Hvi).
Qed.

(** No byte is skipped, and a load that faults faults for its first bit. *)
Lemma scan_byte_plain bv i : byte_vec bv → 0 ≤ i → 8 * i + 8 ≤ INT_MAX →
  scan_byte bv i = for_find 8 (8 * i) (test_bit bv).
Proof.
  intros Hb Hi Hint. unfold scan_byte. replace (i * 8) with (8 * i) by lia.
  assert (INT_MIN ≤ 0) by done.
  destruct (load_byte bv i) as [b|f] eqn:Hl.
  - cbn [mbind res_bind]. rewrite decide_False.
    + rewrite int_of_Ok by lia. cbn [mbind res_bind]. by rewrite int_of_Ok by lia.
    + apply lnot_byte_nonzero. by eapply load_byte_nonneg.
  - assert (Ht : test_bit bv (8 * i) = Fault f).
    { unfold test_bit, bitvec_get. rewrite to_int_small by lia. cbn zeta.
      assert (Z.quot (8 * i) 8 = i) as -> by by rewrite Z.quot_div_nonneg, Z.mul_comm, Z.div_mul by lia.
      by rewrite Hl. }
    cbn [for_find]. by rewrite Ht.
Qed.

Lemma scan_bytes_plain bv n : byte_vec bv → ∀ i, 0 ≤ i → 8 * (i + Z.of_nat n) ≤ INT_MAX →
  for_find n i (scan_byte bv) = for_find (8 * n) (8 * i) (test_bit bv).
Proof.
  intros Hb. assert (INT_MIN ≤ 0) by done. induction n as [|n IH]; intros i Hi Hint; [done|].
  cbn [for_find]. rewrite scan_byte_plain by (done || lia).
  replace (8 * S n)%nat with (8 + 8 * n)%nat by lia. rewrite for_find_app.
  replace (8 * i + Z.of_nat 8) with (8 * (i + 1)) by lia.
  rewrite int_of_Ok by lia. cbn [mbind res_bind]. by rewrite IH by lia.
Qed.

(** C33. Equivalence: on a vector of bytes whose bits an [int] can number,
    [bitvec_first_cleared_index] computes what the scan bit by bit with an [int] counter
    computes, the faults of a NULL or too short [vec] included: its test for a clear bit
    in the byte never skips a byte that has one. *)
Theorem first_cleared_plain bv : byte_vec bv → 8 * nbytes bv ≤ INT_MAX →
  bitvec_first_cleared_index bv = plain_scan bv.
Proof.
  intros Hb Hint. unfold bitvec_first_cleared_index, plain_scan.
  assert (0 ≤ INT_MAX) by done. by rewrite scan_bytes_plain by (done || lia).
Qed.

Example first_cleared_plain_witness :
  bitvec_first_cleared_index (Bitvec 16 2 (Some [255; 3])) = plain_scan (Bitvec 16 2 (Some [255; 3])).
Proof.
  apply (first_cleared_plain (Bitvec 16 2 (Some [255; 3]))); [|discriminate]. intros v [= <-].
  repeat constructor; lia.
Defined.

(** A run of bytes whose bits are all set, within the range of an [int]. *)
Lemma scan_full_bytes bv n : bitvec_wf bv → ∀ i, 0 ≤ i → i + Z.of_nat n ≤ nbytes bv →
  (i + Z.of_nat n) * 8 ≤ INT_MAX → all_set bv (i * 8) ((i + Z.of_nat n) * 8) →
  for_find n i (scan_byte bv) = Ok None.
Proof.
  intros Hwf. induction n as [|n IH]; intros i Hi Hn Hint Hall; [done|].
  cbn [for_find].
  destruct (scan_byte_spec bv i Hwf) as [(r & (Hr & Hbit & _) & _)|[_ ->]]; [lia|lia| |].
  - by rewrite Hall in Hbit by lia.
  - assert (INT_MIN ≤ 0) by done. cbn [mbind res_bind]. rewrite int_of_Ok by lia.
    cbn [mbind res_bind]. apply IH; [lia..|]. intros j Hj. apply Hall. lia.
Qed.

(** The last byte an [int] scan can reach: its first bit has the number
    [INT_MAX - 7], and the bound of its inner loop is [INT_MAX + 1]. *)
Definition last_byte : Z := 268435455.

(** C40. The scan numbers bits with an [int] although the vector's size is a [size_t]:
    on any vector of more than [INT_MAX] bits whose bits below [INT_MAX - 7] are all in
    use, [bitvec_first_cleared_index] overflows a signed integer (the bound [start + 8]
    of its inner loop), whether or not a clear bit follows. *)
Theorem first_cleared_overflows (bv : bitvec_t) :
  bitvec_wf bv → INT_MAX < capacity bv → all_set bv 0 (INT_MAX - 7) →
  bitvec_first_cleared_index bv = Fault SignedOverflow.
Proof.
  unfold capacity, INT_MAX. intros Hwf Hcap Hall. unfold bitvec_first_cleared_index.
  replace (Z.to_nat (nbytes bv))
    with (Z.to_nat last_byte + S (Z.to_nat (nbytes bv - last_byte - 1)))%nat
    by (unfold last_byte; lia).
  rewrite for_find_app, (scan_full_bytes bv (Z.to_nat last_byte) Hwf 0).
  - rewrite Z2Nat.id by done. change (0 + last_byte) with last_byte.
    cbn [mbind res_bind for_find]. unfold scan_byte.
    destruct (load_byte_ok bv Hwf last_byte) as (v & b & _ & _ & -> & Hb);
      [unfold last_byte; lia|].
    cbn [mbind res_bind]. rewrite decide_False by (apply lnot_byte_nonzero; lia). done.
  - done.
  - unfold last_byte. lia.
  - unfold last_byte, INT_MAX. lia.
  - intros j Hj. apply Hall. unfold last_byte in Hj. lia.
Qed.

(** A vector of 2^31 bits, all set. *)
Definition huge_bytes (n : nat) : bitvec_t :=
  Bitvec (8 * Z.of_nat n) (Z.of_nat n) (Some (replicate n 255)).

Lemma huge_bytes_wf n : (0 < n)%nat → bitvec_wf (huge_bytes n).
Proof.
  intros Hn. split; cbn [huge_bytes nbits nbytes vec]; [lia| |].
  - rewrite Z.add_comm, (Z.mul_comm 8). by rewrite div8_at by lia.
  - eexists. split_and!; [done|by rewrite length_replicate|]. by apply Forall_replicate.
Qed.

Lemma huge_bytes_full n : all_set (huge_bytes n) 0 (8 * Z.of_nat n).
Proof.
  intros j Hj. unfold bit_at. cbn [huge_bytes vec].
  pose proof (Z.div_pos j 8). pose proof (Z.div_lt_upper_bound j 8 (Z.of_nat n)).
  assert (znth (replicate n 255) (j / 8) = Some 255) as ->.
  { unfold znth. rewrite decide_True by lia. apply lookup_replicate. lia. }
  cbn [default]. pose proof (Z.mod_pos_bound j 8). change 255 with (Z.ones 8).
  apply Z.ones_spec_low. lia.
Qed.

Lemma first_cleared_overflows_witness :
  bitvec_first_cleared_index (huge_bytes (Z.to_nat 268435456)) = Fault SignedOverflow.
Proof.
  apply (first_cleared_overflows (huge_bytes (Z.to_nat 268435456))).
  - apply huge_bytes_wf. lia.
  - unfold capacity, INT_MAX. cbn [huge_bytes nbytes]. lia.
  - intros j Hj. apply (huge_bytes_full (Z.to_nat 268435456)). unfold INT_MAX in Hj. lia.
Defined.
