(* ===== verification/Queue.v ===== *)
(** * queue.c: the linked-list queue, at the level of its pointers

    A [queue_t] embeds its sentinel node, so a [queuenode_t *] is NULL, the
    address of the sentinel of this queue ([PHead]), or the address of a node
    malloc returned ([PNode]).  The heap maps the live nodes to their two
    fields; free() removes the node, so that every access to a freed node, and
    every second free(), is a fault. *)
From S2P Require Import Prelude.

Inductive nptr : Type := PNull | PHead | PNode (l : positive).
#[export] Instance nptr_eq_dec : EqDecision nptr.
Proof. solve_decision. Defined.

(** An item is a [void *]: an address, 0 being NULL. *)
Record queuenode_t : Type := Node { n_item : Z; n_next : nptr }.
Record queue_t : Type := Queue { q_head : queuenode_t; q_tail : nptr; q_size : Z }.

Abbreviation heap := (gmap positive queuenode_t).

(** ** A monad: the queue the functions are called with, the heap, faults *)
Record qst : Type := Qst { this : queue_t; mem : heap }.
Definition QM (A : Type) : Type := qst → res (A * qst).
#[export] Instance QM_ret : MRet QM := λ A a s, Ok (a, s).
#[export] Instance QM_bind : MBind QM := λ A B f m s,
  match m s with Ok (a, s') => f a s' | Fault e => Fault e end.

Definition q_fault {A} (f : fault) : QM A := λ _, Fault f.
Definition q_gets {A} (f : qst → A) : QM A := λ s, Ok (f s, s).
Definition q_assert (b : bool) : QM unit := λ s, if b then Ok (tt, s) else Fault AssertFail.

(** [p->item] and [p->next] *)
Definition load_node (p : nptr) : QM queuenode_t := λ s,
  match p with
  | PNull => Fault NullDeref
  | PHead => Ok (q_head (this s), s)
  | PNode l => match mem s !! l with
               | Some n => Ok (n, s)
               | None => Fault UseAfterFree
               end
  end.

Definition set_next (n : queuenode_t) (v : nptr) : queuenode_t := Node (n_item n) v.

(** [p->next = v] *)
Definition store_next (p : nptr) (v : nptr) : QM unit := λ s,
  match p with
  | PNull => Fault NullDeref
  | PHead => Ok (tt, Qst (Queue (set_next (q_head (this s)) v) (q_tail (this s))
                                (q_size (this s))) (mem s))
  | PNode l => match mem s !! l with
               | Some n => Ok (tt, Qst (this s) (<[l := set_next n v]> (mem s)))
               | None => Fault UseAfterFree
               end
  end.

(** [this->tail = v], [this->size = z] ([int] arithmetic) *)
Definition store_tail (v : nptr) : QM unit := λ s,
  Ok (tt, Qst (Queue (q_head (this s)) v (q_size (this s))) (mem s)).
Definition store_size (z : Z) : QM unit := λ s,
  match int_of z with
  | Ok z => Ok (tt, Qst (Queue (q_head (this s)) (q_tail (this s)) z) (mem s))
  | Fault f => Fault f
  end.

(** [malloc(sizeof *node)] with the two fields then stored; [ok] tells whether
    malloc succeeds.  The address is one the heap does not use. *)
Definition malloc_node (ok : bool) (n : queuenode_t) : QM (option nptr) := λ s,
  if ok then
    let l := fresh (dom (mem s)) in
    Ok (Some (PNode l), Qst (this s) (<[l := n]> (mem s)))
  else Ok (None, s).

Definition free_node (p : nptr) : QM unit := λ s,
  match p with
  | PNull => Ok (tt, s)
  | PHead => Fault BadFree
  | PNode l => match mem s !! l with
               | Some _ => Ok (tt, Qst (this s) (delete l (mem s)))
               | None => Fault UseAfterFree
               end
  end.

Definition ENOMEM : Z := 12.

(** ** The functions of queue.c *)

Definition queue_init : QM Z := λ s,
  Ok (0, Qst (Queue (Node 0 PNull) PHead 0) (mem s)).

(** [while (n != NULL) { next = n->next; free(n); n = next; }] *)
Fixpoint free_nodes (fuel : nat) (n : nptr) : QM unit :=
  match fuel with
  | O => q_fault OutOfFuel
  | S fuel' =>
      if decide (n = PNull) then mret tt
      else
        nd ← load_node n;
        _ ← free_node n;
        free_nodes fuel' (n_next nd)
  end.

(** Each iteration frees a live node: their number is enough fuel. *)
Definition heap_fuel : QM nat := q_gets (λ s, S (base.size (mem s))).

Definition queue_destroy : QM unit :=
  h ← load_node PHead;
  fuel ← heap_fuel;
  free_nodes fuel (n_next h).

Definition queue_enqueue (ok : bool) (x : Z) : QM Z :=
  _ ← q_assert (negb (x =? 0));
  node ← malloc_node ok (Node x PNull);
  match node with
  | None => mret ENOMEM
  | Some node =>
      t ← q_gets (λ s, q_tail (this s));
      _ ← store_next t node;
      _ ← store_tail node;
      sz ← q_gets (λ s, q_size (this s));
      _ ← store_size (sz + 1);
      mret 0
  end.

Definition queue_insert_first (ok : bool) (x : Z) : QM Z :=
  _ ← q_assert (negb (x =? 0));
  h ← load_node PHead;
  node ← malloc_node ok (Node x (n_next h));
  match node with
  | None => mret ENOMEM
  | Some node =>
      _ ← (if decide (n_next h = PNull) then store_tail node else mret tt);
      _ ← store_next PHead node;
      sz ← q_gets (λ s, q_size (this s));
      _ ← store_size (sz + 1);
      mret 0
  end.

Definition queue_clear : QM unit :=
  h ← load_node PHead;
  fuel ← heap_fuel;
  _ ← free_nodes fuel (n_next h);
  _ ← store_tail PHead;
  store_size 0.

Definition queue_peek : QM Z :=
  h ← load_node PHead;
  if decide (n_next h = PNull) then mret 0
  else n ← load_node (n_next h); mret (n_item n).

Definition queue_dequeue : QM Z :=
  h ← load_node PHead;
  let n := n_next h in
  if decide (n = PNull) then mret 0
  else
    nd ← load_node n;
    _ ← store_next PHead (n_next nd);
    _ ← (if decide (n_next nd = PNull) then store_tail PHead else mret tt);
    sz ← q_gets (λ s, q_size (this s));
    _ ← store_size (sz - 1);
    _ ← free_node n;
    mret (n_item nd).

(** The loop of [queue_remove_item].  After a node that does not match, the body
    advances [n] itself ([n = n->next]) and the [for] header advances it again. *)
Fixpoint remove_loop (fuel : nat) (prev n : nptr) (x : Z) : QM Z :=
  match fuel with
  | O => q_fault OutOfFuel
  | S fuel' =>
      if decide (n = PNull) then mret (-1)
      else
        nd ← load_node n;
        if decide (n_item nd = x) then
          _ ← (if decide (n_next nd = PNull) then store_tail prev else mret tt);
          _ ← store_next prev (n_next nd);
          sz ← q_gets (λ s, q_size (this s));
          _ ← store_size (sz - 1);
          _ ← free_node n;
          mret 0
        else
          let n' := n_next nd in
          nd' ← load_node n';
          remove_loop fuel' n (n_next nd') x
  end.

Definition queue_remove_item (x : Z) : QM Z :=
  h ← load_node PHead;
  fuel ← heap_fuel;
  remove_loop fuel PHead (n_next h) x.

Definition queue_size : QM Z := q_gets (λ s, q_size (this s)).

(** ** The representation predicate

    [queue_rep s ns]: in state [s] the queue holds the nodes [ns], pairs of an
    address and an item, in order. *)
Definition ptr_at (ns : list (positive * Z)) (i : nat) : nptr :=
  match ns !! i with Some (l, _) => PNode l | None => PNull end.

Definition last_ptr (ns : list (positive * Z)) : nptr :=
  match length ns with O => PHead | S k => ptr_at ns k end.

Definition chain (h : heap) (ns : list (positive * Z)) : Prop :=
  ∀ i l x, ns !! i = Some (l, x) → h !! l = Some (Node x (ptr_at ns (S i))).

Record queue_rep (s : qst) (ns : list (positive * Z)) : Prop := {
  rep_head : n_next (q_head (this s)) = ptr_at ns 0;
  rep_chain : chain (mem s) ns;
  rep_nodup : NoDup ns.*1;
  rep_tail : q_tail (this s) = last_ptr ns;
  rep_size : q_size (this s) = Z.of_nat (length ns);
}.

(** [h'] differs from [h] at most on [L]. *)
Definition same_outside (L : list positive) (h h' : heap) : Prop :=
  ∀ l, l ∉ L → h' !! l = h !! l.

(** ** Chains of nodes *)

Lemma ptr_at_cons p ns i : ptr_at (p :: ns) (S i) = ptr_at ns i.
Proof. done. Qed.

Lemma ptr_at_app_l ns ms i : (i < length ns)%nat → ptr_at (ns ++ ms) i = ptr_at ns i.
Proof. intros. unfold ptr_at. by rewrite lookup_app_l. Qed.

Lemma ptr_at_end ns ms : ptr_at (ns ++ ms) (length ns) = ptr_at ms 0.
Proof. unfold ptr_at. by rewrite lookup_app_r, Nat.sub_diag by lia. Qed.

Lemma ptr_at_length ns i : (length ns ≤ i)%nat → ptr_at ns i = PNull.
Proof. intros. unfold ptr_at. by rewrite lookup_ge_None_2. Qed.

Lemma ptr_at_inv ns i : ptr_at ns i = PNull ↔ (length ns ≤ i)%nat.
Proof.
  unfold ptr_at. destruct (ns !! i) as [[l x]|] eqn:H.
  - apply lookup_lt_Some in H. split; [done|lia].
  - apply lookup_ge_None in H. done.
Qed.

Lemma last_ptr_snoc ns l x : last_ptr (ns ++ [(l, x)]) = PNode l.
Proof. unfold last_ptr. rewrite length_app, Nat.add_comm. cbn. by rewrite ptr_at_end. Qed.

Lemma last_ptr_cons l x l' x' ns : last_ptr ((l, x) :: (l', x') :: ns) = last_ptr ((l', x') :: ns).
Proof. done. Qed.

Lemma chain_cons h l x ns :
  chain h ((l, x) :: ns) ↔ h !! l = Some (Node x (ptr_at ns 0)) ∧ chain h ns.
Proof.
  split.
  - intros H. split; [by apply (H 0%nat)|]. intros i. apply (H (S i)).
  - intros [H1 H2] [|i] l' x'; cbn; [|apply H2]. by intros [= <- <-].
Qed.

Lemma chain_lookup h ns l : chain h ns → l ∈ ns.*1 → is_Some (h !! l).
Proof.
  intros H Hl. apply list_elem_of_fmap in Hl as ([l' x] & -> & Hin).
  apply list_elem_of_lookup in Hin as [i Hi]. cbn. by rewrite (H i l' x Hi).
Qed.

Lemma chain_fresh h ns l : chain h ns → h !! l = None → l ∉ ns.*1.
Proof. intros H Hn Hl. destruct (chain_lookup h ns l H Hl). congruence. Qed.

Lemma chain_frame h h' ns : chain h ns → (∀ l, l ∈ ns.*1 → h' !! l = h !! l) → chain h' ns.
Proof.
  intros H Hf i l x Hi. rewrite Hf; [by apply H|].
  apply list_elem_of_fmap. exists (l, x). split; [done|]. by eapply list_elem_of_lookup_2.
Qed.

Lemma chain_insert_other h ns l n : l ∉ ns.*1 → chain h ns → chain (<[l := n]> h) ns.
Proof. intros Hl H. apply (chain_frame h); [done|]. intros l' ?. apply lookup_insert_ne. by intros ->. Qed.

Lemma chain_delete_other h ns l : l ∉ ns.*1 → chain h ns → chain (delete l h) ns.
Proof. intros Hl H. apply (chain_frame h); [done|]. intros l' ?. apply lookup_delete_ne. by intros ->. Qed.

Lemma not_in_snoc (ns : list (positive * Z)) l0 x0 l :
  l ∉ (ns ++ [(l0, x0)]).*1 ↔ l ∉ ns.*1 ∧ l ≠ l0.
Proof. rewrite fmap_app, not_elem_of_app. cbn. rewrite list_elem_of_singleton. done. Qed.

Lemma not_in_cons (ns : list (positive * Z)) l0 x0 l :
  l ∉ ((l0, x0) :: ns).*1 ↔ l ≠ l0 ∧ l ∉ ns.*1.
Proof. cbn. apply not_elem_of_cons. Qed.

(** Linking a new node behind the last one. *)
Lemma chain_snoc h ns l0 x0 l x :
  chain h (ns ++ [(l0, x0)]) → NoDup (ns ++ [(l0, x0)]).*1 → l ∉ (ns ++ [(l0, x0)]).*1 →
  h !! l = Some (Node x PNull) →
  chain (<[l0 := Node x0 (PNode l)]> h) ((ns ++ [(l0, x0)]) ++ [(l, x)]).
Proof.
  induction ns as [|[l1 x1] ns IH]; cbn [app]; intros Hc Hnd Hl Hx.
  - apply chain_cons in Hc as [H0 _]. cbn in Hl.
    apply chain_cons. split; [by rewrite lookup_insert_eq|].
    apply chain_cons. apply not_elem_of_cons in Hl as [Hl _].
    rewrite lookup_insert_ne by done. split; [done|]. intros i ?? [=].
  - apply chain_cons in Hc as [H1 Hc]. apply not_in_cons in Hl as [_ Hl].
    cbn in Hnd. apply NoDup_cons in Hnd as [Hn Hnd]. apply not_in_snoc in Hn as [_ Hn].
    apply chain_cons. split; [|by apply IH].
    rewrite lookup_insert_ne, H1 by done. do 2 f_equal. by destruct ns.
Qed.

#[export] Hint Rewrite ptr_at_end last_ptr_snoc : uthread.

(** ** Stepping through the monad *)

Lemma malloc_node_ok n s : ∃ l, mem s !! l = None ∧
  malloc_node true n s = Ok (Some (PNode l), Qst (this s) (<[l := n]> (mem s))).
Proof.
  exists (fresh (dom (mem s))). split; [|done].
  apply not_elem_of_dom. apply is_fresh.
Qed.

Lemma q_bind_ok {A B} (m : QM A) (f : A → QM B) s a s' :
  m s = Ok (a, s') → (m ≫= f) s = f a s'.
Proof. intros H. unfold mbind, QM_bind. by rewrite H. Qed.

(** One bind: the first command's result is known, or computes. *)
Ltac q_step :=
  first [erewrite q_bind_ok by eassumption | erewrite q_bind_ok by reflexivity]; cbn beta iota.

Lemma load_PNode s l n : mem s !! l = Some n → load_node (PNode l) s = Ok (n, s).
Proof. intros H. cbn. by rewrite H. Qed.

Lemma free_PNode s l n : mem s !! l = Some n →
  free_node (PNode l) s = Ok (tt, Qst (this s) (delete l (mem s))).
Proof. intros H. cbn. by rewrite H. Qed.

Lemma store_size_ok z s : INT_MIN ≤ z ≤ INT_MAX →
  store_size z s = Ok (tt, Qst (Queue (q_head (this s)) (q_tail (this s)) z) (mem s)).
Proof. intros H. unfold store_size. by rewrite (int_of_Ok z H). Qed.

(** The bound under which [this->size] can be incremented. *)
Definition room (ns : list (positive * Z)) : Prop := Z.of_nat (length ns) < INT_MAX.

Lemma same_outside_insert L l n h : l ∈ L → same_outside L h (<[l := n]> h).
Proof. intros Hl l' Hl'. apply lookup_insert_ne. by intros ->. Qed.

Lemma same_outside_trans L1 L2 h1 h2 h3 :
  same_outside L1 h1 h2 → same_outside L2 h2 h3 → same_outside (L1 ++ L2) h1 h3.
Proof.
  intros H1 H2 l Hl. rewrite (H2 l), (H1 l); [done| |]; intros ?; apply Hl, elem_of_app; auto.
Qed.

Lemma queue_init_spec s :
  ∃ s', queue_init s = Ok (0, s') ∧ queue_rep s' [] ∧ mem s' = mem s.
Proof. eexists. split_and!; [done| |done]. split; cbn; [done| |constructor|done|done]. intros i l x [=]. Qed.

(** The store through [this->tail] that links a new node. *)
Lemma link_tail s ns l x :
  queue_rep s ns → mem s !! l = None →
  ∃ s', store_next (q_tail (this s)) (PNode l) (Qst (this s) (<[l := Node x PNull]> (mem s)))
          = Ok (tt, s') ∧
    n_next (q_head (this s')) = ptr_at (ns ++ [(l, x)]) 0 ∧ q_size (this s') = q_size (this s) ∧
    chain (mem s') (ns ++ [(l, x)]) ∧ NoDup (ns ++ [(l, x)]).*1 ∧
    same_outside (l :: ns.*1) (mem s) (mem s').
Proof.
  intros [Hh Hc Hnd Ht Hs] Hl. pose proof (chain_fresh _ _ _ Hc Hl) as Hfr.
  assert (NoDup (ns ++ [(l, x)]).*1) as Hnd'.
  { rewrite fmap_app. apply NoDup_app. split; [done|]. split; [|apply NoDup_singleton].
    intros l' ? ->%list_elem_of_singleton. done. }
  destruct ns as [|[l0 x0] ns _] using rev_ind.
  - rewrite Ht. cbn. eexists. split_and!; [done|done|done| |done|].
    + apply chain_cons. split; [apply lookup_insert_eq|]. intros i ?? [=].
    + apply same_outside_insert, list_elem_of_here.
  - apply not_in_snoc in Hfr as [Hfr Hne]. rewrite Ht, last_ptr_snoc. cbn.
    assert (Hl0 : mem s !! l0 = Some (Node x0 PNull)).
    { rewrite (Hc (length ns) l0 x0); [|by rewrite lookup_app_r, Nat.sub_diag by lia].
      by rewrite ptr_at_length by (rewrite length_app; cbn; lia). }
    rewrite lookup_insert_ne by done. rewrite Hl0.
    eexists. split_and!; [done| |done| |done|].
    + cbn. rewrite Hh. by destruct ns.
    + cbn. apply chain_snoc; [|done|by apply not_in_snoc|by apply lookup_insert_eq].
      apply chain_insert_other; [by apply not_in_snoc|done].
    + cbn. intros l' [Hl1 [_ Hl2]%not_in_snoc]%not_elem_of_cons.
      by rewrite !lookup_insert_ne by done.
Qed.

Lemma queue_enqueue_spec s ns x :
  queue_rep s ns → x ≠ 0 → room ns →
  ∃ l s', queue_enqueue true x s = Ok (0, s') ∧ mem s !! l = None ∧
    queue_rep s' (ns ++ [(l, x)]) ∧ same_outside (l :: ns.*1) (mem s) (mem s').
Proof.
  intros Hrep Hx Hroom. unfold queue_enqueue.
  destruct (malloc_node_ok (Node x PNull) s) as (l & Hl & Hm).
  destruct (link_tail s ns l x Hrep Hl) as (s1 & Hst & Hh & Hs & Hc & Hnd & Hout).
  assert (Hint : INT_MIN ≤ q_size (this s1) + 1 ≤ INT_MAX).
  { rewrite Hs, (rep_size _ _ Hrep). unfold room, INT_MIN, INT_MAX in *. lia. }
  exists l. eexists. split_and!; [|done| |].
  - rewrite (q_bind_ok _ _ s tt s) by (unfold q_assert; by rewrite (proj2 (Z.eqb_neq x 0))).
    do 5 q_step. erewrite q_bind_ok by (apply store_size_ok; exact Hint). done.
  - split; cbn; [done|done|done|by rewrite last_ptr_snoc|].
    rewrite Hs, (rep_size _ _ Hrep), length_app. cbn. lia.
  - done.
Qed.

Lemma queue_peek_spec s ns : queue_rep s ns →
  queue_peek s = Ok (default 0 (head ns.*2), s).
Proof.
  intros [Hh Hc _ _ _]. unfold queue_peek. q_step. rewrite Hh.
  destruct ns as [|[l x] ns]; [done|]. apply chain_cons in Hc as [Hl _].
  rewrite decide_False by done. by rewrite (q_bind_ok _ _ _ _ _ (load_PNode _ _ _ Hl)).
Qed.

Lemma queue_size_spec s ns : queue_rep s ns → queue_size s = Ok (Z.of_nat (length ns), s).
Proof. intros Hrep. unfold queue_size, q_gets. by rewrite (rep_size _ _ Hrep). Qed.

(** Removing the first node. *)
Lemma queue_dequeue_spec s ns : queue_rep s ns → room ns →
  match ns with
  | [] => queue_dequeue s = Ok (0, s)
  | (l, x) :: ns' => ∃ s', queue_dequeue s = Ok (x, s') ∧ queue_rep s' ns' ∧
                       mem s' = delete l (mem s)
  end.
Proof.
  intros [Hh Hc Hnd Ht Hs] Hroom. unfold queue_dequeue.
  q_step. rewrite Hh. destruct ns as [|[l x] ns]; [done|].
  change (ptr_at ((l, x) :: ns) 0) with (PNode l).
  apply chain_cons in Hc as [Hl Hc]. cbn in Hnd. apply NoDup_cons in Hnd as [Hn Hnd].
  rewrite decide_False by done.
  rewrite (q_bind_ok _ _ _ _ _ (load_PNode _ _ _ Hl)). q_step. cbn [n_next n_item].
  assert (Hb : INT_MIN ≤ q_size (this s) - 1 ≤ INT_MAX).
  { rewrite Hs. unfold room, INT_MIN, INT_MAX in *. cbn in *. lia. }
  case_decide as Hd; eexists; split_and!.
  1,4: repeat q_step; erewrite q_bind_ok by (apply store_size_ok; exact Hb);
      erewrite q_bind_ok by (eapply (free_PNode _ l); exact Hl); reflexivity.
  2,4: reflexivity.
  all: split; cbn; [done|by apply chain_delete_other|done| |rewrite Hs; cbn; lia].
  - apply ptr_at_inv in Hd. destruct ns; [done|cbn in Hd; lia].
  - rewrite Ht. by destruct ns as [|[? ?] ?].
Qed.

(** Inserting in front. *)
Lemma queue_insert_first_spec s ns x :
  queue_rep s ns → x ≠ 0 → room ns →
  ∃ l s', queue_insert_first true x s = Ok (0, s') ∧ mem s !! l = None ∧
    queue_rep s' ((l, x) :: ns) ∧ same_outside [l] (mem s) (mem s').
Proof.
  intros [Hh Hc Hnd Ht Hs] Hx Hroom. unfold queue_insert_first.
  rewrite (q_bind_ok _ _ s tt s) by (unfold q_assert; by rewrite (proj2 (Z.eqb_neq x 0))).
  q_step. rewrite Hh.
  destruct (malloc_node_ok (Node x (ptr_at ns 0)) s) as (l & Hl & Hm). q_step.
  assert (Hb : INT_MIN ≤ q_size (this s) + 1 ≤ INT_MAX).
  { rewrite Hs. unfold room, INT_MIN, INT_MAX in *. lia. }
  exists l. case_decide as Hd; eexists; split_and!; [|exact Hl| | | |exact Hl| |].
  1,4: repeat q_step; erewrite q_bind_ok by (apply store_size_ok; exact Hb); reflexivity.
  2,4: apply same_outside_insert, list_elem_of_here.
  all: pose proof (chain_fresh _ _ _ Hc Hl); split; cbn;
    [done| |by apply NoDup_cons| |rewrite Hs; lia].
  1,3: apply chain_cons; split; [apply lookup_insert_eq|by apply chain_insert_other].
  - apply ptr_at_inv in Hd. destruct ns; [done|cbn in Hd; lia].
  - rewrite Ht. by destruct ns as [|[? ?] ?].
Qed.

(** Freeing a whole chain: [destroyed h ls] is the heap without the nodes [ls]. *)
Fixpoint destroyed (h : heap) (ls : list positive) : heap :=
  match ls with [] => h | l :: ls' => delete l (destroyed h ls') end.

Lemma destroyed_lookup h ls l :
  destroyed h ls !! l = if decide (l ∈ ls) then None else h !! l.
Proof.
  induction ls as [|l' ls IH]; cbn; [by rewrite decide_False by apply not_elem_of_nil|].
  destruct (decide (l = l')) as [->|Hne].
  - rewrite lookup_delete_eq, decide_True; [done|apply list_elem_of_here].
  - rewrite lookup_delete_ne, IH by done. apply decide_ext. rewrite elem_of_cons. naive_solver.
Qed.

Lemma destroyed_delete h ls l : destroyed (delete l h) ls = destroyed h (l :: ls).
Proof.
  induction ls as [|l' ls IH]; cbn; [done|]. rewrite IH. cbn. apply delete_delete.
Qed.

Lemma free_nodes_chain ns : ∀ s fuel, chain (mem s) ns → NoDup ns.*1 →
  (length ns < fuel)%nat →
  free_nodes fuel (ptr_at ns 0) s = Ok (tt, Qst (this s) (destroyed (mem s) ns.*1)).
Proof.
  induction ns as [|[l x] ns IH]; intros s fuel Hc Hnd Hf; (destruct fuel as [|fuel]; [lia|]).
  - cbn. by destruct s.
  - apply chain_cons in Hc as [Hl Hc]. cbn in Hnd. apply NoDup_cons in Hnd as [Hn Hnd].
    cbn [free_nodes]. change (ptr_at ((l, x) :: ns) 0) with (PNode l).
    rewrite decide_False by done.
    rewrite (q_bind_ok _ _ _ _ _ (load_PNode _ _ _ Hl)).
    rewrite (q_bind_ok _ _ _ _ _ (free_PNode _ _ _ Hl)). cbn [n_next].
    rewrite IH; [|by apply chain_delete_other|done|cbn in Hf; lia].
    cbn [mem this]. by rewrite destroyed_delete.
Qed.

(** The live nodes are at least as many as the nodes of the chain. *)
Lemma chain_size h ns : chain h ns → NoDup ns.*1 → (length ns ≤ size h)%nat.
Proof.
  intros Hc Hnd. rewrite <- (length_fmap fst). rewrite <- size_dom.
  rewrite <- (size_list_to_set (C := gset positive)) by done.
  apply subseteq_size. intros l Hl. apply elem_of_list_to_set in Hl.
  apply elem_of_dom. by eapply chain_lookup.
Qed.

Lemma free_all s ns : queue_rep s ns →
  (fuel ← heap_fuel; free_nodes fuel (ptr_at ns 0)) s =
    Ok (tt, Qst (this s) (destroyed (mem s) ns.*1)).
Proof.
  intros [_ Hc Hnd _ _]. q_step. apply free_nodes_chain; [done|done|].
  pose proof (chain_size _ _ Hc Hnd). lia.
Qed.

Lemma queue_destroy_spec s ns : queue_rep s ns →
  queue_destroy s = Ok (tt, Qst (this s) (destroyed (mem s) ns.*1)).
Proof. intros Hrep. unfold queue_destroy. q_step. rewrite (rep_head _ _ Hrep). by apply free_all. Qed.

Lemma queue_clear_spec s ns : queue_rep s ns →
  queue_clear s =
    Ok (tt, Qst (Queue (q_head (this s)) PHead 0) (destroyed (mem s) ns.*1)).
Proof.
  intros Hrep. unfold queue_clear. q_step. rewrite (rep_head _ _ Hrep).
  pose proof (free_all s ns Hrep) as Hfree. revert Hfree.
  q_step. intros Hfree. q_step. rewrite (q_bind_ok _ _ _ _ _ Hfree). repeat q_step.
  by rewrite store_size_ok by (unfold INT_MIN, INT_MAX; lia).
Qed.

(** ** queue_remove_item: what the loop really visits

    The body of the loop advances [n] and the [for] header advances it again:
    only the nodes at even positions are compared with the item. *)
Definition prev_ptr (ns : list (positive * Z)) (k : nat) : nptr :=
  match k with O => PHead | S k' => ptr_at ns (2 * k') end.

(** No item at an even position below [2 * k] is [x]. *)
Definition skipped (ns : list (positive * Z)) (x : Z) (k : nat) : Prop :=
  ∀ t l y, (t < k)%nat → ns !! (2 * t)%nat = Some (l, y) → y ≠ x.

Lemma load_at s ns i : chain (mem s) ns → (i < length ns)%nat →
  ∃ l y, ns !! i = Some (l, y) ∧ ptr_at ns i = PNode l ∧
    load_node (ptr_at ns i) s = Ok (Node y (ptr_at ns (S i)), s).
Proof.
  intros Hc Hi. destruct (lookup_lt_is_Some_2 ns i Hi) as [[l y] Hl].
  assert (ptr_at ns i = PNode l) as Hp by (unfold ptr_at; by rewrite Hl).
  exists l, y. split_and!; [done|done|]. rewrite Hp. apply load_PNode. by apply Hc.
Qed.

(** One iteration over a node that does not match steps over the next node too. *)
Lemma remove_loop_step s ns x k fuel : chain (mem s) ns →
  (2 * k + 1 < length ns)%nat → (∀ l y, ns !! (2 * k)%nat = Some (l, y) → y ≠ x) →
  remove_loop (S fuel) (prev_ptr ns k) (ptr_at ns (2 * k)) x s =
  remove_loop fuel (prev_ptr ns (S k)) (ptr_at ns (2 * S k)) x s.
Proof.
  intros Hc Hlen Hne.
  destruct (load_at s ns (2 * k) Hc) as (l & y & Hl & Hp & Hld); [lia|].
  destruct (load_at s ns (S (2 * k)) Hc) as (l' & y' & Hl' & Hp' & Hld'); [lia|].
  cbn [remove_loop]. rewrite decide_False by congruence.
  rewrite (q_bind_ok _ _ _ _ _ Hld). cbn [n_item n_next].
  rewrite decide_False by eauto. cbn zeta.
  rewrite (q_bind_ok _ _ _ _ _ Hld'). cbn [n_next].
  by replace (2 * S k)%nat with (S (S (2 * k))) by lia.
Qed.

Lemma remove_loop_skip s ns x k fuel : chain (mem s) ns →
  (2 * k ≤ length ns)%nat → skipped ns x k →
  remove_loop (k + fuel) PHead (ptr_at ns 0) x s =
  remove_loop fuel (prev_ptr ns k) (ptr_at ns (2 * k)) x s.
Proof.
  intros Hc. revert fuel. induction k as [|k IH]; intros fuel Hlen Hsk; [done|].
  replace (S k + fuel)%nat with (k + S fuel)%nat by lia.
  rewrite IH; [|lia|intros t l y Ht; apply Hsk; lia].
  apply remove_loop_step; [done|lia|]. intros l y. apply Hsk. lia.
Qed.

(** The fuel the function computes is enough for the nodes it visits. *)
Lemma remove_item_unfold s ns x k : queue_rep s ns →
  (2 * k ≤ length ns)%nat → skipped ns x k →
  ∃ fuel, queue_remove_item x s =
    remove_loop (S fuel) (prev_ptr ns k) (ptr_at ns (2 * k)) x s.
Proof.
  intros Hrep Hk Hsk. pose proof (rep_chain _ _ Hrep) as Hc.
  pose proof (chain_size _ _ Hc (rep_nodup _ _ Hrep)).
  exists (size (mem s) - k)%nat. unfold queue_remove_item. do 2 q_step.
  rewrite (rep_head _ _ Hrep), <- (remove_loop_skip s ns x k) by done.
  f_equal. lia.
Qed.

Lemma remove_item_even_absent s ns x k : queue_rep s ns →
  length ns = (2 * k)%nat → skipped ns x k → queue_remove_item x s = Ok (-1, s).
Proof.
  intros Hrep Hlen Hsk.
  destruct (remove_item_unfold s ns x k Hrep) as [fuel ->]; [lia|done|].
  cbn [remove_loop]. by rewrite decide_True by (apply ptr_at_length; lia).
Qed.

Lemma remove_item_odd_absent s ns x k : queue_rep s ns →
  length ns = (2 * k + 1)%nat → skipped ns x (S k) → queue_remove_item x s = Fault NullDeref.
Proof.
  intros Hrep Hlen Hsk. pose proof (rep_chain _ _ Hrep) as Hc.
  destruct (remove_item_unfold s ns x k Hrep) as [fuel ->];
    [lia|intros t l y Ht; apply Hsk; lia|].
  destruct (load_at s ns (2 * k) Hc) as (l & y & Hl & Hp & Hld); [lia|].
  cbn [remove_loop]. rewrite decide_False by congruence.
  rewrite (q_bind_ok _ _ _ _ _ Hld). cbn [n_item n_next].
  rewrite decide_False by (apply (Hsk k l y); [lia|done]). cbn zeta.
  by rewrite (ptr_at_length ns (S (2 * k))) by lia.
Qed.

(** The unlink of a matching node [l], whose predecessor in the loop is [prev]. *)
Lemma remove_match s prev l x nx fuel :
  mem s !! l = Some (Node x nx) → INT_MIN ≤ q_size (this s) - 1 ≤ INT_MAX →
  remove_loop (S fuel) prev (PNode l) x s =
  (_ ← (if decide (nx = PNull) then store_tail prev else mret tt);
   _ ← store_next prev nx;
   sz ← q_gets (λ s, q_size (this s));
   _ ← store_size (sz - 1);
   _ ← free_node (PNode l);
   mret 0) s.
Proof.
  intros Hl Hb. cbn [remove_loop]. rewrite decide_False by done.
  rewrite (q_bind_ok _ _ _ _ _ (load_PNode _ _ _ Hl)). cbn [n_item n_next].
  by rewrite decide_True.
Qed.

Lemma remove_item_head s l x ns : queue_rep s ((l, x) :: ns) → room ((l, x) :: ns) →
  ∃ s', queue_remove_item x s = Ok (0, s') ∧ queue_rep s' ns ∧ mem s' = delete l (mem s).
Proof.
  intros Hrep Hroom.
  destruct (remove_item_unfold s _ x 0 Hrep) as [fuel ->]; [lia|intros t ??; lia|].
  destruct Hrep as [Hh Hc Hnd Ht Hs].
  apply chain_cons in Hc as [Hl Hc]. cbn in Hnd. apply NoDup_cons in Hnd as [Hn Hnd].
  assert (Hb : INT_MIN ≤ q_size (this s) - 1 ≤ INT_MAX).
  { rewrite Hs. unfold room, INT_MIN, INT_MAX in *. cbn in *. lia. }
  change (ptr_at ((l, x) :: ns) (2 * 0)) with (PNode l).
  rewrite (remove_match _ _ _ _ _ _ Hl Hb). cbn [prev_ptr].
  case_decide as Hd; eexists; split_and!.
  1,4: repeat q_step; erewrite q_bind_ok by (apply store_size_ok; exact Hb);
      erewrite q_bind_ok by (eapply (free_PNode _ l); exact Hl); reflexivity.
  2,4: reflexivity.
  all: split; cbn; [done|by apply chain_delete_other|done| |rewrite Hs; cbn; lia].
  - apply ptr_at_inv in Hd. destruct ns; [done|cbn in Hd; lia].
  - rewrite Ht. by destruct ns as [|[? ?] ?].
Qed.

(** Redirecting the link of an inner node cuts what followed it. *)
Lemma chain_cut h A lp xp B C : chain h (A ++ (lp, xp) :: B) → NoDup (A ++ (lp, xp) :: B).*1 →
  chain h C → lp ∉ C.*1 →
  chain (<[lp := Node xp (ptr_at C 0)]> h) (A ++ (lp, xp) :: C).
Proof.
  induction A as [|[l1 x1] A IH]; cbn [app]; intros Hc Hnd HC Hlp.
  - apply chain_cons. split; [apply lookup_insert_eq|by apply chain_insert_other].
  - apply chain_cons in Hc as [H1 Hc]. cbn in Hnd. apply NoDup_cons in Hnd as [Hn Hnd].
    apply chain_cons. split; [|by apply IH].
    rewrite fmap_app, not_elem_of_app in Hn. destruct Hn as [_ [Hn _]%not_in_cons].
    rewrite lookup_insert_ne, H1 by done. do 2 f_equal. by destruct A.
Qed.

Lemma chain_app_r h A B : chain h (A ++ B) → chain h B.
Proof.
  induction A as [|[l x] A IH]; [done|]. cbn [app]. intros [_ H]%chain_cons. by apply IH.
Qed.

Lemma ptr_at_middle A l x B k : length A = k → ptr_at (A ++ (l, x) :: B) k = PNode l.
Proof. intros <-. by rewrite ptr_at_end. Qed.

Lemma remove_item_middle s A lp xp lm xm l x B :
  let ns := A ++ (lp, xp) :: (lm, xm) :: (l, x) :: B in
  queue_rep s ns → room ns → Nat.Even (length A) → skipped ns x (S (length A / 2)) →
  ∃ s', queue_remove_item x s = Ok (0, s') ∧
    n_next (q_head (this s')) = ptr_at (A ++ (lp, xp) :: B) 0 ∧
    chain (mem s') (A ++ (lp, xp) :: B) ∧
    q_size (this s') = Z.of_nat (length (A ++ (lp, xp) :: B)) + 1 ∧
    mem s' = delete l (<[lp := Node xp (ptr_at B 0)]> (mem s)).
Proof.
  intros ns Hrep Hroom [a Ha] Hsk. rewrite Ha, Nat.mul_comm, Nat.div_mul in Hsk by lia.
  assert (length ns = 3 + length A + length B)%nat as Hlen
    by (unfold ns; rewrite length_app; cbn; lia).
  destruct (remove_item_unfold s ns x (S a) Hrep) as [fuel ->]; [lia|done|].
  destruct Hrep as [Hh Hc Hnd Ht Hs].
  pose proof (chain_app_r _ _ _ Hc) as Hc1.
  apply chain_cons in Hc1 as [Hlp [Hlm [Hl HB]%chain_cons]%chain_cons].
  pose proof Hnd as Hnd1. unfold ns in Hnd1. rewrite fmap_app in Hnd1.
  apply NoDup_app in Hnd1 as (_ & HA & [Hp [Hm [Hx HndB]%NoDup_cons]%NoDup_cons]%NoDup_cons).
  apply not_elem_of_cons in Hp as [_ [Hpl Hp]%not_elem_of_cons].
  replace (ptr_at ns (2 * S a)) with (PNode l); cycle 1.
  { unfold ns. replace (A ++ (lp, xp) :: (lm, xm) :: (l, x) :: B)
      with ((A ++ [(lp, xp); (lm, xm)]) ++ (l, x) :: B) by by rewrite <- app_assoc.
    symmetry. apply ptr_at_middle. rewrite length_app. cbn. lia. }
  assert (Hb : INT_MIN ≤ q_size (this s) - 1 ≤ INT_MAX).
  { rewrite Hs. unfold room, INT_MIN, INT_MAX in *. lia. }
  rewrite (remove_match _ _ _ _ _ _ Hl Hb). cbn [prev_ptr].
  replace (ptr_at ns (2 * a)) with (PNode lp) by (symmetry; apply ptr_at_middle; lia).
  case_decide as Hd; eexists; split_and!.
  1,6: repeat q_step; (erewrite q_bind_ok by (cbn; rewrite Hlp; reflexivity)); repeat q_step;
      erewrite q_bind_ok by (apply store_size_ok; exact Hb);
      erewrite q_bind_ok by (eapply (free_PNode _ l); cbn; rewrite lookup_insert_ne by done; exact Hl);
      reflexivity.
  1,5: cbn; rewrite Hh; by destruct A.
  1,4: cbn; apply chain_delete_other; [|by apply (chain_cut _ _ _ _ _ _ Hc)].
  3,5: cbn; rewrite Hs, Hlen, length_app; cbn; lia.
  3,4: done.
  all: rewrite fmap_app, not_elem_of_app; split; [|by apply not_elem_of_cons].
  all: intros HlA; apply (HA l HlA); cbn; rewrite !elem_of_cons; auto.
Qed.

(** ** The abstract queue, and the interface between a queue and its clients *)

Inductive qop : Type :=
| QEnqueue (ok : bool) (x : Z) | QInsertFirst (ok : bool) (x : Z)
| QDequeue | QPeek | QSize.

(** The specification: a list of items, first out first. *)
Definition list_step (o : qop) (xs : list Z) : Z * list Z :=
  match o with
  | QEnqueue true x => (0, xs ++ [x])
  | QInsertFirst true x => (0, x :: xs)
  | QEnqueue false _ | QInsertFirst false _ => (ENOMEM, xs)
  | QDequeue => (default 0 (head xs), tail xs)
  | QPeek => (default 0 (head xs), xs)
  | QSize => (Z.of_nat (length xs), xs)
  end.

(** What a caller owes: never NULL, and an [int] counts the items. *)
Definition qop_ok (o : qop) (xs : list Z) : Prop :=
  Z.of_nat (length xs) < INT_MAX ∧
  match o with QEnqueue _ x | QInsertFirst _ x => x ≠ 0 | _ => True end.

(** What a queue promises its clients. *)
Class FifoQueue (S : Type) : Type := {
  fq_abs : S → list Z → Prop;
  fq_step : qop → S → res (Z * S);
  fq_refines : ∀ o s xs, fq_abs s xs → qop_ok o xs →
    ∃ s', fq_step o s = Ok ((list_step o xs).1, s') ∧ fq_abs s' (list_step o xs).2;
}.

(** The list itself is such a queue; the thread library is modelled over it. *)
#[export, refine] Instance list_queue : FifoQueue (list Z) := {|
  fq_abs s xs := s = xs;
  fq_step o s := Ok (list_step o s);
|}.
Proof. intros o s xs -> _. exists (list_step o xs).2. by destruct (list_step o xs). Defined.

Definition ptr_step (o : qop) : QM Z :=
  match o with
  | QEnqueue ok x => queue_enqueue ok x
  | QInsertFirst ok x => queue_insert_first ok x
  | QDequeue => queue_dequeue
  | QPeek => queue_peek
  | QSize => queue_size
  end.

Definition ptr_abs (s : qst) (xs : list Z) : Prop := ∃ ns, queue_rep s ns ∧ ns.*2 = xs.

Lemma enqueue_fail s x : x ≠ 0 → queue_enqueue false x s = Ok (ENOMEM, s).
Proof. intros Hx. unfold queue_enqueue, q_assert. cbn. by rewrite (proj2 (Z.eqb_neq x 0)). Qed.

Lemma insert_first_fail s x : x ≠ 0 → queue_insert_first false x s = Ok (ENOMEM, s).
Proof. intros Hx. unfold queue_insert_first, q_assert. cbn. by rewrite (proj2 (Z.eqb_neq x 0)). Qed.

(** An operation that takes the queue from the nodes [ns] to [ns'] is local: it
    allocates the nodes it adds, frees those it takes out, and leaves the rest of the
    heap alone. *)
Record local_step (s s' : qst) (ns ns' : list (positive * Z)) : Prop := {
  ls_rep : queue_rep s' ns';
  ls_frame : ∀ l, l ∉ ns.*1 → l ∉ ns'.*1 → mem s' !! l = mem s !! l;
  ls_new : ∀ l, l ∈ ns'.*1 → l ∈ ns.*1 ∨ mem s !! l = None;
  ls_freed : ∀ l, l ∈ ns.*1 → l ∉ ns'.*1 → mem s' !! l = None;
}.

Lemma local_same s ns : queue_rep s ns → local_step s s ns ns.
Proof. constructor; auto. done. Qed.

Lemma local_insert s s' ns ns' l x : queue_rep s' ns' → mem s !! l = None →
  ns' ≡ₚ (l, x) :: ns → same_outside (l :: ns.*1) (mem s) (mem s') → local_step s s' ns ns'.
Proof.
  intros Hr Hl Hp Ho.
  assert (Hin : ∀ a, a ∈ ns'.*1 ↔ a = l ∨ a ∈ ns.*1).
  { intros a. rewrite Hp. cbn. apply elem_of_cons. }
  constructor; [done|..]; intros a; rewrite !Hin.
  - intros H1 H2. apply Ho. rewrite elem_of_cons. tauto.
  - intros [->|]; [by right|by left].
  - tauto.
Qed.

Lemma ptr_step_local o s ns : queue_rep s ns → qop_ok o ns.*2 →
  ∃ s' ns', ptr_step o s = Ok ((list_step o ns.*2).1, s') ∧ ns'.*2 = (list_step o ns.*2).2 ∧
    local_step s s' ns ns'.
Proof.
  intros Hrep [Hroom Ho]. rewrite length_fmap in Hroom.
  destruct o as [[] x|[] x| | |]; cbn [ptr_step list_step fst snd].
  - destruct (queue_enqueue_spec s ns x) as (l & s' & ? & Hl & Hrep' & Hout); [done..|].
    exists s', (ns ++ [(l, x)]). split; [done|]. split; [by rewrite fmap_app|].
    eapply local_insert; [done|done|symmetry; apply Permutation_cons_append|done].
  - exists s, ns. split; [by apply enqueue_fail|]. split; [done|by apply local_same].
  - destruct (queue_insert_first_spec s ns x) as (l & s' & ? & Hl & Hrep' & Hout); [done..|].
    exists s', ((l, x) :: ns). split; [done|]. split; [done|].
    eapply local_insert; [done|done|done|]. intros a Ha. apply Hout.
    rewrite elem_of_cons in Ha. rewrite list_elem_of_singleton. tauto.
  - exists s, ns. split; [by apply insert_first_fail|]. split; [done|by apply local_same].
  - pose proof (queue_dequeue_spec s ns Hrep Hroom) as Hd.
    destruct ns as [|[l x] ns]; [exists s, []; split_and!; [done|done|by apply local_same]|].
    destruct Hd as (s' & ? & Hrep' & Hm). exists s', ns. split; [done|]. split; [done|].
    constructor; [done|..]; cbn; intros a; rewrite elem_of_cons, ?Hm.
    + intros H1 H2. apply lookup_delete_ne. naive_solver.
    + auto.
    + intros [->|]; [by intros _; apply lookup_delete_eq|done].
  - exists s, ns. split; [by rewrite (queue_peek_spec s ns Hrep)|].
    split; [done|by apply local_same].
  - exists s, ns. rewrite length_fmap. split; [by apply queue_size_spec|].
    split; [done|by apply local_same].
Qed.

Lemma ptr_step_refines o s xs : ptr_abs s xs → qop_ok o xs →
  ∃ s', ptr_step o s = Ok ((list_step o xs).1, s') ∧ ptr_abs s' (list_step o xs).2.
Proof.
  intros (ns & Hrep & <-) Ho. destruct (ptr_step_local o s ns Hrep Ho) as (s' & ns' & Hs & Hns & Hl).
  exists s'. split; [done|]. exists ns'. split; [apply Hl|done].
Qed.

(** The linked list of queue.c discharges the interface. *)
#[export] Instance ptr_queue : FifoQueue qst := {|
  fq_abs := ptr_abs; fq_step := ptr_step; fq_refines := ptr_step_refines;
|}.

Section client.
Context {S : Type} `{!FifoQueue S}.

Fixpoint fq_run (ops : list qop) (s : S) : res (list Z) :=
  match ops with
  | [] => Ok []
  | o :: ops' => '(r, s') ← fq_step o s; rs ← fq_run ops' s'; Ok (r :: rs)
  end.

(** The results of a sequence on the specification. *)
Fixpoint list_run (ops : list qop) (xs : list Z) : list Z :=
  match ops with
  | [] => []
  | o :: ops' => (list_step o xs).1 :: list_run ops' (list_step o xs).2
  end.

Definition not_null (o : qop) : Prop :=
  match o with QEnqueue _ x | QInsertFirst _ x => x ≠ 0 | _ => True end.

Lemma list_step_length o xs : (length (list_step o xs).2 ≤ Datatypes.S (length xs))%nat.
Proof. destruct o as [[] x|[] x| | |]; cbn; try rewrite length_app; cbn; destruct xs; cbn; lia. Qed.

Lemma fq_run_refines ops : ∀ s xs, fq_abs s xs → Forall not_null ops →
  Z.of_nat (length ops) + Z.of_nat (length xs) ≤ INT_MAX →
  fq_run ops s = Ok (list_run ops xs).
Proof.
  induction ops as [|o ops IH]; intros s xs Habs Hops Hlen; cbn [fq_run list_run]; [done|].
  apply Forall_cons in Hops as [Ho Hops]. cbn in Hlen.
  destruct (fq_refines o s xs Habs) as (s' & -> & Habs'); [split; [lia|done]|]. cbn.
  rewrite (IH s' _ Habs' Hops); [done|]. pose proof (list_step_length o xs). lia.
Qed.
End client.

(** ** Properties *)

(** C15. Refinement: started by [queue_init] in any heap, the linked list of
    queue.c answers every sequence of [queue_enqueue], [queue_insert_first],
    [queue_dequeue], [queue_peek] and [queue_size] (malloc failing where the
    environment says so) exactly as a first-in first-out list does, without a
    fault, as long as no item is NULL and the sequence is shorter than INT_MAX. *)
Theorem queue_refines_fifo (s : qst) (ops : list qop) :
  Forall not_null ops → Z.of_nat (length ops) ≤ INT_MAX →
  ∃ s0, queue_init s = Ok (0, s0) ∧ fq_run ops s0 = Ok (list_run ops []).
Proof.
  intros Hops Hlen. destruct (queue_init_spec s) as (s0 & Heq & Hrep & _).
  exists s0. split; [done|]. apply (fq_run_refines ops s0 []); [|done|cbn; lia].
  by exists [].
Qed.

Definition empty_heap : qst := Qst (Queue (Node 0 PNull) PNull 0) ∅.

Example queue_refines_fifo_witness :
  ∃ s0, queue_init empty_heap = Ok (0, s0) ∧
    fq_run [QEnqueue true 5; QEnqueue true 7; QInsertFirst true 9; QEnqueue false 3;
            QDequeue; QDequeue; QPeek; QSize; QDequeue; QDequeue] s0
    = Ok [0; 0; 0; 12; 9; 5; 7; 1; 7; 0].
Proof.
  destruct (queue_refines_fifo empty_heap
    [QEnqueue true 5; QEnqueue true 7; QInsertFirst true 9; QEnqueue false 3;
     QDequeue; QDequeue; QPeek; QSize; QDequeue; QDequeue]) as (s0 & H & H').
  - repeat constructor; discriminate.
  - discriminate.
  - exists s0. split; [exact H|]. rewrite H'. vm_compute. reflexivity.
Defined.

(** A queue of the given items, built by the functions of queue.c. *)
Definition queue_of (xs : list Z) : qst :=
  fold_left (λ s x, match queue_enqueue true x s with Ok (_, s') => s' | Fault _ => s end) xs
    (match queue_init empty_heap with Ok (_, s) => s | Fault _ => empty_heap end).

Lemma queue_of_rep xs : Forall (λ x, x ≠ 0) xs → Z.of_nat (length xs) < INT_MAX →
  ∃ ns, queue_rep (queue_of xs) ns ∧ ns.*2 = xs.
Proof.
  induction xs as [|x xs IH] using rev_ind; intros Hx Hlen.
  - destruct (queue_init_spec empty_heap) as (s' & Heq & Hrep & _).
    exists []. split; [|done]. unfold queue_of. cbn [fold_left]. by rewrite Heq.
  - rewrite length_app in Hlen. cbn in Hlen.
    apply Forall_app in Hx as [Hx Hx1]. apply (proj1 (Forall_singleton _ x)) in Hx1.
    destruct IH as (ns & Hrep & Hns); [done|lia|].
    destruct (queue_enqueue_spec (queue_of xs) ns x) as (l & s' & Heq & _ & Hrep' & _);
      [done|exact Hx1|unfold room; rewrite <- (length_fmap snd ns), Hns; lia|].
    exists (ns ++ [(l, x)]). unfold queue_of in *. rewrite fold_left_app. cbn [fold_left].
    rewrite Heq. split; [done|]. by rewrite fmap_app, Hns.
Qed.

(** [queue_enqueue] appends: on success the queue holds its old nodes and
    one new node, at an address that was free, and no other block of the heap
    changes; when malloc fails it returns ENOMEM and changes nothing. *)
Theorem queue_enqueue_correct (s : qst) (ns : list (positive * Z)) (x : Z) :
  queue_rep s ns → x ≠ 0 → room ns →
  queue_enqueue false x s = Ok (ENOMEM, s) ∧
  ∃ l s', queue_enqueue true x s = Ok (0, s') ∧ mem s !! l = None ∧
    queue_rep s' (ns ++ [(l, x)]) ∧ same_outside (l :: ns.*1) (mem s) (mem s').
Proof. intros ? Hx ?. split; [by apply enqueue_fail|by apply queue_enqueue_spec]. Qed.

Example queue_enqueue_correct_witness :
  ∃ ns l s', queue_enqueue true 7 (queue_of [5; 6]) = Ok (0, s') ∧
    queue_rep s' (ns ++ [(l, 7)]) ∧ ns.*2 = [5; 6].
Proof.
  destruct (queue_of_rep [5; 6]) as (ns & Hrep & Hns); [repeat constructor; discriminate|reflexivity|].
  destruct (queue_enqueue_correct _ ns 7 Hrep) as (_ & l & s' & Heq & _ & Hrep' & _).
  - discriminate.
  - unfold room. rewrite <- (length_fmap snd ns), Hns. reflexivity.
  - exists ns, l, s'. split; [exact Heq|]. split; [exact Hrep'|exact Hns].
Defined.

(** C29. [queue_destroy] frees every node of the queue, each exactly once, and
    nothing else: no fault, no leak, every other block unchanged. *)
Theorem queue_destroy_frees_all (s : qst) (ns : list (positive * Z)) :
  queue_rep s ns →
  ∃ s', queue_destroy s = Ok (tt, s') ∧
    ∀ l, mem s' !! l = if decide (l ∈ ns.*1) then None else mem s !! l.
Proof.
  intros Hrep. eexists. split; [by apply queue_destroy_spec|]. apply destroyed_lookup.
Qed.

Example queue_destroy_frees_all_witness :
  ∃ s', queue_destroy (queue_of [5; 7]) = Ok (tt, s') ∧ mem s' !! 1%positive = None.
Proof.
  destruct (queue_of_rep [5; 7]) as (ns & Hrep & _); [repeat constructor; discriminate|reflexivity|].
  destruct (queue_destroy_frees_all _ _ Hrep) as (s' & Heq & _).
  exists s'. split; [exact Heq|]. vm_compute in Heq. injection Heq as <-. reflexivity.
Defined.

(** C30. [queue_clear] frees the nodes but leaves [head.next] pointing at the
    first of them: after clearing a queue that was not empty, [queue_peek] and
    [queue_dequeue] read freed memory and [queue_destroy] does too, although
    [queue_size] says 0. *)
Theorem queue_clear_dangles (s : qst) (l : positive) (x : Z) (ns : list (positive * Z)) :
  queue_rep s ((l, x) :: ns) →
  ∃ s', queue_clear s = Ok (tt, s') ∧ queue_size s' = Ok (0, s') ∧
    queue_peek s' = Fault UseAfterFree ∧ queue_dequeue s' = Fault UseAfterFree ∧
    queue_destroy s' = Fault UseAfterFree.
Proof.
  intros Hrep. eexists. split; [by apply queue_clear_spec|].
  pose proof (rep_head _ _ Hrep) as Hh. cbn in Hh.
  assert (Hgone : destroyed (mem s) ((l, x) :: ns).*1 !! l = None).
  { rewrite destroyed_lookup, decide_True; [done|]. cbn. apply list_elem_of_here. }
  unfold queue_peek, queue_dequeue, queue_destroy, heap_fuel, q_gets, mbind, QM_bind.
  split_and!; [done| | |]; cbn [load_node this q_head mem]; rewrite Hh.
  3: cbn [free_nodes]; unfold mbind, QM_bind.
  all: rewrite decide_False by done; cbn [load_node mem]; by rewrite Hgone.
Qed.

Example queue_clear_dangles_witness :
  ∃ s', queue_clear (queue_of [5]) = Ok (tt, s') ∧ queue_dequeue s' = Fault UseAfterFree.
Proof.
  destruct (queue_of_rep [5]) as (ns & Hrep & Hns); [repeat constructor; discriminate|reflexivity|].
  destruct ns as [|[l x] ns]; [discriminate|].
  destruct (queue_clear_dangles _ _ _ _ Hrep) as (s' & H & _ & _ & H' & _).
  exists s'. split; [exact H|exact H'].
Defined.

(** [queue_remove_item] of an item that occurs at no even position (the
    header of the loop skips the odd ones): with an even number of nodes it
    answers -1 and changes nothing, even when an odd position holds the item;
    with an odd number of nodes it dereferences NULL. *)
Theorem remove_item_skips (s : qst) (ns : list (positive * Z)) (x : Z) :
  queue_rep s ns →
  (∀ t l y, ns !! (2 * t)%nat = Some (l, y) → y ≠ x) →
  queue_remove_item x s =
    if Nat.even (length ns) then Ok (-1, s) else Fault NullDeref.
Proof.
  intros Hrep Hsk. destruct (Nat.even (length ns)) eqn:He.
  - apply Nat.even_spec in He as [k Hk].
    apply (remove_item_even_absent s ns x k); [done|done|]. intros t l y _. apply Hsk.
  - assert (Nat.Odd (length ns)) as [k Hk] by (apply Nat.odd_spec; unfold Nat.odd; by rewrite He).
    apply (remove_item_odd_absent s ns x k); [done|done|]. intros t l y _. apply Hsk.
Qed.

(** The item is there, at position 1, and is not found; with one node the
    search for an absent item crashes. *)
Example remove_item_skips_witness :
  queue_remove_item 7 (queue_of [5; 7]) = Ok (-1, queue_of [5; 7]) ∧
  queue_remove_item 7 (queue_of [5]) = Fault NullDeref.
Proof.
  split.
  - destruct (queue_of_rep [5; 7]) as (ns & Hrep & Hns); [repeat constructor; discriminate|reflexivity|].
    destruct ns as [|[l1 y1] [|[l2 y2] [|]]]; try discriminate. injection Hns as -> ->.
    apply (remove_item_skips _ _ 7 Hrep).
    intros [|[|t]] l y H; try discriminate. injection H as _ <-. discriminate.
  - destruct (queue_of_rep [5]) as (ns & Hrep & Hns); [repeat constructor; discriminate|reflexivity|].
    destruct ns as [|[l1 y1] [|]]; try discriminate. injection Hns as ->.
    apply (remove_item_skips _ _ 7 Hrep).
    intros [|t] l y H; try discriminate. injection H as _ <-. discriminate.
Defined.

(** C31. When the first match of [queue_remove_item] is at an even position
    other than the head, the node before it leaves the list too: two nodes are
    unlinked, the size drops by one, and the neighbour's block leaks with its
    link pointing at the freed node. *)
Theorem remove_item_drops_neighbour (s : qst) (A B : list (positive * Z))
    (lp lm l : positive) (xp xm x : Z) :
  let ns := A ++ (lp, xp) :: (lm, xm) :: (l, x) :: B in
  queue_rep s ns → room ns → Nat.Even (length A) → skipped ns x (S (length A / 2)) →
  ∃ s', queue_remove_item x s = Ok (0, s') ∧
    n_next (q_head (this s')) = ptr_at (A ++ (lp, xp) :: B) 0 ∧
    chain (mem s') (A ++ (lp, xp) :: B) ∧
    q_size (this s') = Z.of_nat (length (A ++ (lp, xp) :: B)) + 1 ∧
    mem s' !! lm = Some (Node xm (PNode l)) ∧ mem s' !! l = None.
Proof.
  intros ns Hrep Hroom HA Hsk.
  destruct (remove_item_middle s A lp xp lm xm l x B Hrep Hroom HA Hsk)
    as (s' & Heq & Hh & Hc & Hs & Hm).
  exists s'. split_and!; [done..| |rewrite Hm; apply lookup_delete_eq].
  destruct (chain_app_r _ _ _ (rep_chain _ _ Hrep)) with (i := 1%nat) (l := lm) (x := xm); [done|].
  pose proof (rep_nodup _ _ Hrep) as Hnd. unfold ns in Hnd. rewrite fmap_app in Hnd. cbn in Hnd.
  apply NoDup_app in Hnd as (_ & _ & [Hp [Hm' _]%NoDup_cons]%NoDup_cons).
  apply not_elem_of_cons in Hp as [Hp _]. apply not_elem_of_cons in Hm' as [Hm' _].
  rewrite Hm, lookup_delete_ne, lookup_insert_ne by congruence.
  by apply (chain_app_r _ _ _ (rep_chain _ _ Hrep) 1%nat).
Qed.

Example remove_item_drops_neighbour_witness :
  ∃ s', queue_remove_item 7 (queue_of [5; 6; 7; 8]) = Ok (0, s') ∧
    fq_run [QSize; QDequeue; QDequeue; QDequeue] s' = Ok [3; 5; 8; 0].
Proof.
  destruct (queue_of_rep [5; 6; 7; 8]) as (ns & Hrep & Hns);
    [repeat constructor; discriminate|reflexivity|].
  destruct ns as [|[l1 y1] [|[l2 y2] [|[l3 y3] [|[l4 y4] [|]]]]]; try discriminate.
  injection Hns as -> -> -> ->.
  destruct (remove_item_drops_neighbour _ [] [(l4, 8)] l1 l2 l3 5 6 7 Hrep) as (s' & Heq & _).
  - reflexivity.
  - exists 0%nat. reflexivity.
  - intros [|t] l y Ht H; [|cbn in Ht; lia]. injection H as _ <-. discriminate.
  - exists s'. split; [exact Heq|]. vm_compute in Heq. injection Heq as <-. vm_compute. reflexivity.
Defined.
