(* ===== verification/Queues.v ===== *)
(** * All the queues of a process, in one heap

    The ready queue, the join queue of every thread and the queue of every semaphore
    allocate their nodes from the same heap.  This file runs the functions of queue.c
    on any number of queues by turns, and shows that they do not disturb each other:
    each is a list of its own, which is how the model of the thread library has them. *)
From S2P Require Import Prelude Queue.

(** The structures, by their addresses, and the heap of nodes *)
Record queues : Type := Queues { structs : gmap Z queue_t; nodes : heap }.

(** A call with the address of a structure.  Before [queue_init] the structure holds
    anything. *)
Definition at_queue {A} (k : Z) (f : QM A) (w : queues) : res (A * queues) :=
  q ← of_opt UseAfterFree (structs w !! k);
  '(a, s) ← f (Qst q (nodes w));
  Ok (a, Queues (<[k := this s]> (structs w)) (mem s)).

Inductive mop : Type :=
| MInit (k : Z) (garbage : queue_t)
| MOp (k : Z) (o : qop)
| MDestroy (k : Z).

(** [MInit]: a structure is placed at [k] and initialised; [MDestroy]: it is destroyed
    and its memory goes. *)
Definition mstep (o : mop) (w : queues) : res (Z * queues) :=
  match o with
  | MInit k q => at_queue k queue_init (Queues (<[k := q]> (structs w)) (nodes w))
  | MOp k o => at_queue k (ptr_step o) w
  | MDestroy k =>
      '(_, w') ← at_queue k queue_destroy w;
      Ok (0, Queues (delete k (structs w')) (nodes w'))
  end.

Fixpoint mrun (ops : list mop) (w : queues) : res (list Z * queues) :=
  match ops with
  | [] => Ok ([], w)
  | o :: ops' => '(r, w') ← mstep o w; '(rs, w'') ← mrun ops' w'; Ok (r :: rs, w'')
  end.

(** ** Specification: a list for each address *)
Definition lists_step (o : mop) (A : gmap Z (list Z)) : Z * gmap Z (list Z) :=
  match o with
  | MInit k _ => (0, <[k := []]> A)
  | MOp k o => let '(r, xs) := list_step o (default [] (A !! k)) in (r, <[k := xs]> A)
  | MDestroy k => (0, delete k A)
  end.

Fixpoint lists_run (ops : list mop) (A : gmap Z (list Z)) : list Z * gmap Z (list Z) :=
  match ops with
  | [] => ([], A)
  | o :: ops' =>
      let '(r, A1) := lists_step o A in
      let '(rs, A2) := lists_run ops' A1 in (r :: rs, A2)
  end.

(** What the callers owe: a structure is initialised once, and only then used. *)
Definition mop_ok (o : mop) (A : gmap Z (list Z)) : Prop :=
  match o with
  | MInit k _ => A !! k = None
  | MOp k o => ∃ xs, A !! k = Some xs ∧ qop_ok o xs
  | MDestroy k => is_Some (A !! k)
  end.
Fixpoint mops_ok (ops : list mop) (A : gmap Z (list Z)) : Prop :=
  match ops with
  | [] => True
  | o :: ops' => mop_ok o A ∧ mops_ok ops' (lists_step o A).2
  end.

(** ** Well-formedness

    Every queue is well formed, no node is in two queues, and every node of the heap
    is in one. *)
Record queues_rep (w : queues) (N : gmap Z (list (positive * Z))) : Prop := {
  qr_dom : ∀ k, is_Some (structs w !! k) ↔ is_Some (N !! k);
  qr_rep : ∀ k q ns, structs w !! k = Some q → N !! k = Some ns → queue_rep (Qst q (nodes w)) ns;
  qr_disjoint : ∀ k k' ns ns' l, N !! k = Some ns → N !! k' = Some ns' →
    l ∈ ns.*1 → l ∈ ns'.*1 → k = k';
  qr_nodes : ∀ l, is_Some (nodes w !! l) → ∃ k ns, N !! k = Some ns ∧ l ∈ ns.*1;
}.

Lemma rep_live s ns l : queue_rep s ns → l ∈ ns.*1 → is_Some (mem s !! l).
Proof. intros Hr Hl. eapply chain_lookup; [apply Hr|done]. Qed.

(** Another queue's step leaves a queue alone. *)
Lemma rep_frame q h h' ns : queue_rep (Qst q h) ns → (∀ l, l ∈ ns.*1 → h' !! l = h !! l) →
  queue_rep (Qst q h') ns.
Proof. intros [H1 H2 H3 H4 H5] Hh. split; try done. by eapply chain_frame. Qed.

Lemma queues_local w N k q ns s' ns' : queues_rep w N → structs w !! k = Some q →
  N !! k = Some ns → local_step (Qst q (nodes w)) s' ns ns' →
  queues_rep (Queues (<[k := this s']> (structs w)) (mem s')) (<[k := ns']> N).
Proof.
  intros [Hdom Hrep Hdis Hnod] Hq Hns [Hr Hfr Hnew Hfree]. cbn in Hfr, Hnew, Hfree.
  (* the nodes of another queue are neither old nor new ones *)
  assert (Hout : ∀ k2 ms l, k2 ≠ k → N !! k2 = Some ms → l ∈ ms.*1 → l ∉ ns.*1 ∧ l ∉ ns'.*1).
  { intros k2 ms l Hk Hms Hl. assert (Hl1 : l ∉ ns.*1) by (intros ?; apply Hk; by eapply Hdis).
    split; [done|]. intros Hl2. destruct (Hnew l Hl2) as [?|Hno]; [done|].
    destruct (proj2 (Hdom k2) (mk_is_Some _ _ Hms)) as [q2 Hq2].
    destruct (rep_live _ _ _ (Hrep k2 q2 ms Hq2 Hms) Hl) as [? ?]. cbn in *. congruence. }
  constructor; cbn.
  - intros k2. rewrite !lookup_insert_is_Some', Hdom. done.
  - intros k2 q2 ms. rewrite !lookup_insert. case_decide as E.
    + intros [= <-] [= <-]. by destruct s'.
    + intros Hq2 Hms. apply (rep_frame q2 (nodes w)); [by eapply Hrep|].
      intros l Hl. destruct (Hout k2 ms l) as [? ?]; [done..|]. by apply Hfr.
  - intros k1 k2 ms1 ms2 l. rewrite !lookup_insert. repeat case_decide; subst; try done.
    + intros [= <-] H2 Hl1 Hl2. by destruct (Hout k2 ms2 l) as [_ ?].
    + intros H1 [= <-] Hl1 Hl2. by destruct (Hout k1 ms1 l) as [_ ?].
    + by apply Hdis.
  - intros l [n Hl]. destruct (decide (l ∈ ns'.*1)) as [Hin|Hin].
    { exists k, ns'. by rewrite lookup_insert_eq. }
    destruct (decide (l ∈ ns.*1)) as [Hin1|Hin1]; [rewrite (Hfree l) in Hl by done; done|].
    rewrite (Hfr l) in Hl by done. destruct (Hnod l) as (k2 & ms & Hms & Hlm); [by exists n|].
    assert (k2 ≠ k) by (intros ->; congruence). exists k2, ms. by rewrite lookup_insert_ne.
Qed.

(** The lists a heap represents *)
Definition lists_of (N : gmap Z (list (positive * Z))) : gmap Z (list Z) := (λ ns, ns.*2) <$> N.

Lemma lists_of_lookup N k xs : lists_of N !! k = Some xs → ∃ ns, N !! k = Some ns ∧ ns.*2 = xs.
Proof. unfold lists_of. rewrite lookup_fmap. intros (ns & ? & ->)%fmap_Some_1. eauto. Qed.

Lemma destroyed_local s ns : queue_rep s ns →
  local_step s (Qst (Queue (Node 0 PNull) PHead 0) (destroyed (mem s) ns.*1)) ns [].
Proof.
  intros Hr. constructor; cbn.
  - split; cbn; [done| |constructor|done|done]. intros i l x [=].
  - intros l H _. by rewrite destroyed_lookup, decide_False.
  - intros l ?%elem_of_nil. done.
  - intros l H _. by rewrite destroyed_lookup, decide_True.
Qed.

Lemma empty_rep h : queue_rep (Qst (Queue (Node 0 PNull) PHead 0) h) [].
Proof. split; cbn; [done| |constructor|done|done]. intros i l x [=]. Qed.

(** A structure appears, and one goes. *)
Lemma queues_new w N k : queues_rep w N → N !! k = None →
  queues_rep (Queues (<[k := Queue (Node 0 PNull) PHead 0]> (structs w)) (nodes w)) (<[k := []]> N).
Proof.
  intros [Hdom Hrep Hdis Hnod] HN. constructor; cbn.
  - intros k2. by rewrite !lookup_insert_is_Some', Hdom.
  - intros k2 q2 ms. rewrite !lookup_insert. case_decide; [|by apply Hrep].
    intros [= <-] [= <-]. apply empty_rep.
  - intros k1 k2 ms1 ms2 l. rewrite !lookup_insert. repeat case_decide; subst; try done;
      [by intros [= <-] _ ?%elem_of_nil|by intros _ [= <-] _ ?%elem_of_nil|by apply Hdis].
  - intros l (k2 & ms & Hms & Hl)%Hnod. exists k2, ms. split; [|done].
    rewrite lookup_insert_ne; [done|congruence].
Qed.

Lemma queues_gone w N k q : queues_rep (Queues (<[k := q]> (structs w)) (nodes w)) (<[k := []]> N) →
  queues_rep (Queues (delete k (structs w)) (nodes w)) (delete k N).
Proof.
  intros [Hdom Hrp Hdis Hnod]. cbn in *. constructor; cbn.
  - intros k2. rewrite !lookup_delete. specialize (Hdom k2). rewrite !lookup_insert in Hdom.
    by case_decide.
  - intros k2 q2 ms. rewrite !lookup_delete. specialize (Hrp k2 q2 ms).
    rewrite !lookup_insert in Hrp. case_decide; [done|]. apply Hrp.
  - intros k1 k2 ms1 ms2 l. specialize (Hdis k1 k2 ms1 ms2 l). rewrite !lookup_insert in Hdis.
    rewrite !lookup_delete. repeat case_decide; try done.
  - intros l Hl. destruct (Hnod l Hl) as (k2 & ms & Hms & Hlm). exists k2, ms.
    rewrite lookup_insert in Hms. rewrite lookup_delete. case_decide; [|done].
    injection Hms as <-. by apply elem_of_nil in Hlm.
Qed.

Lemma queue_at w N k xs : queues_rep w N → lists_of N !! k = Some xs →
  ∃ q ns, structs w !! k = Some q ∧ N !! k = Some ns ∧ ns.*2 = xs ∧
    queue_rep (Qst q (nodes w)) ns.
Proof.
  intros Hr Hxs. destruct (lists_of_lookup N k xs Hxs) as (ns & Hns & <-).
  destruct (proj2 (qr_dom _ _ Hr k) (mk_is_Some _ _ Hns)) as [q Hq].
  exists q, ns. split_and!; try done. by eapply (qr_rep _ _ Hr).
Qed.

Lemma mstep_refines o w N : queues_rep w N → mop_ok o (lists_of N) →
  ∃ w' N', mstep o w = Ok ((lists_step o (lists_of N)).1, w') ∧ queues_rep w' N' ∧
    lists_of N' = (lists_step o (lists_of N)).2.
Proof.
  intros Hr Ho. destruct o as [k q0|k o|k]; cbn [mop_ok mstep lists_step] in *.
  - exists (Queues (<[k := Queue (Node 0 PNull) PHead 0]> (structs w)) (nodes w)), (<[k := []]> N).
    split; [|split; [|unfold lists_of; by rewrite fmap_insert]].
    { unfold at_queue. cbn. rewrite lookup_insert_eq. cbn. by rewrite insert_insert_eq. }
    apply queues_new; [done|]. unfold lists_of in Ho. rewrite lookup_fmap in Ho.
    by apply fmap_None in Ho.
  - destruct Ho as (xs & Hxs & Ho). destruct (queue_at w N k xs Hr Hxs) as (q & ns & Hq & Hns & <- & Hrep).
    destruct (ptr_step_local o (Qst q (nodes w)) ns Hrep Ho) as (s' & ns' & Hs & Hns' & Hl).
    exists (Queues (<[k := this s']> (structs w)) (mem s')), (<[k := ns']> N).
    rewrite Hxs. change (default [] (Some ns.*2)) with (ns.*2). destruct (list_step o ns.*2) as [r ys] eqn:Hls. cbn in Hs, Hns'.
    split; [|split; [by eapply queues_local|]].
    + unfold at_queue. rewrite Hq. cbn. by rewrite Hs.
    + unfold lists_of. by rewrite fmap_insert, Hns'.
  - destruct Ho as [xs Hxs]. destruct (queue_at w N k xs Hr Hxs) as (q & ns & Hq & Hns & <- & Hrep).
    exists (Queues (delete k (structs w)) (destroyed (nodes w) ns.*1)), (delete k N).
    split; [|split; [|unfold lists_of; by rewrite fmap_delete]].
    + unfold at_queue. rewrite Hq. cbn [of_opt mbind res_bind].
      rewrite (queue_destroy_spec _ _ Hrep). cbn. by rewrite delete_insert_eq.
    + exact (queues_gone (Queues (structs w) _) N k _
        (queues_local w N k q ns _ [] Hr Hq Hns (destroyed_local _ _ Hrep))).
Qed.

Lemma mrun_refines ops : ∀ w N, queues_rep w N → mops_ok ops (lists_of N) →
  ∃ w' N', mrun ops w = Ok ((lists_run ops (lists_of N)).1, w') ∧ queues_rep w' N' ∧
    lists_of N' = (lists_run ops (lists_of N)).2.
Proof.
  induction ops as [|o ops IH]; intros w N Hr Hops; cbn [mrun lists_run mops_ok] in *.
  { exists w, N. done. }
  destruct Hops as [Ho Hops]. destruct (mstep_refines o w N Hr Ho) as (w1 & N1 & Hs & Hr1 & HN1).
  rewrite <- HN1 in Hops. destruct (IH w1 N1 Hr1 Hops) as (w2 & N2 & Hs2 & Hr2 & HN2).
  exists w2, N2. rewrite Hs. destruct (lists_step o (lists_of N)) as [r A1]. cbn in *. subst A1.
  rewrite Hs2. destruct (lists_run ops (lists_of N1)) as [rs A2]. cbn in *. done.
Qed.

(** C16. Well-formedness of all queues: in one heap, any sequence of calls on any number
    of queues, each initialised before it is used, never faults, answers as if each
    queue were a list of its own, and leaves every queue well formed, no node in two
    queues, and no node outside all of them.  So the heap is empty again once every
    queue is empty or destroyed. *)
Theorem queues_share_heap (ops : list mop) : mops_ok ops ∅ →
  ∃ w N, mrun ops (Queues ∅ ∅) = Ok ((lists_run ops ∅).1, w) ∧ queues_rep w N ∧
    lists_of N = (lists_run ops ∅).2 ∧
    (map_Forall (λ _ xs, xs = []) (lists_run ops ∅).2 → nodes w = ∅).
Proof.
  intros Hops. assert (H0 : queues_rep (Queues ∅ ∅) ∅).
  { constructor; cbn; [|done|done|]; intros k; rewrite ?lookup_empty; [|by intros []].
    split; by intros []. }
  destruct (mrun_refines ops _ ∅ H0) as (w & N & Hs & Hr & HN); [done|].
  exists w, N. split; [done|]. split; [done|]. split; [done|].
  intros Hall. apply map_empty. intros l. apply eq_None_not_Some.
  intros (k & ns & Hns & Hl)%(qr_nodes _ _ Hr).
  assert (Hk : lists_of N !! k = Some ns.*2) by (unfold lists_of; by rewrite lookup_fmap, Hns).
  rewrite HN in Hk. apply Hall in Hk. apply fmap_nil_inv in Hk as ->. by apply elem_of_nil in Hl.
Qed.

(** Two queues by turns; the first one is destroyed with an item in it. *)
Example queues_share_heap_witness : ∃ w,
  mrun [MInit 1 (Queue (Node 3 PHead) PNull 9); MInit 2 (Queue (Node 0 PNull) PNull 0);
        MOp 1 (QEnqueue true 5); MOp 2 (QEnqueue true 6); MOp 1 (QInsertFirst true 7);
        MOp 2 QDequeue; MOp 1 QDequeue; MOp 2 QSize; MDestroy 1] (Queues ∅ ∅)
    = Ok ([0; 0; 0; 0; 0; 6; 7; 0; 0], w) ∧ nodes w = ∅.
Proof.
  destruct (queues_share_heap
    [MInit 1 (Queue (Node 3 PHead) PNull 9); MInit 2 (Queue (Node 0 PNull) PNull 0);
     MOp 1 (QEnqueue true 5); MOp 2 (QEnqueue true 6); MOp 1 (QInsertFirst true 7);
     MOp 2 QDequeue; MOp 1 QDequeue; MOp 2 QSize; MDestroy 1]) as (w & N & Hs & _ & _ & Hh).
  - repeat split; try (eexists; split; [vm_compute; reflexivity|split; [vm_compute; reflexivity|done]]).
    by eexists.
  - exists w. split; [exact Hs|]. apply Hh.
    match goal with |- map_Forall _ ?A =>
      assert (A = {[2 := []]}) as -> by (vm_compute; reflexivity) end.
    by apply map_Forall_singleton.
Defined.
