(* ===== verification/Machine.v ===== *)
(** * The machine uthread.c runs on

    The C functions are programs of a free monad ([prog]) over the commands of
    [cmd]: one command per access to a shared variable, per call of the POSIX
    and C library, per operation of the list queue.  A kernel thread is a
    program; a saved [ucontext_t] is a program too.  [step] runs one command of
    one kernel thread, so that a schedule is a list of labels and every
    interleaving of the kernel threads is one. *)
From S2P Require Import Prelude Bitvec.

(** ** Data of uthread.h *)

Definition UTHREAD_MAX_THREADS : Z := 1024.
Definition UTHREAD_DEF_STACK_SIZE : Z := 1048576.
Definition UTHREAD_TID_MAIN : Z := 0.
Definition valid_tid (t : Z) : Prop := 0 ≤ t < UTHREAD_MAX_THREADS.

Inductive thread_state : Type := READY | RUNNING | WAITING_JOIN | WAITING_SEM | FINISHED.
Inductive sched_task : Type := NONE | YIELD | EXIT | JOIN | SEM_WAIT | TEARDOWN.
#[export] Instance thread_state_eq_dec : EqDecision thread_state.
Proof. solve_decision. Defined.
#[export] Instance sched_task_eq_dec : EqDecision sched_task.
Proof. solve_decision. Defined.

(** ** Addresses *)

(** A [uthread_tcb_t *] is NULL ([None]) or the address of a thread control
    block; the static block [exitall] has the first one. *)
Abbreviation loc := positive.
Definition exitall : loc := 1%positive.

(** The mutexes: [tcbs_lock], [bitvec_lock], [rqueue.lock], the lock of the
    semaphore at an address, [kthreads_lock] of kthread.c, a client's own. *)
Inductive mutex_id : Type :=
| MTcbs | MBitvec | MRqueue | MSem (a : Z) | MKthreads | MUser (a : Z).
(** The kernel semaphores: [inited_sem], [exitall_sem], [rqueue.not_empty], the
    one in the [struct trampoline_args] at an address. *)
Inductive ksem_id : Type := KInited | KExitall | KNotEmpty | KArgs (a : Z).
(** The queues: [rqueue.queue], a thread's [join_queue], a semaphore's queue. *)
Inductive qref : Type := QReady | QJoin (p : loc) | QSem (a : Z).
(** The stacks: NULL, malloc'ed by the library, supplied by the caller. *)
Inductive sptr : Type := SNull | SMalloc (l : positive) | SUser (a : Z).
(** The contexts: a scheduler's, a thread's, [abort_ctx]. *)
Inductive ctxref : Type := CtxSched (i : Z) | CtxTcb (p : loc) | CtxAbort.

#[export] Instance mutex_id_eq_dec : EqDecision mutex_id.
Proof. solve_decision. Defined.
#[export] Instance ksem_id_eq_dec : EqDecision ksem_id.
Proof. solve_decision. Defined.
#[export] Instance qref_eq_dec : EqDecision qref.
Proof. solve_decision. Defined.
#[export] Instance sptr_eq_dec : EqDecision sptr.
Proof. solve_decision. Defined.

#[export] Instance mutex_id_countable : Countable mutex_id.
Proof.
  refine (inj_countable' (λ m, match m with
    | MTcbs => inl 0 | MBitvec => inl 1 | MRqueue => inl 2 | MKthreads => inl 3
    | MSem a => inr (inl a) | MUser a => inr (inr a) end)
    (λ c : Z + (Z + Z), match c with
    | inl 0 => MTcbs | inl 1 => MBitvec | inl 2 => MRqueue | inl _ => MKthreads
    | inr (inl a) => MSem a | inr (inr a) => MUser a end) _).
  by intros [].
Defined.
#[export] Instance ksem_id_countable : Countable ksem_id.
Proof.
  refine (inj_countable' (λ m, match m with
    | KInited => inl 0 | KExitall => inl 1 | KNotEmpty => inl 2 | KArgs a => inr a end)
    (λ c : Z + Z, match c with
    | inl 0 => KInited | inl 1 => KExitall | inl _ => KNotEmpty | inr a => KArgs a end) _).
  by intros [].
Defined.

(** A [kthread_t *]: the address of [kthread_info[i]->ktid], or of a variable
    of the client. *)
Inductive ktidref : Type := KinfoKtid (i : Z) | UserKtid (x : Z).
(** A start routine given to [kthread_create]. *)
Inductive kstart : Type := KthreadMain | KUser (f : Z).

(** ** Lvalues: the shared variables the code reads and writes *)
Inductive var : Type → Type :=
(* uthread.c *)
| VInited : var Z
| VQuantum : var Z
| VNumKthreads : var Z
| VSigrtminMask : var bool
| VTcbs (tid : Z) : var (option loc)
| VTcbTid (p : loc) : var Z
| VTcbStackAllocated (p : loc) : var Z
| VTcbState (p : loc) : var thread_state
| VTcbRetval (p : loc) : var Z
| VCtxLink (c : ctxref) : var (option ctxref)
| VCtxSp (c : ctxref) : var sptr
| VCtxSsize (c : ctxref) : var Z
| VKiKtid (i : Z) : var Z
| VKiCurrentTid (i : Z) : var Z
| VKiTask (i : Z) : var sched_task
| VKiLock (i : Z) : var (option mutex_id)
| VKiQueue (i : Z) : var (option qref)
| VKiTimer (i : Z) : var Z
| VKiPreempted (i : Z) : var Z
| VBitvec : var bitvec_t
| VSemCounter (a : Z) : var Z
(* kthread.c *)
| VKtInited : var Z
| VKtTid (i : Z) : var Z
| VKtThread (i : Z) : var Z
| VArgStart (a : Z) : var kstart
| VArgArg (a : Z) : var Z
| VArgPtid (a : Z) : var ktidref
| VArgError (a : Z) : var Z
(* errno of the calling kernel thread; a client's variable *)
| VErrno : var Z
| VUser (x : Z) : var Z.

(** ** Functions called by name: entry points, recursion, the client's code *)
Inductive fn : Type → Type :=
| FSchedule : fn unit
| FTrampoline (start arg : Z) : fn unit
| FAbort : fn unit
| FKthreadTrampoline (a : Z) : fn unit
| FSigrtminHandler : fn unit
| FKthreadMain (arg : Z) : fn unit
| FMutexDestroyLoop (u : mutex_id) : fn unit
| FSemDestroyLoop (s : ksem_id) : fn unit
| FSemWaitLoop (sem : Z) (current : option loc) : fn (option Z)
| FUser (f arg : Z) : fn Z.

(** [how] of [pthread_sigmask] *)
Inductive sighow : Type := SIG_BLOCK | SIG_UNBLOCK.

(** ** Commands *)
Inductive cmd : Type → Type :=
(* memory *)
| Load {A} (v : var A) : cmd A
| Store {A} (v : var A) (x : A) : cmd unit
| Crash (f : fault) : cmd Empty_set
(* malloc and free; [Choose] is a call that may fail, decided by the label *)
| Choose : cmd bool
| MallocTcb : cmd (option loc)
| FreeTcb (p : option loc) : cmd unit
| MallocStack (size : Z) : cmd sptr
| FreeStack (p : sptr) : cmd unit
| MallocKinfo (i : Z) : cmd bool
| FreeKinfo (i : Z) : cmd unit
| AllocArgs : cmd Z
| FreeArgs (a : Z) : cmd unit
(* queue.c *)
| QInit (q : qref) : cmd Z
| QDestroy (q : qref) : cmd unit
| QEnqueue (q : qref) (p : loc) : cmd Z
| QDequeue (q : qref) : cmd (option loc)
| QSize (q : qref) : cmd Z
(* pthreads, semaphores, signals, timers *)
| Gettid : cmd Z
| PthreadSelf : cmd Z
| PthreadCreate (f : fn unit) : cmd Z
| PthreadJoin (t : Z) : cmd Z
| PthreadExit : cmd Empty_set
| MutexInit (m : mutex_id) : cmd Z
| MutexLock (m : mutex_id) : cmd Z
| MutexUnlock (m : mutex_id) : cmd Z
| MutexDestroy (m : mutex_id) : cmd Z
| SemInit (s : ksem_id) (v : Z) : cmd Z
| SemPost (s : ksem_id) : cmd Z
| SemWait (s : ksem_id) : cmd Z
| SemDestroy (s : ksem_id) : cmd Z
| Sigmask (how : sighow) (set : bool) : cmd Z
| Signal : cmd Z
| SigReturn : cmd unit
| TimerCreate (ktid : Z) : cmd (option Z)
| TimerSettime (t nsec : Z) : cmd Z
| TimerDelete (t : Z) : cmd Z
(* ucontext.h *)
| Getcontext (c : ctxref) : cmd Z
| Makecontext (c : ctxref) (f : fn unit) : cmd unit
| Setcontext (c : ctxref) : cmd Z
| Swapcontext (o c : ctxref) : cmd Z
(* a C call *)
| Call {A} (f : fn A) : cmd A.

(** ** Programs *)
Inductive prog (A : Type) : Type :=
| Ret (a : A)
| Vis {B : Type} (c : cmd B) (k : B → prog A).
Arguments Ret {_} _.
Arguments Vis {_ _} _ _.

Fixpoint pbind {A B} (p : prog A) (f : A → prog B) : prog B :=
  match p with
  | Ret a => f a
  | Vis c k => Vis c (λ b, pbind (k b) f)
  end.

Definition do_ {A} (c : cmd A) : prog A := Vis c Ret.
Coercion do_ : cmd >-> prog.

Declare Scope prog_scope.
Delimit Scope prog_scope with prog.
Bind Scope prog_scope with prog.
Notation "x ← y ; z" := (pbind y (λ x, z)) : prog_scope.
Notation "y ;; z" := (pbind y (λ _, z)) : prog_scope.

(** ** C control flow in programs *)
Definition crash {A} (f : fault) : prog A := Vis (Crash f) (λ e, match e with end).
Definition abort {A} : prog A := crash Aborted.
Definition passert (b : bool) : prog unit := if b then Ret tt else crash AssertFail.
(** [if (call) { perror(...); abort(); }] *)
Definition or_abort (p : prog Z) : prog unit :=
  pbind p (λ r, if r =? 0 then Ret tt else abort).
(** [*p] and [p->...] for a pointer that may be NULL *)
Definition deref {A} (p : option A) : prog A :=
  match p with Some l => Ret l | None => crash NullDeref end.
Definition lift_res {A} (r : res A) : prog A :=
  match r with Ok a => Ret a | Fault f => crash f end.

(** [for (k = i; k < i + n; k++) s = body(k, s)] *)
Fixpoint pfor {S} (n : nat) (i : Z) (body : Z → S → prog S) (s : S) : prog S :=
  match n with
  | O => Ret s
  | Datatypes.S n' => pbind (body i s) (pfor n' (i + 1) body)
  end.
(** The same loop, left early when the body returns [Some r]. *)
Fixpoint pfind {R} (n : nat) (i : Z) (body : Z → prog (option R)) : prog (option R) :=
  match n with
  | O => Ret None
  | S n' => pbind (body i) (λ o, match o with
                                 | Some r => Ret (Some r)
                                 | None => pfind n' (i + 1) body
                                 end)
  end.

(** ** State *)

(** What a context resumes: nothing yet, the entry of a function, or the rest
    of the program that called [swapcontext] or [getcontext]. *)
Inductive ctxbody : Type :=
| CtxNone | CtxEntry (f : fn unit) | CtxResume (p : prog unit).

Record uctx : Type := Uctx {
  uc_link : option ctxref; ss_sp : sptr; ss_size : Z; uc_mask : bool; uc_body : ctxbody }.

(** A queue is [None] once [queue_destroy] freed nodes it still points to. *)
Record tcb : Type := Tcb {
  t_tid : Z; t_stack_allocated : Z; t_state : thread_state; t_retval : Z;
  t_joinq : option (list loc); t_ctx : uctx }.

Record kinfo : Type := Kinfo {
  ki_ktid : Z; ki_current_tid : Z; ki_task : sched_task; ki_lock : option mutex_id;
  ki_queue : option qref; ki_timer : Z; ki_preempted : Z; ki_ctx : uctx }.

Record usem : Type := Usem { us_counter : Z; us_queue : option (list loc) }.
Record timer : Type := Timer { tm_ktid : Z; tm_nsec : Z }.
Record targs : Type := Targs { ta_start : kstart; ta_arg : Z; ta_ptid : ktidref; ta_error : Z }.

(** A kernel thread: the program it runs, its signal mask, a pending SIGRTMIN,
    its errno, whether it terminated. *)
Record kthr : Type := Kthr {
  k_prog : prog unit; k_mask : bool; k_pending : bool; k_errno : Z; k_done : bool }.

Record machine : Type := Machine {
  m_inited : Z;  (* uthread.c [inited] *)
  m_quantum : Z;  (* [quantum] *)
  m_num_kthreads : Z;  (* [num_kthreads] *)
  m_sigset : bool;  (* SIGRTMIN is in [sigrtmin_mask] *)
  m_handler : bool;  (* a SIGRTMIN handler is installed *)
  m_tcbs : list (option loc);  (* [tcbs], 1024 pointers *)
  m_heap : gmap loc tcb;  (* live thread control blocks *)
  m_next : positive;  (* next address malloc returns; never reused *)
  m_stacks : gmap positive Z;  (* live malloc'ed stacks and their sizes *)
  m_kinfo : gmap Z kinfo;  (* [kthread_info], by index *)
  m_bitvec : bitvec_t;  (* [bitvec] *)
  m_rqueue : option (list loc);  (* [rqueue.queue] *)
  m_abort_ctx : uctx;  (* [abort_ctx] *)
  m_mutex : gmap mutex_id (option Z);  (* initialised mutexes and their owners *)
  m_ksem : gmap ksem_id Z;  (* initialised kernel semaphores *)
  m_usem : gmap Z usem;  (* the client's [uthread_sem_t]s, by address *)
  m_timers : gmap Z timer;  (* POSIX timers *)
  m_kt_inited : Z;  (* kthread.c [inited] *)
  m_tidmap : list (Z * Z);  (* [kthreads]: (tid, pthread) entries *)
  m_targs : gmap Z targs;  (* live [struct trampoline_args] *)
  m_threads : gmap Z kthr;  (* kernel threads, by gettid() *)
  m_user : gmap Z Z;  (* the client's variables *)
}.

Definition set_inited (x : Z) (m : machine) : machine :=
  Machine x (m_quantum m) (m_num_kthreads m) (m_sigset m) (m_handler m) (m_tcbs m) (m_heap
    m) (m_next m) (m_stacks m) (m_kinfo m) (m_bitvec m) (m_rqueue m) (m_abort_ctx m)
    (m_mutex m) (m_ksem m) (m_usem m) (m_timers m) (m_kt_inited m) (m_tidmap m) (m_targs
    m) (m_threads m) (m_user m).
Definition set_quantum (x : Z) (m : machine) : machine :=
  Machine (m_inited m) x (m_num_kthreads m) (m_sigset m) (m_handler m) (m_tcbs m) (m_heap
    m) (m_next m) (m_stacks m) (m_kinfo m) (m_bitvec m) (m_rqueue m) (m_abort_ctx m)
    (m_mutex m) (m_ksem m) (m_usem m) (m_timers m) (m_kt_inited m) (m_tidmap m) (m_targs
    m) (m_threads m) (m_user m).
Definition set_num_kthreads (x : Z) (m : machine) : machine :=
  Machine (m_inited m) (m_quantum m) x (m_sigset m) (m_handler m) (m_tcbs m) (m_heap m)
    (m_next m) (m_stacks m) (m_kinfo m) (m_bitvec m) (m_rqueue m) (m_abort_ctx m) (m_mutex
    m) (m_ksem m) (m_usem m) (m_timers m) (m_kt_inited m) (m_tidmap m) (m_targs m)
    (m_threads m) (m_user m).
Definition set_sigset (x : bool) (m : machine) : machine :=
  Machine (m_inited m) (m_quantum m) (m_num_kthreads m) x (m_handler m) (m_tcbs m) (m_heap
    m) (m_next m) (m_stacks m) (m_kinfo m) (m_bitvec m) (m_rqueue m) (m_abort_ctx m)
    (m_mutex m) (m_ksem m) (m_usem m) (m_timers m) (m_kt_inited m) (m_tidmap m) (m_targs
    m) (m_threads m) (m_user m).
Definition set_handler (x : bool) (m : machine) : machine :=
  Machine (m_inited m) (m_quantum m) (m_num_kthreads m) (m_sigset m) x (m_tcbs m) (m_heap
    m) (m_next m) (m_stacks m) (m_kinfo m) (m_bitvec m) (m_rqueue m) (m_abort_ctx m)
    (m_mutex m) (m_ksem m) (m_usem m) (m_timers m) (m_kt_inited m) (m_tidmap m) (m_targs
    m) (m_threads m) (m_user m).
Definition set_tcbs (x : list (option loc)) (m : machine) : machine :=
  Machine (m_inited m) (m_quantum m) (m_num_kthreads m) (m_sigset m) (m_handler m) x
    (m_heap m) (m_next m) (m_stacks m) (m_kinfo m) (m_bitvec m) (m_rqueue m) (m_abort_ctx
    m) (m_mutex m) (m_ksem m) (m_usem m) (m_timers m) (m_kt_inited m) (m_tidmap m)
    (m_targs m) (m_threads m) (m_user m).
Definition set_heap (x : gmap loc tcb) (m : machine) : machine :=
  Machine (m_inited m) (m_quantum m) (m_num_kthreads m) (m_sigset m) (m_handler m) (m_tcbs
    m) x (m_next m) (m_stacks m) (m_kinfo m) (m_bitvec m) (m_rqueue m) (m_abort_ctx m)
    (m_mutex m) (m_ksem m) (m_usem m) (m_timers m) (m_kt_inited m) (m_tidmap m) (m_targs
    m) (m_threads m) (m_user m).
Definition set_next (x : positive) (m : machine) : machine :=
  Machine (m_inited m) (m_quantum m) (m_num_kthreads m) (m_sigset m) (m_handler m) (m_tcbs
    m) (m_heap m) x (m_stacks m) (m_kinfo m) (m_bitvec m) (m_rqueue m) (m_abort_ctx m)
    (m_mutex m) (m_ksem m) (m_usem m) (m_timers m) (m_kt_inited m) (m_tidmap m) (m_targs
    m) (m_threads m) (m_user m).
Definition set_stacks (x : gmap positive Z) (m : machine) : machine :=
  Machine (m_inited m) (m_quantum m) (m_num_kthreads m) (m_sigset m) (m_handler m) (m_tcbs
    m) (m_heap m) (m_next m) x (m_kinfo m) (m_bitvec m) (m_rqueue m) (m_abort_ctx m)
    (m_mutex m) (m_ksem m) (m_usem m) (m_timers m) (m_kt_inited m) (m_tidmap m) (m_targs
    m) (m_threads m) (m_user m).
Definition set_kinfo (x : gmap Z kinfo) (m : machine) : machine :=
  Machine (m_inited m) (m_quantum m) (m_num_kthreads m) (m_sigset m) (m_handler m) (m_tcbs
    m) (m_heap m) (m_next m) (m_stacks m) x (m_bitvec m) (m_rqueue m) (m_abort_ctx m)
    (m_mutex m) (m_ksem m) (m_usem m) (m_timers m) (m_kt_inited m) (m_tidmap m) (m_targs
    m) (m_threads m) (m_user m).
Definition set_bitvec (x : bitvec_t) (m : machine) : machine :=
  Machine (m_inited m) (m_quantum m) (m_num_kthreads m) (m_sigset m) (m_handler m) (m_tcbs
    m) (m_heap m) (m_next m) (m_stacks m) (m_kinfo m) x (m_rqueue m) (m_abort_ctx m)
    (m_mutex m) (m_ksem m) (m_usem m) (m_timers m) (m_kt_inited m) (m_tidmap m) (m_targs
    m) (m_threads m) (m_user m).
Definition set_rqueue (x : option (list loc)) (m : machine) : machine :=
  Machine (m_inited m) (m_quantum m) (m_num_kthreads m) (m_sigset m) (m_handler m) (m_tcbs
    m) (m_heap m) (m_next m) (m_stacks m) (m_kinfo m) (m_bitvec m) x (m_abort_ctx m)
    (m_mutex m) (m_ksem m) (m_usem m) (m_timers m) (m_kt_inited m) (m_tidmap m) (m_targs
    m) (m_threads m) (m_user m).
Definition set_abort_ctx (x : uctx) (m : machine) : machine :=
  Machine (m_inited m) (m_quantum m) (m_num_kthreads m) (m_sigset m) (m_handler m) (m_tcbs
    m) (m_heap m) (m_next m) (m_stacks m) (m_kinfo m) (m_bitvec m) (m_rqueue m) x (m_mutex
    m) (m_ksem m) (m_usem m) (m_timers m) (m_kt_inited m) (m_tidmap m) (m_targs m)
    (m_threads m) (m_user m).
Definition set_mutex (x : gmap mutex_id (option Z)) (m : machine) : machine :=
  Machine (m_inited m) (m_quantum m) (m_num_kthreads m) (m_sigset m) (m_handler m) (m_tcbs
    m) (m_heap m) (m_next m) (m_stacks m) (m_kinfo m) (m_bitvec m) (m_rqueue m)
    (m_abort_ctx m) x (m_ksem m) (m_usem m) (m_timers m) (m_kt_inited m) (m_tidmap m)
    (m_targs m) (m_threads m) (m_user m).
Definition set_ksem (x : gmap ksem_id Z) (m : machine) : machine :=
  Machine (m_inited m) (m_quantum m) (m_num_kthreads m) (m_sigset m) (m_handler m) (m_tcbs
    m) (m_heap m) (m_next m) (m_stacks m) (m_kinfo m) (m_bitvec m) (m_rqueue m)
    (m_abort_ctx m) (m_mutex m) x (m_usem m) (m_timers m) (m_kt_inited m) (m_tidmap m)
    (m_targs m) (m_threads m) (m_user m).
Definition set_usem (x : gmap Z usem) (m : machine) : machine :=
  Machine (m_inited m) (m_quantum m) (m_num_kthreads m) (m_sigset m) (m_handler m) (m_tcbs
    m) (m_heap m) (m_next m) (m_stacks m) (m_kinfo m) (m_bitvec m) (m_rqueue m)
    (m_abort_ctx m) (m_mutex m) (m_ksem m) x (m_timers m) (m_kt_inited m) (m_tidmap m)
    (m_targs m) (m_threads m) (m_user m).
Definition set_timers (x : gmap Z timer) (m : machine) : machine :=
  Machine (m_inited m) (m_quantum m) (m_num_kthreads m) (m_sigset m) (m_handler m) (m_tcbs
    m) (m_heap m) (m_next m) (m_stacks m) (m_kinfo m) (m_bitvec m) (m_rqueue m)
    (m_abort_ctx m) (m_mutex m) (m_ksem m) (m_usem m) x (m_kt_inited m) (m_tidmap m)
    (m_targs m) (m_threads m) (m_user m).
Definition set_kt_inited (x : Z) (m : machine) : machine :=
  Machine (m_inited m) (m_quantum m) (m_num_kthreads m) (m_sigset m) (m_handler m) (m_tcbs
    m) (m_heap m) (m_next m) (m_stacks m) (m_kinfo m) (m_bitvec m) (m_rqueue m)
    (m_abort_ctx m) (m_mutex m) (m_ksem m) (m_usem m) (m_timers m) x (m_tidmap m) (m_targs
    m) (m_threads m) (m_user m).
Definition set_tidmap (x : list (Z * Z)) (m : machine) : machine :=
  Machine (m_inited m) (m_quantum m) (m_num_kthreads m) (m_sigset m) (m_handler m) (m_tcbs
    m) (m_heap m) (m_next m) (m_stacks m) (m_kinfo m) (m_bitvec m) (m_rqueue m)
    (m_abort_ctx m) (m_mutex m) (m_ksem m) (m_usem m) (m_timers m) (m_kt_inited m) x
    (m_targs m) (m_threads m) (m_user m).
Definition set_targs (x : gmap Z targs) (m : machine) : machine :=
  Machine (m_inited m) (m_quantum m) (m_num_kthreads m) (m_sigset m) (m_handler m) (m_tcbs
    m) (m_heap m) (m_next m) (m_stacks m) (m_kinfo m) (m_bitvec m) (m_rqueue m)
    (m_abort_ctx m) (m_mutex m) (m_ksem m) (m_usem m) (m_timers m) (m_kt_inited m)
    (m_tidmap m) x (m_threads m) (m_user m).
Definition set_threads (x : gmap Z kthr) (m : machine) : machine :=
  Machine (m_inited m) (m_quantum m) (m_num_kthreads m) (m_sigset m) (m_handler m) (m_tcbs
    m) (m_heap m) (m_next m) (m_stacks m) (m_kinfo m) (m_bitvec m) (m_rqueue m)
    (m_abort_ctx m) (m_mutex m) (m_ksem m) (m_usem m) (m_timers m) (m_kt_inited m)
    (m_tidmap m) (m_targs m) x (m_user m).
Definition set_user (x : gmap Z Z) (m : machine) : machine :=
  Machine (m_inited m) (m_quantum m) (m_num_kthreads m) (m_sigset m) (m_handler m) (m_tcbs
    m) (m_heap m) (m_next m) (m_stacks m) (m_kinfo m) (m_bitvec m) (m_rqueue m)
    (m_abort_ctx m) (m_mutex m) (m_ksem m) (m_usem m) (m_timers m) (m_kt_inited m)
    (m_tidmap m) (m_targs m) (m_threads m) x.

(** ** Single fields *)
Definition uc0 : uctx := Uctx None SNull 0 false CtxNone.
Definition tcb0 : tcb := Tcb 0 0 READY 0 (Some []) uc0.
Definition kinfo0 : kinfo := Kinfo 0 0 NONE None None 0 0 uc0.

Definition set_uc_link x c := Uctx x (ss_sp c) (ss_size c) (uc_mask c) (uc_body c).
Definition set_ss_sp x c := Uctx (uc_link c) x (ss_size c) (uc_mask c) (uc_body c).
Definition set_ss_size x c := Uctx (uc_link c) (ss_sp c) x (uc_mask c) (uc_body c).
(** [getcontext], [makecontext] and [swapcontext] store the mask and the body. *)
Definition set_uc_regs mask b c := Uctx (uc_link c) (ss_sp c) (ss_size c) mask b.

Definition set_t_tid x t :=
  Tcb x (t_stack_allocated t) (t_state t) (t_retval t) (t_joinq t) (t_ctx t).
Definition set_t_stack_allocated x t :=
  Tcb (t_tid t) x (t_state t) (t_retval t) (t_joinq t) (t_ctx t).
Definition set_t_state x t :=
  Tcb (t_tid t) (t_stack_allocated t) x (t_retval t) (t_joinq t) (t_ctx t).
Definition set_t_retval x t :=
  Tcb (t_tid t) (t_stack_allocated t) (t_state t) x (t_joinq t) (t_ctx t).
Definition set_t_joinq x t :=
  Tcb (t_tid t) (t_stack_allocated t) (t_state t) (t_retval t) x (t_ctx t).
Definition set_t_ctx x t :=
  Tcb (t_tid t) (t_stack_allocated t) (t_state t) (t_retval t) (t_joinq t) x.

Definition set_ki_ktid x k := Kinfo x (ki_current_tid k) (ki_task k) (ki_lock k)
  (ki_queue k) (ki_timer k) (ki_preempted k) (ki_ctx k).
Definition set_ki_current_tid x k := Kinfo (ki_ktid k) x (ki_task k) (ki_lock k)
  (ki_queue k) (ki_timer k) (ki_preempted k) (ki_ctx k).
Definition set_ki_task x k := Kinfo (ki_ktid k) (ki_current_tid k) x (ki_lock k)
  (ki_queue k) (ki_timer k) (ki_preempted k) (ki_ctx k).
Definition set_ki_lock x k := Kinfo (ki_ktid k) (ki_current_tid k) (ki_task k) x
  (ki_queue k) (ki_timer k) (ki_preempted k) (ki_ctx k).
Definition set_ki_queue x k := Kinfo (ki_ktid k) (ki_current_tid k) (ki_task k) (ki_lock k)
  x (ki_timer k) (ki_preempted k) (ki_ctx k).
Definition set_ki_timer x k := Kinfo (ki_ktid k) (ki_current_tid k) (ki_task k) (ki_lock k)
  (ki_queue k) x (ki_preempted k) (ki_ctx k).
Definition set_ki_preempted x k := Kinfo (ki_ktid k) (ki_current_tid k) (ki_task k)
  (ki_lock k) (ki_queue k) (ki_timer k) x (ki_ctx k).
Definition set_ki_ctx x k := Kinfo (ki_ktid k) (ki_current_tid k) (ki_task k) (ki_lock k)
  (ki_queue k) (ki_timer k) (ki_preempted k) x.

Definition set_k_prog x t := Kthr x (k_mask t) (k_pending t) (k_errno t) (k_done t).
Definition set_k_mask x t := Kthr (k_prog t) x (k_pending t) (k_errno t) (k_done t).
Definition set_k_pending x t := Kthr (k_prog t) (k_mask t) x (k_errno t) (k_done t).
Definition set_k_errno x t := Kthr (k_prog t) (k_mask t) (k_pending t) x (k_done t).
Definition set_k_done x t := Kthr (k_prog t) (k_mask t) (k_pending t) (k_errno t) x.

(** ** Reads and writes of records behind a pointer *)
Definition tcb_get {A} (f : tcb → A) (p : loc) (m : machine) : res A :=
  t ← of_opt UseAfterFree (m_heap m !! p); Ok (f t).
Definition tcb_upd (g : tcb → tcb) (p : loc) (m : machine) : res machine :=
  t ← of_opt UseAfterFree (m_heap m !! p);
  Ok (set_heap (<[p := g t]> (m_heap m)) m).

Definition kinfo_get {A} (f : kinfo → A) (i : Z) (m : machine) : res A :=
  k ← of_opt UseAfterFree (m_kinfo m !! i); Ok (f k).
Definition kinfo_upd (g : kinfo → kinfo) (i : Z) (m : machine) : res machine :=
  k ← of_opt UseAfterFree (m_kinfo m !! i);
  Ok (set_kinfo (<[i := g k]> (m_kinfo m)) m).

Definition targs_get {A} (f : targs → A) (a : Z) (m : machine) : res A :=
  t ← of_opt UseAfterFree (m_targs m !! a); Ok (f t).
Definition targs_upd (g : targs → targs) (a : Z) (m : machine) : res machine :=
  t ← of_opt UseAfterFree (m_targs m !! a);
  Ok (set_targs (<[a := g t]> (m_targs m)) m).

Definition ctx_get (c : ctxref) (m : machine) : res uctx :=
  match c with
  | CtxSched i => kinfo_get ki_ctx i m
  | CtxTcb p => tcb_get t_ctx p m
  | CtxAbort => Ok (m_abort_ctx m)
  end.
Definition ctx_upd (g : uctx → uctx) (c : ctxref) (m : machine) : res machine :=
  match c with
  | CtxSched i => kinfo_upd (λ k, set_ki_ctx (g (ki_ctx k)) k) i m
  | CtxTcb p => tcb_upd (λ t, set_t_ctx (g (t_ctx t)) t) p m
  | CtxAbort => Ok (set_abort_ctx (g (m_abort_ctx m)) m)
  end.

Definition queue_get (q : qref) (m : machine) : res (list loc) :=
  match q with
  | QReady => of_opt UseAfterFree (m_rqueue m)
  | QJoin p => o ← tcb_get t_joinq p m; of_opt UseAfterFree o
  | QSem a => s ← of_opt UseAfterFree (m_usem m !! a); of_opt UseAfterFree (us_queue s)
  end.
Definition queue_set (o : option (list loc)) (q : qref) (m : machine) : res machine :=
  match q with
  | QReady => Ok (set_rqueue o m)
  | QJoin p => tcb_upd (set_t_joinq o) p m
  | QSem a =>
      Ok (set_usem (<[a := Usem (from_option us_counter 0 (m_usem m !! a)) o]> (m_usem m)) m)
  end.

(** The kernel thread [k] itself *)
Definition thr_upd (g : kthr → kthr) (k : Z) (m : machine) : machine :=
  set_threads (alter g k (m_threads m)) m.

(** [load] reads an lvalue; [k] is the calling kernel thread. *)
Definition load {A} (v : var A) (k : Z) (m : machine) : res A :=
  match v in var A return res A with
  | VInited => Ok (m_inited m)
  | VQuantum => Ok (m_quantum m)
  | VNumKthreads => Ok (m_num_kthreads m)
  | VSigrtminMask => Ok (m_sigset m)
  | VTcbs tid => of_opt OutOfBounds (znth (m_tcbs m) tid)
  | VTcbTid p => tcb_get t_tid p m
  | VTcbStackAllocated p => tcb_get t_stack_allocated p m
  | VTcbState p => tcb_get t_state p m
  | VTcbRetval p => tcb_get t_retval p m
  | VCtxLink c => u ← ctx_get c m; Ok (uc_link u)
  | VCtxSp c => u ← ctx_get c m; Ok (ss_sp u)
  | VCtxSsize c => u ← ctx_get c m; Ok (ss_size u)
  | VKiKtid i => kinfo_get ki_ktid i m
  | VKiCurrentTid i => kinfo_get ki_current_tid i m
  | VKiTask i => kinfo_get ki_task i m
  | VKiLock i => kinfo_get ki_lock i m
  | VKiQueue i => kinfo_get ki_queue i m
  | VKiTimer i => kinfo_get ki_timer i m
  | VKiPreempted i => kinfo_get ki_preempted i m
  | VBitvec => Ok (m_bitvec m)
  | VSemCounter a => s ← of_opt UseAfterFree (m_usem m !! a); Ok (us_counter s)
  | VKtInited => Ok (m_kt_inited m)
  | VKtTid i => e ← of_opt OutOfBounds (znth (m_tidmap m) i); Ok e.1
  | VKtThread i => e ← of_opt OutOfBounds (znth (m_tidmap m) i); Ok e.2
  | VArgStart a => targs_get ta_start a m
  | VArgArg a => targs_get ta_arg a m
  | VArgPtid a => targs_get ta_ptid a m
  | VArgError a => targs_get ta_error a m
  | VErrno => Ok (from_option k_errno 0 (m_threads m !! k))
  | VUser x => Ok (default 0 (m_user m !! x))
  end.

Definition store {A} (v : var A) : A → Z → machine → res machine :=
  match v in var A return A → Z → machine → res machine with
  | VInited => λ x _ m, Ok (set_inited x m)
  | VQuantum => λ x _ m, Ok (set_quantum x m)
  | VNumKthreads => λ x _ m, Ok (set_num_kthreads x m)
  | VSigrtminMask => λ x _ m, Ok (set_sigset x m)
  | VTcbs tid => λ x _ m, l ← of_opt OutOfBounds (zupd (m_tcbs m) tid x); Ok (set_tcbs l m)
  | VTcbTid p => λ x _, tcb_upd (set_t_tid x) p
  | VTcbStackAllocated p => λ x _, tcb_upd (set_t_stack_allocated x) p
  | VTcbState p => λ x _, tcb_upd (set_t_state x) p
  | VTcbRetval p => λ x _, tcb_upd (set_t_retval x) p
  | VCtxLink c => λ x _, ctx_upd (set_uc_link x) c
  | VCtxSp c => λ x _, ctx_upd (set_ss_sp x) c
  | VCtxSsize c => λ x _, ctx_upd (set_ss_size x) c
  | VKiKtid i => λ x _, kinfo_upd (set_ki_ktid x) i
  | VKiCurrentTid i => λ x _, kinfo_upd (set_ki_current_tid x) i
  | VKiTask i => λ x _, kinfo_upd (set_ki_task x) i
  | VKiLock i => λ x _, kinfo_upd (set_ki_lock x) i
  | VKiQueue i => λ x _, kinfo_upd (set_ki_queue x) i
  | VKiTimer i => λ x _, kinfo_upd (set_ki_timer x) i
  | VKiPreempted i => λ x _, kinfo_upd (set_ki_preempted x) i
  | VBitvec => λ x _ m, Ok (set_bitvec x m)
  | VSemCounter a => λ x _ m,
      Ok (set_usem (<[a := Usem x (mbind us_queue (m_usem m !! a))]> (m_usem m)) m)
  | VKtInited => λ x _ m, Ok (set_kt_inited x m)
  | VKtTid i => λ x _ m,
      e ← of_opt OutOfBounds (znth (m_tidmap m) i);
      l ← of_opt OutOfBounds (zupd (m_tidmap m) i (x, e.2)); Ok (set_tidmap l m)
  | VKtThread i => λ x _ m,
      e ← of_opt OutOfBounds (znth (m_tidmap m) i);
      l ← of_opt OutOfBounds (zupd (m_tidmap m) i (e.1, x)); Ok (set_tidmap l m)
  | VArgStart a => λ x _, targs_upd (λ t, Targs x (ta_arg t) (ta_ptid t) (ta_error t)) a
  | VArgArg a => λ x _, targs_upd (λ t, Targs (ta_start t) x (ta_ptid t) (ta_error t)) a
  | VArgPtid a => λ x _, targs_upd (λ t, Targs (ta_start t) (ta_arg t) x (ta_error t)) a
  | VArgError a => λ x _, targs_upd (λ t, Targs (ta_start t) (ta_arg t) (ta_ptid t) x) a
  | VErrno => λ x k m, Ok (thr_upd (set_k_errno x) k m)
  | VUser x => λ z _ m, Ok (set_user (<[x := z]> (m_user m)) m)
  end.

(** ** Commands *)

(** The outcome of a command: a value, not enabled yet, a fault. *)
Inductive xres (B : Type) : Type :=
| XOk (b : B) (m : machine)
| XBlock
| XFault (f : fault).
Arguments XOk {_} _ _.
Arguments XBlock {_}.
Arguments XFault {_} _.

Definition x_of {B} (r : res (B * machine)) : xres B :=
  match r with Ok (b, m) => XOk b m | Fault f => XFault f end.
Definition x_set (r : res machine) : xres unit :=
  match r with Ok m => XOk tt m | Fault f => XFault f end.

(** Error numbers, the bounds of the C library *)
Definition EAGAIN : Z := 11.
Definition ENOMEM : Z := 12.
Definition EBUSY : Z := 16.
Definition EINVAL : Z := 22.
Definition ESRCH : Z := 3.
Definition EDEADLK : Z := 35.
Definition EOVERFLOW : Z := 75.
Definition SEM_VALUE_MAX : Z := 2147483647.

(** A semaphore function that fails returns -1 and sets errno. *)
Definition sem_error {B} (e : Z) (k : Z) (m : machine) (b : B) : xres B :=
  XOk b (thr_upd (set_k_errno e) k m).

(** An address no element of the map uses. *)
Definition fresh_key {V} (m : gmap Z V) : Z :=
  1 + set_fold Z.max 0 (dom m : gset Z).

(** [exec c k ok m]: kernel thread [k] executes [c]; [ok] says whether a call
    the environment may refuse (malloc, pthread_create, timer_create) succeeds.
    The commands that replace the running program are in [step_cmd]. *)
Definition exec {B} (c : cmd B) (k : Z) (ok : bool) (m : machine) : xres B :=
  match c in cmd B return xres B with
  | Load v => match load v k m with Ok x => XOk x m | Fault f => XFault f end
  | Store v x => x_set (store v x k m)
  | Crash f => XFault f
  | Choose => XOk ok m
  | MallocTcb =>
      if ok then XOk (Some (m_next m))
        (set_next (Pos.succ (m_next m)) (set_heap (<[m_next m := tcb0]> (m_heap m)) m))
      else XOk None m
  | FreeTcb None => XOk tt m
  | FreeTcb (Some p) =>
      match m_heap m !! p with
      | Some _ => XOk tt (set_heap (delete p (m_heap m)) m)
      | None => XFault UseAfterFree
      end
  | MallocStack sz =>
      if ok then XOk (SMalloc (m_next m))
        (set_next (Pos.succ (m_next m)) (set_stacks (<[m_next m := sz]> (m_stacks m)) m))
      else XOk SNull m
  | FreeStack SNull => XOk tt m
  | FreeStack (SUser _) => XFault BadFree
  | FreeStack (SMalloc l) =>
      match m_stacks m !! l with
      | Some _ => XOk tt (set_stacks (delete l (m_stacks m)) m)
      | None => XFault UseAfterFree
      end
  | MallocKinfo i =>
      if ok then XOk true (set_kinfo (<[i := kinfo0]> (m_kinfo m)) m) else XOk false m
  | FreeKinfo i =>
      match m_kinfo m !! i with
      | Some _ => XOk tt (set_kinfo (delete i (m_kinfo m)) m)
      | None => XFault UseAfterFree
      end
  | AllocArgs =>
      let a := fresh_key (m_targs m) in
      XOk a (set_targs (<[a := Targs KthreadMain 0 (KinfoKtid 0) 0]> (m_targs m)) m)
  | FreeArgs a => XOk tt (set_targs (delete a (m_targs m)) m)
  | QInit q => match queue_set (Some []) q m with Ok m' => XOk 0 m' | Fault f => XFault f end
  | QDestroy q =>
      x_set (l ← queue_get q m;
             match l with [] => Ok m | _ => queue_set None q m end)
  | QEnqueue q p =>
      if ok then
        x_of (l ← queue_get q m; _ ← int_of (Z.of_nat (length l) + 1);
              m' ← queue_set (Some (l ++ [p])) q m; Ok (0, m'))
      else XOk ENOMEM m
  | QDequeue q =>
      x_of (l ← queue_get q m;
            match l with
            | [] => Ok (None, m)
            | p :: l' => m' ← queue_set (Some l') q m; Ok (Some p, m')
            end)
  | QSize q => x_of (l ← queue_get q m; Ok (Z.of_nat (length l), m))
  | Gettid | PthreadSelf => XOk k m
  | PthreadCreate f =>
      if ok then
        let t := fresh_key (m_threads m) in
        XOk 0 (set_threads (<[t := Kthr (Vis (Call f) Ret)
          (from_option k_mask false (m_threads m !! k)) false 0 false]> (m_threads m)) m)
      else XOk EAGAIN m
  | PthreadJoin t =>
      if decide (t = k) then XOk EDEADLK m
      else match m_threads m !! t with
           | None => XOk ESRCH m
           | Some th => if k_done th
                        then XOk 0 (set_threads (delete t (m_threads m)) m)
                        else XBlock
           end
  | MutexInit u => XOk 0 (set_mutex (<[u := None]> (m_mutex m)) m)
  | MutexLock u =>
      match m_mutex m !! u with
      | None => XOk EINVAL m
      | Some (Some _) => XBlock
      | Some None => XOk 0 (set_mutex (<[u := Some k]> (m_mutex m)) m)
      end
  | MutexUnlock u =>
      match m_mutex m !! u with
      | None => XOk EINVAL m
      | Some (Some k') => if decide (k' = k)
                          then XOk 0 (set_mutex (<[u := None]> (m_mutex m)) m)
                          else XFault MutexMisuse
      | Some None => XFault MutexMisuse
      end
  | MutexDestroy u =>
      match m_mutex m !! u with
      | None => XOk EINVAL m
      | Some (Some _) => XOk EBUSY m
      | Some None => XOk 0 (set_mutex (delete u (m_mutex m)) m)
      end
  | SemInit s v =>
      if decide (0 ≤ v ≤ SEM_VALUE_MAX)
      then XOk 0 (set_ksem (<[s := v]> (m_ksem m)) m)
      else sem_error EINVAL k m (-1)
  | SemPost s =>
      match m_ksem m !! s with
      | None => sem_error EINVAL k m (-1)
      | Some v => if decide (v < SEM_VALUE_MAX)
                  then XOk 0 (set_ksem (<[s := v + 1]> (m_ksem m)) m)
                  else sem_error EOVERFLOW k m (-1)
      end
  | SemWait s =>
      match m_ksem m !! s with
      | None => sem_error EINVAL k m (-1)
      | Some v => if decide (0 < v)
                  then XOk 0 (set_ksem (<[s := v - 1]> (m_ksem m)) m)
                  else XBlock
      end
  | SemDestroy s =>
      match m_ksem m !! s with
      | None => sem_error EINVAL k m (-1)
      | Some _ => XOk 0 (set_ksem (delete s (m_ksem m)) m)
      end
  | Sigmask how set =>
      XOk 0 (if set then thr_upd (set_k_mask (match how with SIG_BLOCK => true
                                              | SIG_UNBLOCK => false end)) k m
             else m)
  | Signal => XOk 0 (set_handler true m)
  | SigReturn => XOk tt (thr_upd (set_k_mask false) k m)
  | TimerCreate kt =>
      if ok then
        let t := fresh_key (m_timers m) in
        XOk (Some t) (set_timers (<[t := Timer kt 0]> (m_timers m)) m)
      else XOk None m
  | TimerSettime t ns =>
      match m_timers m !! t with
      | Some tm => if decide (0 ≤ ns ≤ 999999999)
                   then XOk 0 (set_timers (<[t := Timer (tm_ktid tm) ns]> (m_timers m)) m)
                   else sem_error EINVAL k m (-1)
      | None => sem_error EINVAL k m (-1)
      end
  | TimerDelete t =>
      match m_timers m !! t with
      | Some _ => XOk 0 (set_timers (delete t (m_timers m)) m)
      | None => sem_error EINVAL k m (-1)
      end
  | Makecontext c f =>
      x_set (ctx_upd (λ u, set_uc_regs (uc_mask u) (CtxEntry f) u) c m)
  (* commands that replace the running program: see [step_cmd] *)
  | PthreadExit | Getcontext _ | Setcontext _ | Swapcontext _ _ | Call _ => XFault BadContext
  end.

(** ** Steps *)

Inductive outcome : Type :=
| Next (m : machine)
| Blocked
| Crashed (f : fault).

Section step.
(** The text of the program: the body of every function called by name. *)
Context (text : ∀ A, fn A → prog A).

(** What runs when a context is resumed: a saved program, or the entry
    function, whose return resumes the successor context [uc_link]. *)
Definition ctx_prog (u : uctx) : option (prog unit) :=
  match uc_body u with
  | CtxNone => None
  | CtxResume p => Some p
  | CtxEntry f =>
      Some (pbind (text unit f) (λ _,
        match uc_link u with
        | Some c => Vis (Setcontext c) (λ _, Ret tt)
        | None => Ret tt
        end))
  end.

(** [setcontext]: the saved mask and the saved program replace the thread's. *)
Definition resume (c : ctxref) (k : Z) (m : machine) : outcome :=
  match ctx_get c m with
  | Fault f => Crashed f
  | Ok u => match ctx_prog u with
            | None => Crashed BadContext
            | Some p => Next (thr_upd (λ t, set_k_mask (uc_mask u) (set_k_prog p t)) k m)
            end
  end.

Definition save_ctx (p : prog unit) (c : ctxref) (k : Z) (m : machine) : res machine :=
  ctx_upd (set_uc_regs (from_option k_mask false (m_threads m !! k)) (CtxResume p)) c m.

(** One command of kernel thread [k], whose continuation is [kont]. *)
Definition step_cmd {B} (c : cmd B) (kont : B → prog unit) (k : Z) (ok : bool)
    (m : machine) : outcome :=
  match c in cmd B return (B → prog unit) → outcome with
  | Call f => λ kont, Next (thr_upd (set_k_prog (pbind (text _ f) kont)) k m)
  | PthreadExit => λ _, Next (thr_upd (λ t, set_k_done true (set_k_prog (Ret tt) t)) k m)
  | Setcontext c => λ _, resume c k m
  | Swapcontext o c => λ kont,
      match save_ctx (kont 0) o k m with
      | Ok m' => resume c k m'
      | Fault f => Crashed f
      end
  | Getcontext c => λ kont,
      match save_ctx (kont 0) c k m with
      | Ok m' => Next (thr_upd (set_k_prog (kont 0)) k m')
      | Fault f => Crashed f
      end
  | c => λ kont,
      match exec c k ok m with
      | XOk b m' => Next (thr_upd (set_k_prog (kont b)) k m')
      | XBlock => Blocked
      | XFault f => Crashed f
      end
  end kont.

(** A kernel thread executes its next command; a thread whose start routine
    returned terminates. *)
Definition step_thread (k : Z) (ok : bool) (m : machine) : outcome :=
  match m_threads m !! k with
  | None => Blocked
  | Some t =>
      if k_done t then Blocked
      else match k_prog t with
           | Ret _ => Next (thr_upd (set_k_done true) k m)
           | Vis c kont => step_cmd c kont k ok m
           end
  end.

(** A timer expires: SIGRTMIN becomes pending for its kernel thread. *)
Definition step_tick (t : Z) (m : machine) : outcome :=
  match m_timers m !! t with
  | Some tm => if decide (tm_nsec tm = 0) then Blocked
               else Next (thr_upd (set_k_pending true) (tm_ktid tm) m)
  | None => Blocked
  end.

(** A pending, unblocked SIGRTMIN is delivered: the handler runs, with the
    signal blocked, before the interrupted program goes on.  Without a
    handler the process dies. *)
Definition step_signal (k : Z) (m : machine) : outcome :=
  match m_threads m !! k with
  | Some t =>
      if k_pending t && negb (k_mask t) && negb (k_done t) then
        if m_handler m then
          Next (thr_upd (λ t, Kthr (Vis (Call FSigrtminHandler) (λ _,
                                     Vis SigReturn (λ _, k_prog t)))
                                   true false (k_errno t) (k_done t)) k m)
        else Crashed Aborted
      else Blocked
  | None => Blocked
  end.

(** The labels: who moves, and what the environment answers. *)
Inductive label : Type :=
| LRun (k : Z) (ok : bool)
| LTick (t : Z)
| LSignal (k : Z).

Definition step (l : label) (m : machine) : outcome :=
  match l with
  | LRun k ok => step_thread k ok m
  | LTick t => step_tick t m
  | LSignal k => step_signal k m
  end.

(** A schedule; a label that is not enabled is skipped. *)
Fixpoint run (ls : list label) (m : machine) : outcome :=
  match ls with
  | [] => Next m
  | l :: ls' => match step l m with
                | Next m' => run ls' m'
                | Blocked => run ls' m
                | Crashed f => Crashed f
                end
  end.

(** [n] commands of kernel thread [k] in a row, or up to the point where it
    blocks or terminates. *)
Fixpoint run_thread (n : nat) (k : Z) (m : machine) : outcome :=
  match n with
  | O => Next m
  | S n' => match step_thread k true m with
            | Next m' => run_thread n' k m'
            | Blocked => Next m
            | Crashed f => Crashed f
            end
  end.

Inductive steps : machine → machine → Prop :=
| steps_refl m : steps m m
| steps_step l m m1 m2 : step l m = Next m1 → steps m1 m2 → steps m m2.
End step.
