(* ===== verification/Kthread.v ===== *)
(** * kthread.c: kernel threads over pthreads

    The table [kthreads] maps gettid() values to pthreads; an entry whose tid is
    0 is free.  The wrappers of the pthread functions return what they return. *)
From S2P Require Import Prelude Machine.
Local Open Scope prog_scope.

Definition MAX_KTHREADS : Z := 64.

Definition kthread_self : prog Z := Gettid.

Definition tidmap_find_tid (tid : Z) : prog (option Z) :=
  pfind (Z.to_nat MAX_KTHREADS) 0 (λ i,
    t ← Load (VKtTid i);
    Ret (if t =? tid then Some i else None)).

Definition tidmap_add_self : prog Z :=
  MutexLock MKthreads ;;
  entry ← tidmap_find_tid 0;
  match entry with
  | None => MutexUnlock MKthreads ;; Ret (-1)
  | Some e =>
      self ← kthread_self;
      Store (VKtTid e) self ;;
      thread ← PthreadSelf;
      Store (VKtThread e) thread ;;
      MutexUnlock MKthreads ;;
      Load (VKtTid e)
  end.

Definition tidmap_del (entry : Z) : prog unit := Store (VKtTid entry) 0.

(** [*args->ptid = id] *)
Definition store_ktid (p : ktidref) (id : Z) : prog unit :=
  match p with
  | KinfoKtid i => Store (VKiKtid i) id
  | UserKtid x => Store (VUser x) id
  end.

Definition call_start (start : kstart) (arg : Z) : prog unit :=
  match start with
  | KthreadMain => Call (FKthreadMain arg)
  | KUser f => Call (FUser f arg) ;; Ret tt
  end.

Definition kthread_trampoline (args : Z) : prog unit :=
  start ← Load (VArgStart args);
  start_arg ← Load (VArgArg args);
  id ← tidmap_add_self;
  if id <? 0 then
    Store (VArgError args) EAGAIN ;;
    SemPost (KArgs args) ;;
    Ret tt
  else
    ptid ← Load (VArgPtid args);
    store_ktid ptid id ;;
    SemPost (KArgs args) ;;
    call_start start start_arg.

(** [args] lives in the frame of [kthread_create]: [FreeArgs] at its returns. *)
Definition kthread_create (ptid : ktidref) (start : kstart) (arg : Z) : prog Z :=
  i ← Load VKtInited;
  (if i =? 0 then tidmap_add_self ;; Store VKtInited 1 else Ret tt) ;;
  args ← AllocArgs;
  SemInit (KArgs args) 0 ;;
  Store (VArgStart args) start ;;
  Store (VArgArg args) arg ;;
  Store (VArgPtid args) ptid ;;
  Store (VArgError args) 0 ;;
  rv ← PthreadCreate (FKthreadTrampoline args);
  if negb (rv =? 0) then
    SemDestroy (KArgs args) ;;
    FreeArgs args ;;
    Ret rv
  else
    SemWait (KArgs args) ;;
    SemDestroy (KArgs args) ;;
    error ← Load (VArgError args);
    if negb (error =? 0) then
      Store VErrno error ;;
      FreeArgs args ;;
      Ret (-1)
    else
      FreeArgs args ;;
      Ret 0.

Definition kthread_exit {A} : prog A := Vis PthreadExit (λ e, match e with end).

Definition kthread_join (tid : Z) : prog Z :=
  MutexLock MKthreads ;;
  entry ← tidmap_find_tid tid;
  match entry with
  | None =>
      MutexUnlock MKthreads ;;
      Store VErrno ESRCH ;;
      Ret (-1)
  | Some e =>
      thread ← Load (VKtThread e);
      MutexUnlock MKthreads ;;
      rv ← PthreadJoin thread;
      if negb (rv =? 0) then Ret rv
      else
        MutexLock MKthreads ;;
        tidmap_del e ;;
        MutexUnlock MKthreads ;;
        Ret 0
  end.

Definition kthread_mutex_init (u : mutex_id) : prog Z := MutexInit u.
Definition kthread_mutex_lock (u : mutex_id) : prog Z := MutexLock u.
Definition kthread_mutex_unlock (u : mutex_id) : prog Z := MutexUnlock u.
Definition kthread_mutex_destroy (u : mutex_id) : prog Z := MutexDestroy u.
Definition kthread_sem_init (s : ksem_id) (value : Z) : prog Z := SemInit s value.
Definition kthread_sem_post (s : ksem_id) : prog Z := SemPost s.
Definition kthread_sem_wait (s : ksem_id) : prog Z := SemWait s.
Definition kthread_sem_destroy (s : ksem_id) : prog Z := SemDestroy s.
Definition kthread_sigmask (how : sighow) (set : bool) : prog Z := Sigmask how set.

(** Nothing in src/ calls the wrappers of the condition variables; the functions of
    <pthread.h> they call are parameters. *)
Section condition_variables.
Context (kthread_cond_t : Type).
Context (pthread_cond_init pthread_cond_signal pthread_cond_destroy : kthread_cond_t → prog Z).
Context (pthread_cond_wait : kthread_cond_t → mutex_id → prog Z).

Definition kthread_cond_init (cond : kthread_cond_t) : prog Z := pthread_cond_init cond.
Definition kthread_cond_signal (cond : kthread_cond_t) : prog Z := pthread_cond_signal cond.
Definition kthread_cond_wait (cond : kthread_cond_t) (mutex : mutex_id) : prog Z :=
  pthread_cond_wait cond mutex.
Definition kthread_cond_destroy (cond : kthread_cond_t) : prog Z := pthread_cond_destroy cond.
End condition_variables.
