(* ===== verification/Uthread.v ===== *)
(** * uthread.c: the thread library

    One definition per function, in the order the code needs them; each reads
    like the C function of the same name.  Messages on stderr and the Valgrind
    annotation are left out. *)
From S2P Require Import Prelude Bitvec Machine Kthread.
Local Open Scope prog_scope.

Definition MAIN_KTHREAD_INDEX : Z := 0.

(** ** Kernel-thread information, signal mask *)

(** The loop has no break: the last entry that matches wins. *)
Definition get_kthread_info (ktid : Z) : prog Z :=
  n ← Load VNumKthreads;
  kinfo ← pfor (Z.to_nat n) 0 (λ i kinfo,
            k ← Load (VKiKtid i);
            Ret (if k =? ktid then Some i else kinfo)) None;
  passert (bool_decide (is_Some kinfo)) ;;
  deref kinfo.

Definition get_sched_ctx : prog ctxref :=
  self ← kthread_self;
  kinfo ← get_kthread_info self;
  Ret (CtxSched kinfo).

Definition block_sigrtmin : prog unit :=
  quantum ← Load VQuantum;
  if negb (quantum =? 0) then
    set ← Load VSigrtminMask;
    or_abort (kthread_sigmask SIG_BLOCK set)
  else Ret tt.

Definition unblock_sigrtmin : prog unit :=
  quantum ← Load VQuantum;
  if negb (quantum =? 0) then
    set ← Load VSigrtminMask;
    or_abort (kthread_sigmask SIG_UNBLOCK set)
  else Ret tt.

Definition sigrtmin_handler : prog unit :=
  inited ← Load VInited;
  if inited =? 0 then Ret tt
  else
    quantum ← Load VQuantum;
    if quantum =? 0 then Ret tt
    else
      self ← kthread_self;
      kinfo ← get_kthread_info self;
      Store (VKiPreempted kinfo) 1.

(** ** Locks *)
Definition lock_tcbs : prog unit := or_abort (kthread_mutex_lock MTcbs).
Definition unlock_tcbs : prog unit := or_abort (kthread_mutex_unlock MTcbs).

(** [tcbs[tid]], dereferenced *)
Definition tcb_of (tid : Z) : prog loc :=
  p ← Load (VTcbs tid);
  deref p.

(** The current tid is an [int]; [tid_t] is unsigned. *)
Definition uthread_self : prog Z :=
  inited ← Load VInited;
  passert (negb (inited =? 0)) ;;
  self ← kthread_self;
  kinfo ← get_kthread_info self;
  tid ← Load (VKiCurrentTid kinfo);
  Ret (to_uint tid).

(** ** Yielding and preemption *)
Definition uthread_yield : prog unit :=
  inited ← Load VInited;
  passert (negb (inited =? 0)) ;;
  block_sigrtmin ;;
  self ← kthread_self;
  kinfo ← get_kthread_info self;
  Store (VKiTask kinfo) YIELD ;;
  lock_tcbs ;;
  tid ← uthread_self;
  current_tcb ← Load (VTcbs tid);
  current ← deref current_tcb;
  st ← Load (VTcbState current);
  passert (bool_decide (st = RUNNING)) ;;
  Store (VTcbState current) READY ;;
  sched ← get_sched_ctx;
  or_abort (Swapcontext (CtxTcb current) sched).

Definition check_preempted : prog unit :=
  self ← kthread_self;
  kinfo ← get_kthread_info self;
  quantum ← Load VQuantum;
  if quantum =? 0 then Ret tt
  else
    preempted ← Load (VKiPreempted kinfo);
    if preempted =? 0 then Ret tt
    else
      Store (VKiPreempted kinfo) 0 ;;
      uthread_yield.

(** The time slice is stored as nanoseconds. *)
Definition set_timer_interrupt (kid : Z) : prog unit :=
  kinfo ← get_kthread_info kid;
  Signal ;;
  timer ← TimerCreate kid;
  match timer with
  | None => abort
  | Some t =>
      Store (VKiTimer kinfo) t ;;
      quantum ← Load VQuantum;
      timer_id ← Load (VKiTimer kinfo);
      r ← TimerSettime timer_id quantum;
      if r <? 0 then abort else Ret tt
  end.

Definition kthread_main (arg : Z) : prog unit :=
  or_abort (kthread_sem_wait KInited) ;;
  block_sigrtmin ;;
  inited ← Load VInited;
  passert (negb (inited =? 0)) ;;
  quantum ← Load VQuantum;
  (if negb (quantum =? 0) then
     self ← kthread_self;
     set_timer_interrupt self
   else Ret tt) ;;
  sched ← get_sched_ctx;
  or_abort (Setcontext sched).

(** ** Thread identifiers *)
Definition get_next_tid : prog Z :=
  or_abort (kthread_mutex_lock MBitvec) ;;
  bv ← Load VBitvec;
  tid ← lift_res (bitvec_first_cleared_index bv);
  ret ← (if tid <? 0 then Ret 1
         else
           bv' ← lift_res (bitvec_set bv tid);
           Store VBitvec bv' ;;
           Ret (tid + UTHREAD_TID_MAIN));
  or_abort (kthread_mutex_unlock MBitvec) ;;
  Ret ret.

Definition reclaim_tid (tid : Z) : prog unit :=
  or_abort (kthread_mutex_lock MBitvec) ;;
  bv ← Load VBitvec;
  bv' ← lift_res (bitvec_clear bv (tid - UTHREAD_TID_MAIN));
  Store VBitvec bv' ;;
  or_abort (kthread_mutex_unlock MBitvec).

(** ** The ready queue *)

(** [queue_enqueue] asserts that neither argument is NULL. *)
Definition queue_enqueue (q : option qref) (item : option loc) : prog Z :=
  match q, item with
  | Some q, Some p => QEnqueue q p
  | _, _ => crash AssertFail
  end.

Definition ready_enqueue (tcb : option loc) : prog unit :=
  or_abort (kthread_mutex_lock MRqueue) ;;
  or_abort (queue_enqueue (Some QReady) tcb) ;;
  or_abort (kthread_mutex_unlock MRqueue) ;;
  or_abort (kthread_sem_post KNotEmpty).

Definition ready_dequeue : prog loc :=
  or_abort (kthread_sem_wait KNotEmpty) ;;
  or_abort (kthread_mutex_lock MRqueue) ;;
  n ← QSize QReady;
  passert (0 <? n) ;;
  tcb ← QDequeue QReady;
  passert (bool_decide (is_Some tcb)) ;;
  or_abort (kthread_mutex_unlock MRqueue) ;;
  deref tcb.

(** ** Stacks and thread control blocks *)
Definition allocate_stack (stack : ctxref) (stack_base : sptr) (stack_size : Z) : prog Z :=
  Store (VCtxSsize stack)
    (if negb (stack_size =? 0) then stack_size else UTHREAD_DEF_STACK_SIZE) ;;
  sp ← (if decide (stack_base = SNull) then
          size ← Load (VCtxSsize stack);
          MallocStack size
        else Ret stack_base);
  Store (VCtxSp stack) sp ;;
  sp' ← Load (VCtxSp stack);
  Ret (if decide (sp' = SNull) then 1 else 0).

Definition destroy_thread (tid : Z) : prog unit :=
  p ← tcb_of tid;
  QDestroy (QJoin p) ;;
  p ← tcb_of tid;
  allocated ← Load (VTcbStackAllocated p);
  (if negb (allocated =? 0) then
     p ← tcb_of tid;
     sp ← Load (VCtxSp (CtxTcb p));
     FreeStack sp
   else Ret tt) ;;
  p ← Load (VTcbs tid);
  FreeTcb p ;;
  Store (VTcbs tid) None.

Definition uthread_exit (ret : Z) : prog unit :=
  inited ← Load VInited;
  passert (negb (inited =? 0)) ;;
  block_sigrtmin ;;
  check_preempted ;;
  lock_tcbs ;;
  tid ← uthread_self;
  current ← tcb_of tid;
  Store (VTcbRetval current) ret ;;
  st ← Load (VTcbState current);
  passert (bool_decide (st = RUNNING)) ;;
  Store (VTcbState current) FINISHED ;;
  self ← kthread_self;
  kinfo ← get_kthread_info self;
  Store (VKiTask kinfo) EXIT ;;
  sched ← get_sched_ctx;
  or_abort (Setcontext sched).

Definition trampoline (start_func arg : Z) : prog unit :=
  lock_tcbs ;;
  tid ← uthread_self;
  p ← tcb_of tid;
  st ← Load (VTcbState p);
  passert (bool_decide (st = RUNNING)) ;;
  unlock_tcbs ;;
  ret ← Call (FUser start_func arg);
  uthread_exit ret.

(** ** The scheduler *)

(** The task another context left for this scheduler (the [switch]). *)
Definition schedule_task (kinfo : Z) (current_tid : Z) (current_tcb : option loc) : prog unit :=
  task ← Load (VKiTask kinfo);
  match task with
  | NONE => Ret tt
  | YIELD =>
      ready_enqueue current_tcb ;;
      unlock_tcbs
  | EXIT =>
      current ← deref current_tcb;
      n ← QSize (QJoin current);
      (if 0 <? n then
         join_tcb ← QDequeue (QJoin current);
         join ← match join_tcb with Some p => Ret p | None => crash AssertFail end;
         jtid ← Load (VTcbTid join);
         st ← Load (VTcbState join);
         passert (negb (jtid =? to_uint current_tid) && bool_decide (st = WAITING_JOIN)) ;;
         Store (VTcbState join) READY ;;
         ready_enqueue (Some join)
       else Ret tt) ;;
      unlock_tcbs
  | JOIN =>
      queue ← Load (VKiQueue kinfo);
      or_abort (queue_enqueue queue current_tcb) ;;
      unlock_tcbs
  | SEM_WAIT =>
      queue ← Load (VKiQueue kinfo);
      or_abort (queue_enqueue queue current_tcb) ;;
      lock ← Load (VKiLock kinfo);
      lock ← deref lock;
      or_abort (kthread_mutex_unlock lock) ;;
      unlock_tcbs
  | TEARDOWN =>
      current ← deref current_tcb;
      Store (VTcbState current) READY ;;
      ready_enqueue current_tcb ;;
      unlock_tcbs
  end.

(** The ready queue held [exitall]: the main kernel thread waits for the others
    and schedules again; every other kernel thread exits. *)
Definition handle_exitall : prog unit :=
  self ← kthread_self;
  main ← Load (VKiKtid MAIN_KTHREAD_INDEX);
  if self =? main then
    n ← Load VNumKthreads;
    pfor (Z.to_nat (to_size_t (n - 1))) 0 (λ _ _, or_abort (kthread_sem_wait KExitall)) tt ;;
    Call FSchedule
  else
    or_abort (kthread_sem_post KExitall) ;;
    kthread_exit.

(** The next thread becomes this kernel thread's current one and runs. *)
Definition dispatch (kinfo : Z) (next_tcb : loc) : prog unit :=
  lock_tcbs ;;
  self ← kthread_self;
  k ← get_kthread_info self;
  tid ← Load (VTcbTid next_tcb);
  Store (VKiCurrentTid k) (to_int tid) ;;
  st ← Load (VTcbState next_tcb);
  passert (bool_decide (st = READY)) ;;
  Store (VTcbState next_tcb) RUNNING ;;
  unlock_tcbs ;;
  Store (VKiPreempted kinfo) 0 ;;
  unblock_sigrtmin ;;
  or_abort (Setcontext (CtxTcb next_tcb)).

Definition schedule : prog unit :=
  block_sigrtmin ;;
  self ← kthread_self;
  kinfo ← get_kthread_info self;
  tid ← uthread_self;
  let current_tid := to_int tid in
  current_tcb ← (if 0 <=? current_tid then Load (VTcbs current_tid) else Ret None);
  ktid ← Load (VKiKtid kinfo);
  passert (self =? ktid) ;;
  schedule_task kinfo current_tid current_tcb ;;
  Store (VKiTask kinfo) NONE ;;
  Store (VKiLock kinfo) None ;;
  Store (VKiQueue kinfo) None ;;
  next_tcb ← ready_dequeue;
  (if decide (next_tcb = exitall) then handle_exitall else Ret tt) ;;
  dispatch kinfo next_tcb.

(** ** Creation and joining *)
Definition uthread_create (ptid start_func arg : Z) (stack_base : sptr) (stack_size : Z)
    : prog Z :=
  inited ← Load VInited;
  passert (negb (inited =? 0)) ;;
  block_sigrtmin ;;
  check_preempted ;;
  tid ← get_next_tid;
  let new_tid := to_uint tid in
  ret ← (if new_tid <? 0 then
           Store VErrno EAGAIN ;;
           Ret 1
         else
           Store (VUser ptid) new_tid ;;
           lock_tcbs ;;
           p ← MallocTcb;
           Store (VTcbs new_tid) p ;;
           p ← Load (VTcbs new_tid);
           match p with
           | None => Ret 1
           | Some _ =>
               p ← tcb_of new_tid; Store (VTcbTid p) new_tid ;;
               p ← tcb_of new_tid; Store (VTcbState p) READY ;;
               p ← tcb_of new_tid; or_abort (QInit (QJoin p)) ;;
               p ← tcb_of new_tid; or_abort (Getcontext (CtxTcb p)) ;;
               p ← tcb_of new_tid; r ← allocate_stack (CtxTcb p) stack_base stack_size;
               if negb (r =? 0) then
                 q ← Load (VTcbs new_tid);
                 FreeTcb q ;;
                 Ret 1
               else
                 p ← tcb_of new_tid;
                 Store (VTcbStackAllocated p) (if decide (stack_base = SNull) then 1 else 0) ;;
                 p ← tcb_of new_tid; Store (VCtxLink (CtxTcb p)) (Some CtxAbort) ;;
                 Store VErrno 0 ;;
                 p ← tcb_of new_tid;
                 Makecontext (CtxTcb p) (FTrampoline start_func arg) ;;
                 e ← Load VErrno;
                 (if negb (e =? 0) then abort else Ret tt) ;;
                 q ← Load (VTcbs new_tid);
                 ready_enqueue q ;;
                 unlock_tcbs ;;
                 Ret 0
           end);
  unblock_sigrtmin ;;
  Ret ret.

Definition uthread_join (tid : Z) (pret : option Z) : prog Z :=
  inited ← Load VInited;
  passert (negb (inited =? 0)) ;;
  block_sigrtmin ;;
  check_preempted ;;
  current_tid ← uthread_self;
  current_tcb ← Load (VTcbs current_tid);
  target_tcb ← Load (VTcbs tid);
  lock_tcbs ;;
  target ← deref target_tcb;
  st ← Load (VTcbState target);
  (if negb (bool_decide (st = FINISHED)) then
     current ← deref current_tcb;
     n ← QSize (QJoin current);
     passert (n =? 0) ;;
     self ← kthread_self;
     kinfo ← get_kthread_info self;
     Store (VKiTask kinfo) JOIN ;;
     Store (VKiQueue kinfo) (Some (QJoin target)) ;;
     Store (VTcbState current) WAITING_JOIN ;;
     sched ← get_sched_ctx;
     or_abort (Swapcontext (CtxTcb current) sched) ;;
     block_sigrtmin ;;
     lock_tcbs
   else Ret tt) ;;
  t ← tcb_of tid;
  st ← Load (VTcbState t);
  passert (bool_decide (st = FINISHED)) ;;
  match pret with
  | Some x =>
      t ← tcb_of tid;
      v ← Load (VTcbRetval t);
      Store (VUser x) v
  | None => Ret tt
  end ;;
  unlock_tcbs ;;
  reclaim_tid tid ;;
  destroy_thread tid ;;
  unblock_sigrtmin ;;
  Ret 0.

(** ** Counting semaphores *)
Definition uthread_sem_init (sem value : Z) : prog Z :=
  inited ← Load VInited;
  passert (negb (inited =? 0)) ;;
  block_sigrtmin ;;
  check_preempted ;;
  Store (VSemCounter sem) value ;;
  e ← kthread_mutex_init (MSem sem);
  Store VErrno e ;;
  ret ← (if negb (e =? 0) then Ret 1
         else
           r ← QInit (QSem sem);
           Ret (if negb (r =? 0) then 1 else 0));
  unblock_sigrtmin ;;
  Ret ret.

Definition uthread_sem_post (sem : Z) : prog Z :=
  inited ← Load VInited;
  passert (negb (inited =? 0)) ;;
  block_sigrtmin ;;
  check_preempted ;;
  r ← kthread_mutex_lock (MSem sem);
  ret ← (if negb (r =? 0) then Ret 1
         else
           c ← Load (VSemCounter sem);
           c' ← lift_res (int_of (c + 1));
           Store (VSemCounter sem) c' ;;
           n ← QSize (QSem sem);
           (if 0 <? n then
              tcb ← QDequeue (QSem sem);
              lock_tcbs ;;
              passert (bool_decide (is_Some tcb)) ;;
              p ← deref tcb;
              st ← Load (VTcbState p);
              passert (bool_decide (st = WAITING_SEM)) ;;
              Store (VTcbState p) READY ;;
              unlock_tcbs ;;
              ready_enqueue tcb
            else Ret tt) ;;
           r ← kthread_mutex_unlock (MSem sem);
           Ret (if negb (r =? 0) then 1 else 0));
  unblock_sigrtmin ;;
  Ret ret.

(** The loop [while (sem->counter == 0)]: [Some ret] is a [goto] out of it. *)
Definition sem_wait_loop (sem : Z) (current_tcb : option loc) : prog (option Z) :=
  c ← Load (VSemCounter sem);
  if negb (c =? 0) then Ret None
  else
    self ← kthread_self;
    kinfo ← get_kthread_info self;
    Store (VKiTask kinfo) SEM_WAIT ;;
    Store (VKiLock kinfo) (Some (MSem sem)) ;;
    Store (VKiQueue kinfo) (Some (QSem sem)) ;;
    lock_tcbs ;;
    current ← deref current_tcb;
    Store (VTcbState current) WAITING_SEM ;;
    sched ← get_sched_ctx;
    or_abort (Swapcontext (CtxTcb current) sched) ;;
    block_sigrtmin ;;
    r ← kthread_mutex_lock (MSem sem);
    if negb (r =? 0) then Ret (Some 1)
    else Call (FSemWaitLoop sem current_tcb).

Definition uthread_sem_wait (sem : Z) : prog Z :=
  inited ← Load VInited;
  passert (negb (inited =? 0)) ;;
  block_sigrtmin ;;
  check_preempted ;;
  r ← kthread_mutex_lock (MSem sem);
  ret ← (if negb (r =? 0) then Ret 1
         else
           tid ← uthread_self;
           current_tcb ← Load (VTcbs tid);
           c ← Load (VSemCounter sem);
           passert (0 <=? c) ;;
           o ← Call (FSemWaitLoop sem current_tcb);
           match o with
           | Some ret => Ret ret
           | None =>
               c ← Load (VSemCounter sem);
               passert (0 <? c) ;;
               c ← Load (VSemCounter sem);
               Store (VSemCounter sem) (c - 1) ;;
               r ← kthread_mutex_unlock (MSem sem);
               Ret (if negb (r =? 0) then 1 else 0)
           end);
  unblock_sigrtmin ;;
  Ret ret.

Definition uthread_sem_destroy (sem : Z) : prog unit :=
  inited ← Load VInited;
  passert (negb (inited =? 0)) ;;
  check_preempted ;;
  block_sigrtmin ;;
  QDestroy (QSem sem) ;;
  kthread_mutex_destroy (MSem sem) ;;
  unblock_sigrtmin.

(** ** Initialisation and teardown *)

(** [kthread_info[i]] *)
Definition init_kthread_info (i : Z) : prog unit :=
  ok ← MallocKinfo i;
  passert ok ;;
  self ← kthread_self;
  Store (VKiKtid i) (if i =? 0 then self else -1) ;;
  Store (VKiCurrentTid i) (if i =? 0 then UTHREAD_TID_MAIN else -1) ;;
  Store (VKiTask i) NONE ;;
  Store (VKiLock i) None ;;
  Store (VKiQueue i) None ;;
  or_abort (Getcontext (CtxSched i)) ;;
  Store (VCtxLink (CtxSched i)) (Some CtxAbort) ;;
  r ← allocate_stack (CtxSched i) SNull 0;
  passert (r =? 0) ;;
  Store VErrno 0 ;;
  Makecontext (CtxSched i) FSchedule ;;
  e ← Load VErrno;
  (if negb (e =? 0) then abort else Ret tt) ;;
  Store (VKiTimer i) 0 ;;
  Store (VKiPreempted i) 0.

(** The thread control block of the main thread *)
Definition init_main_thread : prog unit :=
  tid ← get_next_tid;
  passert (0 <=? tid) ;;
  p ← MallocTcb;
  Store (VTcbs tid) p ;;
  p ← Load (VTcbs tid);
  passert (bool_decide (is_Some p)) ;;
  p ← tcb_of tid; Store (VTcbStackAllocated p) 0 ;;
  p ← tcb_of tid; Store (VTcbTid p) tid ;;
  p ← tcb_of tid; Store (VTcbState p) RUNNING ;;
  p ← tcb_of tid; or_abort (QInit (QJoin p)).

Definition init_abort_ctx : prog unit :=
  or_abort (Getcontext CtxAbort) ;;
  Store (VCtxLink CtxAbort) None ;;
  r ← allocate_stack CtxAbort SNull 0;
  passert (r =? 0) ;;
  Store VErrno 0 ;;
  Makecontext CtxAbort FAbort ;;
  e ← Load VErrno;
  if negb (e =? 0) then abort else Ret tt.

Definition uthread_init (kthreads quantum_us : Z) : prog Z :=
  inited ← Load VInited;
  passert (inited =? 0) ;;
  Store VNumKthreads (to_size_t kthreads) ;;
  Store VQuantum quantum_us ;;
  Store VSigrtminMask false ;;
  Store VSigrtminMask true ;;
  block_sigrtmin ;;
  or_abort (kthread_sem_init KInited 0) ;;
  or_abort (kthread_sem_init KExitall 0) ;;
  or_abort (kthread_mutex_init MTcbs) ;;
  calloc_ok ← Choose;
  r ← lift_res (bitvec_init calloc_ok UTHREAD_MAX_THREADS);
  Store VBitvec r.2 ;;
  (if negb (r.1 =? 0) then abort else Ret tt) ;;
  or_abort (kthread_mutex_init MBitvec) ;;
  or_abort (QInit QReady) ;;
  or_abort (kthread_mutex_init MRqueue) ;;
  or_abort (kthread_sem_init KNotEmpty 0) ;;
  init_main_thread ;;
  init_abort_ctx ;;
  ok ← Choose;
  passert ok ;;
  n ← Load VNumKthreads;
  pfor (Z.to_nat n) 0 (λ i _, init_kthread_info i) tt ;;
  pfor (Z.to_nat (n - (MAIN_KTHREAD_INDEX + 1))) (MAIN_KTHREAD_INDEX + 1)
    (λ i _, or_abort (kthread_create (KinfoKtid i) KthreadMain 0)) tt ;;
  Store VInited 1 ;;
  pfor (Z.to_nat (to_size_t (n - 1))) 0 (λ _ _, or_abort (kthread_sem_post KInited)) tt ;;
  quantum ← Load VQuantum;
  (if negb (quantum =? 0) then
     self ← kthread_self;
     set_timer_interrupt self
   else Ret tt) ;;
  unblock_sigrtmin ;;
  Ret 0.

(** [while (kthread_mutex_destroy(u) == EBUSY);] *)
Definition mutex_destroy_loop (u : mutex_id) : prog unit :=
  r ← kthread_mutex_destroy u;
  if r =? EBUSY then Call (FMutexDestroyLoop u) else Ret tt.

(** [do { errno = 0; kthread_sem_destroy(s); } while (errno != 0);] *)
Definition sem_destroy_loop (s : ksem_id) : prog unit :=
  Store VErrno 0 ;;
  kthread_sem_destroy s ;;
  e ← Load VErrno;
  if negb (e =? 0) then Call (FSemDestroyLoop s) else Ret tt.

(** The part of [uthread_teardown] that runs on the main kernel thread, once
    the scheduler resumed the caller there. *)
Definition teardown_resume : prog unit :=
  self ← kthread_self;
  main ← Load (VKiKtid MAIN_KTHREAD_INDEX);
  passert (self =? main) ;;
  n ← Load VNumKthreads;
  pfor (Z.to_nat (n - (MAIN_KTHREAD_INDEX + 1))) (MAIN_KTHREAD_INDEX + 1) (λ i _,
    k ← Load (VKiKtid i);
    passert (negb (k =? self)) ;;
    k ← Load (VKiKtid i);
    kthread_join k ;;
    Ret tt) tt ;;
  Call (FMutexDestroyLoop MRqueue) ;;
  Call (FSemDestroyLoop KNotEmpty) ;;
  QDestroy QReady ;;
  bv ← Load VBitvec;
  Store VBitvec (bitvec_destroy bv) ;;
  Call (FMutexDestroyLoop MBitvec) ;;
  Call (FMutexDestroyLoop MTcbs) ;;
  pfor (Z.to_nat (UTHREAD_MAX_THREADS - (UTHREAD_TID_MAIN + 1))) (UTHREAD_TID_MAIN + 1)
    (λ i _,
      p ← Load (VTcbs i);
      match p with Some _ => destroy_thread i | None => Ret tt end) tt ;;
  sp ← Load (VCtxSp CtxAbort);
  FreeStack sp ;;
  pfor (Z.to_nat n) 0 (λ i _,
    sp ← Load (VCtxSp (CtxSched i));
    FreeStack sp ;;
    FreeKinfo i) tt ;;
  or_abort (kthread_sem_destroy KInited) ;;
  or_abort (kthread_sem_destroy KExitall) ;;
  destroy_thread UTHREAD_TID_MAIN ;;
  unblock_sigrtmin ;;
  Store VInited 0.

Definition uthread_teardown : prog unit :=
  inited ← Load VInited;
  passert (negb (inited =? 0)) ;;
  block_sigrtmin ;;
  n ← Load VNumKthreads;
  quantum ← Load VQuantum;
  (if negb (quantum =? 0) then
     pfor (Z.to_nat n) 0 (λ i _,
       t ← Load (VKiTimer i);
       TimerDelete t ;;
       Ret tt) tt
   else Ret tt) ;;
  pfor (Z.to_nat n) 0 (λ _ _, ready_enqueue (Some exitall)) tt ;;
  self ← kthread_self;
  kinfo ← get_kthread_info self;
  Store (VKiTask kinfo) TEARDOWN ;;
  lock_tcbs ;;
  tid ← uthread_self;
  p ← tcb_of tid;
  sched ← get_sched_ctx;
  or_abort (Swapcontext (CtxTcb p) sched) ;;
  teardown_resume.
