(* ===== verification/Client.v ===== *)
(** * Client programs, and the whole program's text

    A client is a program of its own free monad, over the public interface of
    uthread.h and its own variables; [api] says which library program each call
    is.  [text] is the body of every function called by name: with it [step] is
    the semantics of a client linked with the library. *)
From S2P Require Import Prelude Bitvec Machine Kthread Uthread.
Local Open Scope prog_scope.

(** ** The public interface *)
Inductive ucmd : Type → Type :=
| UInit (kthreads quantum_us : Z) : ucmd Z
| UTeardown : ucmd unit
| UCreate (ptid start_func arg : Z) (stack_base : sptr) (stack_size : Z) : ucmd Z
| UExit (ret : Z) : ucmd unit
| UJoin (tid : Z) (pret : option Z) : ucmd Z
| USelf : ucmd Z
| UYield : ucmd unit
| USemInit (sem value : Z) : ucmd Z
| USemPost (sem : Z) : ucmd Z
| USemWait (sem : Z) : ucmd Z
| USemDestroy (sem : Z) : ucmd unit
(* the client's own variables, mutexes and functions *)
| ULoad (x : Z) : ucmd Z
| UStore (x v : Z) : ucmd unit
| UMutexInit (a : Z) : ucmd Z
| UMutexLock (a : Z) : ucmd Z
| UMutexUnlock (a : Z) : ucmd Z
| UMutexDestroy (a : Z) : ucmd Z
| UCall (f arg : Z) : ucmd Z
(* the process ends: exit(code), or a fault of the client itself *)
| UStop (f : fault) : ucmd Empty_set.

Inductive uprog (A : Type) : Type :=
| URet (a : A)
| UVis {B : Type} (c : ucmd B) (k : B → uprog A).
Arguments URet {_} _.
Arguments UVis {_ _} _ _.

Fixpoint ubind {A B} (p : uprog A) (f : A → uprog B) : uprog B :=
  match p with
  | URet a => f a
  | UVis c k => UVis c (λ b, ubind (k b) f)
  end.

Definition udo {A} (c : ucmd A) : uprog A := UVis c URet.
Coercion udo : ucmd >-> uprog.

Declare Scope uprog_scope.
Delimit Scope uprog_scope with uprog.
Bind Scope uprog_scope with uprog.
Notation "x ← y ; z" := (ubind y (λ x, z)) : uprog_scope.
Notation "y ;; z" := (ubind y (λ _, z)) : uprog_scope.

Definition api {B} (c : ucmd B) : prog B :=
  match c in ucmd B return prog B with
  | UInit n q => uthread_init n q
  | UTeardown => uthread_teardown
  | UCreate ptid f arg base size => uthread_create ptid f arg base size
  | UExit v => uthread_exit v
  | UJoin tid pret => uthread_join tid pret
  | USelf => uthread_self
  | UYield => uthread_yield
  | USemInit a v => uthread_sem_init a v
  | USemPost a => uthread_sem_post a
  | USemWait a => uthread_sem_wait a
  | USemDestroy a => uthread_sem_destroy a
  | ULoad x => Load (VUser x)
  | UStore x v => Store (VUser x) v
  | UMutexInit a => kthread_mutex_init (MUser a)
  | UMutexLock a => kthread_mutex_lock (MUser a)
  | UMutexUnlock a => kthread_mutex_unlock (MUser a)
  | UMutexDestroy a => kthread_mutex_destroy (MUser a)
  | UCall f arg => Call (FUser f arg)
  | UStop f => Crash f
  end.

Fixpoint compile {A} (p : uprog A) : prog A :=
  match p with
  | URet a => Ret a
  | UVis c k => pbind (api c) (λ b, compile (k b))
  end.

(** A client: the body of its functions, by function pointer. *)
Definition client : Type := Z → Z → uprog Z.

Definition text (cl : client) (A : Type) (f : fn A) : prog A :=
  match f in fn A return prog A with
  | FSchedule => schedule
  | FTrampoline start arg => trampoline start arg
  | FAbort => abort
  | FKthreadTrampoline a => kthread_trampoline a
  | FSigrtminHandler => sigrtmin_handler
  | FKthreadMain arg => kthread_main arg
  | FMutexDestroyLoop u => mutex_destroy_loop u
  | FSemDestroyLoop s => sem_destroy_loop s
  | FSemWaitLoop sem cur => sem_wait_loop sem cur
  | FUser start arg => compile (cl start arg)
  end.

(** ** The process when main() starts

    One kernel thread, whose gettid() is [MAIN_KTID]; statics are zero. *)
Definition MAIN_KTID : Z := 100.

Definition boot (main : uprog unit) : machine := {|
  m_inited := 0; m_quantum := 0; m_num_kthreads := 0; m_sigset := false; m_handler := false;
  m_tcbs := replicate (Z.to_nat UTHREAD_MAX_THREADS) None;
  m_heap := {[ exitall := tcb0 ]}; m_next := 2%positive; m_stacks := ∅; m_kinfo := ∅;
  m_bitvec := Bitvec 0 0 None; m_rqueue := Some []; m_abort_ctx := uc0;
  m_mutex := {[ MKthreads := None ]}; m_ksem := ∅; m_usem := ∅; m_timers := ∅;
  m_kt_inited := 0; m_tidmap := replicate (Z.to_nat MAX_KTHREADS) (0, 0); m_targs := ∅;
  m_threads := {[ MAIN_KTID := Kthr (compile main) false false 0 false ]}; m_user := ∅ |}.
