(* ===== verification/Eval.v ===== *)
(** * Running a program without interleaving

    [eval p k oks m] executes the commands of [p] on kernel thread [k] one after
    the other, up to its end ([EDone]) or to the first command that replaces the
    running program or calls a function by name ([EStop]).  [oks] answers, in
    order, the calls the environment may refuse; when it is exhausted they
    succeed.  [lrun_eval] is the link with the step semantics. *)
From Stdlib Require Import FunctionalExtensionality.
From S2P Require Import Prelude Bitvec Machine.

Inductive eres (A : Type) : Type :=
| EDone (a : A) (oks : list bool) (m : machine)
| EStop {B : Type} (c : cmd B) (kont : B → prog A) (oks : list bool) (m : machine)
| EBlock
| EFault (f : fault).
Arguments EDone {_} _ _ _.
Arguments EStop {_ _} _ _ _ _.
Arguments EBlock {_}.
Arguments EFault {_} _.

(** The commands [step_cmd] treats itself. *)
Definition is_control {B} (c : cmd B) : bool :=
  match c with
  | PthreadExit | Getcontext _ | Setcontext _ | Swapcontext _ _ | Call _ => true
  | _ => false
  end.

(** The calls the environment may refuse. *)
Definition fallible {B} (c : cmd B) : bool :=
  match c with
  | Choose | MallocTcb | MallocStack _ | MallocKinfo _ | QEnqueue _ _ | PthreadCreate _
  | TimerCreate _ => true
  | _ => false
  end.

Definition next_ok {B} (c : cmd B) (oks : list bool) : bool * list bool :=
  if fallible c then match oks with [] => (true, []) | b :: oks' => (b, oks') end
  else (true, oks).

(** [getcontext] saves the rest of the program and goes on: it does not stop
    the evaluation of a straight-line program. *)
Fixpoint eval {A} (p : prog A) (k : Z) (oks : list bool) (m : machine) : eres A :=
  match p with
  | Ret a => EDone a oks m
  | Vis c kont =>
      if is_control c then EStop c kont oks m
      else match exec c k (next_ok c oks).1 m with
           | XOk b m' => eval (kont b) k (next_ok c oks).2 m'
           | XBlock => EBlock
           | XFault f => EFault f
           end
  end.

(** ** Composition *)
Lemma pbind_assoc {A B C} (p : prog A) (f : A → prog B) (g : B → prog C) :
  pbind (pbind p f) g = pbind p (λ a, pbind (f a) g).
Proof.
  induction p as [a|D c kont IH]; [done|]. cbn. f_equal. by apply functional_extensionality.
Qed.

Lemma eval_pbind {A B} (p : prog A) (f : A → prog B) k oks m :
  eval (pbind p f) k oks m =
  match eval p k oks m with
  | EDone a oks' m' => eval (f a) k oks' m'
  | EStop c kont oks' m' => EStop c (λ b, pbind (kont b) f) oks' m'
  | EBlock => EBlock
  | EFault e => EFault e
  end.
Proof.
  revert oks m. induction p as [x|C c kont IH]; intros oks m; cbn; [done|].
  destruct (is_control c); [done|]. destruct (exec c k _ m); [apply IH|done|done].
Qed.

Lemma eval_bind {A B} (p : prog A) (f : A → prog B) k oks m a oks' m' :
  eval p k oks m = EDone a oks' m' → eval (pbind p f) k oks m = eval (f a) k oks' m'.
Proof. intros H. by rewrite eval_pbind, H. Qed.

Lemma eval_bind_stop {A B C} (p : prog A) (f : A → prog B) k oks m (c : cmd C) kont oks' m' :
  eval p k oks m = EStop c kont oks' m' →
  eval (pbind p f) k oks m = EStop c (λ b, pbind (kont b) f) oks' m'.
Proof. intros H. by rewrite eval_pbind, H. Qed.

Lemma eval_bind_fault {A B} (p : prog A) (f : A → prog B) k oks m e :
  eval p k oks m = EFault e → eval (pbind p f) k oks m = EFault e.
Proof. intros H. by rewrite eval_pbind, H. Qed.

Lemma eval_bind_block {A B} (p : prog A) (f : A → prog B) k oks m :
  eval p k oks m = EBlock → eval (pbind p f) k oks m = EBlock.
Proof. intros H. by rewrite eval_pbind, H. Qed.

(** ** The program of the running thread does not matter to its commands *)

Definition setp (p : prog unit) (k : Z) (m : machine) : machine := thr_upd (set_k_prog p) k m.

(** Kernel thread [k] exists and has not terminated. *)
Definition alive (k : Z) (m : machine) : Prop :=
  ∃ t, m_threads m !! k = Some t ∧ k_done t = false.

Definition xmap {B} (g : machine → machine) (x : xres B) : xres B :=
  match x with XOk b m => XOk b (g m) | XBlock => XBlock | XFault f => XFault f end.
Definition rmap (g : machine → machine) (r : res machine) : res machine :=
  match r with Ok m => Ok (g m) | Fault f => Fault f end.

Lemma alter_comm (f g : kthr → kthr) k k' (th : gmap Z kthr) :
  (∀ t, f (g t) = g (f t)) → alter f k (alter g k' th) = alter g k' (alter f k th).
Proof.
  intros Hc. apply map_eq. intros i. rewrite !lookup_alter. repeat case_decide; subst; try done.
  destruct (th !! _); [|done]. cbn. by rewrite Hc.
Qed.

Lemma thr_upd_comm f g k k' m : (∀ t, f (g t) = g (f t)) →
  thr_upd f k (thr_upd g k' m) = thr_upd g k' (thr_upd f k m).
Proof. intros Hc. unfold thr_upd, set_threads. cbn. by rewrite (alter_comm f g k k'). Qed.

Lemma thr_get_setp {X} (f : kthr → X) d p k k' m :
  (∀ t, f (set_k_prog p t) = f t) →
  from_option f d (m_threads (setp p k m) !! k') = from_option f d (m_threads m !! k').
Proof.
  intros Hf. cbn. rewrite lookup_alter. case_decide; subst; [|done].
  destruct (m_threads m !! _); [apply Hf|done].
Qed.

Lemma fresh_key_alter {V} (f : V → V) k (m : gmap Z V) : fresh_key (alter f k m) = fresh_key m.
Proof. unfold fresh_key. by rewrite dom_alter_L. Qed.

Lemma fresh_key_bound {V} (m : gmap Z V) i x : m !! i = Some x → i < fresh_key m.
Proof.
  intros Hi. apply elem_of_dom_2 in Hi. revert Hi. unfold fresh_key. generalize (dom m). clear.
  intros X. apply (set_fold_ind_L (λ r (Y : gset Z), i ∈ Y → i < 1 + r)); [set_solver|].
  intros x Y r _ IH [->%elem_of_singleton|Hi]%elem_of_union; [lia|]. specialize (IH Hi). lia.
Qed.

Lemma fresh_key_None {V} (m : gmap Z V) : m !! fresh_key m = None.
Proof. destruct (m !! _) eqn:H; [|done]. apply fresh_key_bound in H. lia. Qed.

(** Reads, and writes of anything but the program of [k], commute with [setp]. *)
Lemma ctx_get_setp c p k m : ctx_get c (setp p k m) = ctx_get c m.
Proof. by destruct c. Qed.
Lemma ctx_upd_setp g c p k m : ctx_upd g c (setp p k m) = rmap (setp p k) (ctx_upd g c m).
Proof.
  destruct c; cbn; unfold kinfo_upd, tcb_upd, of_opt; cbn; [..|done];
    by destruct (_ !! _).
Qed.
Lemma queue_get_setp q p k m : queue_get q (setp p k m) = queue_get q m.
Proof. by destruct q. Qed.
Lemma queue_set_setp o q p k m : queue_set o q (setp p k m) = rmap (setp p k) (queue_set o q m).
Proof. destruct q; cbn; [done| |done]. unfold tcb_upd, of_opt. cbn. by destruct (_ !! _). Qed.

Lemma load_setp {A} (v : var A) p k k' m : load v k (setp p k' m) = load v k m.
Proof. destruct v; try done; cbn; f_equal. by apply (thr_get_setp k_errno). Qed.

Lemma store_setp {A} (v : var A) x p k k' m :
  store v x k (setp p k' m) = rmap (setp p k') (store v x k m).
Proof.
  destruct v; cbn; try done; try apply ctx_upd_setp;
    unfold tcb_upd, kinfo_upd, targs_upd; cbn;
    try (destruct (_ !! _); cbn; done); try (destruct (zupd _ _ _); cbn; done);
    try (destruct (znth _ _); cbn; [destruct (zupd _ _ _)|]; done).
  f_equal. by apply thr_upd_comm.
Qed.

Lemma exec_setp {B} (c : cmd B) p k ok m : alive k m → is_control c = false →
  exec c k ok (setp p k m) = xmap (setp p k) (exec c k ok m).
Proof.
  intros (t0 & Hk & Hd) Hc. destruct c; try discriminate Hc; cbn [exec].
  - rewrite load_setp. by destruct (load v k m).
  - rewrite store_setp. by destruct (store v x k m).
  - done.
  - done.
  - by destruct ok.
  - destruct p0 as [l|]; [|done]. cbn. by destruct (_ !! l).
  - by destruct ok.
  - destruct p0 as [|l|]; [done| |done]. cbn. by destruct (_ !! l).
  - by destruct ok.
  - cbn. by destruct (_ !! i).
  - done.
  - done.
  - rewrite queue_set_setp. by destruct (queue_set _ _ _).
  - rewrite queue_get_setp. destruct (queue_get q m) as [[|]|]; try done. cbn.
    rewrite queue_set_setp. by destruct (queue_set _ _ _).
  - destruct ok; [|done]. rewrite queue_get_setp. destruct (queue_get q m) as [l|]; [|done].
    cbn. destruct (int_of _); [|done]. rewrite queue_set_setp. by destruct (queue_set _ _ _).
  - rewrite queue_get_setp. destruct (queue_get q m) as [[|]|]; [done| |done]. cbn.
    rewrite queue_set_setp. by destruct (queue_set _ _ _).
  - rewrite queue_get_setp. by destruct (queue_get q m).
  - done.
  - done.
  - destruct ok; [|done]. rewrite (thr_get_setp k_mask) by done. cbn [xmap].
    cbn. rewrite fresh_key_alter. unfold setp, thr_upd, set_threads. cbn. do 2 f_equal.
    symmetry. apply alter_insert_ne. pose proof (fresh_key_bound _ _ _ Hk). lia.
  - case_decide as Ht; [done|]. cbn. rewrite lookup_alter_ne by congruence.
    destruct (m_threads m !! t) as [th|]; [|done]. destruct (k_done th); [|done].
    unfold setp, thr_upd, set_threads. cbn. do 2 f_equal. apply delete_alter_ne. congruence.
  - done.
  - cbn. by destruct (m_mutex m !! _) as [[?|]|].
  - cbn. destruct (m_mutex m !! _) as [[?|]|]; [by case_decide|done|done].
  - cbn. by destruct (m_mutex m !! _) as [[?|]|].
  - case_decide; [done|]. unfold sem_error. cbn [xmap]. f_equal. symmetry. by apply thr_upd_comm.
  - cbn. destruct (m_ksem m !! _); [case_decide; [done|]|]; unfold sem_error; cbn [xmap]; f_equal;
      symmetry; by apply thr_upd_comm.
  - cbn. destruct (m_ksem m !! _); [by case_decide|]; unfold sem_error; cbn [xmap]; f_equal;
      symmetry; by apply thr_upd_comm.
  - cbn. destruct (m_ksem m !! _); [done|]; unfold sem_error; cbn [xmap]; f_equal;
      symmetry; by apply thr_upd_comm.
  - destruct set; [|done]. cbn [xmap]. f_equal. symmetry. by apply thr_upd_comm.
  - done.
  - cbn [xmap]. f_equal. symmetry. by apply thr_upd_comm.
  - by destruct ok.
  - cbn. destruct (m_timers m !! _); [case_decide; [done|]|]; unfold sem_error; cbn [xmap]; f_equal;
      symmetry; by apply thr_upd_comm.
  - cbn. destruct (m_timers m !! _); [done|]; unfold sem_error; cbn [xmap]; f_equal;
      symmetry; by apply thr_upd_comm.
  - unfold x_set. rewrite ctx_upd_setp. by destruct (ctx_upd _ _ _).
Qed.

(** ** Staying alive *)
Lemma alive_thr_upd g k k' m : (∀ t, k_done (g t) = k_done t) →
  alive k m → alive k (thr_upd g k' m).
Proof.
  intros Hg (t & Ht & Hd). unfold alive. cbn. rewrite lookup_alter.
  case_decide; subst; [|by exists t]. rewrite Ht. eexists. split; [done|]. by rewrite Hg.
Qed.

Lemma alive_setp k p k' m : alive k m → alive k (setp p k' m).
Proof. by apply alive_thr_upd. Qed.

Lemma queue_set_threads o q m m' : queue_set o q m = Ok m' → m_threads m' = m_threads m.
Proof.
  destruct q; cbn; [by intros [= <-]| |by intros [= <-]].
  unfold tcb_upd. destruct (_ !! _); [|done]. by intros [= <-].
Qed.

Lemma ctx_upd_threads g c m m' : ctx_upd g c m = Ok m' → m_threads m' = m_threads m.
Proof.
  destruct c; cbn; [..|by intros [= <-]]; unfold tcb_upd, kinfo_upd;
    (destruct (_ !! _); [|done]); by intros [= <-].
Qed.

Lemma alive_threads k m m' : m_threads m' = m_threads m → alive k m → alive k m'.
Proof. unfold alive. by intros ->. Qed.

Lemma alive_store {A} (v : var A) x k m m' : alive k m → store v x k m = Ok m' → alive k m'.
Proof.
  intros Ha Hs. destruct v; cbn in Hs;
    try (injection Hs as <-; exact Ha);
    try (eapply alive_threads; [by eapply ctx_upd_threads|exact Ha]);
    unfold tcb_upd, kinfo_upd, targs_upd in Hs;
    try (destruct (zupd _ _ _); cbn in Hs; simplify_eq; exact Ha);
    try (destruct (znth _ _); cbn in Hs; [destruct (zupd _ _ _); cbn in Hs|]; simplify_eq; exact Ha);
    try (destruct (_ !! _); cbn in Hs; simplify_eq; exact Ha).
  injection Hs as <-. by apply alive_thr_upd.
Qed.

(** A command that leaves the table of kernel threads alone. *)
Ltac same_threads He := inversion He; subst; assumption.

(** What a command may do to the table of kernel threads, seen from [k]. *)
Lemma alive_error {B} e k m (x b : B) m' :
  alive k m → sem_error e k m x = XOk b m' → alive k m'.
Proof. intros Ha [= _ <-]. by apply alive_thr_upd. Qed.

Lemma alive_queue_set {B} o q k m (r : res machine) (x b : B) m' :
  alive k m → queue_set o q m = r →
  match r with Ok m1 => XOk x m1 | Fault f => XFault f end = XOk b m' → alive k m'.
Proof.
  intros Ha Hq He. destruct r as [m1|]; [|done]. injection He as _ <-.
  by apply (alive_threads k m); [by eapply queue_set_threads|].
Qed.

Lemma alive_exec {B} (c : cmd B) k ok m b m' :
  alive k m → exec c k ok m = XOk b m' → alive k m'.
Proof.
  intros Ha He. pose proof Ha as (t0 & Hk & Hd). destruct c; cbn [exec] in He; try done.
  - destruct (load v k m); [same_threads He|done].
  - destruct (store v x k m) eqn:Hs; [|done]. injection He as _ <-. by eapply alive_store.
  - same_threads He.
  - destruct ok; same_threads He.
  - destruct p as [l|]; [|same_threads He].
    destruct (m_heap m !! l); [|done]. same_threads He.
  - destruct ok; same_threads He.
  - destruct p as [|l|]; [same_threads He| |done].
    destruct (m_stacks m !! l); [|done]. same_threads He.
  - destruct ok; same_threads He.
  - destruct (m_kinfo m !! i); [|done]. same_threads He.
  - same_threads He.
  - same_threads He.
  - by eapply alive_queue_set.
  - destruct (queue_get q m) as [[|]|]; [same_threads He| |done].
    by eapply (alive_queue_set None q k m _ tt).
  - destruct ok; [|same_threads He].
    destruct (queue_get q m) as [l|]; [|done]. cbn in He. destruct (int_of _); [|done]. cbn in He.
    destruct (queue_set _ q m) eqn:Hq; [|done]. injection He as _ <-.
    eapply alive_threads; [by eapply queue_set_threads|done].
  - destruct (queue_get q m) as [[|]|]; [same_threads He| |done]. cbn in He.
    destruct (queue_set _ q m) eqn:Hq; [|done]. injection He as _ <-.
    eapply alive_threads; [by eapply queue_set_threads|done].
  - destruct (queue_get q m); [same_threads He|done].
  - same_threads He.
  - same_threads He.
  - destruct ok; [|same_threads He]. injection He as _ <-.
    exists t0. split; [|done]. cbn. rewrite lookup_insert_ne; [done|].
    pose proof (fresh_key_bound _ _ _ Hk). lia.
  - case_decide; [same_threads He|].
    destruct (m_threads m !! t) as [th|]; [|same_threads He].
    destruct (k_done th); [|done]. injection He as _ <-.
    exists t0. split; [|done]. cbn. by rewrite lookup_delete_ne.
  - same_threads He.
  - destruct (m_mutex m !! m0) as [[?|]|]; [done|same_threads He..].
  - destruct (m_mutex m !! m0) as [[?|]|]; [case_decide; [|done]| |]; same_threads He.
  - destruct (m_mutex m !! m0) as [[?|]|]; same_threads He.
  - case_decide; [same_threads He|by eapply alive_error].
  - destruct (m_ksem m !! s); [case_decide|]; [same_threads He|by eapply alive_error..].
  - destruct (m_ksem m !! s); [case_decide; [same_threads He|done]|by eapply alive_error].
  - destruct (m_ksem m !! s); [same_threads He|by eapply alive_error].
  - injection He as _ <-. destruct set; [by apply alive_thr_upd|done].
  - same_threads He.
  - injection He as _ <-. by apply alive_thr_upd.
  - destruct ok; same_threads He.
  - destruct (m_timers m !! t); [case_decide|]; [same_threads He|by eapply alive_error..].
  - destruct (m_timers m !! t); [same_threads He|by eapply alive_error].
  - destruct (ctx_upd _ c m) eqn:Hc; [|done]. injection He as _ <-.
    eapply alive_threads; [by eapply ctx_upd_threads|done].
Qed.

(** ** Local runs

    [ksteps k]: the runs in which kernel thread [k] alone moves: every step is a command
    of [k], no other kernel thread runs and no timer expires.  Each step chooses what the
    command's allocation answers.  [lrun k p m p' m']: some such run takes the machine
    from [m] with [k] about to run [p] to [m'] with [k] about to run [p']. *)
Section local.
Context (text : ∀ A, fn A → prog A).

Inductive ksteps (k : Z) : machine → machine → Prop :=
| ksteps_refl m : ksteps k m m
| ksteps_step ok m m1 m2 : step text (LRun k ok) m = Next m1 → ksteps k m1 m2 → ksteps k m m2.

Definition lrun (k : Z) (p : prog unit) (m : machine) (p' : prog unit) (m' : machine) : Prop :=
  ksteps k (setp p k m) (setp p' k m') ∧ alive k m'.

Lemma setp_setp p p' k m : setp p' k (setp p k m) = setp p' k m.
Proof.
  unfold setp, thr_upd, set_threads. cbn. f_equal. rewrite alter_alter_eq.
  apply alter_ext. done.
Qed.

Lemma ksteps_trans k m1 m2 m3 : ksteps k m1 m2 → ksteps k m2 m3 → ksteps k m1 m3.
Proof. induction 1; eauto using ksteps_step. Qed.

(** They are runs of the machine. *)
Lemma ksteps_steps k m1 m2 : ksteps k m1 m2 → steps text m1 m2.
Proof. induction 1; eauto using steps_refl, steps_step. Qed.

Lemma lrun_refl k p m : alive k m → lrun k p m p m.
Proof. split; [constructor|done]. Qed.

Lemma lrun_trans k p1 m1 p2 m2 p3 m3 :
  lrun k p1 m1 p2 m2 → lrun k p2 m2 p3 m3 → lrun k p1 m1 p3 m3.
Proof. intros [H1 _] [H2 ?]. split; [by eapply ksteps_trans|done]. Qed.

(** The next step of a live thread is its next command. *)
Lemma step_thread_setp {B} (c : cmd B) kont k ok m : alive k m →
  step text (LRun k ok) (setp (Vis c kont) k m) = step_cmd text c kont k ok (setp (Vis c kont) k m).
Proof.
  intros (t & Ht & Hd). cbn [step]. unfold step_thread. cbn.
  rewrite lookup_alter_eq, Ht. cbn. by rewrite Hd.
Qed.

Lemma lrun_exec {B} (c : cmd B) kont k ok m b m' : alive k m → is_control c = false →
  exec c k ok m = XOk b m' → lrun k (Vis c kont) m (kont b) m'.
Proof.
  intros Ha Hc He. split; [|by eapply alive_exec].
  eapply (ksteps_step _ ok); [|constructor].
  rewrite step_thread_setp by done.
  pose proof (exec_setp c (Vis c kont) k ok m Ha Hc) as Hx. rewrite He in Hx.
  destruct c; try discriminate Hc; cbn [step_cmd]; rewrite Hx;
    exact (f_equal Next (setp_setp _ _ _ _)).
Qed.

Lemma lrun_eval (p : prog unit) k oks m :
  alive k m →
  match eval p k oks m with
  | EDone a _ m' => lrun k p m (Ret a) m'
  | EStop c kont _ m' => lrun k p m (Vis c kont) m'
  | _ => True
  end.
Proof.
  revert oks m. induction p as [a|C c kont IH]; intros oks m Ha; cbn [eval].
  - by apply lrun_refl.
  - destruct (is_control c) eqn:Hc; [by apply lrun_refl|].
    destruct (exec c k _ m) as [b m'| |] eqn:He; [|done|done].
    pose proof (lrun_exec c kont k _ m b m' Ha Hc He) as Hrun.
    pose proof (IH b (next_ok c oks).2 m' (proj2 Hrun)) as Hrest.
    destruct (eval (kont b) k _ m'); try done; by eapply lrun_trans.
Qed.

Definition mask_of (k : Z) (m : machine) : bool :=
  from_option k_mask false (m_threads m !! k).

Lemma mask_of_setp p k m : mask_of k (setp p k m) = mask_of k m.
Proof. by apply (thr_get_setp k_mask). Qed.

Lemma lrun_call {A} (f : fn A) kont k m : alive k m →
  lrun k (Vis (Call f) kont) m (pbind (text A f) kont) m.
Proof.
  intros Ha. split; [|done]. eapply (ksteps_step _ true); [|constructor].
  rewrite step_thread_setp by done. exact (f_equal Next (setp_setp _ _ _ _)).
Qed.

(** Saving a context: the caller's mask and the rest of its program. *)
Lemma save_ctx_setp P p c k m :
  save_ctx P c k (setp p k m) =
  rmap (setp p k) (ctx_upd (set_uc_regs (mask_of k m) (CtxResume P)) c m).
Proof. unfold save_ctx. fold (mask_of k (setp p k m)). by rewrite mask_of_setp, ctx_upd_setp. Qed.

Lemma lrun_getcontext c kont k m m' : alive k m →
  ctx_upd (set_uc_regs (mask_of k m) (CtxResume (kont 0))) c m = Ok m' →
  lrun k (Vis (Getcontext c) kont) m (kont 0) m'.
Proof.
  intros Ha Hc. split; [|eapply alive_threads; [by eapply ctx_upd_threads|done]].
  eapply (ksteps_step _ true); [|constructor].
  rewrite step_thread_setp by done. cbn [step_cmd]. rewrite save_ctx_setp, Hc.
  exact (f_equal Next (setp_setp _ _ _ _)).
Qed.

Lemma resume_setp p c k m u q : ctx_get c m = Ok u → ctx_prog text u = Some q →
  resume text c k (setp p k m) = Next (setp q k (thr_upd (set_k_mask (uc_mask u)) k m)).
Proof.
  intros Hu Hp. unfold resume. rewrite ctx_get_setp, Hu, Hp. f_equal.
  unfold setp, thr_upd, set_threads. cbn. f_equal. rewrite !alter_alter_eq.
  apply alter_ext. done.
Qed.

Lemma lrun_setcontext c kont k m u q : alive k m →
  ctx_get c m = Ok u → ctx_prog text u = Some q →
  lrun k (Vis (Setcontext c) kont) m q (thr_upd (set_k_mask (uc_mask u)) k m).
Proof.
  intros Ha Hu Hp. split; [|by apply alive_thr_upd].
  eapply (ksteps_step _ true); [|constructor].
  rewrite step_thread_setp by done. cbn [step_cmd]. by apply resume_setp.
Qed.

Lemma lrun_swapcontext o c kont k m m1 u q : alive k m →
  ctx_upd (set_uc_regs (mask_of k m) (CtxResume (kont 0))) o m = Ok m1 →
  ctx_get c m1 = Ok u → ctx_prog text u = Some q →
  lrun k (Vis (Swapcontext o c) kont) m q (thr_upd (set_k_mask (uc_mask u)) k m1).
Proof.
  intros Ha Ho Hu Hp. assert (alive k m1).
  { eapply alive_threads; [by eapply ctx_upd_threads|done]. }
  split; [|by apply alive_thr_upd].
  eapply (ksteps_step _ true); [|constructor].
  rewrite step_thread_setp by done. cbn [step_cmd].
  rewrite save_ctx_setp, Ho. by apply resume_setp.
Qed.

(** A straight-line prefix that returns. *)
Lemma lrun_done {A} (p : prog A) (K : A → prog unit) k oks m a oks' m' :
  alive k m → eval p k oks m = EDone a oks' m' → lrun k (pbind p K) m (K a) m'.
Proof.
  revert oks m. induction p as [x|C c kont IH]; intros oks m Ha; cbn [eval pbind].
  - intros [= -> _ ->]. by apply lrun_refl.
  - destruct (is_control c) eqn:Hc; [done|].
    destruct (exec c k _ m) as [b m1| |] eqn:He; [|done|done]. intros Hev.
    pose proof (lrun_exec c (λ b, pbind (kont b) K) k _ m b m1 Ha Hc He) as Hrun.
    eapply lrun_trans; [exact Hrun|]. by eapply IH; [apply Hrun|].
Qed.

(** A straight-line prefix up to a control command. *)
Lemma lrun_stop {A B} (p : prog A) (K : A → prog unit) k oks m (c : cmd B) kont oks' m' :
  alive k m → eval p k oks m = EStop c kont oks' m' →
  lrun k (pbind p K) m (Vis c (λ b, pbind (kont b) K)) m'.
Proof.
  intros Ha Hev. pose proof (lrun_eval (pbind p K) k oks m Ha) as H.
  by rewrite (eval_bind_stop _ _ _ _ _ _ _ _ _ Hev) in H.
Qed.
End local.
