(* ===== verification/UthreadEval.v ===== *)
(** * What each straight-line function of uthread.c computes

    Lemmas [ev_f]: run without interference on kernel thread [k], function [f]
    returns this value and leaves this machine.  They are the building blocks of
    the properties of the scheduler and of the public interface. *)
From S2P Require Import Prelude Bitvec Machine Kthread Uthread Client Eval.

(** ** Symbolic execution *)

(** The state of kernel thread information that [get_kthread_info] relies on:
    exactly one entry, [i], has the identifier [k]. *)
Definition ktid_at (m : machine) (i : Z) : option Z := ki_ktid <$> m_kinfo m !! i.
Definition registered (m : machine) (k i : Z) : Prop :=
  0 ≤ i < m_num_kthreads m ∧
  (∀ j, 0 ≤ j < m_num_kthreads m → is_Some (m_kinfo m !! j)) ∧
  (∀ j, 0 ≤ j < m_num_kthreads m → ktid_at m j = Some k ↔ j = i).

Lemma registered_ext m m' k i :
  m_num_kthreads m' = m_num_kthreads m → (∀ j, ktid_at m' j = ktid_at m j) →
  registered m k i → registered m' k i.
Proof.
  intros Hn Hk (Hi & Hall & Huniq). unfold registered. rewrite Hn. split_and!; [lia..| |].
  - intros j Hj. specialize (Hk j). unfold ktid_at in Hk. destruct (Hall j Hj) as [x Hx].
    rewrite Hx in Hk. destruct (m_kinfo m' !! j); [done|discriminate].
  - intros j Hj. rewrite Hk. by apply Huniq.
Qed.

Lemma ktid_at_insert (ki : gmap Z kinfo) i x x' j :
  ki !! i = Some x → ki_ktid x' = ki_ktid x →
  ki_ktid <$> <[i := x']> ki !! j = ki_ktid <$> ki !! j.
Proof. intros Hi Hx. rewrite lookup_insert. case_decide; subst; [|done]. rewrite Hi. cbn. by rewrite Hx. Qed.

(** The loop of [get_kthread_info]: the last match so far. *)
Lemma ev_kinfo_loop k i n : ∀ lo acc oks m kk, 0 ≤ lo →
  (∀ j, lo ≤ j < lo + Z.of_nat n → ∃ x, m_kinfo m !! j = Some x ∧ (ki_ktid x = k ↔ j = i)) →
  eval (pfor n lo (λ i kinfo, pbind (Load (VKiKtid i)) (λ t,
          Ret (if t =? k then Some i else kinfo))) acc) kk oks m =
  EDone (if decide (lo ≤ i < lo + Z.of_nat n) then Some i else acc) oks m.
Proof.
  induction n as [|n IH]; intros lo acc oks m kk Hlo Hall; cbn [pfor].
  { rewrite decide_False by lia. done. }
  destruct (Hall lo) as (x & Hx & Hk); [lia|].
  rewrite (eval_bind _ _ _ _ _ (if ki_ktid x =? k then Some lo else acc) oks m).
  2: { cbn. unfold kinfo_get. rewrite Hx. done. }
  rewrite IH; [|lia|intros j Hj; apply Hall; lia]. f_equal.
  destruct (Z.eqb_spec (ki_ktid x) k) as [He|He].
  - apply Hk in He. subst lo. rewrite (decide_False (P := i + 1 ≤ i < _)) by lia.
    by rewrite decide_True by lia.
  - assert (lo ≠ i) by (intros Heq; apply He, Hk, Heq). repeat case_decide; done || lia.
Qed.

Lemma ev_get_kthread_info m k i kk oks :
  registered m k i → eval (get_kthread_info k) kk oks m = EDone i oks m.
Proof.
  intros (Hi & Hall & Huniq). unfold get_kthread_info.
  rewrite (eval_bind _ _ _ _ _ (m_num_kthreads m) oks m) by done.
  erewrite eval_bind; cycle 1.
  { apply (ev_kinfo_loop k i); [lia|]. intros j Hj. destruct (Hall j) as [x Hx]; [lia|].
    exists x. split; [done|]. rewrite <- (Huniq j) by lia. unfold ktid_at. rewrite Hx. cbn.
    split; [by intros ->|by intros [= ->]]. }
  rewrite decide_True by lia. done.
Qed.


(** Fewer binds: the head of a program is a command that computes. *)
Lemma eval_cmd {B A} (c : cmd B) (f : B → prog A) k oks m ok oks' b m' :
  is_control c = false → next_ok c oks = (ok, oks') → exec c k ok m = XOk b m' →
  eval (pbind (do_ c) f) k oks m = eval (f b) k oks' m'.
Proof. intros Hc Hn He. cbn. rewrite Hc, Hn. cbn. by rewrite He. Qed.

(** Reading and writing through a pointer whose target is known. *)
Lemma ld_tcb {A} (f : tcb → A) p m t : m_heap m !! p = Some t → tcb_get f p m = Ok (f t).
Proof. intros H. unfold tcb_get. by rewrite H. Qed.
Lemma st_tcb g p m t : m_heap m !! p = Some t →
  tcb_upd g p m = Ok (set_heap (<[p := g t]> (m_heap m)) m).
Proof. intros H. unfold tcb_upd. by rewrite H. Qed.
Lemma ld_kinfo {A} (f : kinfo → A) i m x : m_kinfo m !! i = Some x → kinfo_get f i m = Ok (f x).
Proof. intros H. unfold kinfo_get. by rewrite H. Qed.
Lemma st_kinfo g i m x : m_kinfo m !! i = Some x →
  kinfo_upd g i m = Ok (set_kinfo (<[i := g x]> (m_kinfo m)) m).
Proof. intros H. unfold kinfo_upd. by rewrite H. Qed.

(** [block_sigrtmin] and [unblock_sigrtmin] write the signal mask of kernel
    thread [k], unless scheduling is cooperative ([quantum] is 0). *)
Definition sig_threads (b : bool) (k : Z) (quantum : Z) (sigset : bool) (th : gmap Z kthr)
    : gmap Z kthr :=
  if (quantum =? 0) || negb sigset then th else alter (set_k_mask b) k th.
Definition masked (b : bool) (k : Z) (m : machine) : machine :=
  set_threads (sig_threads b k (m_quantum m) (m_sigset m) (m_threads m)) m.

Lemma sig_sig b b' k qn ss th :
  sig_threads b k qn ss (sig_threads b' k qn ss th) = sig_threads b k qn ss th.
Proof.
  unfold sig_threads. destruct (_ || _); [done|]. rewrite alter_alter_eq. by apply alter_ext.
Qed.

Lemma sig_errno b b' k qn ss e th :
  sig_threads b k qn ss (alter (set_k_errno e) k (sig_threads b' k qn ss th)) =
  sig_threads b k qn ss (alter (set_k_errno e) k th).
Proof.
  unfold sig_threads. destruct (_ || _); [done|]. rewrite !alter_alter_eq. by apply alter_ext.
Qed.

Lemma set_threads_id m : set_threads (m_threads m) m = m.
Proof. by destruct m. Qed.

Lemma alive_masked b k k' m : alive k m → alive k (masked b k' m).
Proof.
  intros Ha. unfold masked, sig_threads. destruct (_ || _); [by rewrite set_threads_id|].
  by apply alive_thr_upd.
Qed.

(** The mask a thread sees once it blocked SIGRTMIN. *)
Definition mask_blocked (k : Z) (m : machine) : bool := mask_of k (masked true k m).

(** No preemption is pending for the entry [x] of [kthread_info]. *)
Definition unpreempted (m : machine) (x : kinfo) : Prop :=
  m_quantum m = 0 ∨ ki_preempted x = 0.

Section ev.
Context (k : Z).

Lemma ev_block m oks : eval block_sigrtmin k oks m = EDone tt oks (masked true k m).
Proof.
  unfold block_sigrtmin, masked, sig_threads.
  rewrite (eval_cmd _ _ k oks m true oks (m_quantum m) m) by done.
  destruct (m_quantum m =? 0) eqn:E; cbn; [by rewrite set_threads_id|].
  destruct (m_sigset m); cbn; [done|by rewrite set_threads_id].
Qed.
Lemma ev_unblock m oks : eval unblock_sigrtmin k oks m = EDone tt oks (masked false k m).
Proof.
  unfold unblock_sigrtmin, masked, sig_threads.
  rewrite (eval_cmd _ _ k oks m true oks (m_quantum m) m) by done.
  destruct (m_quantum m =? 0) eqn:E; cbn; [by rewrite set_threads_id|].
  destruct (m_sigset m); cbn; [done|by rewrite set_threads_id].
Qed.

Lemma ev_lock u m oks : m_mutex m !! u = Some None →
  eval (or_abort (MutexLock u)) k oks m =
  EDone tt oks (set_mutex (<[u := Some k]> (m_mutex m)) m).
Proof.
  intros H. unfold or_abort. erewrite eval_cmd; [|done..|by cbn; rewrite H]. done.
Qed.
Lemma ev_unlock u m oks : m_mutex m !! u = Some (Some k) →
  eval (or_abort (MutexUnlock u)) k oks m =
  EDone tt oks (set_mutex (<[u := None]> (m_mutex m)) m).
Proof.
  intros H. unfold or_abort. erewrite eval_cmd; [|done..|by cbn; rewrite H, decide_True]. done.
Qed.
Lemma ev_post s v m oks : m_ksem m !! s = Some v → v < SEM_VALUE_MAX →
  eval (or_abort (SemPost s)) k oks m =
  EDone tt oks (set_ksem (<[s := v + 1]> (m_ksem m)) m).
Proof.
  intros H Hv. unfold or_abort. erewrite eval_cmd; [|done..|by cbn; rewrite H, decide_True]. done.
Qed.
Lemma ev_wait s v m oks : m_ksem m !! s = Some v → 0 < v →
  eval (or_abort (SemWait s)) k oks m =
  EDone tt oks (set_ksem (<[s := v - 1]> (m_ksem m)) m).
Proof.
  intros H Hv. unfold or_abort. erewrite eval_cmd; [|done..|by cbn; rewrite H, decide_True]. done.
Qed.

Lemma ev_self m oks : eval kthread_self k oks m = EDone k oks m.
Proof. done. Qed.
Lemma ev_ret {A} (a : A) m oks : eval (Ret a) k oks m = EDone a oks m.
Proof. done. Qed.
Lemma ev_deref {A} (x : A) m oks : eval (deref (Some x)) k oks m = EDone x oks m.
Proof. done. Qed.
(** Every function of the public interface begins with [assert(inited)]. *)
Lemma ev_inited {A} (f : prog A) m oks : m_inited m ≠ 0 →
  eval (pbind (Load VInited) (λ i, pbind (passert (negb (i =? 0))) (λ _, f))) k oks m =
  eval f k oks m.
Proof. intros H. cbn. by rewrite (proj2 (Z.eqb_neq _ 0)). Qed.

Lemma ev_get_sched_ctx m i oks : registered m k i →
  eval get_sched_ctx k oks m = EDone (CtxSched i) oks m.
Proof.
  intros H. unfold get_sched_ctx. rewrite (eval_bind _ _ _ _ _ k oks m) by done.
  by rewrite (eval_bind _ _ _ _ _ i oks m) by by apply ev_get_kthread_info.
Qed.

Lemma ev_uthread_self m i x oks :
  m_inited m ≠ 0 → registered m k i → m_kinfo m !! i = Some x →
  eval uthread_self k oks m = EDone (to_uint (ki_current_tid x)) oks m.
Proof.
  intros Hin Hr Hx. unfold uthread_self. rewrite ev_inited by done.
  rewrite (eval_bind _ _ _ _ _ k oks m) by done.
  rewrite (eval_bind _ _ _ _ _ i oks m) by by apply ev_get_kthread_info.
  rewrite (eval_cmd _ _ k oks m true oks (ki_current_tid x) m); [done..|].
  cbn. by rewrite (ld_kinfo _ _ _ _ Hx).
Qed.

Lemma ev_check_preempted m i x oks :
  registered m k i → m_kinfo m !! i = Some x → unpreempted m x →
  eval check_preempted k oks m = EDone tt oks m.
Proof.
  intros Hr Hx Hp. unfold check_preempted. rewrite (eval_bind _ _ _ _ _ k oks m) by done.
  rewrite (eval_bind _ _ _ _ _ i oks m) by by apply ev_get_kthread_info.
  rewrite (eval_cmd _ _ k oks m true oks (m_quantum m) m) by done.
  destruct (Z.eqb_spec (m_quantum m) 0) as [|Hq]; [done|].
  destruct Hp as [?|Hp]; [done|].
  rewrite (eval_cmd _ _ k oks m true oks 0 m); [done..|]. cbn. by rewrite (ld_kinfo _ _ _ _ Hx), Hp.
Qed.
End ev.

(** The machine as its fields: the writes are carried out, so that the term does
    not grow with the program. *)
Ltac mfields m :=
  eval cbn beta iota delta [masked thr_upd
    set_inited set_quantum set_num_kthreads set_sigset set_handler set_tcbs set_heap
    set_next set_stacks set_kinfo set_bitvec set_rqueue set_abort_ctx set_mutex set_ksem
    set_usem set_timers set_kt_inited set_tidmap set_targs set_threads set_user
    m_inited m_quantum m_num_kthreads m_sigset m_handler m_tcbs m_heap m_next m_stacks
    m_kinfo m_bitvec m_rqueue m_abort_ctx m_mutex m_ksem m_usem m_timers m_kt_inited
    m_tidmap m_targs m_threads m_user]
  in (Machine (m_inited m) (m_quantum m) (m_num_kthreads m) (m_sigset m) (m_handler m) (m_tcbs m)
      (m_heap m) (m_next m) (m_stacks m) (m_kinfo m) (m_bitvec m) (m_rqueue m)
      (m_abort_ctx m) (m_mutex m) (m_ksem m) (m_usem m) (m_timers m) (m_kt_inited m)
      (m_tidmap m) (m_targs m) (m_threads m) (m_user m)).
Ltac mnorm :=
  cbn beta iota;
  match goal with
  | |- eval ?p ?k ?oks ?m = ?r =>
      first [is_var m | let m' := mfields m in change (eval p k oks m' = r)]
  | |- _ => idtac
  end.

(** Two machines with the same fields are equal. *)
Lemma machine_ext (m m' : machine) :
  m_inited m = m_inited m' → m_quantum m = m_quantum m' →
  m_num_kthreads m = m_num_kthreads m' → m_sigset m = m_sigset m' →
  m_handler m = m_handler m' → m_tcbs m = m_tcbs m' → m_heap m = m_heap m' →
  m_next m = m_next m' → m_stacks m = m_stacks m' → m_kinfo m = m_kinfo m' →
  m_bitvec m = m_bitvec m' → m_rqueue m = m_rqueue m' → m_abort_ctx m = m_abort_ctx m' →
  m_mutex m = m_mutex m' → m_ksem m = m_ksem m' → m_usem m = m_usem m' →
  m_timers m = m_timers m' → m_kt_inited m = m_kt_inited m' → m_tidmap m = m_tidmap m' →
  m_targs m = m_targs m' → m_threads m = m_threads m' → m_user m = m_user m' →
  m = m'.
Proof. destruct m, m'. cbn. intros. by subst. Qed.

Ltac mproj :=
  cbn beta iota delta [masked thr_upd mask_of mask_blocked
    set_inited set_quantum set_num_kthreads set_sigset set_handler set_tcbs set_heap
    set_next set_stacks set_kinfo set_bitvec set_rqueue set_abort_ctx set_mutex set_ksem
    set_usem set_timers set_kt_inited set_tidmap set_targs set_threads set_user
    m_inited m_quantum m_num_kthreads m_sigset m_handler m_tcbs m_heap m_next m_stacks
    m_kinfo m_bitvec m_rqueue m_abort_ctx m_mutex m_ksem m_usem m_timers m_kt_inited
    m_tidmap m_targs m_threads m_user].
Ltac machine_eq :=
  apply machine_ext; mproj; rewrite ?insert_insert_eq, ?sig_errno, ?sig_sig; try done;
  try (by apply insert_id).

(** Symbolic execution: the head of the program is a function with a lemma
    ([ev_call]), or a command ([ev_cmd]) whose result [tac] rewrites. *)
Tactic Notation "ev_call" uconstr(l) := erewrite eval_bind; cycle 1; [eapply l|mnorm].
Tactic Notation "ev_cmd" tactic3(tac) :=
  erewrite eval_cmd; cycle 1; [reflexivity|reflexivity|cbn; tac; reflexivity|mnorm; rewrite ?insert_insert_eq].
Tactic Notation "ev_cmd" := ev_cmd idtac.
Tactic Notation "ev_assert" :=
  erewrite (eval_bind (passert true)); cycle 1; [reflexivity|cbn beta iota].

Lemma insert_back {V} (mm : gmap mutex_id V) u a b :
  mm !! u = Some b → <[u := b]> (<[u := a]> mm) = mm.
Proof. intros H. rewrite insert_insert_eq. by apply insert_id. Qed.

(** The ready queue has [q], its lock is free, and its semaphore counts [q]'s
    elements plus what kernel threads already took ([v] in all). *)
Record rq_free (m : machine) (q : list loc) (v : Z) : Prop := {
  rf_lock : m_mutex m !! MRqueue = Some None;
  rf_queue : m_rqueue m = Some q;
  rf_sem : m_ksem m !! KNotEmpty = Some v;
}.

(** A lookup in a map built by insertions at other keys, or at this one. *)
Ltac lk :=
  mproj;
  repeat first [rewrite lookup_insert_eq | rewrite lookup_insert_ne by congruence];
  first [eassumption | reflexivity | done].
Ltac rqf := match goal with H : rq_free _ _ _ |- _ => destruct H; constructor; lk end.

Section ready.
Context (k : Z).

Lemma ev_ready_enqueue m q v p :
  rq_free m q v → v < SEM_VALUE_MAX → Z.of_nat (length q) < INT_MAX →
  eval (ready_enqueue (Some p)) k [] m =
  EDone tt [] (set_ksem (<[KNotEmpty := v + 1]> (m_ksem m)) (set_rqueue (Some (q ++ [p])) m)).
Proof.
  intros [Hl Hq Hs] Hv Hlen. unfold ready_enqueue, kthread_mutex_lock, kthread_mutex_unlock,
    kthread_sem_post.
  ev_call ev_lock; [exact Hl|].
  erewrite eval_bind; cycle 1.
  { unfold or_abort. cbn. rewrite Hq. cbn.
    rewrite int_of_Ok by (unfold INT_MIN, INT_MAX in *; lia). cbn. reflexivity. }
  ev_call ev_unlock; [cbn; apply lookup_insert_eq|].
  erewrite ev_post; [|cbn; exact Hs|done]. f_equal.
  machine_eq.
Qed.

Lemma ev_ready_dequeue m p q v :
  rq_free m (p :: q) v → 0 < v →
  eval ready_dequeue k [] m =
  EDone p [] (set_ksem (<[KNotEmpty := v - 1]> (m_ksem m)) (set_rqueue (Some q) m)).
Proof.
  intros [Hl Hq Hs] Hv. unfold ready_dequeue, kthread_mutex_lock, kthread_mutex_unlock,
    kthread_sem_wait.
  ev_call ev_wait; [exact Hs|done|].
  ev_call ev_lock; [exact Hl|].
  ev_cmd (rewrite Hq; cbn).
  erewrite eval_bind; [|rewrite (proj2 (Z.ltb_lt 0 _)) by lia; reflexivity]; cbn beta.
  ev_cmd.
  rewrite bool_decide_true by eauto. ev_assert.
  ev_call ev_unlock; [cbn; apply lookup_insert_eq|].
  cbn. f_equal. machine_eq.
Qed.

(** A scheduler that finds nothing to run waits on [not_empty]. *)
Lemma ev_ready_dequeue_empty m :
  m_ksem m !! KNotEmpty = Some 0 → eval ready_dequeue k [] m = EBlock.
Proof.
  intros Hs. unfold ready_dequeue. apply eval_bind_block. unfold or_abort.
  apply eval_bind_block. cbn. by rewrite Hs.
Qed.
End ready.

(** The programs that end by resuming a context. *)
Definition checked (r : Z) : prog unit := if r =? 0 then Ret tt else abort.
Lemma checked_0 {A} (f : unit → prog A) : pbind (checked 0) f = f tt.
Proof. done. Qed.
Lemma ev_setcontext c k oks m :
  eval (or_abort (Setcontext c)) k oks m = EStop (Setcontext c) checked oks m.
Proof. done. Qed.
Lemma ev_swapcontext {A} o c (f : unit → prog A) k oks m :
  eval (pbind (or_abort (Swapcontext o c)) f) k oks m =
  EStop (Swapcontext o c) (λ r, pbind (checked r) f) oks m.
Proof. done. Qed.
Lemma ev_getcontext {A} c (f : unit → prog A) k oks m :
  eval (pbind (or_abort (Getcontext c)) f) k oks m =
  EStop (Getcontext c) (λ r, pbind (checked r) f) oks m.
Proof. done. Qed.
Lemma estop_eq {A B} (c : cmd B) (kont : B → prog A) oks m m' :
  m = m' → EStop c kont oks m = EStop c kont oks m'.
Proof. by intros ->. Qed.

(** ** Thread identifiers *)
Section tids.
Context (k : Z).

(** The tids in use are the set [S]; the lock is free. *)
Definition tids_free (m : machine) (S : gset Z) : Prop :=
  m_mutex m !! MBitvec = Some None ∧ bv_rep (m_bitvec m) S ∧
  nbits (m_bitvec m) = UTHREAD_MAX_THREADS.

Lemma tids_capacity m S : tids_free m S → capacity (m_bitvec m) = UTHREAD_MAX_THREADS.
Proof.
  intros (_ & [Hwf _] & Hn). unfold capacity. rewrite (wf_nbytes _ Hwf), Hn. done.
Qed.

Lemma ev_get_next_tid m S r oks :
  tids_free m S → 0 ≤ r < UTHREAD_MAX_THREADS → r ∉ S → (∀ j, 0 ≤ j < r → j ∈ S) →
  ∃ bv', eval get_next_tid k oks m = EDone r oks (set_bitvec bv' m) ∧
         bitvec_set (m_bitvec m) r = Ok bv' ∧
         tids_free (set_bitvec bv' m) ({[r]} ∪ S).
Proof.
  intros HS Hr Hout Hlow. pose proof (tids_capacity m S HS) as Hcap.
  destruct HS as (Hl & Hrep & Hn).
  destruct (bitvec_set_rep _ S r Hrep) as (bv' & Hset & Hn' & _ & Hrep'); [lia|].
  exists bv'. split; [|split; [done|split; [done|split; [done|by cbn; rewrite Hn']]]].
  unfold get_next_tid, kthread_mutex_lock, kthread_mutex_unlock.
  ev_call ev_lock; [exact Hl|]. ev_cmd.
  destruct (first_cleared_rep _ S Hrep) as [(r' & Hr' & Hout' & Hlow' & ->)|[Hall ->]];
    [|destruct Hout; apply Hall; lia].
  assert (r' = r) as ->.
  { destruct (Z.lt_trichotomy r' r) as [?|[?|?]]; [|done|].
    - destruct Hout'. apply Hlow. lia.
    - destruct Hout. apply Hlow'. lia. }
  ev_call ev_ret.
  erewrite eval_bind; cycle 1.
  { rewrite (proj2 (Z.ltb_ge r 0)) by lia. rewrite Hset. cbn. reflexivity. }
  ev_call ev_unlock; [cbn; apply lookup_insert_eq|].
  cbn. unfold UTHREAD_TID_MAIN. f_equal; [lia|]. machine_eq.
Qed.

(** All the tids are in use: the function answers 1. *)
Lemma ev_get_next_tid_full m S oks :
  tids_free m S → (∀ j, 0 ≤ j < UTHREAD_MAX_THREADS → j ∈ S) →
  eval get_next_tid k oks m = EDone 1 oks m.
Proof.
  intros HS Hall. pose proof (tids_capacity m S HS) as Hcap. destruct HS as (Hl & Hrep & Hn).
  unfold get_next_tid, kthread_mutex_lock, kthread_mutex_unlock.
  ev_call ev_lock; [exact Hl|]. ev_cmd.
  destruct (first_cleared_rep _ S Hrep) as [(r' & Hr' & Hout' & _ & _)|[_ ->]];
    [destruct Hout'; apply Hall; lia|].
  ev_call ev_ret.
  ev_call ev_ret.
  ev_call ev_unlock; [cbn; apply lookup_insert_eq|].
  cbn. f_equal. machine_eq.
Qed.

Lemma ev_reclaim_tid m S t oks :
  tids_free m S → 0 ≤ t < UTHREAD_MAX_THREADS →
  ∃ bv', eval (reclaim_tid t) k oks m = EDone tt oks (set_bitvec bv' m) ∧
         bitvec_clear (m_bitvec m) t = Ok bv' ∧
         tids_free (set_bitvec bv' m) (S ∖ {[t]}).
Proof.
  intros HS Ht. pose proof (tids_capacity m S HS) as Hcap. destruct HS as (Hl & Hrep & Hn).
  destruct (bitvec_clear_rep _ S t Hrep) as (bv' & Hclr & Hn' & _ & Hrep'); [lia|].
  exists bv'. split; [|split; [done|split; [done|split; [done|by cbn; rewrite Hn']]]].
  unfold reclaim_tid, kthread_mutex_lock, kthread_mutex_unlock.
  ev_call ev_lock; [exact Hl|]. ev_cmd.
  assert (t - UTHREAD_TID_MAIN = t) as -> by (unfold UTHREAD_TID_MAIN; lia).
  rewrite Hclr. ev_call ev_ret.
  ev_cmd. erewrite ev_unlock; [|cbn; apply lookup_insert_eq].
  f_equal. machine_eq.
Qed.
End tids.
