(* ===== verification/Sched.v ===== *)
(** * The scheduler of uthread.c

    What [schedule] does with the task another context left for it, and which
    thread it runs next: every lemma follows the C function up to the
    [setcontext] that hands the kernel thread over. *)
From S2P Require Import Prelude Bitvec Machine Kthread Uthread Client Eval UthreadEval.
Local Open Scope prog_scope.

(** The part of [schedule] after the [switch]. *)
Definition pick_next (kinfo : Z) : prog unit :=
  Store (VKiTask kinfo) NONE ;;
  Store (VKiLock kinfo) None ;;
  Store (VKiQueue kinfo) None ;;
  next_tcb ← ready_dequeue;
  (if decide (next_tcb = exitall) then handle_exitall else Ret tt) ;;
  dispatch kinfo next_tcb.

(** The scheduler's record once thread [t] is its current one. *)
Definition ki_running (t : Z) (x : kinfo) : kinfo :=
  Kinfo (ki_ktid x) t NONE None None (ki_timer x) 0 (ki_ctx x).
Definition ki_cleared (x : kinfo) : kinfo :=
  Kinfo (ki_ktid x) (ki_current_tid x) NONE None None (ki_timer x) (ki_preempted x) (ki_ctx x).

(** The machine in which kernel thread [k], whose record is entry [i], has taken
    the head [p] of the ready queue [p :: q] and is about to resume it. *)
Definition switched (k i : Z) (x : kinfo) (p : loc) (c : tcb) (q : list loc) (v : Z)
    (m : machine) : machine :=
  masked false k
    (set_kinfo (<[i := ki_running (t_tid c) x]> (m_kinfo m))
      (set_heap (<[p := set_t_state RUNNING c]> (m_heap m))
        (set_ksem (<[KNotEmpty := v - 1]> (m_ksem m)) (set_rqueue (Some q) m)))).

Lemma to_int_tid t : valid_tid t → to_int t = t.
Proof.
  unfold valid_tid, UTHREAD_MAX_THREADS. intros H.
  apply to_int_small. unfold INT_MAX. lia.
Qed.
Lemma to_uint_tid t : valid_tid t → to_uint t = t.
Proof. unfold valid_tid, UTHREAD_MAX_THREADS. intros H. rewrite to_uint_small; lia. Qed.

Lemma registered_kinfo m k i x : registered m k i → m_kinfo m !! i = Some x → ki_ktid x = k.
Proof.
  intros (Hi & _ & H) Hx. destruct (H i Hi) as [_ H2]. specialize (H2 eq_refl).
  unfold ktid_at in H2. rewrite Hx in H2. by injection H2.
Qed.

Lemma registered_insert m m' k i j x x' :
  m_kinfo m' = <[j := x']> (m_kinfo m) → m_kinfo m !! j = Some x → ki_ktid x' = ki_ktid x →
  m_num_kthreads m' = m_num_kthreads m → registered m k i → registered m' k i.
Proof.
  intros Hm Hx Hk Hn Hr. eapply registered_ext; [done| |done].
  intros l. unfold ktid_at. rewrite Hm. by eapply ktid_at_insert.
Qed.

(** Kernel thread [k], whose record is entry [i] of [kthread_info], executes user
    thread [t], whose block is at [p]; no preemption is pending. *)
Record on_cpu (m : machine) (k i t : Z) (p : loc) (x : kinfo) (c : tcb) : Prop := {
  oc_inited : m_inited m ≠ 0;
  oc_reg : registered m k i;
  oc_kinfo : m_kinfo m !! i = Some x;
  oc_unpreempted : unpreempted m x;
  oc_sched : uc_body (ki_ctx x) = CtxEntry FSchedule;
  oc_current : ki_current_tid x = t;
  oc_tid : valid_tid t;
  oc_tcbs : znth (m_tcbs m) t = Some (Some p);
  oc_heap : m_heap m !! p = Some c;
  oc_alive : alive k m;
}.

(** The scheduler's locks are free; the ready queue is [q] and [v] of its
    elements are there for the taking. *)
Record quiet (m : machine) (q : list loc) (v : Z) : Prop := {
  qt_tcbs : m_mutex m !! MTcbs = Some None;
  qt_rq : rq_free m q v;
  qt_v : 0 ≤ v < SEM_VALUE_MAX;
  qt_len : Z.of_nat (length q) < INT_MAX;
}.

Lemma alive_set_heap k h m : alive k m → alive k (set_heap h m).
Proof. done. Qed.

Section pick.
Context (k i : Z).

Lemma ev_pick_next m x p q v c :
  m_inited m ≠ 0 → registered m k i → m_kinfo m !! i = Some x →
  m_mutex m !! MTcbs = Some None → rq_free m (p :: q) v → 0 < v →
  p ≠ exitall → m_heap m !! p = Some c → t_state c = READY → valid_tid (t_tid c) →
  eval (pick_next i) k [] m = EStop (Setcontext (CtxTcb p)) checked [] (switched k i x p c q v m).
Proof.
  intros Hin Hr Hx Hl Hrq Hv Hp Hc Hst Ht. unfold pick_next.
  ev_cmd (rewrite (st_kinfo _ _ _ _ Hx)).
  ev_cmd (erewrite st_kinfo by apply lookup_insert_eq).
  ev_cmd (erewrite st_kinfo by apply lookup_insert_eq).
  ev_call ev_ready_dequeue; [by destruct Hrq; constructor|done|].
  rewrite decide_False by done.
  ev_call ev_ret.
  unfold dispatch, lock_tcbs, unlock_tcbs, kthread_mutex_lock, kthread_mutex_unlock.
  ev_call ev_lock; [exact Hl|].
  ev_call ev_self.
  ev_call ev_get_kthread_info.
  { by eapply (registered_insert m _ k i i x (ki_cleared x)). }
  ev_cmd (erewrite ld_tcb by exact Hc).
  ev_cmd (erewrite st_kinfo by apply lookup_insert_eq).
  ev_cmd (erewrite ld_tcb by exact Hc).
  rewrite bool_decide_true by done. ev_assert.
  ev_cmd (erewrite st_tcb by exact Hc).
  ev_call ev_unlock; [apply lookup_insert_eq|].
  ev_cmd (erewrite st_kinfo by apply lookup_insert_eq).
  ev_call ev_unblock. rewrite ev_setcontext. apply estop_eq.
  rewrite to_int_tid by done. unfold switched. machine_eq.
Qed.
End pick.

(** ** The tasks *)

(** The lock that every task but [NONE] was left with. *)
Abbreviation tcbs_held m k := (m_mutex m !! MTcbs = Some (Some k)).
Abbreviation tcbs_released m := (set_mutex (<[MTcbs := None]> (m_mutex m)) m).

Section tasks.
Context (k i t : Z).

Lemma ev_schedule m x p :
  m_inited m ≠ 0 → registered m k i → m_kinfo m !! i = Some x →
  ki_current_tid x = t → valid_tid t → znth (m_tcbs m) t = Some p →
  eval schedule k [] m =
  eval (pbind (schedule_task i t p) (λ _, pick_next i)) k [] (masked true k m).
Proof.
  intros Hin Hr Hx Hc Ht Hp. unfold schedule.
  ev_call ev_block. ev_call ev_self.
  ev_call ev_get_kthread_info; [by eapply registered_ext; [..|exact Hr]|].
  ev_call ev_uthread_self; [exact Hin|by eapply registered_ext; [..|exact Hr]|exact Hx|].
  rewrite Hc, to_uint_tid, to_int_tid by done.
  rewrite (proj2 (Z.leb_le 0 t)) by (destruct Ht; lia).
  ev_cmd (rewrite Hp).
  ev_cmd (erewrite ld_kinfo by exact Hx).
  rewrite (registered_kinfo m k i x), Z.eqb_refl by done. ev_assert. done.
Qed.

Lemma ev_task_none m x p : m_kinfo m !! i = Some x → ki_task x = NONE →
  eval (schedule_task i t p) k [] m = EDone tt [] m.
Proof.
  intros Hx Ht. unfold schedule_task. ev_cmd (erewrite ld_kinfo by exact Hx). by rewrite Ht.
Qed.

Lemma ev_task_yield m x p q v :
  m_kinfo m !! i = Some x → ki_task x = YIELD → tcbs_held m k → rq_free m q v →
  v < SEM_VALUE_MAX → Z.of_nat (length q) < INT_MAX →
  eval (schedule_task i t (Some p)) k [] m =
  EDone tt [] (tcbs_released
    (set_ksem (<[KNotEmpty := v + 1]> (m_ksem m)) (set_rqueue (Some (q ++ [p])) m))).
Proof.
  intros Hx Ht Hl Hrq Hv Hlen. unfold schedule_task.
  ev_cmd (erewrite ld_kinfo by exact Hx). rewrite Ht.
  ev_call ev_ready_enqueue; [by destruct Hrq; constructor|done|done|].
  unfold unlock_tcbs, kthread_mutex_unlock. erewrite ev_unlock; [done|exact Hl].
Qed.

Lemma ev_task_teardown m x p c q v :
  m_kinfo m !! i = Some x → ki_task x = TEARDOWN → tcbs_held m k → rq_free m q v →
  m_heap m !! p = Some c → v < SEM_VALUE_MAX → Z.of_nat (length q) < INT_MAX →
  eval (schedule_task i t (Some p)) k [] m =
  EDone tt [] (tcbs_released
    (set_ksem (<[KNotEmpty := v + 1]> (m_ksem m))
      (set_rqueue (Some (q ++ [p])) (set_heap (<[p := set_t_state READY c]> (m_heap m)) m)))).
Proof.
  intros Hx Ht Hl Hrq Hc Hv Hlen. unfold schedule_task.
  ev_cmd (erewrite ld_kinfo by exact Hx). rewrite Ht.
  ev_call ev_deref. ev_cmd (erewrite st_tcb by exact Hc).
  ev_call ev_ready_enqueue; [by destruct Hrq; constructor|done|done|].
  unfold unlock_tcbs, kthread_mutex_unlock. erewrite ev_unlock; [done|exact Hl].
Qed.

(** A thread that exits wakes the first thread waiting to join it. *)
Lemma ev_task_exit m x p c js q v :
  m_kinfo m !! i = Some x → ki_task x = EXIT → tcbs_held m k → rq_free m q v →
  m_heap m !! p = Some c → t_joinq c = Some js → valid_tid t →
  v < SEM_VALUE_MAX → Z.of_nat (length q) < INT_MAX →
  match js with
  | [] => eval (schedule_task i t (Some p)) k [] m = EDone tt [] (tcbs_released m)
  | j :: js' => ∀ cj,
      j ≠ p → m_heap m !! j = Some cj → t_state cj = WAITING_JOIN → t_tid cj ≠ t →
      eval (schedule_task i t (Some p)) k [] m =
      EDone tt [] (tcbs_released
        (set_ksem (<[KNotEmpty := v + 1]> (m_ksem m))
          (set_rqueue (Some (q ++ [j]))
            (set_heap (<[j := set_t_state READY cj]>
                        (<[p := set_t_joinq (Some js') c]> (m_heap m))) m))))
  end.
Proof.
  intros Hx Ht Hl Hrq Hc Hj Hvt Hv Hlen. destruct js as [|j js'].
  - unfold schedule_task. ev_cmd (erewrite ld_kinfo by exact Hx). rewrite Ht.
    ev_call ev_deref.
    ev_cmd (erewrite ld_tcb by exact Hc; rewrite Hj). cbn [length Z.of_nat Z.ltb Z.compare].
    ev_call ev_ret.
    unfold unlock_tcbs, kthread_mutex_unlock. erewrite ev_unlock; [done|exact Hl].
  - intros cj Hne Hcj Hst Htj. unfold schedule_task.
    ev_cmd (erewrite ld_kinfo by exact Hx). rewrite Ht.
    ev_call ev_deref.
    ev_cmd (erewrite ld_tcb by exact Hc; rewrite Hj).
    rewrite (proj2 (Z.ltb_lt 0 _)) by (cbn; lia).
    erewrite eval_bind; cycle 1.
    { ev_cmd (erewrite ld_tcb by exact Hc; rewrite Hj; cbn; erewrite st_tcb by exact Hc).
      ev_call ev_ret.
      assert (<[p := set_t_joinq (Some js') c]> (m_heap m) !! j = Some cj) as Hcj'
        by by rewrite lookup_insert_ne.
      ev_cmd (erewrite ld_tcb by exact Hcj').
      ev_cmd (erewrite ld_tcb by exact Hcj').
      rewrite to_uint_tid, (proj2 (Z.eqb_neq _ _) Htj), bool_decide_true by done. ev_assert.
      ev_cmd (erewrite st_tcb by exact Hcj').
      apply (ev_ready_enqueue k _ q v j); [by destruct Hrq; constructor|done..]. }
    unfold unlock_tcbs, kthread_mutex_unlock. erewrite ev_unlock; [done|exact Hl].
Qed.

(** A thread that joins is queued at its target. *)
Lemma ev_task_join m x p d cd ds :
  m_kinfo m !! i = Some x → ki_task x = JOIN → ki_queue x = Some (QJoin d) →
  tcbs_held m k → m_heap m !! d = Some cd → t_joinq cd = Some ds →
  Z.of_nat (length ds) < INT_MAX →
  eval (schedule_task i t (Some p)) k [] m =
  EDone tt [] (tcbs_released
    (set_heap (<[d := set_t_joinq (Some (ds ++ [p])) cd]> (m_heap m)) m)).
Proof.
  intros Hx Ht Hq Hl Hd Hds Hlen. unfold schedule_task.
  ev_cmd (erewrite ld_kinfo by exact Hx). rewrite Ht.
  ev_cmd (erewrite ld_kinfo by exact Hx). rewrite Hq. cbn [queue_enqueue].
  erewrite eval_bind; cycle 1.
  { unfold or_abort. ev_cmd (erewrite ld_tcb by exact Hd; rewrite Hds; cbn;
      rewrite int_of_Ok by (unfold INT_MIN, INT_MAX in *; lia); cbn; erewrite st_tcb by exact Hd).
    done. }
  unfold unlock_tcbs, kthread_mutex_unlock. erewrite ev_unlock; [done|exact Hl].
Qed.

(** A thread that waits for a semaphore is queued there; the semaphore's lock
    is released for it. *)
Lemma ev_task_sem_wait m x p a n ws :
  m_kinfo m !! i = Some x → ki_task x = SEM_WAIT → ki_queue x = Some (QSem a) →
  ki_lock x = Some (MSem a) → tcbs_held m k → m_mutex m !! MSem a = Some (Some k) →
  m_usem m !! a = Some (Usem n (Some ws)) → Z.of_nat (length ws) < INT_MAX →
  eval (schedule_task i t (Some p)) k [] m =
  EDone tt [] (set_mutex (<[MTcbs := None]> (<[MSem a := None]> (m_mutex m)))
    (set_usem (<[a := Usem n (Some (ws ++ [p]))]> (m_usem m)) m)).
Proof.
  intros Hx Ht Hq Hlk Hl Hm Hs Hlen. unfold schedule_task.
  ev_cmd (erewrite ld_kinfo by exact Hx). rewrite Ht.
  ev_cmd (erewrite ld_kinfo by exact Hx). rewrite Hq. cbn [queue_enqueue].
  erewrite eval_bind; cycle 1.
  { unfold or_abort. ev_cmd (rewrite Hs; cbn;
      rewrite int_of_Ok by (unfold INT_MIN, INT_MAX in *; lia); cbn).
    done. }
  cbn beta. ev_cmd (erewrite ld_kinfo by exact Hx). rewrite Hlk. ev_call ev_deref.
  unfold unlock_tcbs, kthread_mutex_unlock.
  ev_call ev_unlock; [exact Hm|]. erewrite ev_unlock; [done|].
  cbn. by rewrite lookup_insert_ne.
Qed.

(** The scheduler as a whole: the task, then the next thread. *)
Lemma ev_schedule_next m x x' p m1 p' c' q v :
  eval (schedule_task i t (Some p)) k [] (masked true k m) = EDone tt [] m1 →
  m_inited m ≠ 0 → registered m k i → m_kinfo m !! i = Some x →
  ki_current_tid x = t → valid_tid t → znth (m_tcbs m) t = Some (Some p) →
  m_inited m1 ≠ 0 → registered m1 k i → m_kinfo m1 !! i = Some x' →
  m_mutex m1 !! MTcbs = Some None → rq_free m1 (p' :: q) v → 0 < v → p' ≠ exitall →
  m_heap m1 !! p' = Some c' → t_state c' = READY → valid_tid (t_tid c') →
  eval schedule k [] m =
  EStop (Setcontext (CtxTcb p')) checked [] (switched k i x' p' c' q v m1).
Proof.
  intros Htask Hin Hr Hx Hc Ht Hp Hin1 Hr1 Hx1 Hl1 Hrq Hv Hne Hc' Hst Ht'.
  rewrite (ev_schedule m x (Some p)) by done.
  rewrite (eval_bind _ _ _ _ _ _ _ _ Htask). by apply ev_pick_next.
Qed.
End tasks.


(** ** From a thread to the next one *)

(** Thread block [c] at [p] resumes: it was the head of the ready queue and [q] is
    what is left; [h] is the heap. *)
Definition resumed (k i : Z) (x : kinfo) (p : loc) (c : tcb) (q : list loc)
    (h : gmap loc tcb) (m : machine) : machine :=
  thr_upd (set_k_mask (uc_mask (t_ctx c))) k
    (set_kinfo (<[i := ki_running (t_tid c) x]> (m_kinfo m))
      (set_heap (<[p := set_t_state RUNNING c]> h) (set_rqueue (Some q) m))).

(** The block of a thread that called [swapcontext]: [rest] is what it has left. *)
Definition saved (mask : bool) (rest : prog unit) (c : tcb) : tcb :=
  set_t_ctx (set_uc_regs mask (CtxResume rest) (t_ctx c)) c.

Lemma mask_thr_upd g k m : (∀ t, k_mask (g t) = k_mask t) → mask_of k (thr_upd g k m) = mask_of k m.
Proof.
  intros Hg. unfold mask_of. cbn. rewrite lookup_alter_eq.
  destruct (m_threads m !! k); cbn; [apply Hg|done].
Qed.

(** Kernel-thread tables that differ in the signal mask of [k] only. *)
Definition mask_eqv (k : Z) (th th' : gmap Z kthr) : Prop :=
  ∀ b, alter (set_k_mask b) k th = alter (set_k_mask b) k th'.

Lemma mask_eqv_alter b k th : mask_eqv k (alter (set_k_mask b) k th) th.
Proof. intros b'. rewrite alter_alter_eq. by apply alter_ext. Qed.
Lemma mask_eqv_sig b k qn ss th : mask_eqv k (sig_threads b k qn ss th) th.
Proof. unfold sig_threads. destruct (_ || _); [done|apply mask_eqv_alter]. Qed.
Lemma mask_eqv_trans k th1 th2 th3 :
  mask_eqv k th1 th2 → mask_eqv k th2 th3 → mask_eqv k th1 th3.
Proof. intros H1 H2 b. by rewrite H1. Qed.

(** Every chain of mask changes is absorbed by the last one. *)
Ltac mask_solve :=
  mproj;
  repeat (eapply mask_eqv_trans; [first [apply mask_eqv_alter|apply mask_eqv_sig]|]);
  done.

Lemma resume_eq b k m m' :
  mask_eqv k (m_threads m) (m_threads m') → set_threads (m_threads m') m = m' →
  thr_upd (set_k_mask b) k m = thr_upd (set_k_mask b) k m'.
Proof. intros Ht Hm. unfold thr_upd. rewrite (Ht b), <- Hm. done. Qed.

Lemma lrun_to text k P m P' m1 m2 :
  lrun text k P m P' m1 → m1 = m2 → lrun text k P m P' m2.
Proof. by intros ? <-. Qed.

Section switch.
Context (cl : client) (k i : Z).

(** [swapcontext(&current->ctx, get_sched_ctx())], when the scheduler goes from
    there to the context of [p']. *)
Lemma lrun_swap_sched m p c x kont p' c' P m2 :
  alive k m → m_heap m !! p = Some c →
  m_kinfo m !! i = Some x → uc_body (ki_ctx x) = CtxEntry FSchedule →
  eval schedule k [] (thr_upd (set_k_mask (uc_mask (ki_ctx x))) k
    (set_heap (<[p := saved (mask_of k m) (kont 0) c]> (m_heap m)) m)) =
  EStop (Setcontext (CtxTcb p')) checked [] m2 →
  m_heap m2 !! p' = Some c' → ctx_prog (text cl) (t_ctx c') = Some P →
  lrun (text cl) k (Vis (Swapcontext (CtxTcb p) (CtxSched i)) kont) m P
    (thr_upd (set_k_mask (uc_mask (t_ctx c'))) k m2).
Proof.
  intros Ha Hc Hx Hs He Hc' HP. set (m1 := set_heap _ m) in He.
  assert (lrun (text cl) k (Vis (Swapcontext (CtxTcb p) (CtxSched i)) kont) m
    (pbind schedule (λ _, match uc_link (ki_ctx x) with
                          | Some c => Vis (Setcontext c) (λ _, Ret tt) | None => Ret tt end))
    (thr_upd (set_k_mask (uc_mask (ki_ctx x))) k m1)) as Hrun.
  { apply (lrun_swapcontext _ _ _ _ _ _ m1 (ki_ctx x)); [done|..].
    - cbn. by rewrite (st_tcb _ _ _ _ Hc).
    - cbn. by rewrite (ld_kinfo ki_ctx i m1 x).
    - unfold ctx_prog. by rewrite Hs. }
  eapply lrun_trans; [exact Hrun|].
  eapply lrun_trans; [eapply lrun_stop; [apply Hrun|exact He]|].
  apply lrun_setcontext; [|cbn; by rewrite (ld_tcb t_ctx _ _ _ Hc')|done].
  pose proof (lrun_stop (text cl) schedule (λ _, Ret tt) k [] _ _ _ _ _ (proj2 Hrun) He) as H.
  apply H.
Qed.

Lemma lrun_set_sched m x kont p' c' P m2 :
  alive k m → m_kinfo m !! i = Some x → uc_body (ki_ctx x) = CtxEntry FSchedule →
  eval schedule k [] (thr_upd (set_k_mask (uc_mask (ki_ctx x))) k m) =
  EStop (Setcontext (CtxTcb p')) checked [] m2 →
  m_heap m2 !! p' = Some c' → ctx_prog (text cl) (t_ctx c') = Some P →
  lrun (text cl) k (Vis (Setcontext (CtxSched i)) kont) m P
    (thr_upd (set_k_mask (uc_mask (t_ctx c'))) k m2).
Proof.
  intros Ha Hx Hs He Hc' HP.
  assert (lrun (text cl) k (Vis (Setcontext (CtxSched i)) kont) m
    (pbind schedule (λ _, match uc_link (ki_ctx x) with
                          | Some c => Vis (Setcontext c) (λ _, Ret tt) | None => Ret tt end))
    (thr_upd (set_k_mask (uc_mask (ki_ctx x))) k m)) as Hrun.
  { apply (lrun_setcontext _ _ _ _ _ (ki_ctx x)); [done|..].
    - cbn. by rewrite (ld_kinfo ki_ctx i m x).
    - unfold ctx_prog. by rewrite Hs. }
  eapply lrun_trans; [exact Hrun|].
  eapply lrun_trans; [eapply lrun_stop; [apply Hrun|exact He]|].
  apply lrun_setcontext; [|cbn; by rewrite (ld_tcb t_ctx _ _ _ Hc')|done].
  pose proof (lrun_stop (text cl) schedule (λ _, Ret tt) k [] _ _ _ _ _ (proj2 Hrun) He) as H.
  apply H.
Qed.
End switch.
