(* ===== verification/Api.v ===== *)
(** * What the public functions of uthread.c do

    Each lemma follows one call, made by a thread on kernel thread [k] while the
    other kernel threads stand still, until it returns or another thread runs. *)
From S2P Require Import Prelude Bitvec Machine Kthread Uthread Client Eval UthreadEval Sched.
Local Open Scope prog_scope.

Lemma registered_same m m' k i :
  m_num_kthreads m' = m_num_kthreads m → m_kinfo m' = m_kinfo m →
  registered m k i → registered m' k i.
Proof. intros Hn Hk. apply registered_ext; [done|]. intros j. unfold ktid_at. by rewrite Hk. Qed.

(** [registered], [m_kinfo] and the like of the machine at hand, from those of
    the machine the function started with. *)
Ltac reg :=
  match goal with
  | Hr : registered ?m ?k ?i, Hx : m_kinfo ?m !! ?i = Some ?x |- registered _ ?k _ =>
      first [ exact Hr
            | by eapply registered_same; [..|exact Hr]
            | by eapply (registered_insert m _ k i i x); [..|exact Hr] ]
  end.

(** [swapcontext] after [eval] reached it. *)
Ltac pre_sched H Ha := eapply lrun_trans; [eapply lrun_stop; [exact Ha|exact H]|].

(** A map written at some keys and restored. *)
Ltac map_back :=
  let u := fresh "u" in
  apply map_eq; intros u; rewrite ?lookup_insert; repeat case_decide; subst; congruence.

Section yield.
Context (cl : client) (k i t : Z) (p : loc) (x : kinfo) (c : tcb).

Lemma ev_uthread_yield m : on_cpu m k i t p x c → m_mutex m !! MTcbs = Some None →
  t_state c = RUNNING →
  eval uthread_yield k [] m =
  EStop (Swapcontext (CtxTcb p) (CtxSched i)) checked []
    (set_heap (<[p := set_t_state READY c]> (m_heap m))
      (set_mutex (<[MTcbs := Some k]> (m_mutex m))
        (set_kinfo (<[i := set_ki_task YIELD x]> (m_kinfo m)) (masked true k m)))).
Proof.
  intros [Hin Hr Hx _ _ Hcur Ht Htcb Hc _] Hl Hst. unfold uthread_yield.
  rewrite ev_inited by done. ev_call ev_block. ev_call ev_self.
  ev_call ev_get_kthread_info; [reg|].
  ev_cmd (erewrite st_kinfo by exact Hx).
  unfold lock_tcbs, kthread_mutex_lock. ev_call ev_lock; [exact Hl|].
  ev_call ev_uthread_self; [exact Hin|reg|apply lookup_insert_eq|]. cbn [ki_current_tid set_ki_task].
  rewrite Hcur, to_uint_tid by done.
  ev_cmd (rewrite Htcb). ev_call ev_deref.
  ev_cmd (erewrite ld_tcb by exact Hc). rewrite bool_decide_true by done. ev_assert.
  ev_cmd (erewrite st_tcb by exact Hc).
  ev_call ev_get_sched_ctx; [reg|].
  apply estop_eq. machine_eq.
Qed.

Lemma lrun_yield m q v p' q' c' K P :
  on_cpu m k i t p x c → quiet m q v → t_state c = RUNNING → q ++ [p] = p' :: q' →
  let h := <[p := saved (mask_blocked k m) (K tt) (set_t_state READY c)]> (m_heap m) in
  h !! p' = Some c' → t_state c' = READY → valid_tid (t_tid c') → p' ≠ exitall →
  ctx_prog (text cl) (t_ctx c') = Some P →
  lrun (text cl) k (pbind uthread_yield K) m P (resumed k i x p' c' q' h m).
Proof.
  intros Hoc Hqt Hst Hq h Hc' Hst' Ht' Hne HP.
  pose proof (ev_uthread_yield m Hoc (qt_tcbs _ _ _ Hqt) Hst) as Hy.
  destruct Hoc as [Hin Hr Hx _ Hs Hcur Ht Htcb Hc Ha], Hqt as [Hl Hrq Hv Hlen].
  eapply lrun_trans; [eapply lrun_stop; [exact Ha|exact Hy]|].
  eapply lrun_to.
  - eapply lrun_swap_sched; cycle 1.
    + apply lookup_insert_eq.
    + apply lookup_insert_eq.
    + exact Hs.
    + mnorm. eapply (ev_schedule_next k i t).
      { mnorm. eapply (ev_task_yield k i t) with (q := q) (v := v); [lk|done|lk|rqf|lia|done]. }
      { done. } { reg. } { lk. } { done. } { done. } { done. } { done. } { reg. } { lk. } { lk. }
      { destruct Hrq; constructor; mproj; rewrite ?Hq; lk. }
      { lia. } { done. } { mproj. rewrite insert_insert_eq. exact Hc'. } { done. } { done. }
    + unfold switched. lk.
    + exact HP.
    + by apply alive_masked.
  - apply resume_eq; unfold switched; [mask_solve|machine_eq].
    rewrite Z.add_simpl_r. apply insert_id. by destruct Hrq.
Qed.
End yield.
Section exit.
Context (cl : client) (k i t : Z) (p : loc) (x : kinfo) (c : tcb).

(** The block of a thread that finished with [ret]. *)
Definition finished (ret : Z) (c : tcb) : tcb := set_t_state FINISHED (set_t_retval ret c).

Lemma ev_uthread_exit m ret : on_cpu m k i t p x c → m_mutex m !! MTcbs = Some None →
  t_state c = RUNNING →
  eval (uthread_exit ret) k [] m =
  EStop (Setcontext (CtxSched i)) checked []
    (set_heap (<[p := finished ret c]> (m_heap m))
      (set_mutex (<[MTcbs := Some k]> (m_mutex m))
        (set_kinfo (<[i := set_ki_task EXIT x]> (m_kinfo m)) (masked true k m)))).
Proof.
  intros [Hin Hr Hx Hp _ Hcur Ht Htcb Hc _] Hl Hst. unfold uthread_exit.
  rewrite ev_inited by done. ev_call ev_block.
  ev_call ev_check_preempted; [reg|exact Hx|exact Hp|].
  unfold lock_tcbs, kthread_mutex_lock. ev_call ev_lock; [exact Hl|].
  ev_call ev_uthread_self; [exact Hin|reg|exact Hx|].
  rewrite Hcur, to_uint_tid by done.
  unfold tcb_of. erewrite eval_bind; cycle 1. { ev_cmd (rewrite Htcb). done. } mnorm.
  ev_cmd (erewrite st_tcb by exact Hc).
  ev_cmd (erewrite ld_tcb by lk). cbn [t_state set_t_retval].
  rewrite bool_decide_true by done. ev_assert.
  ev_cmd (erewrite st_tcb by lk).
  ev_call ev_self. ev_call ev_get_kthread_info; [reg|].
  ev_cmd (erewrite st_kinfo by exact Hx).
  ev_call ev_get_sched_ctx; [reg|].
  rewrite ev_setcontext. apply estop_eq. machine_eq.
Qed.

(** Nobody waits for the thread: the head of the ready queue runs. *)
Lemma lrun_exit_alone m v p' q' c' ret K P :
  on_cpu m k i t p x c → quiet m (p' :: q') v → 0 < v → t_state c = RUNNING →
  t_joinq c = Some [] →
  let h := <[p := finished ret c]> (m_heap m) in
  h !! p' = Some c' → t_state c' = READY → valid_tid (t_tid c') → p' ≠ exitall →
  ctx_prog (text cl) (t_ctx c') = Some P →
  lrun (text cl) k (pbind (uthread_exit ret) K) m P
    (resumed k i x p' c' q' h (set_ksem (<[KNotEmpty := v - 1]> (m_ksem m)) m)).
Proof.
  intros Hoc Hqt Hv0 Hst Hj h Hc' Hst' Ht' Hne HP.
  pose proof (ev_uthread_exit m ret Hoc (qt_tcbs _ _ _ Hqt) Hst) as Hy.
  destruct Hoc as [Hin Hr Hx _ Hs Hcur Ht Htcb Hc Ha], Hqt as [Hl Hrq Hv Hlen].
  eapply lrun_trans; [eapply lrun_stop; [exact Ha|exact Hy]|].
  eapply lrun_to.
  - eapply lrun_set_sched; cycle 1.
    + apply lookup_insert_eq.
    + exact Hs.
    + mnorm. eapply (ev_schedule_next k i t).
      { mnorm. eapply (ev_task_exit k i t _ _ _ (finished ret c) []) with (v := v);
          [lk|done|lk|rqf|lk|done|done|lia|done]. }
      { done. } { reg. } { lk. } { done. } { done. } { done. } { done. } { reg. } { lk. } { lk. }
      { rqf. } { lia. } { done. } { exact Hc'. } { done. } { done. }
    + unfold switched. lk.
    + exact HP.
    + by apply alive_masked.
  - apply resume_eq; unfold switched; [mask_solve|machine_eq].
Qed.

(** The first thread waiting for it goes to the end of the ready queue. *)
Lemma lrun_exit_wake m q v j js cj p' q' c' ret K P :
  on_cpu m k i t p x c → quiet m q v → t_state c = RUNNING →
  t_joinq c = Some (j :: js) → j ≠ p → m_heap m !! j = Some cj →
  t_state cj = WAITING_JOIN → t_tid cj ≠ t → q ++ [j] = p' :: q' →
  let h := <[j := set_t_state READY cj]>
             (<[p := set_t_joinq (Some js) (finished ret c)]> (m_heap m)) in
  h !! p' = Some c' → t_state c' = READY → valid_tid (t_tid c') → p' ≠ exitall →
  ctx_prog (text cl) (t_ctx c') = Some P →
  lrun (text cl) k (pbind (uthread_exit ret) K) m P (resumed k i x p' c' q' h m).
Proof.
  intros Hoc Hqt Hst Hj Hjp Hcj Hstj Htj Hq h Hc' Hst' Ht' Hne HP.
  pose proof (ev_uthread_exit m ret Hoc (qt_tcbs _ _ _ Hqt) Hst) as Hy.
  destruct Hoc as [Hin Hr Hx _ Hs Hcur Ht Htcb Hc Ha], Hqt as [Hl Hrq Hv Hlen].
  eapply lrun_trans; [eapply lrun_stop; [exact Ha|exact Hy]|].
  eapply lrun_to.
  - eapply lrun_set_sched; cycle 1.
    + apply lookup_insert_eq.
    + exact Hs.
    + mnorm. eapply (ev_schedule_next k i t).
      { mnorm. eapply (ev_task_exit k i t _ _ _ (finished ret c) (j :: js) q v);
          [lk|done|lk|rqf|lk|done|done|lia|done|done|lk|done|done]. }
      { done. } { reg. } { lk. } { done. } { done. } { done. } { done. } { reg. } { lk. } { lk. }
      { destruct Hrq; constructor; mproj; rewrite ?Hq; lk. }
      { lia. } { done. } { mproj. rewrite insert_insert_eq. exact Hc'. } { done. } { done. }
    + unfold switched. lk.
    + exact HP.
    + by apply alive_masked.
  - apply resume_eq; unfold switched; [mask_solve|machine_eq].
    rewrite Z.add_simpl_r. apply insert_id. by destruct Hrq.
Qed.
End exit.

(** ** Joining *)

Lemma set_user_id m : set_user (m_user m) m = m.
Proof. by destruct m. Qed.

(** [uthread_join] once the target has finished, with [tcbs_lock] held. *)
Definition join_finish (tid : Z) (pret : option Z) : prog Z :=
  t ← tcb_of tid;
  st ← Load (VTcbState t);
  passert (bool_decide (st = FINISHED)) ;;
  match pret with
  | Some x =>
      t ← tcb_of tid;
      v ← Load (VTcbRetval t);
      Store (VUser x) v
  | None => Ret tt
  end ;;
  unlock_tcbs ;;
  reclaim_tid tid ;;
  destroy_thread tid ;;
  unblock_sigrtmin ;;
  Ret 0.

(** What a joining thread has left when it is resumed. *)
Definition join_resume (tid : Z) (pret : option Z) : prog Z :=
  (block_sigrtmin ;; lock_tcbs) ;; join_finish tid pret.

(** The stack of block [c], if the library allocated it, is a live one. *)
Definition stack_owned (m : machine) (c : tcb) : Prop :=
  t_stack_allocated c = 0 ∨
  ∃ l, ss_sp (t_ctx c) = SMalloc l ∧ is_Some (m_stacks m !! l).
Definition stack_freed (c : tcb) (st : gmap positive Z) : gmap positive Z :=
  if t_stack_allocated c =? 0 then st
  else match ss_sp (t_ctx c) with SMalloc l => delete l st | _ => st end.

Definition store_ret (pret : option Z) (v : Z) (u : gmap Z Z) : gmap Z Z :=
  match pret with Some x => <[x := v]> u | None => u end.

Section join.
Context (cl : client) (k i t : Z) (p : loc) (x : kinfo) (c : tcb).

(** [destroy_thread] frees the block and its stack and clears its entry. *)
Lemma ev_destroy_thread m tid d cd js :
  znth (m_tcbs m) tid = Some (Some d) → m_heap m !! d = Some cd →
  t_joinq cd = Some js → stack_owned m cd →
  eval (destroy_thread tid) k [] m =
  EDone tt [] (set_stacks (stack_freed cd (m_stacks m))
    (set_tcbs (<[Z.to_nat tid := None]> (m_tcbs m)) (set_heap (delete d (m_heap m)) m))).
Proof.
  intros Htcb Hd Hjs Hso.
  assert (zupd (m_tcbs m) tid None = Some (<[Z.to_nat tid := None]> (m_tcbs m))) as Hz.
  { apply zupd_in, znth_is_Some. eauto. } unfold destroy_thread, tcb_of.
  assert (∀ m', m_tcbs m' = m_tcbs m →
    eval (pbind (Load (VTcbs tid)) deref) k [] m' = EDone d [] m') as Hld.
  { intros m' Hm'. ev_cmd (rewrite Hm', Htcb). done. }
  ev_call Hld; [done|].
  assert (∃ jo, eval (QDestroy (QJoin d)) k [] m =
    EDone tt [] (set_heap (<[d := set_t_joinq jo cd]> (m_heap m)) m)) as [jo Hq].
  { cbn. rewrite (ld_tcb t_joinq _ _ _ Hd). cbn. rewrite Hjs. cbn. destruct js; cbn.
    - exists (Some []). do 2 f_equal. destruct m. cbn in *. unfold set_heap. cbn. f_equal.
      symmetry. apply insert_id. rewrite Hd. f_equal. destruct cd; cbn in *. by subst.
    - exists None. by rewrite (st_tcb _ _ _ _ Hd). }
  erewrite eval_bind by exact Hq. mnorm.
  ev_call Hld; [done|].
  ev_cmd (erewrite ld_tcb by lk). cbn [t_stack_allocated set_t_joinq].
  erewrite (eval_bind (if negb _ then _ else _) _ _ _ _ tt []
    (set_stacks (stack_freed cd (m_stacks m)) (set_heap (<[d := set_t_joinq jo cd]> (m_heap m)) m))).
  2: { unfold stack_freed. destruct Hso as [->|(l & Hsp & [sz Hl])].
    { done. }
    destruct (t_stack_allocated cd =? 0); cbn [negb]; [done|].
    ev_call Hld; [done|]. ev_cmd (erewrite ld_tcb by lk). cbn [t_ctx set_t_joinq]. rewrite Hsp.
    cbn. rewrite Hl. done. }
  mnorm. ev_cmd (rewrite Htcb). ev_cmd (rewrite lookup_insert_eq).
  cbn. rewrite Hz. cbn. f_equal. machine_eq. apply delete_insert_eq.
Qed.

(** The machine once thread [tid], with block [cd] at [d], has been joined. *)
Definition joined (tid : Z) (pret : option Z) (d : loc) (cd : tcb) (bv' : bitvec_t)
    (m : machine) : machine :=
  set_stacks (stack_freed cd (m_stacks m)) (set_tcbs (<[Z.to_nat tid := None]> (m_tcbs m))
    (set_heap (delete d (m_heap m))
    (set_bitvec bv' (set_user (store_ret pret (t_retval cd) (m_user m)) m)))).

Lemma ev_join_finish m tid pret d cd js S :
  m_mutex m !! MTcbs = Some (Some k) → tids_free m S → valid_tid tid →
  znth (m_tcbs m) tid = Some (Some d) → m_heap m !! d = Some cd → t_state cd = FINISHED →
  t_joinq cd = Some js → stack_owned m cd →
  ∃ bv', bitvec_clear (m_bitvec m) tid = Ok bv' ∧
    tids_free (set_bitvec bv' m) (S ∖ {[tid]}) ∧
    eval (join_finish tid pret) k [] m =
    EDone 0 [] (masked false k (joined tid pret d cd bv' (tcbs_released m))).
Proof.
  intros Hl HS Ht Htcb Hd Hst Hjs Hso.
  set (m1 := set_mutex (<[MTcbs := None]> (m_mutex m))
               (set_user (store_ret pret (t_retval cd) (m_user m)) m)).
  destruct (ev_reclaim_tid k m1 S tid []) as (bv' & Hre & Hclr & HS').
  { destruct HS as (Hb & Hrep & Hn). split; [|done]. unfold m1. lk. }
  { done. }
  exists bv'. split; [done|split; [by split; [apply HS|apply HS']|]].
  assert (∀ m', m_tcbs m' = m_tcbs m →
    eval (pbind (Load (VTcbs tid)) deref) k [] m' = EDone d [] m') as Hld.
  { intros m' Hm'. ev_cmd (rewrite Hm', Htcb). done. }
  unfold join_finish, tcb_of.
  ev_call Hld; [done|]. ev_cmd (erewrite ld_tcb by exact Hd).
  rewrite bool_decide_true by done. ev_assert.
  erewrite (eval_bind (match pret with Some _ => _ | None => _ end) _ _ _ _ tt []
    (set_user (store_ret pret (t_retval cd) (m_user m)) m)).
  2: { destruct pret as [y|]; [|cbn; by rewrite set_user_id].
    ev_call Hld; [done|]. ev_cmd (erewrite ld_tcb by exact Hd). done. }
  mnorm. unfold unlock_tcbs, kthread_mutex_unlock. ev_call ev_unlock; [exact Hl|].
  erewrite eval_bind; cycle 1. { exact Hre. }
  cbv beta. erewrite eval_bind; cycle 1.
  { eapply ev_destroy_thread; [exact Htcb|exact Hd|exact Hjs|exact Hso]. }
  cbv beta. ev_call ev_unblock. done.
Qed.

(** The block of a thread that waits for another one to finish. *)
Definition waiting_join (c : tcb) : tcb := set_t_state WAITING_JOIN c.

(** The resumed call finds its target finished. *)
Lemma ev_join_resume m tid pret d cd js S :
  m_mutex m !! MTcbs = Some None → tids_free m S → valid_tid tid →
  znth (m_tcbs m) tid = Some (Some d) → m_heap m !! d = Some cd → t_state cd = FINISHED →
  t_joinq cd = Some js → stack_owned m cd →
  ∃ bv', bitvec_clear (m_bitvec m) tid = Ok bv' ∧ tids_free (set_bitvec bv' m) (S ∖ {[tid]}) ∧
    eval (join_resume tid pret) k [] m =
    EDone 0 [] (masked false k (joined tid pret d cd bv' m)).
Proof.
  intros Hl HS Ht Htcb Hd Hst Hjs Hso.
  set (m1 := set_mutex (<[MTcbs := Some k]> (m_mutex m)) (masked true k m)).
  destruct (ev_join_finish m1 tid pret d cd js S) as (bv' & Hclr & HS' & He); try done.
  { unfold m1. lk. }
  { destruct HS as (Hb & Hrep & Hn). split; [|done]. unfold m1. lk. }
  exists bv'. split; [done|split; [by split; [apply HS|apply HS']|]].
  unfold join_resume. erewrite eval_bind; cycle 1.
  { ev_call ev_block. unfold lock_tcbs, kthread_mutex_lock. apply ev_lock. exact Hl. }
  cbv beta. etrans; [exact He|]. f_equal. unfold m1, joined. machine_eq.
Qed.

Lemma ev_join_prefix m tid pret d :
  on_cpu m k i t p x c → m_mutex m !! MTcbs = Some None →
  znth (m_tcbs m) tid = Some (Some d) →
  eval (uthread_join tid pret) k [] m =
  eval (st ← Load (VTcbState d);
    (if negb (bool_decide (st = FINISHED)) then
       current ← deref (Some p);
       n ← QSize (QJoin current);
       passert (n =? 0) ;;
       self ← kthread_self;
       kinfo ← get_kthread_info self;
       Store (VKiTask kinfo) JOIN ;;
       Store (VKiQueue kinfo) (Some (QJoin d)) ;;
       Store (VTcbState current) WAITING_JOIN ;;
       sched ← get_sched_ctx;
       or_abort (Swapcontext (CtxTcb current) sched) ;;
       block_sigrtmin ;;
       lock_tcbs
     else Ret tt) ;;
    join_finish tid pret) k []
    (set_mutex (<[MTcbs := Some k]> (m_mutex m)) (masked true k m)).
Proof.
  intros [Hin Hr Hx Hp _ Hcur Ht Htcb Hc _] Hl Hd. unfold uthread_join.
  rewrite ev_inited by done. ev_call ev_block.
  ev_call ev_check_preempted; [reg|exact Hx|exact Hp|].
  ev_call ev_uthread_self; [exact Hin|reg|exact Hx|].
  rewrite Hcur, to_uint_tid by done.
  ev_cmd (rewrite Htcb). ev_cmd (rewrite Hd).
  unfold lock_tcbs, kthread_mutex_lock. ev_call ev_lock; [exact Hl|]. by ev_call ev_deref.
Qed.

(** Joining a finished thread returns at once, with its return value. *)
Lemma ev_join_now m tid pret d cd js S :
  on_cpu m k i t p x c → m_mutex m !! MTcbs = Some None → tids_free m S → valid_tid tid →
  znth (m_tcbs m) tid = Some (Some d) → m_heap m !! d = Some cd → t_state cd = FINISHED →
  t_joinq cd = Some js → stack_owned m cd →
  ∃ bv', bitvec_clear (m_bitvec m) tid = Ok bv' ∧ tids_free (set_bitvec bv' m) (S ∖ {[tid]}) ∧
    eval (uthread_join tid pret) k [] m =
    EDone 0 [] (masked false k (joined tid pret d cd bv' m)).
Proof.
  intros Hoc Hl HS Ht Htcb Hd Hst Hjs Hso.
  set (m1 := set_mutex (<[MTcbs := Some k]> (m_mutex m)) (masked true k m)).
  destruct (ev_join_finish m1 tid pret d cd js S) as (bv' & Hclr & HS' & He); try done.
  { unfold m1. lk. }
  { destruct HS as (Hb & Hrep & Hn). split; [|done]. unfold m1. lk. }
  exists bv'. split; [done|split; [by split; [apply HS|apply HS']|]].
  rewrite (ev_join_prefix m tid pret d) by done. fold m1.
  erewrite eval_cmd; cycle 1; [done|done|cbn; erewrite ld_tcb by exact Hd; done|].
  rewrite Hst. etrans; [exact He|]. f_equal. unfold m1, joined. machine_eq.
Qed.

(** Joining an unfinished thread: the caller waits at the end of its target's
    queue and the head of the ready queue runs. *)
Lemma lrun_join_block m tid pret d cd ds v p' q' c' K P :
  on_cpu m k i t p x c → quiet m (p' :: q') v → 0 < v → t_joinq c = Some [] →
  znth (m_tcbs m) tid = Some (Some d) → d ≠ p → m_heap m !! d = Some cd →
  t_state cd ≠ FINISHED → t_joinq cd = Some ds → Z.of_nat (length ds) < INT_MAX →
  let c1 := saved (mask_blocked k m) (pbind (join_resume tid pret) K) (waiting_join c) in
  let h := <[d := set_t_joinq (Some (ds ++ [p])) cd]> (<[p := c1]> (m_heap m)) in
  h !! p' = Some c' → t_state c' = READY → valid_tid (t_tid c') → p' ≠ exitall →
  ctx_prog (text cl) (t_ctx c') = Some P →
  lrun (text cl) k (pbind (uthread_join tid pret) K) m P
    (resumed k i x p' c' q' h (set_ksem (<[KNotEmpty := v - 1]> (m_ksem m)) m)).
Proof.
  intros Hoc Hqt Hv0 Hj Hd Hdp Hcd Hstd Hds Hlen' c1 h Hc' Hst' Ht' Hne HP.
  pose proof (ev_join_prefix m tid pret d Hoc (qt_tcbs _ _ _ Hqt) Hd) as Hy.
  destruct Hoc as [Hin Hr Hx _ Hs Hcur Ht Htcb Hc Ha], Hqt as [Hl Hrq Hv Hlen].
  eapply lrun_trans; [eapply lrun_stop; [exact Ha|]|].
  { rewrite Hy. mnorm. ev_cmd (erewrite ld_tcb by exact Hcd).
    rewrite bool_decide_false by done. cbn [negb].
    apply eval_bind_stop. ev_call ev_deref.
    ev_cmd (erewrite ld_tcb by exact Hc; rewrite Hj). ev_assert.
    ev_call ev_self. ev_call ev_get_kthread_info; [reg|].
    ev_cmd (erewrite st_kinfo by exact Hx).
    ev_cmd (erewrite st_kinfo by lk).
    ev_cmd (erewrite st_tcb by exact Hc).
    ev_call ev_get_sched_ctx; [reg|]. apply ev_swapcontext. }
  eapply lrun_to.
  - eapply lrun_swap_sched; cycle 1.
    + lk.
    + lk.
    + exact Hs.
    + mnorm. eapply (ev_schedule_next k i t).
      { mnorm. eapply (ev_task_join k i t) with (d := d) (ds := ds);
          [lk|done|done|lk|lk|done|done]. }
      { done. } { reg. } { lk. } { done. } { done. } { done. } { done. } { reg. } { lk. } { lk. }
      { rqf. } { lia. } { done. } { mproj. rewrite insert_insert_eq. exact Hc'. } { done. } { done. }
    + unfold switched. lk.
    + exact HP.
    + by apply alive_masked.
  - apply resume_eq; unfold switched; [mask_solve|machine_eq].
Qed.
End join.

(** ** Semaphores *)

(** [uthread_sem_wait] after its loop: [Some ret] when the loop was left by a
    [goto]. *)
Definition sem_wait_finish (sem : Z) (o : option Z) : prog Z :=
  ret ← match o with
        | Some ret => Ret ret
        | None =>
            c ← Load (VSemCounter sem);
            passert (0 <? c) ;;
            c ← Load (VSemCounter sem);
            Store (VSemCounter sem) (c - 1) ;;
            r ← kthread_mutex_unlock (MSem sem);
            Ret (if negb (r =? 0) then 1 else 0)
        end;
  unblock_sigrtmin ;;
  Ret ret.

(** What is left of the loop once the waiting thread is resumed, and of the
    whole call. *)
Definition sem_loop_resume (sem : Z) (current : option loc) : prog (option Z) :=
  block_sigrtmin ;;
  r ← kthread_mutex_lock (MSem sem);
  if negb (r =? 0) then Ret (Some 1)
  else Call (FSemWaitLoop sem current).
Definition sem_wait_resume (sem : Z) (current : option loc) (K : Z → prog unit) : prog unit :=
  o ← sem_loop_resume sem current;
  ret ← sem_wait_finish sem o;
  K ret.

Section sem.
Context (cl : client) (k i t : Z) (p : loc) (x : kinfo) (c : tcb).

(** A new semaphore: its counter, a free lock, no one waiting. *)
Lemma ev_sem_init m a n : on_cpu m k i t p x c →
  eval (uthread_sem_init a n) k [] m =
  EDone 0 [] (masked false k (thr_upd (set_k_errno 0) k
    (set_mutex (<[MSem a := None]> (m_mutex m))
      (set_usem (<[a := Usem n (Some [])]> (m_usem m)) m)))).
Proof.
  intros [Hin Hr Hx Hp _ Hcur Ht Htcb Hc _].
  unfold uthread_sem_init. rewrite ev_inited by done. ev_call ev_block.
  ev_call ev_check_preempted; [reg|exact Hx|exact Hp|].
  ev_cmd. unfold kthread_mutex_init. ev_cmd. ev_cmd. cbn [negb Z.eqb].
  erewrite eval_bind; cycle 1. { ev_cmd (rewrite lookup_insert_eq). done. }
  mnorm. ev_call ev_unblock. cbn. f_equal. machine_eq.
Qed.

(** A semaphore's lock is free, its queue is [ws]. *)
Definition sem_free (m : machine) (a n : Z) (ws : list loc) : Prop :=
  m_mutex m !! MSem a = Some None ∧ m_usem m !! a = Some (Usem n (Some ws)).

(** Nobody waits: the counter goes up. *)
Lemma ev_sem_post_free m a n : on_cpu m k i t p x c → sem_free m a n [] →
  INT_MIN ≤ n < INT_MAX →
  eval (uthread_sem_post a) k [] m =
  EDone 0 [] (masked false k (set_usem (<[a := Usem (n + 1) (Some [])]> (m_usem m)) m)).
Proof.
  intros [Hin Hr Hx Hp _ Hcur Ht Htcb Hc _] [Hlk Hu] Hn.
  unfold uthread_sem_post, kthread_mutex_lock, kthread_mutex_unlock.
  rewrite ev_inited by done. ev_call ev_block.
  ev_call ev_check_preempted; [reg|exact Hx|exact Hp|].
  ev_cmd (rewrite Hlk). cbn [negb Z.eqb].
  erewrite eval_bind; cycle 1.
  { ev_cmd (rewrite Hu). cbn [us_counter].
    rewrite int_of_Ok by (unfold INT_MIN, INT_MAX in *; lia). ev_call ev_ret.
    ev_cmd (rewrite Hu). ev_cmd (rewrite lookup_insert_eq). cbn [length Z.of_nat Z.ltb Z.compare].
    ev_call ev_ret. ev_cmd (rewrite lookup_insert_eq, decide_True by done). done. }
  mnorm. ev_call ev_unblock. cbn. f_equal. machine_eq.
Qed.

(** The first waiting thread goes to the end of the ready queue. *)
Lemma ev_sem_post_wake m a n w cw ws q v : on_cpu m k i t p x c → quiet m q v →
  sem_free m a n (w :: ws) → m_heap m !! w = Some cw → t_state cw = WAITING_SEM →
  INT_MIN ≤ n < INT_MAX →
  eval (uthread_sem_post a) k [] m =
  EDone 0 [] (masked false k (set_ksem (<[KNotEmpty := v + 1]> (m_ksem m))
    (set_rqueue (Some (q ++ [w])) (set_heap (<[w := set_t_state READY cw]> (m_heap m))
      (set_usem (<[a := Usem (n + 1) (Some ws)]> (m_usem m)) m))))).
Proof.
  intros [Hin Hr Hx Hp _ Hcur Ht Htcb Hc _] [Hl Hrq Hv Hlen] [Hlk Hu] Hw Hst Hn.
  unfold uthread_sem_post, kthread_mutex_lock, kthread_mutex_unlock.
  rewrite ev_inited by done. ev_call ev_block.
  ev_call ev_check_preempted; [reg|exact Hx|exact Hp|].
  ev_cmd (rewrite Hlk). cbn [negb Z.eqb].
  erewrite eval_bind; cycle 1.
  { ev_cmd (rewrite Hu). cbn [us_counter].
    rewrite int_of_Ok by (unfold INT_MIN, INT_MAX in *; lia). ev_call ev_ret.
    ev_cmd (rewrite Hu). ev_cmd (rewrite lookup_insert_eq).
    rewrite (proj2 (Z.ltb_lt 0 _)) by (cbn; lia).
    erewrite eval_bind; cycle 1.
    { ev_cmd (rewrite lookup_insert_eq). cbn [from_option us_counter].
      unfold lock_tcbs, unlock_tcbs, kthread_mutex_lock, kthread_mutex_unlock.
      ev_call ev_lock; [lk|]. rewrite bool_decide_true by eauto. ev_assert. ev_call ev_deref.
      ev_cmd (erewrite ld_tcb by exact Hw). rewrite bool_decide_true by done. ev_assert.
      ev_cmd (erewrite st_tcb by exact Hw).
      ev_call ev_unlock; [lk|]. apply (ev_ready_enqueue k _ q v w); [rqf|lia|done]. }
    mnorm. ev_cmd (rewrite ?insert_insert_eq, lookup_insert_ne, lookup_insert_eq, decide_True by done). done. }
  mnorm. ev_call ev_unblock. cbn. f_equal. machine_eq. map_back.
Qed.

(** ** Waiting *)

(** The loop's exit and the decrement. *)
Lemma ev_sem_wait_finish m a n ws :
  m_mutex m !! MSem a = Some (Some k) → m_usem m !! a = Some (Usem n (Some ws)) → 0 < n →
  eval (sem_wait_finish a None) k [] m =
  EDone 0 [] (masked false k (set_mutex (<[MSem a := None]> (m_mutex m))
    (set_usem (<[a := Usem (n - 1) (Some ws)]> (m_usem m)) m))).
Proof.
  intros Hl Hu Hn. unfold sem_wait_finish, kthread_mutex_unlock.
  erewrite eval_bind; cycle 1.
  { ev_cmd (rewrite Hu). cbn [us_counter]. rewrite (proj2 (Z.ltb_lt _ _)) by done. ev_assert.
    ev_cmd (rewrite Hu). ev_cmd (rewrite Hu). ev_cmd (rewrite Hl, decide_True by done). done. }
  mnorm. ev_call ev_unblock. done.
Qed.

(** The counter is positive: the call takes one and returns. *)
Lemma lrun_sem_loop_take m a n ws cur K :
  alive k m → m_mutex m !! MSem a = Some (Some k) → m_usem m !! a = Some (Usem n (Some ws)) →
  0 < n →
  lrun (text cl) k (Vis (Call (FSemWaitLoop a cur)) (λ o, pbind (sem_wait_finish a o) K)) m
    (K 0) (masked false k (set_mutex (<[MSem a := None]> (m_mutex m))
      (set_usem (<[a := Usem (n - 1) (Some ws)]> (m_usem m)) m))).
Proof.
  intros Ha Hl Hu Hn. eapply lrun_trans; [by apply lrun_call|]. cbn [text]. unfold sem_wait_loop.
  eapply lrun_trans.
  { eapply (lrun_done _ _ _ k [] m None); [done|].
    ev_cmd (rewrite Hu). cbn [us_counter]. by rewrite (proj2 (Z.eqb_neq _ _)) by lia. }
  eapply lrun_done; [done|]. by apply ev_sem_wait_finish.
Qed.

(** The counter is zero: the caller waits at the end of the semaphore's queue
    and the head of the ready queue runs. *)
Definition waiting_sem (c : tcb) : tcb := set_t_state WAITING_SEM c.

Lemma lrun_sem_loop_block m a ws p' q' v c' K P :
  on_cpu m k i t p x c → quiet m (p' :: q') v → 0 < v →
  m_mutex m !! MSem a = Some (Some k) → m_usem m !! a = Some (Usem 0 (Some ws)) →
  Z.of_nat (length ws) < INT_MAX →
  let c1 := saved (mask_of k m) (sem_wait_resume a (Some p) K) (waiting_sem c) in
  let h := <[p := c1]> (m_heap m) in
  h !! p' = Some c' → t_state c' = READY → valid_tid (t_tid c') → p' ≠ exitall →
  ctx_prog (text cl) (t_ctx c') = Some P →
  lrun (text cl) k
    (Vis (Call (FSemWaitLoop a (Some p))) (λ o, pbind (sem_wait_finish a o) K)) m P
    (resumed k i x p' c' q' h (set_ksem (<[KNotEmpty := v - 1]> (m_ksem m))
      (set_mutex (<[MSem a := None]> (m_mutex m))
        (set_usem (<[a := Usem 0 (Some (ws ++ [p]))]> (m_usem m)) m)))).
Proof.
  intros [Hin Hr Hx _ Hs Hcur Ht Htcb Hc Ha] [Hl Hrq Hv Hlen] Hv0 Hlk Hu Hlen' c1 h Hc' Hst' Ht'
    Hne HP.
  eapply lrun_trans; [by apply lrun_call|]. cbn [text]. unfold sem_wait_loop.
  eapply lrun_trans.
  { eapply (lrun_stop _ _ _ k []); [exact Ha|].
    ev_cmd (rewrite Hu). cbn [us_counter negb Z.eqb].
    ev_call ev_self. ev_call ev_get_kthread_info; [reg|].
    ev_cmd (erewrite st_kinfo by exact Hx).
    ev_cmd (erewrite st_kinfo by lk).
    ev_cmd (erewrite st_kinfo by lk).
    unfold lock_tcbs, kthread_mutex_lock. ev_call ev_lock; [exact Hl|]. ev_call ev_deref.
    ev_cmd (erewrite st_tcb by exact Hc).
    ev_call ev_get_sched_ctx; [reg|]. apply ev_swapcontext. }
  eapply lrun_to.
  - eapply lrun_swap_sched; cycle 1.
    + lk.
    + lk.
    + exact Hs.
    + mnorm. eapply (ev_schedule_next k i t).
      { mnorm. eapply (ev_task_sem_wait k i t) with (a := a) (ws := ws);
          [lk|done|done|done|lk|lk|lk|done]. }
      { done. } { reg. } { lk. } { done. } { done. } { done. } { done. } { reg. } { lk. } { lk. }
      { rqf. } { lia. } { done. } { mproj. rewrite insert_insert_eq. exact Hc'. } { done. } { done. }
    + unfold switched. lk.
    + exact HP.
    + done.
  - apply resume_eq; unfold switched; [mask_solve|machine_eq].
    map_back.
Qed.

Lemma on_cpu_sem_locked m u : on_cpu m k i t p x c →
  on_cpu (set_mutex u (masked true k m)) k i t p x c.
Proof. intros [? ? ? ? ? ? ? ? ? ?]. constructor; try done. by apply alive_masked. Qed.

Lemma quiet_sem_locked m q v a : quiet m q v →
  quiet (set_mutex (<[MSem a := Some k]> (m_mutex m)) (masked true k m)) q v.
Proof. intros [? Hrq ? ?]. constructor; [lk|rqf|done|done]. Qed.

(** The call up to its loop. *)
Lemma lrun_sem_wait_loop m a n ws K :
  on_cpu m k i t p x c → sem_free m a n ws → 0 ≤ n →
  lrun (text cl) k (pbind (uthread_sem_wait a) K) m
    (Vis (Call (FSemWaitLoop a (Some p))) (λ o, pbind (sem_wait_finish a o) K))
    (set_mutex (<[MSem a := Some k]> (m_mutex m)) (masked true k m)).
Proof.
  intros [Hin Hr Hx Hp Hs Hcur Ht Htcb Hc Ha] [Hlk Hu] Hn.
  eapply (lrun_stop _ _ _ k []); [exact Ha|].
  unfold uthread_sem_wait, kthread_mutex_lock. rewrite ev_inited by done. ev_call ev_block.
  ev_call ev_check_preempted; [reg|exact Hx|exact Hp|].
  ev_cmd (rewrite Hlk). cbn [negb Z.eqb]. apply eval_bind_stop.
  ev_call ev_uthread_self; [exact Hin|reg|exact Hx|].
  rewrite Hcur, to_uint_tid by done. ev_cmd (rewrite Htcb). ev_cmd (rewrite Hu).
  cbn [us_counter]. rewrite (proj2 (Z.leb_le _ _)) by done. ev_assert. done.
Qed.

Lemma lrun_sem_wait_take m a n ws K :
  on_cpu m k i t p x c → sem_free m a n ws → 0 < n →
  lrun (text cl) k (pbind (uthread_sem_wait a) K) m (K 0)
    (masked false k (set_usem (<[a := Usem (n - 1) (Some ws)]> (m_usem m)) m)).
Proof.
  intros Hoc Hs Hn. eapply lrun_trans; [apply (lrun_sem_wait_loop m a n ws); [done..|lia]|].
  eapply lrun_to; [eapply lrun_sem_loop_take|].
  - apply on_cpu_sem_locked, Hoc.
  - lk.
  - apply Hs.
  - done.
  - destruct Hs. machine_eq.
Qed.

Lemma lrun_sem_wait_block m a ws p' q' v c' K P :
  on_cpu m k i t p x c → quiet m (p' :: q') v → 0 < v → sem_free m a 0 ws →
  Z.of_nat (length ws) < INT_MAX →
  let c1 := saved (mask_blocked k m) (sem_wait_resume a (Some p) K) (waiting_sem c) in
  let h := <[p := c1]> (m_heap m) in
  h !! p' = Some c' → t_state c' = READY → valid_tid (t_tid c') → p' ≠ exitall →
  ctx_prog (text cl) (t_ctx c') = Some P →
  lrun (text cl) k (pbind (uthread_sem_wait a) K) m P
    (resumed k i x p' c' q' h (set_ksem (<[KNotEmpty := v - 1]> (m_ksem m))
        (set_usem (<[a := Usem 0 (Some (ws ++ [p]))]> (m_usem m)) m))).
Proof.
  intros Hoc Hqt Hv [Hlk Hu] Hlen c1 h Hc' Hst' Ht' Hne HP.
  eapply lrun_trans; [apply (lrun_sem_wait_loop m a 0 ws); [done|by split|lia]|].
  eapply lrun_to; [eapply lrun_sem_loop_block|].
  - by apply on_cpu_sem_locked.
  - apply quiet_sem_locked, Hqt.
  - done.
  - lk.
  - exact Hu.
  - done.
  - exact Hc'.
  - done.
  - done.
  - done.
  - exact HP.
  - unfold resumed. apply resume_eq; [mask_solve|machine_eq].
Qed.

(** A resumed waiter checks the counter again. *)
Lemma lrun_sem_resume_loop m a n ws cur K :
  alive k m → sem_free m a n ws →
  lrun (text cl) k (sem_wait_resume a cur K) m
    (Vis (Call (FSemWaitLoop a cur)) (λ o, pbind (sem_wait_finish a o) K))
    (set_mutex (<[MSem a := Some k]> (m_mutex m)) (masked true k m)).
Proof.
  intros Ha [Hlk Hu]. 
  assert (eval (sem_loop_resume a cur) k [] m =
    EStop (Call (FSemWaitLoop a cur)) Ret []
      (set_mutex (<[MSem a := Some k]> (m_mutex m)) (masked true k m))) as He.
  { unfold sem_loop_resume, kthread_mutex_lock. ev_call ev_block. ev_cmd (rewrite Hlk). done. }
  exact (lrun_stop (text cl) _ (λ o, pbind (sem_wait_finish a o) K) k [] m _ _ _ _ Ha He).
Qed.

Lemma lrun_sem_resume_take m a n ws cur K :
  alive k m → sem_free m a n ws → 0 < n →
  lrun (text cl) k (sem_wait_resume a cur K) m (K 0)
    (masked false k (set_usem (<[a := Usem (n - 1) (Some ws)]> (m_usem m)) m)).
Proof.
  intros Ha Hs Hn. eapply lrun_trans; [by apply (lrun_sem_resume_loop m a n ws)|].
  eapply lrun_to; [eapply lrun_sem_loop_take|].
  - by apply alive_masked.
  - lk.
  - apply Hs.
  - done.
  - destruct Hs. machine_eq.
Qed.

Lemma lrun_sem_resume_block m a ws p' q' v c' K P :
  on_cpu m k i t p x c → quiet m (p' :: q') v → 0 < v → sem_free m a 0 ws →
  Z.of_nat (length ws) < INT_MAX →
  let c1 := saved (mask_blocked k m) (sem_wait_resume a (Some p) K) (waiting_sem c) in
  let h := <[p := c1]> (m_heap m) in
  h !! p' = Some c' → t_state c' = READY → valid_tid (t_tid c') → p' ≠ exitall →
  ctx_prog (text cl) (t_ctx c') = Some P →
  lrun (text cl) k (sem_wait_resume a (Some p) K) m P
    (resumed k i x p' c' q' h (set_ksem (<[KNotEmpty := v - 1]> (m_ksem m))
        (set_usem (<[a := Usem 0 (Some (ws ++ [p]))]> (m_usem m)) m))).
Proof.
  intros Hoc Hqt Hv [Hlk Hu] Hlen c1 h Hc' Hst' Ht' Hne HP.
  eapply lrun_trans; [apply (lrun_sem_resume_loop m a 0 ws); [apply Hoc|by split]|].
  eapply lrun_to; [eapply lrun_sem_loop_block|].
  - by apply on_cpu_sem_locked.
  - apply quiet_sem_locked, Hqt.
  - done.
  - lk.
  - exact Hu.
  - done.
  - exact Hc'.
  - done.
  - done.
  - done.
  - exact HP.
  - unfold resumed. apply resume_eq; [mask_solve|machine_eq].
Qed.

(** Destroying a semaphore on which no thread waits. *)
Lemma ev_sem_destroy m a n : on_cpu m k i t p x c → sem_free m a n [] →
  eval (uthread_sem_destroy a) k [] m =
  EDone tt [] (masked false k (set_mutex (delete (MSem a) (m_mutex m)) m)).
Proof.
  intros [Hin Hr Hx Hp _ Hcur Ht Htcb Hc _] [Hlk Hu].
  unfold uthread_sem_destroy, kthread_mutex_destroy. rewrite ev_inited by done.
  ev_call ev_check_preempted; [exact Hr|exact Hx|exact Hp|].
  ev_call ev_block. ev_cmd (rewrite Hu; cbn). ev_cmd (rewrite Hlk).
  rewrite ev_unblock. f_equal. machine_eq.
Qed.
End sem.

(** ** Creation *)

Section create.
Context (cl : client) (k i t : Z) (p : loc) (x : kinfo) (c : tcb).

Definition stack_size_of (size : Z) : Z :=
  if negb (size =? 0) then size else UTHREAD_DEF_STACK_SIZE.
Definition with_stack (size : Z) (sp : sptr) (u : uctx) : uctx :=
  set_ss_sp sp (set_ss_size (stack_size_of size) u).

(** [allocate_stack] with the caller's stack, with a malloc'ed one, and when
    malloc fails. *)
Lemma ev_allocate_stack_user q cq base size m oks :
  base ≠ SNull → m_heap m !! q = Some cq →
  eval (allocate_stack (CtxTcb q) base size) k oks m =
  EDone 0 oks (set_heap (<[q := set_t_ctx (with_stack size base (t_ctx cq)) cq]>
    (m_heap m)) m).
Proof.
  intros Hb Hq. unfold allocate_stack.
  ev_cmd (erewrite st_tcb by exact Hq). rewrite decide_False by done. ev_call ev_ret.
  ev_cmd (erewrite st_tcb by lk). ev_cmd (erewrite ld_tcb by lk). cbn.
  rewrite decide_False by done. f_equal; machine_eq.
Qed.
Lemma ev_allocate_stack_malloc q cq size m (ok : bool) oks :
  m_heap m !! q = Some cq →
  let sp := if ok then SMalloc (m_next m) else SNull in
  eval (allocate_stack (CtxTcb q) SNull size) k (ok :: oks) m =
  EDone (if ok then 0 else 1) oks
    (set_next (if ok then Pos.succ (m_next m) else m_next m)
      (set_stacks (if ok then <[m_next m := stack_size_of size]> (m_stacks m) else m_stacks m)
        (set_heap (<[q := set_t_ctx (with_stack size sp (t_ctx cq)) cq]> (m_heap m)) m))).
Proof.
  intros Hq sp. unfold allocate_stack. rewrite decide_True by done.
  ev_cmd (erewrite st_tcb by exact Hq).
  destruct ok; (erewrite eval_bind; cycle 1; [ev_cmd (erewrite ld_tcb by lk); reflexivity|]);
    mnorm; ev_cmd (erewrite st_tcb by lk); ev_cmd (erewrite ld_tcb by lk); cbn;
    f_equal; machine_eq.
Qed.

(** Where the new thread's stack is, and what malloc did for it. *)
Definition stack_ptr (base : sptr) (l : positive) : sptr :=
  if decide (base = SNull) then SMalloc l else base.
Definition stack_next (base : sptr) (l : positive) : positive :=
  if decide (base = SNull) then Pos.succ l else l.
Definition stacks_with (base : sptr) (size : Z) (l : positive) (st : gmap positive Z) :=
  if decide (base = SNull) then <[l := stack_size_of size]> st else st.

Lemma ev_allocate_stack_ok q cq base size m :
  m_heap m !! q = Some cq →
  eval (allocate_stack (CtxTcb q) base size) k [] m =
  EDone 0 [] (set_next (stack_next base (m_next m))
    (set_stacks (stacks_with base size (m_next m) (m_stacks m))
      (set_heap (<[q := set_t_ctx (with_stack size (stack_ptr base (m_next m)) (t_ctx cq)) cq]>
        (m_heap m)) m))).
Proof.
  intros Hq. unfold stack_ptr, stack_next, stacks_with. destruct (decide (base = SNull)) as [->|Hb].
  - unfold allocate_stack. ev_cmd (erewrite st_tcb by exact Hq). rewrite decide_True by done.
    erewrite eval_bind; cycle 1. { ev_cmd (erewrite ld_tcb by lk). reflexivity. }
    mnorm. ev_cmd (erewrite st_tcb by lk). ev_cmd (erewrite ld_tcb by lk). cbn.
    f_equal; machine_eq.
  - rewrite (ev_allocate_stack_user q cq) by done. f_equal; machine_eq.
Qed.

(** [uthread_create] after its [getcontext]. *)
Definition create_rest (new_tid start_func arg : Z) (base : sptr) (size : Z) : prog Z :=
  p ← tcb_of new_tid; r ← allocate_stack (CtxTcb p) base size;
  if negb (r =? 0) then
    q ← Load (VTcbs new_tid);
    FreeTcb q ;;
    Ret 1
  else
    p ← tcb_of new_tid;
    Store (VTcbStackAllocated p) (if decide (base = SNull) then 1 else 0) ;;
    p ← tcb_of new_tid; Store (VCtxLink (CtxTcb p)) (Some CtxAbort) ;;
    Store VErrno 0 ;;
    p ← tcb_of new_tid;
    Makecontext (CtxTcb p) (FTrampoline start_func arg) ;;
    e ← Load VErrno;
    (if negb (e =? 0) then abort else Ret tt) ;;
    q ← Load (VTcbs new_tid);
    ready_enqueue q ;;
    unlock_tcbs ;;
    Ret 0.
Abbreviation create_finish new_tid start_func arg base size :=
  (pbind (create_rest new_tid start_func arg base size)
    (λ ret, pbind unblock_sigrtmin (λ _, Ret ret))).

(** A thread that has not run yet. *)
Definition new_uctx (f arg : Z) (size : Z) (sp : sptr) (mask : bool) : uctx :=
  Uctx (Some CtxAbort) sp (stack_size_of size) mask (CtxEntry (FTrampoline f arg)).
Definition new_tcb (r f arg : Z) (base : sptr) (size : Z) (l : positive) (mask : bool) : tcb :=
  Tcb r (if decide (base = SNull) then 1 else 0) READY 0 (Some [])
    (new_uctx f arg size (stack_ptr base l) mask).

(** The machine in which a block for tid [r] has been allocated and queued. *)
Definition created (r ptid f arg : Z) (base : sptr) (size : Z) (bv' : bitvec_t)
    (q : list loc) (v : Z) (m : machine) : machine :=
  set_bitvec bv' (set_user (<[ptid := r]> (m_user m))
    (set_tcbs (<[Z.to_nat r := Some (m_next m)]> (m_tcbs m))
      (set_heap (<[m_next m := new_tcb r f arg base size (Pos.succ (m_next m)) (mask_blocked k m)]>
          (m_heap m))
        (set_next (stack_next base (Pos.succ (m_next m)))
          (set_stacks (stacks_with base size (Pos.succ (m_next m)) (m_stacks m))
            (set_ksem (<[KNotEmpty := v + 1]> (m_ksem m))
              (set_rqueue (Some (q ++ [m_next m])) m))))))).

(** The call up to [getcontext], when malloc gives a block. *)
Definition block_allocated (r ptid : Z) (bv' : bitvec_t) (m : machine) : machine :=
  set_bitvec bv' (set_user (<[ptid := r]> (m_user m))
    (set_mutex (<[MTcbs := Some k]> (m_mutex m))
      (set_tcbs (<[Z.to_nat r := Some (m_next m)]> (m_tcbs m))
        (set_heap (<[m_next m := Tcb r 0 READY 0 (Some []) uc0]> (m_heap m))
          (set_next (Pos.succ (m_next m)) (masked true k m)))))).

Lemma valid_tid_not_neg r : valid_tid r → to_uint r <? 0 = false.
Proof. intros Hr. rewrite to_uint_tid by done. apply Z.ltb_ge. by destruct Hr. Qed.

(** The tid the call gets, and the bit vector it leaves. *)
Definition next_tid (m : machine) (r : Z) (bv' : bitvec_t) : Prop :=
  ∀ oks, eval get_next_tid k oks (masked true k m) =
         EDone r oks (set_bitvec bv' (masked true k m)).

Lemma next_tid_free m r S : tids_free m S → valid_tid r → r ∉ S → (∀ j, 0 ≤ j < r → j ∈ S) →
  ∃ bv', bitvec_set (m_bitvec m) r = Ok bv' ∧ tids_free (set_bitvec bv' m) ({[r]} ∪ S) ∧
    next_tid m r bv'.
Proof.
  intros HS Hrv Hout Hlow.
  destruct (ev_get_next_tid k (masked true k m) S r []) as (bv' & _ & Hset & HS');
    [exact HS|done..|].
  exists bv'. split; [done|split; [by split; [apply HS|apply HS']|]]. intros oks.
  destruct (ev_get_next_tid k (masked true k m) S r oks) as (bv'' & Hnext & Hset' & _);
    [exact HS|done..|].
  assert (bv'' = bv') as -> by congruence. exact Hnext.
Qed.

Lemma next_tid_full m S : tids_free m S → (∀ j, valid_tid j → j ∈ S) →
  next_tid m 1 (m_bitvec m).
Proof.
  intros HS Hall oks. rewrite (ev_get_next_tid_full k (masked true k m) S oks HS Hall). done.
Qed.

Lemma ev_create_prefix m r ptid f arg base size bv' oks :
  on_cpu m k i t p x c → m_mutex m !! MTcbs = Some None → next_tid m r bv' →
  length (m_tcbs m) = Z.to_nat UTHREAD_MAX_THREADS → valid_tid r →
  eval (uthread_create ptid f arg base size) k (true :: oks) m =
    EStop (Getcontext (CtxTcb (m_next m)))
      (λ b, pbind (pbind (checked b) (λ _, create_rest r f arg base size))
                  (λ ret, pbind unblock_sigrtmin (λ _, Ret ret))) oks
      (block_allocated r ptid bv' m) ∧
  eval (uthread_create ptid f arg base size) k (false :: oks) m =
    EDone 1 oks (masked false k (set_bitvec bv' (set_user (<[ptid := r]> (m_user m))
      (set_mutex (<[MTcbs := Some k]> (m_mutex m))
        (set_tcbs (<[Z.to_nat r := None]> (m_tcbs m)) m))))).
Proof.
  intros [Hin Hr Hx Hp _ Hcur Ht Htcb Hc _] Hl Hnext Hlen Hrv.
  assert (∀ o, zupd (m_tcbs m) r o = Some (<[Z.to_nat r := o]> (m_tcbs m))) as Hz.
  { intros o. apply zupd_in. rewrite Hlen. exact Hrv. }
  assert (∀ o, znth (<[Z.to_nat r := o]> (m_tcbs m)) r = Some o) as Hn.
  { intros o. rewrite znth_insert, decide_True; [done|done|]. rewrite Hlen. exact Hrv. }
  assert (∀ m' oks, m_tcbs m' = <[Z.to_nat r := Some (m_next m)]> (m_tcbs m) →
    eval (tcb_of r) k oks m' = EDone (m_next m) oks m') as Hld.
  { intros m' oks' Hm'. unfold tcb_of. ev_cmd (rewrite Hm', Hn). done. }
  split.
  all: unfold uthread_create; rewrite ev_inited by done; ev_call ev_block;
    (ev_call ev_check_preempted; [reg|exact Hx|exact Hp|]);
    (erewrite eval_bind; cycle 1; [exact (Hnext _)|]); cbn beta zeta;
    rewrite valid_tid_not_neg, to_uint_tid by done.
  - apply eval_bind_stop.
    mnorm. ev_cmd. unfold lock_tcbs, kthread_mutex_lock. ev_call ev_lock; [exact Hl|].
    ev_cmd. ev_cmd (rewrite Hz). ev_cmd (rewrite Hn).
    ev_call Hld; [done|]. ev_cmd (erewrite st_tcb by lk).
    ev_call Hld; [done|]. ev_cmd (erewrite st_tcb by lk).
    ev_call Hld; [done|].
    erewrite eval_bind; cycle 1.
    { unfold or_abort. ev_cmd (erewrite st_tcb by lk). done. }
    mnorm. ev_call Hld; [done|]. rewrite ev_getcontext.
    apply estop_eq. unfold block_allocated. machine_eq.
  - mnorm. erewrite eval_bind; cycle 1.
    { ev_cmd. unfold lock_tcbs, kthread_mutex_lock. ev_call ev_lock; [exact Hl|].
      ev_cmd. ev_cmd (rewrite Hz). ev_cmd (rewrite Hn). done. }
    mnorm. ev_call ev_unblock. cbn. f_equal. machine_eq.
Qed.

(** The rest of the call: the new thread is queued. *)
Lemma ev_create_finish m n f arg base size r q v cn :
  m_mutex m !! MTcbs = Some (Some k) → rq_free m q v → v < SEM_VALUE_MAX →
  Z.of_nat (length q) < INT_MAX → alive k m →
  znth (m_tcbs m) r = Some (Some n) → m_heap m !! n = Some cn → t_state cn = READY →
  eval (create_finish r f arg base size) k [] m =
  EDone 0 [] (masked false k (thr_upd (set_k_errno 0) k (tcbs_released
    (set_ksem (<[KNotEmpty := v + 1]> (m_ksem m)) (set_rqueue (Some (q ++ [n]))
      (set_next (stack_next base (m_next m))
        (set_stacks (stacks_with base size (m_next m) (m_stacks m))
          (set_heap (<[n := Tcb (t_tid cn) (if decide (base = SNull) then 1 else 0) READY
              (t_retval cn) (t_joinq cn)
              (new_uctx f arg size (stack_ptr base (m_next m)) (uc_mask (t_ctx cn)))]>
            (m_heap m)) m)))))))).
Proof.
  intros Hl Hrq Hv Hlen Ha Htcb Hn Hst.
  assert (∀ m', m_tcbs m' = m_tcbs m → eval (tcb_of r) k [] m' = EDone n [] m') as Hld.
  { intros m' Hm'. unfold tcb_of. ev_cmd (rewrite Hm', Htcb). done. }
  unfold create_rest.
  erewrite eval_bind; cycle 1.
  { ev_call Hld; [done|]. ev_call ev_allocate_stack_ok; [exact Hn|]. cbn [negb Z.eqb].
    ev_call Hld; [done|]. ev_cmd (erewrite st_tcb by lk).
    ev_call Hld; [done|]. ev_cmd (erewrite st_tcb by lk).
    ev_cmd. ev_call Hld; [done|]. ev_cmd (erewrite st_tcb by lk).
    destruct Ha as (th & Hth & Hd).
    ev_cmd (rewrite lookup_alter_eq, Hth; cbn). cbn [negb Z.eqb].
    ev_call ev_ret. ev_cmd (rewrite Htcb).
    ev_call ev_ready_enqueue; [rqf|done|done|].
    unfold unlock_tcbs, kthread_mutex_unlock. ev_call ev_unlock; [exact Hl|]. done. }
  cbv beta. ev_call ev_unblock. cbn. f_equal. rewrite <- Hst. machine_eq.
Qed.

(** The machine after [getcontext]: [rest] is what it saved in the new block. *)
Definition context_saved (r ptid : Z) (bv' : bitvec_t) (rest : prog unit) (m : machine) : machine :=
  set_heap (<[m_next m := saved (mask_blocked k m) rest (Tcb r 0 READY 0 (Some []) uc0)]>
    (m_heap (block_allocated r ptid bv' m))) (block_allocated r ptid bv' m).

Lemma masked_errno e m :
  masked false k (thr_upd (set_k_errno e) k (masked true k m)) =
  masked false k (thr_upd (set_k_errno e) k m).
Proof. machine_eq. Qed.

Lemma created_eq r ptid f arg base size bv' q v rest m :
  m_mutex m !! MTcbs = Some None →
  let m1 := context_saved r ptid bv' rest m in
  let cn := saved (mask_blocked k m) rest (Tcb r 0 READY 0 (Some []) uc0) in
  tcbs_released
    (set_ksem (<[KNotEmpty := v + 1]> (m_ksem m1)) (set_rqueue (Some (q ++ [m_next m]))
      (set_next (stack_next base (m_next m1))
        (set_stacks (stacks_with base size (m_next m1) (m_stacks m1))
          (set_heap (<[m_next m := Tcb (t_tid cn) (if decide (base = SNull) then 1 else 0) READY
              (t_retval cn) (t_joinq cn)
              (new_uctx f arg size (stack_ptr base (m_next m1)) (uc_mask (t_ctx cn)))]>
            (m_heap m1)) m1))))) =
  masked true k (created r ptid f arg base size bv' q v m).
Proof.
  intros Hl m1 cn. subst m1 cn. unfold created, context_saved, block_allocated, new_tcb.
  machine_eq.
Qed.

Lemma lrun_create_getcontext m r ptid bv' (kont : Z → prog unit) :
  alive k (block_allocated r ptid bv' m) →
  lrun (text cl) k (Vis (Getcontext (CtxTcb (m_next m))) kont) (block_allocated r ptid bv' m)
    (kont 0) (context_saved r ptid bv' (kont 0) m).
Proof.
  intros Ha. apply lrun_getcontext; [exact Ha|]. cbn [ctx_upd].
  erewrite st_tcb by (unfold block_allocated; lk).
  unfold context_saved, mask_blocked. f_equal.
Qed.

Lemma ev_create_tail m r ptid f arg base size q v bv' rest :
  quiet m q v → length (m_tcbs m) = Z.to_nat UTHREAD_MAX_THREADS → valid_tid r →
  alive k (context_saved r ptid bv' rest m) →
  eval (create_finish r f arg base size) k [] (context_saved r ptid bv' rest m) =
  EDone 0 [] (masked false k (thr_upd (set_k_errno 0) k
    (created r ptid f arg base size bv' q v m))).
Proof.
  intros [Hl Hrq Hv Hql] Hlen Hrv Ha.
  rewrite <- (masked_errno 0 (created r ptid f arg base size bv' q v m)).
  rewrite <- (created_eq r ptid f arg base size bv' q v rest m Hl).
  eapply (ev_create_finish _ (m_next m) f arg base size r q v
    (saved (mask_blocked k m) rest (Tcb r 0 READY 0 (Some []) uc0))).
  + unfold context_saved, block_allocated. lk.
  + unfold context_saved, block_allocated. rqf.
  + lia.
  + done.
  + done.
  + unfold context_saved, block_allocated. mproj. rewrite znth_insert, decide_True; [done|done|].
    rewrite Hlen. exact Hrv.
  + unfold context_saved. lk.
  + done.
Qed.

(** A call whose mallocs succeed: a new thread with the tid at the end of the
    ready queue, 0. *)
Lemma lrun_create_next m r ptid f arg base size bv' q v K :
  on_cpu m k i t p x c → quiet m q v → next_tid m r bv' →
  length (m_tcbs m) = Z.to_nat UTHREAD_MAX_THREADS → valid_tid r →
  lrun (text cl) k (pbind (uthread_create ptid f arg base size) K) m (K 0)
    (masked false k (thr_upd (set_k_errno 0) k (created r ptid f arg base size bv' q v m))).
Proof.
  intros Hoc Hqt Hnext Hlen Hrv. pose proof Hqt as [Hl Hrq Hv Hql].
  destruct (ev_create_prefix m r ptid f arg base size bv' [] Hoc Hl Hnext Hlen Hrv) as [Hpre _].
  assert (Ha : alive k m) by apply Hoc.
  pose proof (lrun_stop (text cl) _ K _ _ _ _ _ _ _ Ha Hpre) as H1.
  assert (Ha1 : alive k (block_allocated r ptid bv' m)) by apply H1.
  eapply lrun_trans; [exact H1|].
  eapply lrun_trans; [apply (lrun_create_getcontext m r ptid bv'); exact Ha1|].
  cbv beta. rewrite checked_0.
  set (rest := pbind (create_finish r f arg base size) K) at 2.
  assert (Ha2 : alive k (context_saved r ptid bv' rest m)).
  { by apply alive_set_heap. }
  pose proof (ev_create_tail m r ptid f arg base size q v bv' rest Hqt Hlen Hrv Ha2) as Hev.
  exact (lrun_done (text cl) _ K k [] _ _ _ _ Ha2 Hev).
Qed.

Lemma ev_create_rest_fails m n f arg size r cn oks :
  znth (m_tcbs m) r = Some (Some n) → m_heap m !! n = Some cn →
  eval (create_finish r f arg SNull size) k (false :: oks) m =
  EDone 1 oks (masked false k (set_heap (delete n (m_heap m)) m)).
Proof.
  intros Htcb Hn. unfold create_rest.
  erewrite eval_bind; cycle 1.
  { unfold tcb_of. erewrite eval_bind; cycle 1. { ev_cmd (rewrite Htcb). done. }
    mnorm. erewrite eval_bind; cycle 1. { apply ev_allocate_stack_malloc. exact Hn. }
    mnorm. cbn [negb Z.eqb]. ev_cmd (rewrite Htcb). ev_cmd (rewrite lookup_insert_eq). done. }
  mnorm. ev_call ev_unblock. cbn. f_equal. machine_eq. apply delete_insert_eq.
Qed.

(** The second malloc fails: the block is freed but stays in [tcbs], and
    [tcbs_lock] stays locked. *)
Lemma lrun_create_no_stack m r ptid f arg size bv' q v K :
  on_cpu m k i t p x c → quiet m q v → next_tid m r bv' → m_heap m !! m_next m = None →
  length (m_tcbs m) = Z.to_nat UTHREAD_MAX_THREADS → valid_tid r →
  lrun (text cl) k (pbind (uthread_create ptid f arg SNull size) K) m (K 1)
    (masked false k (set_bitvec bv' (set_user (<[ptid := r]> (m_user m))
      (set_mutex (<[MTcbs := Some k]> (m_mutex m)) (set_next (Pos.succ (m_next m))
        (set_tcbs (<[Z.to_nat r := Some (m_next m)]> (m_tcbs m)) m)))))).
Proof.
  intros Hoc Hqt Hnext Hfresh Hlen Hrv. pose proof Hqt as [Hl Hrq Hv Hql].
  destruct (ev_create_prefix m r ptid f arg SNull size bv' [false] Hoc Hl Hnext Hlen Hrv)
    as [Hpre _].
  assert (Ha : alive k m) by apply Hoc.
  pose proof (lrun_stop (text cl) _ K _ _ _ _ _ _ _ Ha Hpre) as H1.
  assert (Ha1 : alive k (block_allocated r ptid bv' m)) by apply H1.
  eapply lrun_trans; [exact H1|].
  eapply lrun_trans; [apply (lrun_create_getcontext m r ptid bv'); exact Ha1|].
  cbv beta. rewrite checked_0.
  set (rest := pbind (create_finish r f arg SNull size) K) at 2.
  assert (Ha2 : alive k (context_saved r ptid bv' rest m)) by by apply alive_set_heap.
  eapply lrun_to; [eapply (lrun_done (text cl) _ K k [false]); [exact Ha2|]|].
  - eapply ev_create_rest_fails.
    + unfold context_saved, block_allocated. mproj. rewrite znth_insert, decide_True; [done|done|].
      rewrite Hlen. exact Hrv.
    + unfold context_saved. lk.
  - unfold context_saved, block_allocated. machine_eq.
    rewrite !delete_insert_eq. by apply delete_id.
Qed.
End create.

(** ** The start of a thread *)

(** The trampoline calls the thread's function, then [uthread_exit]. *)
Lemma lrun_start cl k i t p x c m f arg K :
  on_cpu m k i t p x c → m_mutex m !! MTcbs = Some None → t_state c = RUNNING →
  lrun (text cl) k (pbind (trampoline f arg) K) m
    (pbind (compile (cl f arg)) (λ v, pbind (uthread_exit v) K)) m.
Proof.
  intros [Hin Hr Hx _ _ Hcur Ht Htcb Hc Ha] Hl Hst.
  assert (eval (trampoline f arg) k [] m = EStop (Call (FUser f arg)) uthread_exit [] m) as He.
  { unfold trampoline, lock_tcbs, unlock_tcbs, kthread_mutex_lock, kthread_mutex_unlock.
    ev_call ev_lock; [exact Hl|].
    ev_call ev_uthread_self; [exact Hin|reg|exact Hx|].
    rewrite Hcur, to_uint_tid by done. unfold tcb_of.
    erewrite eval_bind; cycle 1. { ev_cmd (rewrite Htcb). done. } mnorm.
    ev_cmd (erewrite ld_tcb by exact Hc). rewrite bool_decide_true by done. ev_assert.
    ev_call ev_unlock; [lk|]. apply estop_eq. machine_eq. }
  eapply lrun_trans; [eapply lrun_stop; [exact Ha|exact He]|].
  by apply lrun_call.
Qed.
