(* ===== verification/Demo.v ===== *)
(** * A concrete machine

    Three threads on one kernel thread: thread 0 runs, threads 1 and 2 are where
    the heap and the queues say.  The properties of the other files are applied
    to it. *)
From S2P Require Import Prelude Bitvec Machine Kthread Uthread Client Eval UthreadEval Sched Api.

Definition demo_sched : uctx :=
  Uctx (Some CtxAbort) (SMalloc 9) UTHREAD_DEF_STACK_SIZE false (CtxEntry FSchedule).
Definition demo_kinfo : kinfo := Kinfo 100 0 NONE None None 0 0 demo_sched.

(** [UTHREAD_MAX_THREADS] bits, the three lowest set. *)
Definition demo_bitvec : bitvec_t := Bitvec 1024 128 (Some (7 :: replicate 127 0)).

(** The heap, the ready queue, and the client's semaphore 7. *)
Definition demo (h : gmap loc tcb) (q : list loc) (s : usem) : machine := {|
  m_inited := 1; m_quantum := 0; m_num_kthreads := 1; m_sigset := true; m_handler := false;
  m_tcbs := Some 2%positive :: Some 3%positive :: Some 4%positive :: replicate 1021 None;
  m_heap := h; m_next := 10%positive; m_stacks := {[ 8%positive := 4096 ]};
  m_kinfo := {[ 0 := demo_kinfo ]};
  m_bitvec := demo_bitvec; m_rqueue := Some q; m_abort_ctx := uc0;
  m_mutex := {[ MTcbs := None; MRqueue := None; MBitvec := None; MSem 7 := None ]};
  m_ksem := {[ KNotEmpty := Z.of_nat (length q) ]}; m_usem := {[ 7 := s ]}; m_timers := ∅;
  m_kt_inited := 0; m_tidmap := replicate (Z.to_nat MAX_KTHREADS) (0, 0); m_targs := ∅;
  m_threads := {[ 100 := Kthr (Ret tt) false false 0 false ]}; m_user := ∅ |}.

(** A thread block: [st] is its state, [js] who joins it. *)
Definition demo_tcb (t : Z) (st : thread_state) (js : list loc) : tcb :=
  Tcb t 0 st 0 (Some js) (Uctx (Some CtxAbort) (SUser 5) 4096 false (CtxResume (Ret tt))).
Definition demo_heap (c0 c1 c2 : tcb) : gmap loc tcb :=
  {[ 2%positive := c0; 3%positive := c1; 4%positive := c2 ]}.

Lemma demo_on_cpu c0 c1 c2 q s :
  on_cpu (demo (demo_heap c0 c1 c2) q s) 100 0 0 2%positive demo_kinfo c0.
Proof.
  constructor; try done.
  - split; [done|]. split.
    + intros j Hj. cbn in Hj. replace j with 0 by lia. eexists. apply lookup_singleton_eq.
    + intros j Hj. cbn in Hj. replace j with 0 by lia. done.
  - by left.
  - by eexists.
Qed.

Lemma demo_rq_free h q s : rq_free (demo h q s) q (Z.of_nat (length q)).
Proof. by constructor. Qed.

Lemma demo_quiet h q s : Z.of_nat (length q) < 100 →
  quiet (demo h q s) q (Z.of_nat (length q)).
Proof.
  intros Hq. constructor; [done|apply demo_rq_free|..]; unfold SEM_VALUE_MAX, INT_MAX; lia.
Qed.

Lemma demo_bitvec_rep : bv_rep demo_bitvec {[0; 1; 2]}.
Proof.
  destruct (bitvec_init_rep 1024) as (bv & Hbv & _ & Hrep); [done..|].
  injection Hbv as <-.
  destruct (bitvec_set_rep _ _ 2 Hrep) as (b2 & H2 & _ & _ & Hrep2); [done|].
  injection H2 as <-.
  destruct (bitvec_set_rep _ _ 1 Hrep2) as (b1 & H1 & _ & _ & Hrep1); [done|].
  injection H1 as <-.
  destruct (bitvec_set_rep _ _ 0 Hrep1) as (b0 & H0 & _ & _ & Hrep0); [done|].
  injection H0 as <-.
  replace ({[0; 1; 2]} : gset Z) with ({[0]} ∪ ({[1]} ∪ ({[2]} ∪ ∅)) : gset Z) by set_solver.
  exact Hrep0.
Qed.

Lemma demo_tids h q s : tids_free (demo h q s) {[0; 1; 2]}.
Proof. split; [done|]. split; [exact demo_bitvec_rep|done]. Qed.

Lemma demo_sem_free h q n ws : sem_free (demo h q (Usem n (Some ws))) 7 n ws.
Proof. by split. Qed.

(** A client without functions; the blocks of the witnesses resume an empty program. *)
Definition demo_client : client := λ _ _, URet 0.
Definition demo_usem : usem := Usem 0 (Some []).
Definition run0 : tcb := demo_tcb 0 RUNNING [].

Lemma demo_prog t st js : ctx_prog (text demo_client) (t_ctx (demo_tcb t st js)) = Some (Ret tt).
Proof. done. Qed.
