(* ===== verification/UthreadProps.v ===== *)
(** * Properties of the public interface of uthread.c

    Each theorem says what one call does to the threads, the queues, the locks
    and the kernel thread's record, on one path of the C function; the calls that
    give the processor away are followed up to the next thread's first step. *)
From S2P Require Import Prelude Bitvec Machine Kthread Uthread Client Eval UthreadEval Sched Api.
From S2P Require Import Demo.

(** The block at [p] was given kernel thread [k] (entry [i] of [kthread_info]):
    it runs, the scheduler has no task left, the locks are as they were. *)
Record dispatched (i : Z) (p : loc) (m m' : machine) : Prop := {
  ds_state : t_state <$> m_heap m' !! p = Some RUNNING;
  ds_current : ki_current_tid <$> m_kinfo m' !! i = t_tid <$> m_heap m' !! p;
  ds_task : ki_task <$> m_kinfo m' !! i = Some NONE;
  ds_mutex : m_mutex m' = m_mutex m;
  ds_tcbs : m_tcbs m' = m_tcbs m;
}.

Lemma resumed_dispatched k i x p c q h m m0 :
  m_mutex m = m_mutex m0 → m_tcbs m = m_tcbs m0 → dispatched i p m0 (resumed k i x p c q h m).
Proof.
  intros Hm Ht. unfold resumed. constructor; mproj; [by rewrite ?lookup_insert_eq..|exact Hm|exact Ht].
Qed.

(** A block that may be resumed, and the program it resumes with. *)
Record runnable (cl : client) (h : gmap loc tcb) (n : loc) (cn : tcb) (P : prog unit) : Prop := {
  rn_heap : h !! n = Some cn;
  rn_state : t_state cn = READY;
  rn_tid : valid_tid (t_tid cn);
  rn_ne : n ≠ exitall;
  rn_prog : ctx_prog (text cl) (t_ctx cn) = Some P;
}.

(** The state of a block, and what it goes on with. *)
Definition suspended (cl : client) (h : gmap loc tcb) (p : loc) (st : thread_state)
    (rest : prog unit) : Prop :=
  ∃ c, h !! p = Some c ∧ t_state c = st ∧ ctx_prog (text cl) (t_ctx c) = Some rest.

Section props.
Context (cl : client) (k i t : Z) (p : loc) (x : kinfo) (c : tcb) (m : machine).

(** ** Yielding *)

Lemma yield_next n q v cn K P :
  on_cpu m k i t p x c → quiet m (n :: q) v → t_state c = RUNNING →
  runnable cl (m_heap m) n cn P → n ≠ p →
  lrun (text cl) k (pbind uthread_yield K) m P
    (resumed k i x n cn (q ++ [p])
      (<[p := saved (mask_blocked k m) (K tt) (set_t_state READY c)]> (m_heap m)) m).
Proof.
  intros Hoc Hq Hst [Hn Hs Ht Hne HP] Hnp.
  eapply lrun_yield; [exact Hoc|exact Hq|exact Hst|reflexivity|..]; try done.
  by rewrite lookup_insert_ne.
Qed.

(** C18. Round robin: a thread that yields while [n :: q] are ready goes to the
    end of the ready queue, suspended at its return from [uthread_yield], and [n]
    runs; every lock is free again and no element of the queue is lost. *)
Theorem yield_round_robin n q v cn K P :
  on_cpu m k i t p x c → quiet m (n :: q) v → t_state c = RUNNING →
  runnable cl (m_heap m) n cn P → n ≠ p →
  ∃ m', lrun (text cl) k (pbind uthread_yield K) m P m' ∧ dispatched i n m m' ∧
    m_rqueue m' = Some (q ++ [p]) ∧ m_ksem m' !! KNotEmpty = Some v ∧
    suspended cl (m_heap m') p READY (K tt).
Proof.
  intros Hoc Hq Hst Hn Hnp. eexists. split; [by eapply yield_next|].
  split; [by apply resumed_dispatched|]. split; [done|]. split; [apply Hq|].
  unfold resumed. mproj. eexists. rewrite lookup_insert_ne by done.
  split; [apply lookup_insert_eq|]. done.
Qed.

(** A thread that yields while no other one is ready goes on at once. *)
Theorem yield_alone K :
  on_cpu m k i t p x c → quiet m [] 0 → t_state c = RUNNING → t_tid c = t → p ≠ exitall →
  ∃ m', lrun (text cl) k (pbind uthread_yield K) m (K tt) m' ∧ dispatched i p m m' ∧
    m_rqueue m' = Some [] ∧ m_ksem m' !! KNotEmpty = Some 0.
Proof.
  intros Hoc Hq Hst Ht Hne. eexists. split.
  - eapply lrun_yield; [exact Hoc|exact Hq|exact Hst|reflexivity|apply lookup_insert_eq|..]; try done.
    cbn. rewrite Ht. apply Hoc.
  - split; [by apply resumed_dispatched|]. split; [done|apply Hq].
Qed.

(** ** Exiting *)

(** C19. [uthread_exit] with the return value [ret], when a thread waits to join:
    the caller is FINISHED with its value stored, the first waiter is READY at
    the end of the queue, and the head of the queue runs. *)
Theorem exit_wakes_joiner n q v j js cj cn ret K P :
  on_cpu m k i t p x c → quiet m (n :: q) v → t_state c = RUNNING →
  t_joinq c = Some (j :: js) → j ≠ p → m_heap m !! j = Some cj →
  t_state cj = WAITING_JOIN → t_tid cj ≠ t → runnable cl (m_heap m) n cn P → n ≠ p →
  ∃ m', lrun (text cl) k (pbind (uthread_exit ret) K) m P m' ∧ dispatched i n m m' ∧
    m_rqueue m' = Some (q ++ [j]) ∧ m_ksem m' !! KNotEmpty = Some v ∧
    t_state <$> m_heap m' !! j = Some READY ∧
    t_state <$> m_heap m' !! p = Some FINISHED ∧
    t_retval <$> m_heap m' !! p = Some ret ∧ t_joinq <$> m_heap m' !! p = Some (Some js).
Proof.
  intros Hoc Hq Hst Hj Hjp Hcj Hw Htj [Hn Hs Ht Hne HP] Hnp.
  assert (n ≠ j) by (intros ->; congruence).
  eexists. split.
  - eapply lrun_exit_wake; [exact Hoc|exact Hq|exact Hst|exact Hj|exact Hjp|exact Hcj|exact Hw|
      exact Htj|reflexivity|..]; try done. by rewrite !lookup_insert_ne.
  - split; [by apply resumed_dispatched|]. split; [done|]. split; [apply Hq|].
    unfold resumed. mproj. rewrite !(lookup_insert_ne _ n) by done.
    rewrite lookup_insert_eq, (lookup_insert_ne _ j), lookup_insert_eq by done. done.
Qed.

(** The same when nobody waits: the caller is FINISHED and the head runs. *)
Theorem exit_unjoined n q v cn ret K P :
  on_cpu m k i t p x c → quiet m (n :: q) v → 0 < v → t_state c = RUNNING →
  t_joinq c = Some [] → runnable cl (m_heap m) n cn P → n ≠ p →
  ∃ m', lrun (text cl) k (pbind (uthread_exit ret) K) m P m' ∧ dispatched i n m m' ∧
    m_rqueue m' = Some q ∧ m_ksem m' !! KNotEmpty = Some (v - 1) ∧
    t_state <$> m_heap m' !! p = Some FINISHED ∧
    t_retval <$> m_heap m' !! p = Some ret.
Proof.
  intros Hoc Hq Hv Hst Hj [Hn Hs Ht Hne HP] Hnp. eexists. split.
  - eapply lrun_exit_alone; [exact Hoc|exact Hq|done|exact Hst|exact Hj|..]; try done.
    by rewrite lookup_insert_ne.
  - split; [by apply resumed_dispatched|]. split; [done|]. split; [apply lookup_insert_eq|].
    unfold resumed. mproj. rewrite !(lookup_insert_ne _ n) by done.
    by rewrite !lookup_insert_eq.
Qed.

(** ** Joining *)

(** C20. Joining a FINISHED thread returns 0 at once: its return value is stored,
    its identifier can be used again, its block and its stack are freed, its
    entry of [tcbs] is NULL and the locks are free. *)
Theorem join_finished tid pret d cd js S :
  on_cpu m k i t p x c → m_mutex m !! MTcbs = Some None → tids_free m S → valid_tid tid →
  znth (m_tcbs m) tid = Some (Some d) → m_heap m !! d = Some cd → t_state cd = FINISHED →
  t_joinq cd = Some js → stack_owned m cd →
  ∃ m', eval (uthread_join tid pret) k [] m = EDone 0 [] m' ∧
    m_user m' = store_ret pret (t_retval cd) (m_user m) ∧ tids_free m' (S ∖ {[tid]}) ∧
    m_heap m' = delete d (m_heap m) ∧ m_stacks m' = stack_freed cd (m_stacks m) ∧
    znth (m_tcbs m') tid = Some None ∧ m_mutex m' = m_mutex m.
Proof.
  intros Hoc Hl HS Htid Htcb Hd Hst Hjs Hso.
  assert (Hb : 0 ≤ tid < Z.of_nat (length (m_tcbs m))) by (apply znth_is_Some; eauto).
  pose proof (znth_insert (m_tcbs m) tid tid None Hb) as Hz. rewrite decide_True in Hz by done.
  destruct (ev_join_now k i t p x c m tid pret d cd js S) as (bv' & _ & HS' & He); [done..|].
  eexists. split; [exact He|]. unfold joined. mproj. split; [done|]. split.
  { split; [apply HS|]. split; [apply HS'|apply HS']. }
  by rewrite Hz.
Qed.

(** C21. Joining a thread that has not finished suspends the caller at the end of
    the target's join queue, in state WAITING_JOIN, to go on with the end of
    [uthread_join]; the head of the ready queue runs. *)
Theorem join_blocks tid pret d cd ds n q v cn K P :
  on_cpu m k i t p x c → quiet m (n :: q) v → 0 < v → t_joinq c = Some [] →
  znth (m_tcbs m) tid = Some (Some d) → d ≠ p → m_heap m !! d = Some cd →
  t_state cd ≠ FINISHED → t_joinq cd = Some ds → Z.of_nat (length ds) < INT_MAX →
  runnable cl (m_heap m) n cn P → n ≠ p →
  ∃ m', lrun (text cl) k (pbind (uthread_join tid pret) K) m P m' ∧ dispatched i n m m' ∧
    m_rqueue m' = Some q ∧ m_ksem m' !! KNotEmpty = Some (v - 1) ∧
    t_joinq <$> m_heap m' !! d = Some (Some (ds ++ [p])) ∧
    suspended cl (m_heap m') p WAITING_JOIN (pbind (join_resume tid pret) K).
Proof.
  intros Hoc Hq Hv Hj Htcb Hdp Hd Hst Hds Hlen [Hn Hs Ht Hne HP] Hnp.
  set (c' := if decide (n = d) then set_t_joinq (Some (ds ++ [p])) cd else cn).
  assert (Hc' : t_state c' = READY ∧ t_tid c' = t_tid cn ∧ t_ctx c' = t_ctx cn ∧
    ∀ c1, <[d := set_t_joinq (Some (ds ++ [p])) cd]> (<[p := c1]> (m_heap m)) !! n = Some c').
  { unfold c'. destruct (decide (n = d)) as [->|Hnd].
    - assert (cn = cd) as -> by congruence. split_and!; try done.
      intros c1. apply lookup_insert_eq.
    - split_and!; try done. intros c1. by rewrite !lookup_insert_ne. }
  destruct Hc' as (Hs' & Ht' & Hctx & Hh). eexists. split.
  - eapply (lrun_join_block cl k i t p x c m tid pret d cd ds v n q c'); try done.
    + by rewrite Ht'.
    + by rewrite Hctx.
  - split; [by apply resumed_dispatched|]. split; [done|]. split; [apply lookup_insert_eq|].
    unfold resumed. mproj. split.
    + destruct (decide (n = d)) as [->|Hnd].
      * by rewrite lookup_insert_eq.
      * rewrite lookup_insert_ne, lookup_insert_eq by done. done.
    + eexists. rewrite !lookup_insert_ne, lookup_insert_eq by done. done.
Qed.

(** Once the target has finished, the end of [uthread_join] does for a caller
    that was suspended what the call does for a target that had finished. *)
Theorem join_resumes tid pret d cd js S :
  m_mutex m !! MTcbs = Some None → tids_free m S → valid_tid tid →
  znth (m_tcbs m) tid = Some (Some d) → m_heap m !! d = Some cd → t_state cd = FINISHED →
  t_joinq cd = Some js → stack_owned m cd →
  ∃ m', eval (join_resume tid pret) k [] m = EDone 0 [] m' ∧
    m_user m' = store_ret pret (t_retval cd) (m_user m) ∧ tids_free m' (S ∖ {[tid]}) ∧
    m_heap m' = delete d (m_heap m) ∧ znth (m_tcbs m') tid = Some None ∧
    m_mutex m' = m_mutex m.
Proof.
  intros Hl HS Htid Htcb Hd Hst Hjs Hso.
  assert (Hb : 0 ≤ tid < Z.of_nat (length (m_tcbs m))) by (apply znth_is_Some; eauto).
  pose proof (znth_insert (m_tcbs m) tid tid None Hb) as Hz. rewrite decide_True in Hz by done.
  destruct (ev_join_resume k m tid pret d cd js S) as (bv' & _ & HS' & He); [done..|].
  eexists. split; [exact He|]. unfold joined. mproj. split; [done|]. split.
  { split; [apply HS|]. split; [apply HS'|apply HS']. }
  by rewrite Hz.
Qed.

(** C22. The assertion on the caller's own join queue: a thread that another one
    is waiting to join cannot itself wait for an unfinished thread, the process
    aborts. *)
Theorem join_by_joined_aborts tid pret d cd w ws :
  on_cpu m k i t p x c → m_mutex m !! MTcbs = Some None →
  znth (m_tcbs m) tid = Some (Some d) → m_heap m !! d = Some cd → t_state cd ≠ FINISHED →
  t_joinq c = Some (w :: ws) →
  eval (uthread_join tid pret) k [] m = EFault AssertFail.
Proof.
  intros Hoc Hl Htcb Hd Hst Hj. rewrite (ev_join_prefix k i t p x c m tid pret d) by done.
  ev_cmd (erewrite ld_tcb by exact Hd). rewrite bool_decide_false by done. cbn [negb].
  apply eval_bind_fault. ev_call ev_deref.
  ev_cmd (erewrite ld_tcb by apply Hoc; rewrite Hj). by apply eval_bind_fault.
Qed.

(** ** Semaphores *)

(** [uthread_sem_init] makes a semaphore with counter [n], a free lock and no
    waiting thread; a semaphore that nobody waits for is destroyed without a
    trace in the queues, and its lock is gone. *)
Theorem sem_init_destroy a n :
  on_cpu m k i t p x c →
  ∃ m' m'', eval (uthread_sem_init a n) k [] m = EDone 0 [] m' ∧ sem_free m' a n [] ∧
    eval (uthread_sem_destroy a) k [] m' = EDone tt [] m'' ∧
    m_mutex m'' = delete (MSem a) (m_mutex m) ∧ m_heap m'' = m_heap m ∧
    m_rqueue m'' = m_rqueue m.
Proof.
  intros Hoc. set (m' := masked false k (thr_upd (set_k_errno 0) k
    (set_mutex (<[MSem a := None]> (m_mutex m))
      (set_usem (<[a := Usem n (Some [])]> (m_usem m)) m)))).
  assert (Hoc' : on_cpu m' k i t p x c).
  { destruct Hoc. constructor; try done. by apply alive_masked, alive_thr_upd. }
  assert (Hs : sem_free m' a n []) by (split; apply lookup_insert_eq).
  exists m'. eexists. split; [by eapply ev_sem_init|]. split; [done|].
  split; [by eapply ev_sem_destroy|]. unfold m'. mproj.
  by rewrite delete_insert_eq.
Qed.

(** C23. Posting a semaphore nobody waits for increments its counter, and the
    counter is what the next wait takes: a post then a wait change nothing. *)
Theorem sem_post_then_wait a n K :
  on_cpu m k i t p x c → sem_free m a n [] → 0 ≤ n < INT_MAX →
  ∃ m', eval (uthread_sem_post a) k [] m = EDone 0 [] m' ∧ sem_free m' a (n + 1) [] ∧
    ∃ m'', lrun (text cl) k (pbind (uthread_sem_wait a) K) m' (K 0) m'' ∧
      sem_free m'' a n [] ∧ m_heap m'' = m_heap m ∧ m_rqueue m'' = m_rqueue m.
Proof.
  intros Hoc Hs Hn. eexists. split.
  { eapply ev_sem_post_free; [exact Hoc|exact Hs|]. unfold INT_MIN, INT_MAX in *. lia. }
  set (m' := masked false k _).
  assert (Hs' : sem_free m' a (n + 1) []) by (split; [apply Hs|apply lookup_insert_eq]).
  assert (Hoc' : on_cpu m' k i t p x c).
  { destruct Hoc. constructor; try done. by apply alive_masked. }
  split; [done|]. eexists. split; [eapply lrun_sem_wait_take; [exact Hoc'|exact Hs'|lia]|].
  split; [|done]. split; [apply Hs|]. mproj. rewrite lookup_insert_eq.
  by replace (n + 1 - 1) with n by lia.
Qed.

(** C39. Posting a semaphore wakes its first waiter: the waiter is READY at the end
    of the ready queue, the others keep their order. *)
Theorem sem_post_wakes a n w cw ws q v :
  on_cpu m k i t p x c → quiet m q v → sem_free m a n (w :: ws) →
  m_heap m !! w = Some cw → t_state cw = WAITING_SEM → INT_MIN ≤ n < INT_MAX →
  ∃ m', eval (uthread_sem_post a) k [] m = EDone 0 [] m' ∧ sem_free m' a (n + 1) ws ∧
    m_rqueue m' = Some (q ++ [w]) ∧ m_ksem m' !! KNotEmpty = Some (v + 1) ∧
    m_heap m' = <[w := set_t_state READY cw]> (m_heap m) ∧ m_mutex m' = m_mutex m.
Proof.
  intros Hoc Hq Hs Hw Hst Hn. eexists. split; [by eapply ev_sem_post_wake|].
  split; [split; [apply Hs|apply lookup_insert_eq]|]. split; [done|].
  split; [apply lookup_insert_eq|done].
Qed.

(** The counter of a post that would exceed the range of [int] is a signed
    overflow. *)
Theorem sem_post_overflows a ws :
  on_cpu m k i t p x c → sem_free m a INT_MAX ws →
  eval (uthread_sem_post a) k [] m = EFault SignedOverflow.
Proof.
  intros Hoc [Hl Hs]. unfold uthread_sem_post, kthread_mutex_lock.
  rewrite ev_inited by apply Hoc. ev_call ev_block.
  ev_call ev_check_preempted; [apply Hoc|apply Hoc|apply Hoc|].
  ev_cmd (rewrite Hl). apply eval_bind_fault.
  cbn [negb Z.eqb]. ev_cmd (rewrite Hs). by apply eval_bind_fault.
Qed.

(** Waiting on a counter of 0 queues the caller at the semaphore, in state
    WAITING_SEM, releases the semaphore's lock for the others, and runs the head
    of the ready queue; the caller will try again from the top of the loop. *)
Theorem sem_wait_blocks a ws n q v cn K P :
  on_cpu m k i t p x c → quiet m (n :: q) v → 0 < v → sem_free m a 0 ws →
  Z.of_nat (length ws) < INT_MAX → runnable cl (m_heap m) n cn P → n ≠ p →
  ∃ m', lrun (text cl) k (pbind (uthread_sem_wait a) K) m P m' ∧ dispatched i n m m' ∧
    m_rqueue m' = Some q ∧ sem_free m' a 0 (ws ++ [p]) ∧
    suspended cl (m_heap m') p WAITING_SEM (sem_wait_resume a (Some p) K).
Proof.
  intros Hoc Hq Hv Hs Hlen [Hn Hst Ht Hne HP] Hnp. eexists. split.
  - eapply lrun_sem_wait_block; [exact Hoc|exact Hq|done|exact Hs|done|..]; try done.
    by rewrite lookup_insert_ne.
  - split; [by apply resumed_dispatched|]. split; [done|].
    split; [split; [apply Hs|apply lookup_insert_eq]|]. unfold resumed. mproj.
    eexists. rewrite lookup_insert_ne, lookup_insert_eq by done. done.
Qed.

(** A thread that was woken looks at the counter again: it takes the
    semaphore if it still can, and queues itself once more if another thread took
    it first. *)
Theorem sem_wait_rechecks a s ws n q v cn K P :
  on_cpu m k i t p x c → quiet m (n :: q) v → 0 < v → sem_free m a s ws → 0 ≤ s →
  Z.of_nat (length ws) < INT_MAX → runnable cl (m_heap m) n cn P → n ≠ p →
  ∃ m', if decide (0 < s)
        then lrun (text cl) k (sem_wait_resume a (Some p) K) m (K 0) m' ∧
             sem_free m' a (s - 1) ws ∧ m_rqueue m' = Some (n :: q)
        else lrun (text cl) k (sem_wait_resume a (Some p) K) m P m' ∧
             sem_free m' a 0 (ws ++ [p]) ∧ dispatched i n m m' ∧ m_rqueue m' = Some q ∧
             suspended cl (m_heap m') p WAITING_SEM (sem_wait_resume a (Some p) K).
Proof.
  intros Hoc Hq Hv Hs Hs0 Hlen [Hn Hst Ht Hne HP] Hnp. case_decide as Hpos.
  - eexists. split; [eapply lrun_sem_resume_take; [apply Hoc|exact Hs|done]|].
    split; [|apply Hq]. split; [apply Hs|apply lookup_insert_eq].
  - assert (s = 0) as -> by lia. eexists. split.
    { eapply lrun_sem_resume_block; [exact Hoc|exact Hq|done|exact Hs|done|..]; try done.
      by rewrite lookup_insert_ne. }
    split; [split; [apply Hs|apply lookup_insert_eq]|].
    split; [by apply resumed_dispatched|]. split; [done|]. unfold resumed. mproj.
    eexists. rewrite lookup_insert_ne, lookup_insert_eq by done. done.
Qed.

(** ** Creating threads *)

(** C24. [uthread_create] gives the new thread the least free identifier, stores it
    through [ptid], and puts it at the end of the ready queue in state READY: it
    will start in [trampoline] with its function and argument, on the stack the
    caller gave or on a malloc'ed one. *)
Theorem create_ready r ptid f arg base size q v S K :
  on_cpu m k i t p x c → quiet m q v → tids_free m S → valid_tid r → r ∉ S →
  (∀ j, 0 ≤ j < r → j ∈ S) → length (m_tcbs m) = Z.to_nat UTHREAD_MAX_THREADS →
  ∃ m' c', lrun (text cl) k (pbind (uthread_create ptid f arg base size) K) m (K 0) m' ∧
    m_rqueue m' = Some (q ++ [m_next m]) ∧ m_ksem m' !! KNotEmpty = Some (v + 1) ∧
    tids_free m' ({[r]} ∪ S) ∧ m_user m' !! ptid = Some r ∧
    znth (m_tcbs m') r = Some (Some (m_next m)) ∧ m_heap m' !! m_next m = Some c' ∧
    t_tid c' = r ∧ t_state c' = READY ∧ t_joinq c' = Some [] ∧
    uc_body (t_ctx c') = CtxEntry (FTrampoline f arg) ∧
    ss_sp (t_ctx c') = stack_ptr base (Pos.succ (m_next m)) ∧
    ss_size (t_ctx c') = stack_size_of size ∧ m_mutex m' = m_mutex m.
Proof.
  intros Hoc Hq HS Hr Hout Hlow Hlen.
  destruct (next_tid_free k m r S HS Hr Hout Hlow) as (bv' & _ & HS' & Hnext).
  assert (Hb : 0 ≤ r < Z.of_nat (length (m_tcbs m))) by by rewrite Hlen.
  pose proof (znth_insert (m_tcbs m) r r (Some (m_next m)) Hb) as Hz.
  rewrite decide_True in Hz by done.
  eexists _, _. split; [by eapply lrun_create_next|]. unfold created. mproj.
  rewrite Hz. split; [done|]. split; [apply lookup_insert_eq|].
  split; [split; [apply HS|split; [apply HS'|apply HS']]|].
  split; [apply lookup_insert_eq|]. split; [done|].
  split; [apply lookup_insert_eq|done].
Qed.

(** C25. When every identifier is in use, [uthread_create] does not fail: it hands
    out identifier 1 again. Thread 1's entry of [tcbs] is overwritten, its block is
    still allocated, and two blocks carry the identifier 1. *)
Theorem create_exhausted ptid f arg base size q v S d cd K :
  on_cpu m k i t p x c → quiet m q v → tids_free m S → (∀ j, valid_tid j → j ∈ S) →
  length (m_tcbs m) = Z.to_nat UTHREAD_MAX_THREADS →
  znth (m_tcbs m) 1 = Some (Some d) → m_heap m !! d = Some cd → t_tid cd = 1 → d ≠ m_next m →
  ∃ m' c', lrun (text cl) k (pbind (uthread_create ptid f arg base size) K) m (K 0) m' ∧
    m_user m' !! ptid = Some 1 ∧ znth (m_tcbs m') 1 = Some (Some (m_next m)) ∧
    m_heap m' !! m_next m = Some c' ∧ t_tid c' = 1 ∧ m_heap m' !! d = Some cd ∧
    m_bitvec m' = m_bitvec m.
Proof.
  intros Hoc Hq HS Hall Hlen Hd Hcd Ht Hne.
  pose proof (next_tid_full k m S HS Hall) as Hnext.
  assert (Hb : 0 ≤ 1 < Z.of_nat (length (m_tcbs m))) by by rewrite Hlen.
  pose proof (znth_insert (m_tcbs m) 1 1 (Some (m_next m)) Hb) as Hz.
  rewrite decide_True in Hz by done.
  eexists _, _. split; [by eapply lrun_create_next|]. unfold created. mproj.
  rewrite (lookup_insert_ne _ _ d) by done. rewrite Hz.
  split; [apply lookup_insert_eq|]. split; [done|]. split; [apply lookup_insert_eq|]. done.
Qed.

(** C26. When malloc has no block, [uthread_create] returns 1 with [tcbs_lock]
    still locked and the identifier still in use: the next call that locks
    [tcbs_lock] never returns. *)
Theorem create_no_block r ptid f arg base size S :
  on_cpu m k i t p x c → m_mutex m !! MTcbs = Some None → tids_free m S → valid_tid r →
  r ∉ S → (∀ j, 0 ≤ j < r → j ∈ S) → length (m_tcbs m) = Z.to_nat UTHREAD_MAX_THREADS →
  ∃ m', eval (uthread_create ptid f arg base size) k [false] m = EDone 1 [] m' ∧
    m_mutex m' !! MTcbs = Some (Some k) ∧ tids_free m' ({[r]} ∪ S) ∧
    m_heap m' = m_heap m ∧ eval lock_tcbs k [] m' = EBlock.
Proof.
  intros Hoc Hl HS Hr Hout Hlow Hlen.
  destruct (next_tid_free k m r S HS Hr Hout Hlow) as (bv' & _ & HS' & Hnext).
  destruct (ev_create_prefix k i t p x c m r ptid f arg base size bv' [] Hoc Hl Hnext Hlen Hr)
    as [_ He].
  eexists. split; [exact He|]. mproj. split; [apply lookup_insert_eq|].
  split; [split; [mproj; rewrite lookup_insert_ne by done; apply HS|split; [apply HS'|apply HS']]|]. split; [done|].
  unfold lock_tcbs, kthread_mutex_lock, or_abort. apply eval_bind_block. cbn.
  by rewrite lookup_insert_eq.
Qed.

(** C27. When malloc has no stack, [uthread_create] returns 1 with [tcbs_lock]
    still locked, and the entry of [tcbs] is left pointing at the block that was
    freed. *)
Theorem create_no_stack r ptid f arg size q v S K :
  on_cpu m k i t p x c → quiet m q v → tids_free m S → valid_tid r → r ∉ S →
  (∀ j, 0 ≤ j < r → j ∈ S) → m_heap m !! m_next m = None →
  length (m_tcbs m) = Z.to_nat UTHREAD_MAX_THREADS →
  ∃ m', lrun (text cl) k (pbind (uthread_create ptid f arg SNull size) K) m (K 1) m' ∧
    m_mutex m' !! MTcbs = Some (Some k) ∧ znth (m_tcbs m') r = Some (Some (m_next m)) ∧
    m_heap m' !! m_next m = None ∧ m_rqueue m' = Some q.
Proof.
  intros Hoc Hq HS Hr Hout Hlow Hnone Hlen.
  destruct (next_tid_free k m r S HS Hr Hout Hlow) as (bv' & _ & HS' & Hnext).
  assert (Hb : 0 ≤ r < Z.of_nat (length (m_tcbs m))) by by rewrite Hlen.
  pose proof (znth_insert (m_tcbs m) r r (Some (m_next m)) Hb) as Hz.
  rewrite decide_True in Hz by done.
  eexists. split; [by eapply lrun_create_no_stack|]. mproj. rewrite Hz.
  split; [apply lookup_insert_eq|]. split; [done|]. split; [done|apply Hq].
Qed.

(** A new thread calls its function with its argument and exits with what the
    function returns. *)
Theorem thread_starts f arg K :
  on_cpu m k i t p x c → m_mutex m !! MTcbs = Some None → t_state c = RUNNING →
  lrun (text cl) k (pbind (trampoline f arg) K) m
    (pbind (compile (cl f arg)) (λ v, pbind (uthread_exit v) K)) m.
Proof. intros Hoc Hl Hst. by eapply lrun_start. Qed.

(** ** Thread identifiers and the ready queue *)

(** Round trip: an identifier that is handed out and reclaimed is handed out
    again, and the set of identifiers in use is what it was. *)
Theorem tid_roundtrip r S :
  tids_free m S → valid_tid r → r ∉ S → (∀ j, 0 ≤ j < r → j ∈ S) →
  ∃ m1 m2 m3, eval get_next_tid k [] m = EDone r [] m1 ∧ tids_free m1 ({[r]} ∪ S) ∧
    eval (reclaim_tid r) k [] m1 = EDone tt [] m2 ∧ tids_free m2 S ∧
    eval get_next_tid k [] m2 = EDone r [] m3.
Proof.
  intros HS Hr Hout Hlow.
  destruct (ev_get_next_tid k m S r [] HS Hr Hout Hlow) as (b1 & He1 & _ & HS1).
  destruct (ev_reclaim_tid k (set_bitvec b1 m) _ r [] HS1 Hr) as (b2 & He2 & _ & HS2).
  replace (({[r]} ∪ S) ∖ {[r]}) with S in HS2 by set_solver.
  destruct (ev_get_next_tid k (set_bitvec b2 (set_bitvec b1 m)) S r [] HS2 Hr Hout Hlow)
    as (b3 & He3 & _ & _).
  by exists (set_bitvec b1 m), (set_bitvec b2 (set_bitvec b1 m)),
    (set_bitvec b3 (set_bitvec b2 (set_bitvec b1 m))).
Qed.

(** The ready queue is first in, first out, and its semaphore counts it: a
    block enqueued behind [p0 :: q] leaves [p0] to be dequeued first. *)
Theorem ready_queue_fifo p0 q n v :
  rq_free m (p0 :: q) v → 0 ≤ v < SEM_VALUE_MAX → Z.of_nat (length (p0 :: q)) < INT_MAX →
  ∃ m1 m2, eval (ready_enqueue (Some n)) k [] m = EDone tt [] m1 ∧
    eval ready_dequeue k [] m1 = EDone p0 [] m2 ∧ rq_free m2 (q ++ [n]) v.
Proof.
  intros Hrq Hv Hlen. eexists. eexists. split; [eapply ev_ready_enqueue; [exact Hrq|lia|done]|].
  split.
  - eapply (ev_ready_dequeue k _ p0 (q ++ [n]) (v + 1)); [|lia]. destruct Hrq. constructor; mproj.
    + done.
    + done.
    + apply lookup_insert_eq.
  - destruct Hrq. constructor; mproj; [done|done|]. rewrite lookup_insert_eq. f_equal. lia.
Qed.

(** A scheduler that finds the ready queue empty waits: it neither returns nor
    fails until another kernel thread posts [not_empty]. *)
Theorem ready_dequeue_waits : m_ksem m !! KNotEmpty = Some 0 → eval ready_dequeue k [] m = EBlock.
Proof. apply ev_ready_dequeue_empty. Qed.
End props.

(** ** The theorems on a concrete machine *)

Lemma demo_runnable1 c0 js c2 :
  runnable demo_client (demo_heap c0 (demo_tcb 1 READY js) c2) 3%positive (demo_tcb 1 READY js)
    (Ret tt).
Proof. by constructor. Qed.

(** Thread 0 runs, threads 1 and 2 are ready. *)
Definition demo_ready : machine :=
  demo (demo_heap run0 (demo_tcb 1 READY []) (demo_tcb 2 READY [])) [3; 4]%positive demo_usem.
(** Thread 0 runs alone. *)
Definition demo_alone : machine :=
  demo (demo_heap run0 (demo_tcb 1 FINISHED []) (demo_tcb 2 FINISHED [])) [] demo_usem.
(** Thread 2 waits to join thread 0, which runs. *)
Definition demo_joined : machine :=
  demo (demo_heap (demo_tcb 0 RUNNING [4%positive]) (demo_tcb 1 READY [])
    (demo_tcb 2 WAITING_JOIN [])) [3]%positive demo_usem.
(** Thread 2 waits for semaphore 7. *)
Definition demo_waits : machine :=
  demo (demo_heap run0 (demo_tcb 1 READY []) (demo_tcb 2 WAITING_SEM [])) [3]%positive
    (Usem 0 (Some [4%positive])).

Lemma yield_round_robin_witness : ∃ m',
  lrun (text demo_client) 100 (pbind uthread_yield Ret) demo_ready (Ret tt) m' ∧
  m_rqueue m' = Some [4; 2]%positive.
Proof.
  destruct (yield_round_robin demo_client 100 0 0 2 demo_kinfo run0 demo_ready 3 [4%positive] 2
    (demo_tcb 1 READY []) Ret (Ret tt) (demo_on_cpu _ _ _ _ _) ltac:(by apply demo_quiet) eq_refl
    (demo_runnable1 _ _ _)) as (m' & Hr & _ & Hq & _); [done|]. by exists m'.
Defined.

Lemma yield_alone_witness : ∃ m',
  lrun (text demo_client) 100 (pbind uthread_yield Ret) demo_alone (Ret tt) m' ∧
  m_rqueue m' = Some [].
Proof.
  destruct (yield_alone demo_client 100 0 0 2 demo_kinfo run0 demo_alone Ret
    (demo_on_cpu _ _ _ _ _) ltac:(by apply demo_quiet) eq_refl eq_refl ltac:(done))
    as (m' & Hr & _ & Hq & _). by exists m'.
Defined.

Lemma exit_wakes_joiner_witness : ∃ m',
  lrun (text demo_client) 100 (pbind (uthread_exit 42) Ret) demo_joined (Ret tt) m' ∧
  m_rqueue m' = Some [4%positive].
Proof.
  destruct (exit_wakes_joiner demo_client 100 0 0 2 demo_kinfo _ demo_joined 3 [] 1 4 []
    (demo_tcb 2 WAITING_JOIN []) (demo_tcb 1 READY []) 42 Ret (Ret tt)
    (demo_on_cpu _ _ _ _ _) ltac:(by apply demo_quiet) eq_refl eq_refl)
    as (m' & Hr & _ & Hq & _); try done. by exists m'.
Defined.

Lemma exit_unjoined_witness : ∃ m',
  lrun (text demo_client) 100 (pbind (uthread_exit 42) Ret) demo_ready (Ret tt) m' ∧
  m_rqueue m' = Some [4%positive].
Proof.
  destruct (exit_unjoined demo_client 100 0 0 2 demo_kinfo _ demo_ready 3 [4%positive] 2
    (demo_tcb 1 READY []) 42 Ret (Ret tt) (demo_on_cpu _ _ _ _ _) ltac:(by apply demo_quiet))
    as (m' & Hr & _ & Hq & _); try done. by exists m'.
Defined.

Lemma join_finished_witness : ∃ m',
  eval (uthread_join 1 (Some 5)) 100 [] demo_alone = EDone 0 [] m' ∧
  tids_free m' ({[0; 1; 2]} ∖ {[1]}).
Proof.
  destruct (join_finished 100 0 0 2 demo_kinfo run0 demo_alone 1 (Some 5) 3
    (demo_tcb 1 FINISHED []) [] {[0; 1; 2]} (demo_on_cpu _ _ _ _ _) eq_refl (demo_tids _ _ _))
    as (m' & He & _ & HS & _); try done; [by left|]. by exists m'.
Defined.

Lemma join_blocks_witness : ∃ m',
  lrun (text demo_client) 100 (pbind (uthread_join 1 None) (λ _, Ret tt)) demo_ready (Ret tt) m' ∧
  t_joinq <$> m_heap m' !! 3%positive = Some (Some [2%positive]).
Proof.
  destruct (join_blocks demo_client 100 0 0 2 demo_kinfo run0 demo_ready 1 None 3
    (demo_tcb 1 READY []) [] 3 [4%positive] 2 (demo_tcb 1 READY []) (λ _, Ret tt) (Ret tt)
    (demo_on_cpu _ _ _ _ _) ltac:(by apply demo_quiet))
    as (m' & Hr & _ & _ & _ & Hj & _); try done. by exists m'.
Defined.

Lemma join_resumes_witness : ∃ m',
  eval (join_resume 1 (Some 5)) 100 [] demo_alone = EDone 0 [] m' ∧
  tids_free m' ({[0; 1; 2]} ∖ {[1]}).
Proof.
  destruct (join_resumes 100 demo_alone 1 (Some 5) 3 (demo_tcb 1 FINISHED []) [] {[0; 1; 2]}
    eq_refl (demo_tids _ _ _)) as (m' & He & _ & HS & _); try done; [by left|]. by exists m'.
Defined.

Lemma join_by_joined_aborts_witness :
  eval (uthread_join 1 None) 100 [] demo_joined = EFault AssertFail.
Proof.
  by apply (join_by_joined_aborts 100 0 0 2 demo_kinfo _ demo_joined 1 None 3
    (demo_tcb 1 READY []) 4 [] (demo_on_cpu _ _ _ _ _)).
Defined.

Lemma sem_init_destroy_witness : ∃ m' m'',
  eval (uthread_sem_init 8 3) 100 [] demo_ready = EDone 0 [] m' ∧ sem_free m' 8 3 [] ∧
  eval (uthread_sem_destroy 8) 100 [] m' = EDone tt [] m''.
Proof.
  destruct (sem_init_destroy 100 0 0 2 demo_kinfo run0 demo_ready 8 3 (demo_on_cpu _ _ _ _ _))
    as (m' & m'' & H1 & H2 & H3 & _). by exists m', m''.
Defined.

Lemma sem_post_then_wait_witness : ∃ m',
  eval (uthread_sem_post 7) 100 [] demo_ready = EDone 0 [] m' ∧ sem_free m' 7 1 [].
Proof.
  destruct (sem_post_then_wait demo_client 100 0 0 2 demo_kinfo run0 demo_ready 7 0 (λ _, Ret tt)
    (demo_on_cpu _ _ _ _ _) (demo_sem_free _ _ _ _)) as (m' & H1 & H2 & _); [done|]. by exists m'.
Defined.

Lemma sem_post_wakes_witness : ∃ m',
  eval (uthread_sem_post 7) 100 [] demo_waits = EDone 0 [] m' ∧
  m_rqueue m' = Some [3; 4]%positive.
Proof.
  destruct (sem_post_wakes 100 0 0 2 demo_kinfo run0 demo_waits 7 0 4 (demo_tcb 2 WAITING_SEM [])
    [] [3%positive] 1 (demo_on_cpu _ _ _ _ _) ltac:(by apply demo_quiet) (demo_sem_free _ _ _ _))
    as (m' & H1 & _ & H2 & _); [done..|]. by exists m'.
Defined.

Lemma sem_post_overflows_witness :
  eval (uthread_sem_post 7) 100 [] (demo (demo_heap run0 run0 run0) [] (Usem INT_MAX (Some []))) =
  EFault SignedOverflow.
Proof.
  by apply (sem_post_overflows 100 0 0 2 demo_kinfo run0 _ 7 [] (demo_on_cpu _ _ _ _ _)).
Defined.

Lemma sem_wait_blocks_witness : ∃ m',
  lrun (text demo_client) 100 (pbind (uthread_sem_wait 7) (λ _, Ret tt)) demo_waits (Ret tt) m' ∧
  sem_free m' 7 0 [4; 2]%positive.
Proof.
  destruct (sem_wait_blocks demo_client 100 0 0 2 demo_kinfo run0 demo_waits 7 [4%positive] 3 [] 1
    (demo_tcb 1 READY []) (λ _, Ret tt) (Ret tt) (demo_on_cpu _ _ _ _ _)
    ltac:(by apply demo_quiet)) as (m' & H1 & _ & _ & H2 & _); try done.
  by exists m'.
Defined.

Lemma sem_wait_rechecks_witness : ∃ m',
  lrun (text demo_client) 100 (sem_wait_resume 7 (Some 2%positive) (λ _, Ret tt)) demo_waits
    (Ret tt) m' ∧ sem_free m' 7 0 [4; 2]%positive.
Proof.
  destruct (sem_wait_rechecks demo_client 100 0 0 2 demo_kinfo run0 demo_waits 7 0 [4%positive] 3 []
    1 (demo_tcb 1 READY []) (λ _, Ret tt) (Ret tt) (demo_on_cpu _ _ _ _ _)
    ltac:(by apply demo_quiet)) as (m' & H1 & H2 & _); try done.
  by exists m'.
Defined.

Lemma demo_least (j : Z) : 0 ≤ j < 3 → j ∈ ({[0; 1; 2]} : gset Z).
Proof. intros Hj. assert (j = 0 ∨ j = 1 ∨ j = 2) as [->|[->| ->]] by lia; set_solver. Qed.

Lemma create_ready_witness : ∃ m' c',
  lrun (text demo_client) 100 (pbind (uthread_create 50 6 7 SNull 0) (λ _, Ret tt)) demo_ready
    (Ret tt) m' ∧
  m_rqueue m' = Some [3; 4; 10]%positive ∧ m_user m' !! 50 = Some 3 ∧
  m_heap m' !! 10%positive = Some c' ∧ uc_body (t_ctx c') = CtxEntry (FTrampoline 6 7).
Proof.
  destruct (create_ready demo_client 100 0 0 2 demo_kinfo run0 demo_ready 3 50 6 7 SNull 0
    [3; 4]%positive 2 {[0; 1; 2]} (λ _, Ret tt) (demo_on_cpu _ _ _ _ _)
    ltac:(by apply demo_quiet) (demo_tids _ _ _))
    as (m' & c' & H1 & H2 & _ & _ & H3 & _ & H4 & _ & _ & _ & H5 & _);
    [done|set_solver|exact demo_least|done|].
  by exists m', c'.
Defined.

(** Every bit of the vector is set. *)
Definition full_bitvec : bitvec_t := Bitvec 1024 128 (Some (replicate 128 255)).
Definition all_tids : gset Z := list_to_set (seqZ 0 1024).
Lemma all_tids_elem j : j ∈ all_tids ↔ 0 ≤ j < 1024.
Proof. unfold all_tids. rewrite elem_of_list_to_set, elem_of_seqZ. lia. Qed.
Lemma full_bitvec_rep : bv_rep full_bitvec all_tids.
Proof.
  split; [|split; [done|]].
  - constructor; [done|done|]. eexists. split; [reflexivity|]. split; [done|].
    by apply Forall_replicate.
  - intros i Hi. change (0 ≤ i < 1024) in Hi.
    rewrite bool_decide_true by by apply all_tids_elem. unfold bit_at. cbn [vec full_bitvec].
    replace (znth _ _) with (Some 255).
    + cbn [default]. pose proof (Z.mod_pos_bound i 8).
      assert (i mod 8 = 0 ∨ i mod 8 = 1 ∨ i mod 8 = 2 ∨ i mod 8 = 3 ∨ i mod 8 = 4 ∨ i mod 8 = 5 ∨
        i mod 8 = 6 ∨ i mod 8 = 7) as Hm by lia.
      by repeat destruct Hm as [->|Hm]; try rewrite Hm.
    + unfold znth. pose proof (Z.div_pos i 8). pose proof (Z.div_lt_upper_bound i 8 128).
      rewrite decide_True by lia. symmetry. apply lookup_replicate. lia.
Qed.
Definition demo_full : machine := set_bitvec full_bitvec demo_ready.
Lemma demo_full_on_cpu : on_cpu demo_full 100 0 0 2%positive demo_kinfo run0.
Proof.
  destruct (demo_on_cpu run0 (demo_tcb 1 READY []) (demo_tcb 2 READY []) [3; 4]%positive demo_usem).
  by constructor.
Qed.
Lemma demo_full_quiet : quiet demo_full [3; 4]%positive 2.
Proof. by constructor. Qed.
Lemma demo_full_tids : tids_free demo_full all_tids.
Proof. split; [done|]. split; [exact full_bitvec_rep|done]. Qed.

Lemma create_exhausted_witness : ∃ m' c',
  lrun (text demo_client) 100 (pbind (uthread_create 50 6 7 SNull 0) (λ _, Ret tt)) demo_full
    (Ret tt) m' ∧
  m_user m' !! 50 = Some 1 ∧ m_heap m' !! 10%positive = Some c' ∧ t_tid c' = 1 ∧
  m_heap m' !! 3%positive = Some (demo_tcb 1 READY []).
Proof.
  destruct (create_exhausted demo_client 100 0 0 2 demo_kinfo run0 demo_full 50 6 7 SNull 0
    [3; 4]%positive 2 all_tids 3 (demo_tcb 1 READY []) (λ _, Ret tt) demo_full_on_cpu
    demo_full_quiet demo_full_tids (λ j, proj2 (all_tids_elem j)) eq_refl eq_refl eq_refl eq_refl)
    as (m' & c' & R1 & R2 & _ & R3 & R4 & R5 & _); [discriminate|].
  by exists m', c'.
Defined.

Lemma create_no_block_witness : ∃ m',
  eval (uthread_create 50 6 7 SNull 0) 100 [false] demo_ready = EDone 1 [] m' ∧
  m_mutex m' !! MTcbs = Some (Some 100).
Proof.
  destruct (create_no_block 100 0 0 2 demo_kinfo run0 demo_ready 3 50 6 7 SNull 0 {[0; 1; 2]}
    (demo_on_cpu _ _ _ _ _) eq_refl (demo_tids _ _ _)) as (m' & H1 & H2 & _);
    [done|set_solver|exact demo_least|done|]. by exists m'.
Defined.

Lemma create_no_stack_witness : ∃ m',
  lrun (text demo_client) 100 (pbind (uthread_create 50 6 7 SNull 0) (λ _, Ret tt)) demo_ready
    (Ret tt) m' ∧
  m_mutex m' !! MTcbs = Some (Some 100) ∧ znth (m_tcbs m') 3 = Some (Some 10%positive) ∧
  m_heap m' !! 10%positive = None.
Proof.
  destruct (create_no_stack demo_client 100 0 0 2 demo_kinfo run0 demo_ready 3 50 6 7 0
    [3; 4]%positive 2 {[0; 1; 2]} (λ _, Ret tt) (demo_on_cpu _ _ _ _ _)
    ltac:(by apply demo_quiet) (demo_tids _ _ _)) as (m' & H1 & H2 & H3 & H4 & _);
    [done|set_solver|exact demo_least|done|done|]. by exists m'.
Defined.

Lemma thread_starts_witness :
  lrun (text demo_client) 100 (pbind (trampoline 6 7) Ret) demo_ready
    (pbind (uthread_exit 0) Ret) demo_ready.
Proof.
  exact (thread_starts demo_client 100 0 0 2 demo_kinfo run0 demo_ready 6 7 Ret
    (demo_on_cpu _ _ _ _ _) eq_refl eq_refl).
Defined.

Lemma tid_roundtrip_witness : ∃ m1 m2,
  eval get_next_tid 100 [] demo_ready = EDone 3 [] m1 ∧
  eval (reclaim_tid 3) 100 [] m1 = EDone tt [] m2 ∧ tids_free m2 {[0; 1; 2]}.
Proof.
  destruct (tid_roundtrip 100 demo_ready 3 {[0; 1; 2]} (demo_tids _ _ _))
    as (m1 & m2 & m3 & H1 & _ & H2 & H3 & _); [done|set_solver|exact demo_least|].
  by exists m1, m2.
Defined.

Lemma ready_queue_fifo_witness : ∃ m1 m2,
  eval (ready_enqueue (Some 2%positive)) 100 [] demo_ready = EDone tt [] m1 ∧
  eval ready_dequeue 100 [] m1 = EDone 3%positive [] m2.
Proof.
  destruct (ready_queue_fifo 100 demo_ready 3 [4%positive] 2 2 (demo_rq_free _ _ _))
    as (m1 & m2 & H1 & H2 & _); [done..|]. by exists m1, m2.
Defined.

Lemma ready_dequeue_waits_witness : eval ready_dequeue 100 [] demo_alone = EBlock.
Proof. exact (ready_dequeue_waits 100 demo_alone eq_refl). Defined.
