(* ===== verification/Spec.v ===== *)
(** * The abstract scheduler

    What uthread.h promises to a client, without kernel threads, locks, contexts
    or memory: threads are programs, queues are lists of thread identifiers, and
    one step is one call of the interface.  [sstep] is executable; it is [None]
    where the interface makes no promise (joining a thread that does not exist,
    a deadlock, an overflow, ...) or the program is over. *)
From S2P Require Import Prelude Bitvec Machine Client.

(** What a thread does when it is resumed. *)
Inductive acont : Type :=
| AStart (f arg : Z)  (* it has not run yet *)
| ARun (p : uprog Z)  (* it goes on with its program *)
| AJoin (d : Z) (pret : option Z) (kont : Z → uprog Z)  (* it ends a join *)
| ASem (a : Z) (kont : Z → uprog Z).  (* it tries to take the semaphore again *)

Inductive astatus : Type :=
| SReady | SRunning | SWaitJoin (d : Z) | SWaitSem (a : Z) | SFinished (v : Z).
#[export] Instance astatus_eq_dec : EqDecision astatus.
Proof. solve_decision. Defined.

Record athread : Type := AThread {
  at_status : astatus;
  at_joiners : list Z;  (* who waits for it *)
  at_cont : acont }.

Record spec : Type := Spec {
  sp_threads : gmap Z athread;
  sp_ready : list Z;
  sp_cur : Z;
  sp_sems : gmap Z (Z * list Z);  (* counter, waiting threads *)
  sp_vars : gmap Z Z;
  sp_mutexes : gmap Z bool }.

Definition set_at_status st x := AThread st (at_joiners x) (at_cont x).
Definition set_at_joiners js x := AThread (at_status x) js (at_cont x).
Definition set_at_cont co x := AThread (at_status x) (at_joiners x) co.

Definition set_sp_threads x s :=
  Spec x (sp_ready s) (sp_cur s) (sp_sems s) (sp_vars s) (sp_mutexes s).
Definition set_sp_ready x s :=
  Spec (sp_threads s) x (sp_cur s) (sp_sems s) (sp_vars s) (sp_mutexes s).
Definition set_sp_cur x s :=
  Spec (sp_threads s) (sp_ready s) x (sp_sems s) (sp_vars s) (sp_mutexes s).
Definition set_sp_sems x s :=
  Spec (sp_threads s) (sp_ready s) (sp_cur s) x (sp_vars s) (sp_mutexes s).
Definition set_sp_vars x s :=
  Spec (sp_threads s) (sp_ready s) (sp_cur s) (sp_sems s) x (sp_mutexes s).
Definition set_sp_mutexes x s :=
  Spec (sp_threads s) (sp_ready s) (sp_cur s) (sp_sems s) (sp_vars s) x.

Definition upd_thread (g : athread → athread) (t : Z) (s : spec) : spec :=
  set_sp_threads (alter g t (sp_threads s)) s.

(** The running thread's program becomes [p]. *)
Definition go (p : uprog Z) (s : spec) : spec := upd_thread (set_at_cont (ARun p)) (sp_cur s) s.

(** Thread [t] goes to the end of the ready queue. *)
Definition wake (t : Z) (s : spec) : spec :=
  set_sp_ready (sp_ready s ++ [t]) (upd_thread (set_at_status SReady) t s).

(** The head of the ready queue runs. *)
Definition switch (s : spec) : option spec :=
  match sp_ready s with
  | [] => None
  | t :: q => Some (set_sp_cur t (set_sp_ready q (upd_thread (set_at_status SRunning) t s)))
  end.

(** The running thread stops with status [st], to be resumed as [co]. *)
Definition suspend (st : astatus) (co : acont) (s : spec) : spec :=
  upd_thread (λ x, set_at_status st (set_at_cont co x)) (sp_cur s) s.

Definition tids : list Z := seqZ 0 UTHREAD_MAX_THREADS.
(** The least thread identifier that is not in use. *)
Definition least_free (s : spec) : option Z :=
  list_find (λ t, sp_threads s !! t = None) tids ≫= λ r, Some r.2.

(** ** The calls *)
Definition s_yield (p : uprog Z) (s : spec) : option spec :=
  switch (wake (sp_cur s) (suspend SReady (ARun p) s)).

(** The running thread [x] finished: the first thread that waits for it is ready. *)
Definition exited (v : Z) (x : athread) (s : spec) : spec :=
  let s1 := suspend (SFinished v) (at_cont x) s in
  match at_joiners x with
  | [] => s1
  | j :: js => wake j (upd_thread (set_at_joiners js) (sp_cur s) s1)
  end.
Definition s_exit (v : Z) (s : spec) : option spec :=
  x ← sp_threads s !! sp_cur s;
  switch (exited v x s).

Definition s_create (ptid f arg : Z) (base : sptr) (kont : Z → uprog Z) (s : spec) : option spec :=
  match base with
  | SMalloc _ => None
  | _ =>
      r ← least_free s;
      Some (go (kont 0)
        (set_sp_ready (sp_ready s ++ [r])
          (set_sp_threads (<[r := AThread SReady [] (AStart f arg)]> (sp_threads s))
            (set_sp_vars (<[ptid := r]> (sp_vars s)) s))))
  end.

(** The end of a join: the target's return value is stored and its identifier
    can be used again. *)
Definition s_join_done (d : Z) (pret : option Z) (kont : Z → uprog Z) (s : spec) : option spec :=
  x ← sp_threads s !! d;
  match at_status x with
  | SFinished v =>
      Some (go (kont 0)
        (set_sp_vars (match pret with Some y => <[y := v]> (sp_vars s) | None => sp_vars s end)
          (set_sp_threads (delete d (sp_threads s)) s)))
  | _ => None
  end.

Definition s_join (d : Z) (pret : option Z) (kont : Z → uprog Z) (s : spec) : option spec :=
  if decide (d = sp_cur s) then None
  else
    x ← sp_threads s !! d;
    me ← sp_threads s !! sp_cur s;
    match at_status x with
    | SFinished _ => s_join_done d pret kont s
    | _ =>
        match at_joiners me, at_joiners x with
        | [], [] => switch (upd_thread (set_at_joiners [sp_cur s]) d
                  (suspend (SWaitJoin d) (AJoin d pret kont) s))
        | _, _ => None
        end
    end.

Definition s_sem_init (a n : Z) (kont : Z → uprog Z) (s : spec) : option spec :=
  match sp_sems s !! a with
  | Some (_, _ :: _) => None
  | _ => Some (go (kont 0) (set_sp_sems (<[a := (n, [])]> (sp_sems s)) s))
  end.

Definition s_sem_post (a : Z) (kont : Z → uprog Z) (s : spec) : option spec :=
  '(n, ws) ← sp_sems s !! a;
  if decide (INT_MIN ≤ n < INT_MAX) then
    match ws with
    | [] => Some (go (kont 0) (set_sp_sems (<[a := (n + 1, [])]> (sp_sems s)) s))
    | w :: ws' => Some (go (kont 0) (wake w (set_sp_sems (<[a := (n + 1, ws')]> (sp_sems s)) s)))
    end
  else None.

Definition s_sem_wait (a : Z) (kont : Z → uprog Z) (s : spec) : option spec :=
  '(n, ws) ← sp_sems s !! a;
  if decide (0 < n) then Some (go (kont 0) (set_sp_sems (<[a := (n - 1, ws)]> (sp_sems s)) s))
  else if decide (n = 0) then
    switch (set_sp_sems (<[a := (0, ws ++ [sp_cur s])]> (sp_sems s))
             (suspend (SWaitSem a) (ASem a kont) s))
  else None.

Definition s_sem_destroy (a : Z) (kont : unit → uprog Z) (s : spec) : option spec :=
  '(n, ws) ← sp_sems s !! a;
  match ws with
  | [] => Some (go (kont tt) (set_sp_sems (delete a (sp_sems s)) s))
  | _ => None
  end.

Section sstep.
Context (cl : client).

Definition s_call {B} (c : ucmd B) : (B → uprog Z) → spec → option spec :=
  match c in ucmd B return (B → uprog Z) → spec → option spec with
  | UInit _ _ | UTeardown | UStop _ => λ _ _, None
  | UCreate ptid f arg base _ => s_create ptid f arg base
  | UExit v => λ _, s_exit v
  | UJoin d pret => s_join d pret
  | USelf => λ kont s, Some (go (kont (sp_cur s)) s)
  | UYield => λ kont, s_yield (kont tt)
  | USemInit a n => s_sem_init a n
  | USemPost a => s_sem_post a
  | USemWait a => s_sem_wait a
  | USemDestroy a => s_sem_destroy a
  | ULoad x => λ kont s, Some (go (kont (default 0 (sp_vars s !! x))) s)
  | UStore x v => λ kont s, Some (go (kont tt) (set_sp_vars (<[x := v]> (sp_vars s)) s))
  | UMutexInit a => λ kont s,
      Some (go (kont 0) (set_sp_mutexes (<[a := false]> (sp_mutexes s)) s))
  | UMutexLock a => λ kont s,
      if decide (sp_mutexes s !! a = Some false)
      then Some (go (kont 0) (set_sp_mutexes (<[a := true]> (sp_mutexes s)) s)) else None
  | UMutexUnlock a => λ kont s,
      if decide (sp_mutexes s !! a = Some true)
      then Some (go (kont 0) (set_sp_mutexes (<[a := false]> (sp_mutexes s)) s)) else None
  | UMutexDestroy a => λ kont s,
      if decide (sp_mutexes s !! a = Some false)
      then Some (go (kont 0) (set_sp_mutexes (delete a (sp_mutexes s)) s)) else None
  | UCall f arg => λ kont s, Some (go (ubind (cl f arg) kont) s)
  end.

(** A thread calls [uthread_exit] with what its function returns. *)
Definition thread_body (f arg : Z) : uprog Z :=
  ubind (cl f arg) (λ v, UVis (UExit v) (λ _, URet 0)).

Definition sstep (s : spec) : option spec :=
  x ← sp_threads s !! sp_cur s;
  match at_cont x with
  | AStart f arg => Some (go (thread_body f arg) s)
  | AJoin d pret kont => s_join_done d pret kont s
  | ASem a kont => s_sem_wait a kont s
  | ARun (URet _) => None  (* main() returned: the process is over *)
  | ARun (UVis c kont) => s_call c kont s
  end.

Fixpoint srun (n : nat) (s : spec) : spec :=
  match n with
  | O => s
  | S n' => match sstep s with Some s' => srun n' s' | None => s end
  end.

(** The scheduler after [uthread_init]: the main thread runs [p]. *)
Definition sp_init (p : uprog Z) (vars : gmap Z Z) : spec :=
  Spec {[UTHREAD_TID_MAIN := AThread SRunning [] (ARun p)]} [] UTHREAD_TID_MAIN ∅ vars ∅.
End sstep.

(** ** The queue discipline

    Every thread but the running one is in exactly one place: the ready queue,
    the list of the thread it joins, the queue of the semaphore it waits for, or
    none when it has finished. *)
Definition stat (s : spec) (t : Z) : option astatus := at_status <$> sp_threads s !! t.
Definition joiners (s : spec) (t : Z) : list Z := from_option at_joiners [] (sp_threads s !! t).
Definition waiters (s : spec) (a : Z) : list Z := from_option snd [] (sp_sems s !! a).

(** [st] is the threads' status, [jn] who joins whom, [rd] the ready queue, [wt]
    the semaphores' queues; [oc] is the running thread, if there is one. *)
Record discipline (oc : option Z) (st : Z → option astatus) (jn : Z → list Z) (rd : list Z)
    (wt : Z → list Z) : Prop := {
  wf_valid : ∀ t, is_Some (st t) → valid_tid t;
  wf_running : ∀ t, st t = Some SRunning ↔ oc = Some t;
  wf_ready : ∀ t, st t = Some SReady ↔ t ∈ rd;
  wf_join : ∀ t d, st t = Some (SWaitJoin d) ↔ t ∈ jn d;
  wf_sem : ∀ t a, st t = Some (SWaitSem a) ↔ t ∈ wt a;
  wf_ready_nodup : NoDup rd;
  wf_join_one : ∀ d, (length (jn d) ≤ 1)%nat;
  wf_sem_nodup : ∀ a, NoDup (wt a);
  wf_finished : ∀ t v, st t = Some (SFinished v) → jn t = [];
  wf_absent : ∀ t, st t = None → jn t = [];
}.
Definition disciplined (oc : option Z) (s : spec) : Prop :=
  discipline oc (stat s) (joiners s) (sp_ready s) (waiters s).
Definition swf (s : spec) : Prop := disciplined (Some (sp_cur s)) s.

(** A function changed at one point. *)
Definition at_ {A} (t : Z) (x : A) (f : Z → A) : Z → A := λ t', if decide (t' = t) then x else f t'.
Lemma at_eq {A} t (x : A) f : at_ t x f t = x.
Proof. unfold at_. by rewrite decide_True. Qed.
Lemma at_ne {A} t t' (x : A) f : t' ≠ t → at_ t x f t' = f t'.
Proof. intros. unfold at_. by rewrite decide_False. Qed.

Lemma discipline_ext oc st st' jn jn' rd wt wt' :
  (∀ t, st t = st' t) → (∀ t, jn t = jn' t) → (∀ a, wt a = wt' a) →
  discipline oc st jn rd wt → discipline oc st' jn' rd wt'.
Proof.
  intros Hs Hj Hw []. constructor; intros *; rewrite <- ?Hs, <- ?Hj, <- ?Hw; eauto.
Qed.

(** Membership in the changed list against the status of the thread. *)
Ltac at_tac H :=
  intros *; unfold at_; repeat case_decide; subst; rewrite <- ?H; try done;
  first [naive_solver | set_solver | naive_solver set_solver].

Section discipline.
Context (st : Z → option astatus) (jn : Z → list Z) (rd : list Z) (wt : Z → list Z).

Lemma discipline_run t : discipline None st jn (t :: rd) wt →
  discipline (Some t) (at_ t (Some SRunning) st) jn rd wt.
Proof.
  intros [H1 H2 H3 H4 H5 [Hn H6]%NoDup_cons H7 H8 H9 H10].
  assert (Ht : st t = Some SReady) by (apply H3; set_solver).
  constructor; try done.
  - at_tac H1.
  - at_tac H2.
  - intros u. specialize (H3 u). rewrite elem_of_cons in H3. at_tac H2.
  - at_tac H4.
  - at_tac H5.
  - at_tac H9.
  - at_tac H10.
Qed.

Lemma NoDup_snoc (l : list Z) t : NoDup l → t ∉ l → NoDup (l ++ [t]).
Proof.
  intros Hl Ht. apply NoDup_app. split_and!; [done| |apply NoDup_singleton].
  by intros u Hu ->%list_elem_of_singleton.
Qed.

Lemma discipline_yield c : discipline (Some c) st jn rd wt →
  discipline None (at_ c (Some SReady) st) jn (rd ++ [c]) wt.
Proof.
  intros [H1 H2 H3 H4 H5 H6 H7 H8 H9 H10].
  assert (Hc : st c = Some SRunning) by by apply H2.
  constructor; try done.
  - at_tac H1.
  - at_tac H2.
  - intros u. rewrite elem_of_app, list_elem_of_singleton. specialize (H3 u). at_tac H2.
  - at_tac H4.
  - at_tac H5.
  - apply NoDup_snoc; [done|]. rewrite <- H3. naive_solver.
  - at_tac H9.
  - at_tac H10.
Qed.

Lemma discipline_exit c v : discipline (Some c) st jn rd wt → jn c = [] →
  discipline None (at_ c (Some (SFinished v)) st) jn rd wt.
Proof.
  intros [H1 H2 H3 H4 H5 H6 H7 H8 H9 H10] Hj.
  assert (Hc : st c = Some SRunning) by by apply H2.
  constructor; try done.
  - at_tac H1.
  - at_tac H2.
  - at_tac H3.
  - at_tac H4.
  - at_tac H5.
  - at_tac H9.
  - at_tac H10.
Qed.

(** A waiting thread becomes ready: it leaves the list it was in. *)
Lemma discipline_wake_joiner oc d j : discipline oc st jn rd wt → jn d = [j] →
  discipline oc (at_ j (Some SReady) st) (at_ d [] jn) (rd ++ [j]) wt.
Proof.
  intros [H1 H2 H3 H4 H5 H6 H7 H8 H9 H10] Hj.
  assert (Hs : st j = Some (SWaitJoin d)) by (apply H4; rewrite Hj; set_solver).
  constructor; try done.
  - at_tac H1.
  - intros u. rewrite <- H2. at_tac H2.
  - intros u. rewrite elem_of_app, list_elem_of_singleton. specialize (H3 u). at_tac H2.
  - intros u d'. unfold at_. repeat case_decide; subst.
    + split; [done|]. by intros ?%elem_of_nil.
    + rewrite <- H4. naive_solver.
    + rewrite H4, Hj. set_solver.
    + apply H4.
  - at_tac H5.
  - apply NoDup_snoc; [done|]. rewrite <- H3. naive_solver.
  - intros u. unfold at_. case_decide; [cbn; lia|done].
  - at_tac H9.
  - at_tac H10.
Qed.

Lemma discipline_wake_waiter oc a w ws : discipline oc st jn rd wt → wt a = w :: ws →
  discipline oc (at_ w (Some SReady) st) jn (rd ++ [w]) (at_ a ws wt).
Proof.
  intros [H1 H2 H3 H4 H5 H6 H7 H8 H9 H10] Hw.
  assert (Hs : st w = Some (SWaitSem a)) by (apply H5; rewrite Hw; set_solver).
  pose proof (H8 a) as Hnd. rewrite Hw in Hnd. apply NoDup_cons in Hnd as [Hn Hnd].
  constructor; try done.
  - at_tac H1.
  - intros u. rewrite <- H2. at_tac H2.
  - intros u. rewrite elem_of_app, list_elem_of_singleton. specialize (H3 u). at_tac H2.
  - at_tac H4.
  - intros u b. unfold at_. repeat case_decide; subst.
    + split; [done|]. by intros ?.
    + rewrite <- H5. naive_solver.
    + rewrite H5, Hw. set_solver.
    + apply H5.
  - apply NoDup_snoc; [done|]. rewrite <- H3. naive_solver.
  - intros b. unfold at_. case_decide; [done|apply H8].
  - at_tac H9.
  - at_tac H10.
Qed.

(** The running thread waits, for a thread or for a semaphore. *)
Lemma discipline_join c d : discipline (Some c) st jn rd wt → jn d = [] → d ≠ c →
  is_Some (st d) → (∀ v, st d ≠ Some (SFinished v)) →
  discipline None (at_ c (Some (SWaitJoin d)) st) (at_ d [c] jn) rd wt.
Proof.
  intros [H1 H2 H3 H4 H5 H6 H7 H8 H9 H10] Hj Hne Hd Hf.
  assert (Hc : st c = Some SRunning) by by apply H2.
  constructor; try done.
  - at_tac H1.
  - at_tac H2.
  - at_tac H3.
  - intros u d'. unfold at_. repeat case_decide; subst.
    + set_solver.
    + rewrite <- H4. naive_solver.
    + rewrite H4, Hj. set_solver.
    + apply H4.
  - at_tac H5.
  - intros u. unfold at_. case_decide; [cbn; lia|done].
  - intros u v. unfold at_. repeat case_decide; subst; try done; [naive_solver|apply H9].
  - intros u. unfold at_. repeat case_decide; subst; try done; [by rewrite eq_None_not_Some|apply H10].
Qed.

Lemma discipline_sem_wait c a : discipline (Some c) st jn rd wt →
  discipline None (at_ c (Some (SWaitSem a)) st) jn rd (at_ a (wt a ++ [c]) wt).
Proof.
  intros [H1 H2 H3 H4 H5 H6 H7 H8 H9 H10].
  assert (Hc : st c = Some SRunning) by by apply H2.
  constructor; try done.
  - at_tac H1.
  - at_tac H2.
  - at_tac H3.
  - at_tac H4.
  - intros u b. unfold at_. repeat case_decide; subst.
    + set_solver.
    + rewrite <- H5. naive_solver.
    + rewrite elem_of_app, list_elem_of_singleton, <- H5. naive_solver.
    + apply H5.
  - intros b. unfold at_. case_decide; [|apply H8]. subst.
    apply NoDup_snoc; [apply H8|]. rewrite <- H5. naive_solver.
  - at_tac H9.
  - at_tac H10.
Qed.

(** A thread appears at the end of the ready queue; one that finished goes. *)
Lemma discipline_create oc r : discipline oc st jn rd wt → st r = None → valid_tid r →
  discipline oc (at_ r (Some SReady) st) (at_ r [] jn) (rd ++ [r]) wt.
Proof.
  intros [H1 H2 H3 H4 H5 H6 H7 H8 H9 H10] Hr Hv.
  assert (Hj : ∀ d, at_ r [] jn d = jn d).
  { intros d. unfold at_. case_decide; [|done]. subst. symmetry. by apply H10. }
  eapply (discipline_ext _ _ _ jn); [done|intros; symmetry; apply Hj|done|].
  constructor; try done.
  - at_tac H1.
  - intros u. rewrite <- H2. at_tac H2.
  - intros u. rewrite elem_of_app, list_elem_of_singleton. specialize (H3 u). at_tac H2.
  - at_tac H4.
  - at_tac H5.
  - apply NoDup_snoc; [done|]. rewrite <- H3. naive_solver.
  - at_tac H9.
  - at_tac H10.
Qed.

Lemma discipline_reap oc d v : discipline oc st jn rd wt → st d = Some (SFinished v) →
  discipline oc (at_ d None st) jn rd wt.
Proof.
  intros [H1 H2 H3 H4 H5 H6 H7 H8 H9 H10] Hd.
  assert (Hj : jn d = []) by by eapply H9.
  constructor; try done.
  - at_tac H1.
  - intros u. rewrite <- H2. at_tac H2.
  - at_tac H3.
  - at_tac H4.
  - at_tac H5.
  - at_tac H9.
  - at_tac H10.
Qed.
End discipline.

Lemma stat_upd g t s t' :
  stat (upd_thread g t s) t' =
  if decide (t' = t) then (λ x, at_status (g x)) <$> sp_threads s !! t else stat s t'.
Proof.
  unfold stat, upd_thread. cbn. rewrite lookup_alter. destruct (decide (t' = t)) as [->|Hne].
  - rewrite decide_True by done. by destruct (sp_threads s !! t).
  - by rewrite decide_False by congruence.
Qed.
Lemma joiners_upd g t s t' :
  joiners (upd_thread g t s) t' =
  if decide (t' = t) then from_option (λ x, at_joiners (g x)) [] (sp_threads s !! t)
  else joiners s t'.
Proof.
  unfold joiners, upd_thread. cbn. rewrite lookup_alter. destruct (decide (t' = t)) as [->|Hne].
  - rewrite decide_True by done. by destruct (sp_threads s !! t).
  - by rewrite decide_False by congruence.
Qed.

(** ** The calls keep the discipline *)
Lemma stat_lookup s t x : sp_threads s !! t = Some x → stat s t = Some (at_status x).
Proof. unfold stat. by intros ->. Qed.
Lemma joiners_lookup s t x : sp_threads s !! t = Some x → joiners s t = at_joiners x.
Proof. unfold joiners. by intros ->. Qed.

(** A change that keeps the status and the joiners. *)
Lemma disciplined_upd oc g t s :
  (∀ x, at_status (g x) = at_status x ∧ at_joiners (g x) = at_joiners x) →
  disciplined oc s → disciplined oc (upd_thread g t s).
Proof.
  intros Hg. apply discipline_ext; [..|done]; intros t'.
  - rewrite stat_upd. case_decide as Ht; [|done]. rewrite Ht. unfold stat.
    destruct (sp_threads s !! t); cbn; [|done]. f_equal. symmetry. apply Hg.
  - rewrite joiners_upd. case_decide as Ht; [|done]. rewrite Ht. unfold joiners.
    destruct (sp_threads s !! t); cbn; [|done]. symmetry. apply Hg.
Qed.

Lemma go_disciplined p s : swf s → swf (go p s).
Proof. by apply (disciplined_upd _ (set_at_cont (ARun p))). Qed.

(** A change of one thread's status. *)
Lemma stat_status g st t s t' : is_Some (sp_threads s !! t) → (∀ x, at_status (g x) = st) →
  stat (upd_thread g t s) t' = at_ t (Some st) (stat s) t'.
Proof.
  intros [x Hx] Hg. rewrite stat_upd. unfold at_. case_decide; [|done]. rewrite Hx. cbn. by rewrite Hg.
Qed.
Lemma joiners_status g t s t' : (∀ x, at_joiners (g x) = at_joiners x) →
  joiners (upd_thread g t s) t' = joiners s t'.
Proof.
  intros Hg. rewrite joiners_upd. case_decide as Ht; [|done]. rewrite Ht. unfold joiners.
  destruct (sp_threads s !! t); cbn; [apply Hg|done].
Qed.
Lemma is_Some_upd g t s t' :
  is_Some (sp_threads (upd_thread g t s) !! t') ↔ is_Some (sp_threads s !! t').
Proof. cbn. rewrite lookup_alter. case_decide; [subst; by rewrite fmap_is_Some|done]. Qed.

Lemma switch_disciplined s s' : disciplined None s → switch s = Some s' → swf s'.
Proof.
  intros Hd. unfold switch. destruct (sp_ready s) as [|t q] eqn:Hq; [done|]. intros [= <-].
  assert (Ht : stat s t = Some SReady).
  { apply (wf_ready _ _ _ _ _ Hd). rewrite Hq. set_solver. }
  unfold disciplined in Hd. rewrite Hq in Hd.
  eapply discipline_ext; [| | |apply (discipline_run _ _ _ _ t Hd)]; [| |done]; intros t'.
  - symmetry. apply (stat_status _ SRunning); [|done]. unfold stat in Ht.
    destruct (sp_threads s !! t); [by eexists|done].
  - symmetry. by apply (joiners_status (set_at_status SRunning)).
Qed.

Lemma swf_cur s : swf s → ∃ x, sp_threads s !! sp_cur s = Some x ∧ at_status x = SRunning.
Proof.
  intros Hw. pose proof (proj2 (wf_running _ _ _ _ _ Hw _) eq_refl) as H.
  unfold stat in H. destruct (sp_threads s !! sp_cur s) as [x|]; [|done].
  injection H as H. eauto.
Qed.

Lemma swf_is_Some s : swf s → is_Some (sp_threads s !! sp_cur s).
Proof. intros (x & -> & _)%swf_cur. by eexists. Qed.

Lemma stat_suspend st co s t : swf s →
  stat (suspend st co s) t = at_ (sp_cur s) (Some st) (stat s) t.
Proof. intros Hw. apply stat_status; [by apply swf_is_Some|done]. Qed.
Lemma joiners_suspend st co s t : joiners (suspend st co s) t = joiners s t.
Proof. by apply joiners_status. Qed.
Lemma stat_wake w s t : is_Some (sp_threads s !! w) →
  stat (wake w s) t = at_ w (Some SReady) (stat s) t.
Proof. intros Hw. by apply (stat_status (set_at_status SReady)). Qed.
Lemma joiners_wake w s t : joiners (wake w s) t = joiners s t.
Proof. by apply (joiners_status (set_at_status SReady)). Qed.
Lemma stat_is_Some s t st : stat s t = Some st → is_Some (sp_threads s !! t).
Proof. unfold stat. destruct (sp_threads s !! t); [by eexists|done]. Qed.
(** The joiners of one thread change. *)
Lemma stat_set_joiners js d s t : stat (upd_thread (set_at_joiners js) d s) t = stat s t.
Proof.
  rewrite stat_upd. case_decide as Ht; [|done]. rewrite Ht. unfold stat.
  by destruct (sp_threads s !! d).
Qed.
Lemma joiners_set_joiners js d s t : is_Some (sp_threads s !! d) →
  joiners (upd_thread (set_at_joiners js) d s) t = at_ d js (joiners s) t.
Proof.
  intros [x Hx]. rewrite joiners_upd. unfold at_. case_decide; [|done]. by rewrite Hx.
Qed.

(** Pointwise equations between the functions of two states. *)
Ltac disc H :=
  eapply discipline_ext; [| | |apply H]; [intros ?; symmetry|intros ?; symmetry|intros ?; symmetry].

Lemma yield_mid co s : swf s → disciplined None (wake (sp_cur s) (suspend SReady co s)).
Proof.
  intros Hw. disc (discipline_yield _ _ _ _ _ Hw).
  - rewrite stat_wake by by apply is_Some_upd, swf_is_Some.
    unfold at_. case_decide; [done|]. rewrite stat_suspend by done. unfold at_. by case_decide.
  - by rewrite joiners_wake, joiners_suspend.
  - done.
Qed.
Lemma s_yield_disciplined p s s' : swf s → s_yield p s = Some s' → swf s'.
Proof. intros Hw. apply switch_disciplined. by apply yield_mid. Qed.

Lemma exit_mid v x s : swf s → sp_threads s !! sp_cur s = Some x → disciplined None (exited v x s).
Proof.
  intros Hw Hx. unfold exited.
  pose proof (joiners_lookup _ _ _ Hx) as Hjn.
  destruct (at_joiners x) as [|j js].
  - disc (discipline_exit _ _ _ _ _ v Hw Hjn); [by apply stat_suspend|by apply joiners_suspend|done].
  - pose proof (wf_join_one _ _ _ _ _ Hw (sp_cur s)) as Hone. rewrite Hjn in Hone.
    destruct js; [|cbn in Hone; lia].
    assert (Hj : stat s j = Some (SWaitJoin (sp_cur s))).
    { apply (wf_join _ _ _ _ _ Hw). rewrite Hjn. set_solver. }
    pose proof (discipline_wake_joiner _ _ _ _ _ _ _ Hw Hjn) as H1.
    assert (H2 : at_ (sp_cur s) [] (joiners s) (sp_cur s) = []) by apply at_eq.
    disc (discipline_exit _ _ _ _ _ v H1 H2).
    + rewrite stat_wake by (eapply is_Some_upd, is_Some_upd, stat_is_Some, Hj).
      unfold at_. rewrite stat_set_joiners, stat_suspend by done. unfold at_.
      repeat case_decide; subst; try done.
      destruct (swf_cur s Hw) as (y & Hy & Hsty). rewrite (stat_lookup _ _ _ Hy) in Hj. congruence.
    + rewrite joiners_wake, joiners_set_joiners by by apply is_Some_upd, swf_is_Some.
      unfold at_. case_decide; [done|by rewrite joiners_suspend].
    + done.
Qed.

Lemma s_exit_disciplined v s s' : swf s → s_exit v s = Some s' → swf s'.
Proof.
  intros Hw. unfold s_exit. destruct (swf_cur s Hw) as (x & Hx & Hst). rewrite Hx. cbn.
  apply switch_disciplined. by apply exit_mid.
Qed.

Lemma least_free_Some s r : least_free s = Some r →
  sp_threads s !! r = None ∧ valid_tid r ∧ ∀ j, 0 ≤ j < r → is_Some (sp_threads s !! j).
Proof.
  unfold least_free. destruct (list_find _ _) as [[n t]|] eqn:Hf; [|done]. intros [= ->].
  apply list_find_Some in Hf as (Hl & Hn & Hmin).
  apply lookup_seqZ in Hl as [-> Hlt].
  assert (0 ≤ Z.of_nat n < UTHREAD_MAX_THREADS).
  { unfold UTHREAD_MAX_THREADS in *. lia. }
  split; [done|]. split; [done|]. intros j Hj.
  apply not_eq_None_Some. apply (Hmin (Z.to_nat j) j); [|lia].
  apply lookup_seqZ. lia.
Qed.

Lemma s_create_disciplined ptid f arg base kont s s' :
  swf s → s_create ptid f arg base kont s = Some s' → swf s'.
Proof.
  intros Hw Hc. assert (Hc' : ∃ r, least_free s = Some r ∧ s' = go (kont 0)
    (set_sp_ready (sp_ready s ++ [r])
      (set_sp_threads (<[r := AThread SReady [] (AStart f arg)]> (sp_threads s))
        (set_sp_vars (<[ptid := r]> (sp_vars s)) s)))).
  { unfold s_create in Hc. destruct base; [|done|];
      destruct (least_free s); try done; injection Hc as <-; eauto. }
  destruct Hc' as (r & Hr & ->). apply least_free_Some in Hr as (Hn & Hv & _).
  apply go_disciplined.
  assert (Hnone : stat s r = None) by (unfold stat; by rewrite Hn).
  disc (discipline_create _ _ _ _ _ _ Hw Hnone Hv); [| |done].
  - unfold stat, at_. cbn. rewrite lookup_insert. by repeat case_decide.
  - unfold joiners, at_. cbn. rewrite lookup_insert. by repeat case_decide.
Qed.

Lemma finished_dec st : {v | st = SFinished v} + {∀ v, st ≠ SFinished v}.
Proof. destruct st; [by right..|left; eauto]. Qed.

Lemma s_join_done_disciplined d pret kont s s' :
  swf s → s_join_done d pret kont s = Some s' → swf s'.
Proof.
  intros Hw. unfold s_join_done. destruct (sp_threads s !! d) as [x|] eqn:Hx; [|done].
  cbn. destruct (at_status x) as [| | | |v] eqn:Hst; try done. intros [= <-].
  apply go_disciplined.
  assert (Hs : stat s d = Some (SFinished v)) by (unfold stat; rewrite Hx; cbn; by rewrite Hst).
  disc (discipline_reap _ _ _ _ _ _ _ Hw Hs); [| |done].
  - unfold stat, at_. cbn. rewrite lookup_delete. by repeat case_decide.
  - unfold joiners at 1. cbn. rewrite lookup_delete. case_decide as Hd; [|done]. cbn.
    rewrite <- Hd. symmetry. by eapply (wf_finished _ _ _ _ _ Hw).
Qed.

(** The running thread joins a thread [x] that has not finished. *)
Definition join_waits (d : Z) (pret : option Z) (kont : Z → uprog Z) (s : spec) : spec :=
  upd_thread (set_at_joiners [sp_cur s]) d (suspend (SWaitJoin d) (AJoin d pret kont) s).

Lemma join_mid d pret kont x s : swf s → d ≠ sp_cur s → sp_threads s !! d = Some x →
  at_joiners x = [] → (∀ v, at_status x ≠ SFinished v) →
  disciplined None (join_waits d pret kont s).
Proof.
  intros Hw Hd Hx Hj Hnf. unfold join_waits.
  assert (H1 : is_Some (stat s d)) by (rewrite (stat_lookup _ _ _ Hx); by eexists).
  assert (H2 : joiners s d = []) by by rewrite (joiners_lookup _ _ _ Hx).
  assert (H3 : ∀ v, stat s d ≠ Some (SFinished v)).
  { intros v Hv. rewrite (stat_lookup _ _ _ Hx) in Hv. injection Hv. apply Hnf. }
  pose proof (discipline_join _ _ _ _ _ _ Hw H2 Hd H1 H3) as H4.
  disc H4; [| |done].
  - rewrite stat_set_joiners. by apply stat_suspend.
  - rewrite joiners_set_joiners by (apply is_Some_upd; by eexists). unfold at_.
    case_decide; [done|]. by apply joiners_suspend.
Qed.

(** The two ways a join goes on. *)
Lemma s_join_inv d pret kont s s' : swf s → s_join d pret kont s = Some s' →
  d ≠ sp_cur s ∧ ∃ x, sp_threads s !! d = Some x ∧
  ((∃ v, at_status x = SFinished v ∧ s_join_done d pret kont s = Some s') ∨
   ((∀ v, at_status x ≠ SFinished v) ∧ at_joiners x = [] ∧ joiners s (sp_cur s) = [] ∧
    switch (join_waits d pret kont s) = Some s')).
Proof.
  intros Hw. unfold s_join. case_decide as Hd; [done|].
  destruct (sp_threads s !! d) as [x|] eqn:Hx; [|done]. cbn.
  destruct (swf_cur s Hw) as (me & Hme & Hst). rewrite Hme. cbn.
  rewrite (joiners_lookup _ _ _ Hme).
  destruct (finished_dec (at_status x)) as [[v Hv]|Hnf].
  { rewrite Hv. intros Hs. split; [done|]. exists x. eauto. }
  intros Hs. split; [done|]. exists x. split; [done|]. right. split; [done|].
  destruct (at_joiners me), (at_joiners x), (at_status x) eqn:Hx'; try done;
    by destruct (Hnf v).
Qed.

Lemma s_join_disciplined d pret kont s s' : swf s → s_join d pret kont s = Some s' → swf s'.
Proof.
  intros Hw Hs. apply s_join_inv in Hs as (Hd & x & Hx & [(v & Hv & Hs)|(Hnf & Hj & _ & Hs)]); [..|done].
  - revert Hs. by apply s_join_done_disciplined.
  - revert Hs. apply switch_disciplined. by eapply join_mid.
Qed.

(** The semaphores' queues, when only the threads change. *)
Lemma s_sem_init_disciplined a n kont s s' :
  swf s → s_sem_init a n kont s = Some s' → swf s'.
Proof.
  intros Hw. unfold s_sem_init. intros Hs.
  assert (waiters s a = [] ∧
    s' = go (kont 0) (set_sp_sems (<[a := (n, [])]> (sp_sems s)) s)) as (Hwt & ->).
  { unfold waiters. destruct (sp_sems s !! a) as [[c [|w ws]]|]; by simplify_eq. }
  apply go_disciplined. eapply discipline_ext; [done|done| |exact Hw]. intros b.
  unfold waiters at 2. cbn. rewrite lookup_insert. case_decide as Hb; [|done]. by subst.
Qed.

Lemma waiters_insert s a n ws b :
  waiters (set_sp_sems (<[a := (n, ws)]> (sp_sems s)) s) b = at_ a ws (waiters s) b.
Proof.
  unfold waiters, at_. cbn. rewrite lookup_insert. by repeat case_decide.
Qed.

Lemma s_sem_post_disciplined a kont s s' : swf s → s_sem_post a kont s = Some s' → swf s'.
Proof.
  intros Hw. unfold s_sem_post. destruct (sp_sems s !! a) as [[n ws]|] eqn:Ha; [|done]. cbn.
  case_decide; [|done].
  assert (Hwt : waiters s a = ws) by (unfold waiters; by rewrite Ha).
  destruct ws as [|w ws]; intros [= <-]; apply go_disciplined.
  - eapply discipline_ext; [done|done| |exact Hw]. intros b. rewrite waiters_insert.
    unfold at_. by case_decide; subst.
  - assert (Hsw : stat s w = Some (SWaitSem a)).
    { apply (wf_sem _ _ _ _ _ Hw). rewrite Hwt. set_solver. }
    disc (discipline_wake_waiter _ _ _ _ _ _ _ _ Hw Hwt).
    + rewrite stat_wake by (eapply stat_is_Some, Hsw). done.
    + by rewrite joiners_wake.
    + apply (waiters_insert s).
Qed.

Definition sem_waits (a : Z) (ws : list Z) (kont : Z → uprog Z) (s : spec) : spec :=
  set_sp_sems (<[a := (0, ws ++ [sp_cur s])]> (sp_sems s))
    (suspend (SWaitSem a) (ASem a kont) s).

Lemma sem_wait_mid a kont s : swf s → disciplined None (sem_waits a (waiters s a) kont s).
Proof.
  intros Hw. unfold sem_waits. disc (discipline_sem_wait _ _ _ _ _ a Hw).
  - by apply (stat_suspend (SWaitSem a)).
  - by apply (joiners_suspend (SWaitSem a)).
  - apply (waiters_insert s).
Qed.

Lemma s_sem_wait_disciplined a kont s s' : swf s → s_sem_wait a kont s = Some s' → swf s'.
Proof.
  intros Hw. unfold s_sem_wait. destruct (sp_sems s !! a) as [[n ws]|] eqn:Ha; [|done]. cbn.
  assert (Hwt : waiters s a = ws) by (unfold waiters; by rewrite Ha).
  case_decide; [|case_decide; [|done]].
  - intros [= <-]. apply go_disciplined. eapply discipline_ext; [done|done| |exact Hw]. intros b.
    rewrite waiters_insert. unfold at_. by case_decide; subst.
  - apply switch_disciplined. rewrite <- Hwt. by apply sem_wait_mid.
Qed.

Lemma s_sem_destroy_disciplined a kont s s' : swf s → s_sem_destroy a kont s = Some s' → swf s'.
Proof.
  intros Hw. unfold s_sem_destroy. destruct (sp_sems s !! a) as [[n ws]|] eqn:Ha; [|done]. cbn.
  destruct ws; [|done]. intros [= <-]. apply go_disciplined.
  eapply discipline_ext; [done|done| |exact Hw]. intros b. unfold waiters. cbn.
  rewrite lookup_delete. case_decide; [|done]. subst. by rewrite Ha.
Qed.

(** Every step keeps the discipline. *)
Lemma sstep_disciplined cl s s' : swf s → sstep cl s = Some s' → swf s'.
Proof.
  intros Hw. unfold sstep. destruct (swf_cur s Hw) as (x & Hx & Hst). rewrite Hx. cbn.
  destruct (at_cont x) as [f arg|p|d pret kont|a kont].
  - intros [= <-]. by apply go_disciplined.
  - destruct p as [v|B c kont].
    { done. }
    destruct c; cbn; try done.
    + by apply s_create_disciplined.
    + by apply s_exit_disciplined.
    + by apply s_join_disciplined.
    + intros [= <-]. by apply go_disciplined.
    + by apply s_yield_disciplined.
    + by apply s_sem_init_disciplined.
    + by apply s_sem_post_disciplined.
    + by apply s_sem_wait_disciplined.
    + by apply s_sem_destroy_disciplined.
    + intros [= <-]. by apply go_disciplined.
    + intros [= <-]. by apply go_disciplined.
    + intros [= <-]. by apply go_disciplined.
    + case_decide; [|done]. intros [= <-]. by apply go_disciplined.
    + case_decide; [|done]. intros [= <-]. by apply go_disciplined.
    + case_decide; [|done]. intros [= <-]. by apply go_disciplined.
    + intros [= <-]. by apply go_disciplined.
  - by apply s_join_done_disciplined.
  - by apply s_sem_wait_disciplined.
Qed.
