(* ===== verification/SpecProps.v ===== *)
(** * Fairness and wake-ups of the abstract scheduler

    Two facts about every step of the abstract scheduler: no thread overtakes
    another one in the ready queue, and a semaphore with a positive counter and a
    waiting thread always has a woken thread on its way to take it. *)
From S2P Require Import Prelude Bitvec Machine Client Spec.

(** ** First come, first served *)

(** [t] is at position [length q1] of the ready queue; a step leaves it there, or
    takes the head of the queue. *)
Definition fcfs (s s' : spec) : Prop := ∀ q1 t q2, sp_ready s = q1 ++ t :: q2 →
  (∃ q2', sp_ready s' = q1 ++ t :: q2') ∨
  (q1 = [] ∧ sp_cur s' = t) ∨
  (∃ n q1' q2', q1 = n :: q1' ∧ sp_cur s' = n ∧ sp_ready s' = q1' ++ t :: q2').

Lemma fcfs_append s s' l : sp_ready s' = sp_ready s ++ l → fcfs s s'.
Proof. intros Hr q1 t q2 Hq. left. exists (q2 ++ l). rewrite Hr, Hq. by rewrite <- app_assoc. Qed.
Lemma fcfs_same s s' : sp_ready s' = sp_ready s → fcfs s s'.
Proof. intros Hr. apply (fcfs_append _ _ []). by rewrite app_nil_r. Qed.

Lemma fcfs_switch s s1 s' l : sp_ready s1 = sp_ready s ++ l → switch s1 = Some s' → fcfs s s'.
Proof.
  intros Hr Hs q1 t q2 Hq. unfold switch in Hs. rewrite Hr, Hq in Hs.
  destruct q1 as [|n q1]; cbn in Hs; injection Hs as <-; cbn.
  - by right; left.
  - right. right. exists n, q1, (q2 ++ l). by rewrite <- app_assoc.
Qed.

Lemma sstep_fcfs cl s s' : swf s → sstep cl s = Some s' → fcfs s s'.
Proof.
  intros Hw. unfold sstep. destruct (swf_cur s Hw) as (x & Hx & Hst). rewrite Hx. cbn.
  assert (Hjoin : ∀ d pret kont, s_join_done d pret kont s = Some s' → fcfs s s').
  { intros d pret kont. unfold s_join_done. destruct (sp_threads s !! d) as [y|]; [|done]. cbn.
    destruct (at_status y); try done. intros [= <-]. by apply fcfs_same. }
  assert (Hwait : ∀ a kont, s_sem_wait a kont s = Some s' → fcfs s s').
  { intros a kont. unfold s_sem_wait. destruct (sp_sems s !! a) as [[n ws]|]; [|done]. cbn.
    case_decide; [intros [= <-]; by apply fcfs_same|]. case_decide; [|done].
    apply (fcfs_switch _ _ _ []). cbn. by rewrite app_nil_r. }
  destruct (at_cont x) as [f arg|[v|B c kont]|d pret kont|a kont];
    [intros [= <-]; by apply fcfs_same|done| |by apply Hjoin|by apply Hwait].
  destruct c; cbn; try done;
    try (intros [= <-]; by apply fcfs_same);
    try (case_decide; [|done]; intros [= <-]; by apply fcfs_same).
  - unfold s_create. destruct stack_base; [|done|]; (destruct (least_free s) as [r|]; [|done]);
      intros [= <-]; by apply (fcfs_append _ _ [r]).
  - unfold s_exit. rewrite Hx. cbn. unfold exited. destruct (at_joiners x) as [|j js].
    + apply (fcfs_switch _ _ _ []). cbn. by rewrite app_nil_r.
    + by apply (fcfs_switch _ _ _ [j]).
  - intros Hs. apply s_join_inv in Hs as (_ & y & _ & [(v & _ & Hs)|(_ & _ & _ & Hs)]); [| |done].
    + by eapply Hjoin.
    + revert Hs. apply (fcfs_switch _ _ _ []). cbn. by rewrite app_nil_r.
  - by apply (fcfs_switch _ _ _ [sp_cur s]).
  - unfold s_sem_init. destruct (sp_sems s !! sem) as [[? [|??]]|]; try done;
      intros [= <-]; by apply fcfs_same.
  - unfold s_sem_post. destruct (sp_sems s !! sem) as [[n ws]|]; [|done]. cbn.
    case_decide; [|done]. destruct ws as [|w ws]; intros [= <-].
    + by apply fcfs_same.
    + by apply (fcfs_append _ _ [w]).
  - apply Hwait.
  - unfold s_sem_destroy. destruct (sp_sems s !! sem) as [[n [|??]]|]; try done.
    intros [= <-]. by apply fcfs_same.
Qed.

(** ** No wake-up is lost *)

Definition cont_of (s : spec) (t : Z) : option acont := at_cont <$> sp_threads s !! t.
Definition retries (a : Z) (o : option acont) : bool :=
  match o with Some (ASem b _) => bool_decide (b = a) | _ => false end.

(** The threads that run or are ready, and will try to take semaphore [a]. *)
Definition retrying (a : Z) (s : spec) : list Z :=
  filter (λ t, retries a (cont_of s t) = true) (sp_cur s :: sp_ready s).

(** A thread in a semaphore's queue tries again when it is woken. *)
Definition waits_ok (x : athread) : Prop :=
  ∀ a, at_status x = SWaitSem a → ∃ kont, at_cont x = ASem a kont.

Record wakeups (s : spec) : Prop := {
  wk_waits : ∀ t x, sp_threads s !! t = Some x → waits_ok x;
  wk_count : ∀ a n ws, sp_sems s !! a = Some (n, ws) → ws ≠ [] →
    n ≤ Z.of_nat (length (retrying a s));
}.

Lemma elem_retrying a s t :
  t ∈ retrying a s ↔ retries a (cont_of s t) = true ∧ (t = sp_cur s ∨ t ∈ sp_ready s).
Proof. unfold retrying. by rewrite list_elem_of_filter, elem_of_cons. Qed.

Lemma swf_cur_ready s : swf s → sp_cur s ∉ sp_ready s.
Proof.
  intros Hw Hin. apply (wf_ready _ _ _ _ _ Hw) in Hin.
  pose proof (proj2 (wf_running _ _ _ _ _ Hw _) eq_refl). congruence.
Qed.
Lemma retrying_nodup a s : swf s → NoDup (retrying a s).
Proof.
  intros Hw. apply NoDup_filter, NoDup_cons. split; [by apply swf_cur_ready|].
  apply (wf_ready_nodup _ _ _ _ _ Hw).
Qed.
Lemma retrying_le a s s' : swf s → (∀ t, t ∈ retrying a s → t ∈ retrying a s') →
  (length (retrying a s) ≤ length (retrying a s'))%nat.
Proof. intros Hw Hs. apply submseteq_length, NoDup_submseteq; [by apply retrying_nodup|done]. Qed.

(** A step that moves no counter above 0 and loses no retrying thread. *)
Lemma wakeups_keep s s' : swf s → wakeups s →
  (∀ t x, sp_threads s' !! t = Some x → waits_ok x) →
  (∀ a n ws, sp_sems s' !! a = Some (n, ws) → ws ≠ [] → 0 < n →
    (∃ ws0, sp_sems s !! a = Some (n, ws0) ∧ ws0 ≠ []) ∧
    ∀ t, t ∈ retrying a s → t ∈ retrying a s') → wakeups s'.
Proof.
  intros Hw [_ Hc] H1 H2. constructor; [done|]. intros a n ws Ha Hws.
  destruct (decide (0 < n)) as [Hn|]; [|lia].
  destruct (H2 a n ws Ha Hws Hn) as [(ws0 & Ha0 & Hws0) Hsub].
  specialize (Hc a n ws0 Ha0 Hws0). pose proof (retrying_le a s s' Hw Hsub). lia.
Qed.

(** Updates of one thread. *)
Lemma waits_upd g t s : (∀ t x, sp_threads s !! t = Some x → waits_ok x) →
  (∀ x, sp_threads s !! t = Some x → waits_ok x → waits_ok (g x)) →
  ∀ t' x, sp_threads (upd_thread g t s) !! t' = Some x → waits_ok x.
Proof.
  intros Hs Hg t' x. cbn. rewrite lookup_alter. case_decide as Ht; [|apply Hs]. subst.
  intros (y & Hy & ->)%fmap_Some. apply Hg; [done|by eapply Hs].
Qed.
Lemma cont_upd g t s t' :
  cont_of (upd_thread g t s) t' =
  if decide (t' = t) then (λ x, at_cont (g x)) <$> sp_threads s !! t else cont_of s t'.
Proof.
  unfold cont_of, upd_thread. cbn. rewrite lookup_alter.
  destruct (decide (t' = t)) as [->|Hne].
  - rewrite decide_True by done. by destruct (sp_threads s !! t).
  - by rewrite decide_False by congruence.
Qed.
Lemma cont_same g t s t' : (∀ x, at_cont (g x) = at_cont x) →
  cont_of (upd_thread g t s) t' = cont_of s t'.
Proof.
  intros Hg. rewrite cont_upd. case_decide; [|done]. subst. unfold cont_of.
  destruct (sp_threads s !! t); cbn; [by rewrite Hg|done].
Qed.

Lemma waits_status st co x : (∀ a, st ≠ SWaitSem a) → waits_ok (AThread st (at_joiners x) co).
Proof. intros H a Ha. by destruct (H a). Qed.

(** The head of the ready queue runs: the threads that retry are those of the
    queue. *)
Lemma switch_spec s s' : switch s = Some s' →
  (∀ t, cont_of s' t = cont_of s t) ∧ sp_sems s' = sp_sems s ∧
  (∀ t, t = sp_cur s' ∨ t ∈ sp_ready s' ↔ t ∈ sp_ready s) ∧
  ((∀ t x, sp_threads s !! t = Some x → waits_ok x) →
   ∀ t x, sp_threads s' !! t = Some x → waits_ok x).
Proof.
  unfold switch. destruct (sp_ready s) as [|h q]; [done|]. intros [= <-].
  split; [intros t; by apply (cont_same (set_at_status SRunning))|]. split; [done|].
  split; [intros t; by rewrite elem_of_cons|].
  intros Hs. apply (waits_upd (set_at_status SRunning)); [done|]. intros x _ _. by apply waits_status.
Qed.

(** The running thread goes on with [p]. *)
Lemma waits_go p s : stat s (sp_cur s) = Some SRunning →
  (∀ t x, sp_threads s !! t = Some x → waits_ok x) →
  ∀ t x, sp_threads (go p s) !! t = Some x → waits_ok x.
Proof.
  intros Hw Hs. apply waits_upd; [done|]. intros x Hx _.
  rewrite (stat_lookup _ _ _ Hx) in Hw. injection Hw as Hst.
  apply waits_status. intros a. by rewrite Hst.
Qed.
Lemma cont_go p s t : t ≠ sp_cur s → cont_of (go p s) t = cont_of s t.
Proof. intros Ht. unfold go. rewrite cont_upd. by rewrite decide_False. Qed.

(** What a step may do, before the running thread goes on or gives way: the ready
    threads stay ready and keep what they do next; a semaphore somebody waits for
    keeps its counter, unless that is 0. *)
Record gentle (s s1 : spec) : Prop := {
  gt_waits : ∀ t x, sp_threads s1 !! t = Some x → waits_ok x;
  gt_ready : ∀ t, t ∈ sp_ready s → t ∈ sp_ready s1 ∧ cont_of s1 t = cont_of s t;
  gt_sems : ∀ b n ws, sp_sems s1 !! b = Some (n, ws) → ws ≠ [] → 0 < n →
    (∃ ws0, sp_sems s !! b = Some (n, ws0) ∧ ws0 ≠ []) ∧ retries b (cont_of s (sp_cur s)) = false;
}.

Lemma gentle_retrying s s1 b t : retries b (cont_of s (sp_cur s)) = false →
  gentle s s1 → t ∈ retrying b s → t ∈ sp_ready s ∧ t ∈ sp_ready s1 ∧ retries b (cont_of s1 t) = true.
Proof.
  intros Hb Hg [Hr [->|Ht]]%elem_retrying; [congruence|].
  destruct (gt_ready _ _ Hg t Ht) as [Ht1 ->]. done.
Qed.

Lemma wakeups_go p s s1 : swf s → wakeups s → gentle s s1 → sp_cur s1 = sp_cur s →
  stat s1 (sp_cur s) = Some SRunning → wakeups (go p s1).
Proof.
  intros Hw Hk Hg Hc Hst. apply (wakeups_keep s); [done|done| |].
  - apply waits_go; [by rewrite Hc|apply Hg].
  - intros b n ws Hb Hws Hn. destruct (gt_sems _ _ Hg b n ws Hb Hws Hn) as [Hex Hr].
    split; [done|]. intros t Ht.
    destruct (gentle_retrying s s1 b t Hr Hg Ht) as (Ht0 & Ht1 & Hr1).
    apply elem_retrying. split; [|by right]. rewrite cont_go; [done|].
    rewrite Hc. intros ->. by apply (swf_cur_ready s).
Qed.

Lemma wakeups_switch s s1 s' : swf s → wakeups s → gentle s s1 → switch s1 = Some s' → wakeups s'.
Proof.
  intros Hw Hk Hg Hs. destruct (switch_spec s1 s' Hs) as (Hc & Hsem & Hr & Hwt).
  apply (wakeups_keep s); [done|done|apply Hwt, Hg|].
  intros b n ws Hb Hws Hn. rewrite Hsem in Hb.
  destruct (gt_sems _ _ Hg b n ws Hb Hws Hn) as [Hex Hrt]. split; [done|]. intros t Ht.
  destruct (gentle_retrying s s1 b t Hrt Hg Ht) as (_ & Ht1 & Hr1).
  apply elem_retrying. rewrite Hc. split; [done|by apply Hr].
Qed.

(** Changes of the running thread and of what the semaphores do not see. *)
Lemma gentle_refl s : wakeups s → (∀ b, retries b (cont_of s (sp_cur s)) = false) → gentle s s.
Proof. intros [Hw _] Hb. constructor; [done|done|]. intros b n ws Hbs Hws _. eauto. Qed.

Lemma gentle_upd g t s s1 : gentle s s1 → t ∉ sp_ready s →
  (∀ x, sp_threads s1 !! t = Some x → waits_ok x → waits_ok (g x)) →
  gentle s (upd_thread g t s1).
Proof.
  intros [Hw Hr Hs] Ht Hg. constructor; [by apply waits_upd| |done].
  intros u Hu. destruct (Hr u Hu) as [Hu1 Hc]. split; [done|].
  rewrite cont_upd. case_decide; [by subst|done].
Qed.

Lemma gentle_joiners js t s s1 : gentle s s1 → gentle s (upd_thread (set_at_joiners js) t s1).
Proof.
  intros [Hw Hr Hs]. constructor; [by apply waits_upd| |done].
  intros u Hu. destruct (Hr u Hu) as [Hu1 Hc]. split; [done|].
  by rewrite (cont_same (set_at_joiners js)).
Qed.

Lemma gentle_wake t s s1 : gentle s s1 → gentle s (wake t s1).
Proof.
  intros [Hw Hr Hs]. constructor.
  - apply (waits_upd (set_at_status SReady)); [done|]. intros x _ _. by apply waits_status.
  - intros u Hu. destruct (Hr u Hu) as [Hu1 Hc]. split; [cbn; set_solver|].
    rewrite <- Hc. by apply (cont_same (set_at_status SReady)).
  - done.
Qed.

Lemma gentle_suspend st co s s1 : gentle s s1 → sp_cur s1 = sp_cur s → swf s →
  waits_ok (AThread st [] co) → gentle s (suspend st co s1).
Proof.
  intros Hg Hc Hw Hco. apply gentle_upd; [done|rewrite Hc; by apply swf_cur_ready|].
  intros x _ _ a Ha. apply Hco. done.
Qed.

Lemma stat_cur s : swf s → stat s (sp_cur s) = Some SRunning.
Proof. intros Hw. by apply (wf_running _ _ _ _ _ Hw). Qed.

Lemma waiting_not_ready s t st : swf s → stat s t = Some st → st ≠ SReady → t ∉ sp_ready s.
Proof. intros Hw Hst Hne Ht. apply (wf_ready _ _ _ _ _ Hw) in Ht. congruence. Qed.

(** Taking the semaphore lowers the counter by one and the retrying threads by one
    at most. *)
Lemma wakeups_take a n ws p s : swf s → wakeups s →
  (∀ b, retries b (cont_of s (sp_cur s)) = true → b = a) → sp_sems s !! a = Some (n, ws) →
  wakeups (go p (set_sp_sems (<[a := (n - 1, ws)]> (sp_sems s)) s)).
Proof.
  intros Hw [Hwt Hc] Hb Ha. set (s' := go p _).
  assert (Hkeep : ∀ b t, t ≠ sp_cur s → t ∈ retrying b s → t ∈ retrying b s').
  { intros b t Ht [Hr Hin]%elem_retrying. apply elem_retrying. split; [|done].
    unfold s'. by rewrite cont_go. }
  constructor; [apply waits_go; [by apply (stat_cur s)|done]|].
  intros b n' ws'. change (sp_sems s') with (<[a := (n - 1, ws)]> (sp_sems s)).
  rewrite lookup_insert. case_decide as Hba.
  - intros [= <- <-] Hws. subst b. specialize (Hc a n ws Ha Hws).
    assert ((length (retrying a s) ≤ length (sp_cur s :: retrying a s'))%nat); [|cbn in *; lia].
    apply submseteq_length, NoDup_submseteq; [by apply retrying_nodup|].
    intros t Ht. rewrite elem_of_cons. destruct (decide (t = sp_cur s)); [by left|right; by apply Hkeep].
  - intros Hs Hws. specialize (Hc b n' ws' Hs Hws).
    assert ((length (retrying b s) ≤ length (retrying b s'))%nat); [|lia].
    apply retrying_le; [done|]. intros t Ht. apply Hkeep; [|done]. intros ->.
    apply elem_retrying in Ht as [Hr _]. by apply Hba, eq_sym, Hb.
Qed.

(** Posting raises the counter by one and wakes one waiter. *)
Lemma wakeups_post a n w ws p s : swf s → wakeups s →
  (∀ b, retries b (cont_of s (sp_cur s)) = false) → sp_sems s !! a = Some (n, w :: ws) →
  wakeups (go p (wake w (set_sp_sems (<[a := (n + 1, ws)]> (sp_sems s)) s))).
Proof.
  intros Hw [Hwt Hc] Hb Ha. set (s' := go p _).
  assert (Hsw : stat s w = Some (SWaitSem a)).
  { apply (wf_sem _ _ _ _ _ Hw). unfold waiters. rewrite Ha. set_solver. }
  assert (Hwr : w ∉ sp_ready s) by by eapply waiting_not_ready.
  assert (Hwc : w ≠ sp_cur s).
  { intros ->. rewrite (stat_cur s Hw) in Hsw. done. }
  assert (Hco : ∀ t, t ≠ sp_cur s → cont_of s' t = cont_of s t).
  { intros t Ht. unfold s'. rewrite cont_go by done.
    unfold wake. etrans; [by apply (cont_same (set_at_status SReady))|done]. }
  assert (Hkeep : ∀ b t, t ∈ retrying b s → t ∈ retrying b s').
  { intros b t [Hr [->|Hin]]%elem_retrying; [by rewrite Hb in Hr|].
    apply elem_retrying. rewrite Hco by (intros ->; by apply (swf_cur_ready s)).
    split; [done|]. right. cbn. set_solver. }
  constructor.
  - apply waits_go.
    + cbn. rewrite stat_wake by by eapply stat_is_Some. unfold at_. rewrite decide_False by congruence.
      by apply (stat_cur s).
    + apply (waits_upd (set_at_status SReady)); [done|]. intros x _ _. by apply waits_status.
  - intros b n' ws'. change (sp_sems s') with (<[a := (n + 1, ws)]> (sp_sems s)).
    rewrite lookup_insert. case_decide as Hba.
    + intros [= <- <-] Hws. subst b.
      assert (Hc' : n ≤ Z.of_nat (length (retrying a s))) by by apply (Hc a n (w :: ws)).
      assert ((length (w :: retrying a s) ≤ length (retrying a s'))%nat); [|cbn in *; lia].
      apply submseteq_length, NoDup_submseteq.
      * apply NoDup_cons. split; [|by apply retrying_nodup].
        intros [_ [?|?]]%elem_retrying; done.
      * intros t. rewrite elem_of_cons. intros [->|Ht]; [|by apply Hkeep].
        apply elem_retrying. rewrite Hco by done. split; [|right; cbn; set_solver].
        destruct (proj1 (fmap_Some _ _ _) Hsw) as (x & Hx & Hst).
        destruct (Hwt w x Hx a) as [kont Hk]; [done|]. unfold cont_of. rewrite Hx. cbn.
        rewrite Hk. cbn. by apply bool_decide_true.
    + intros Hs Hws. specialize (Hc b n' ws' Hs Hws). pose proof (retrying_le b s s' Hw (Hkeep b)). lia.
Qed.

(** One more thread, or one less. *)
Lemma gentle_insert r x s s1 : gentle s s1 → r ∉ sp_ready s → waits_ok x →
  gentle s (set_sp_threads (<[r := x]> (sp_threads s1)) s1).
Proof.
  intros [Hw Hr Hs] Hn Hx. constructor; [| |done].
  - intros t y. cbn. rewrite lookup_insert. case_decide; [by intros [= <-]|apply Hw].
  - intros u Hu. destruct (Hr u Hu) as [Hu1 Hc]. split; [done|]. rewrite <- Hc. unfold cont_of. cbn.
    rewrite lookup_insert_ne; [done|]. by intros ->.
Qed.
Lemma gentle_delete r s s1 : gentle s s1 → r ∉ sp_ready s →
  gentle s (set_sp_threads (delete r (sp_threads s1)) s1).
Proof.
  intros [Hw Hr Hs] Hn. constructor; [| |done].
  - intros t y. cbn. rewrite lookup_delete. case_decide; [done|apply Hw].
  - intros u Hu. destruct (Hr u Hu) as [Hu1 Hc]. split; [done|]. rewrite <- Hc. unfold cont_of. cbn.
    rewrite lookup_delete_ne; [done|]. by intros ->.
Qed.
Lemma gentle_ready l s s1 : gentle s s1 → gentle s (set_sp_ready (sp_ready s1 ++ l) s1).
Proof.
  intros [Hw Hr Hs]. constructor; [done| |done].
  intros u Hu. destruct (Hr u Hu) as [Hu1 Hc]. split; [cbn; set_solver|done].
Qed.
Lemma gentle_sem a n ws s s1 : gentle s s1 → ws = [] ∨ n = 0 →
  gentle s (set_sp_sems (<[a := (n, ws)]> (sp_sems s1)) s1).
Proof.
  intros [Hw Hr Hs] Hz. constructor; [done|done|]. intros b n' ws'. cbn. rewrite lookup_insert.
  case_decide; [|apply Hs]. intros [= <- <-] Hws Hn. destruct Hz; [done|lia].
Qed.

(** ** Every step keeps the wake-ups *)
Lemma wakeups_join_done d pret kont s s' : swf s → wakeups s →
  (∀ b, retries b (cont_of s (sp_cur s)) = false) → s_join_done d pret kont s = Some s' →
  wakeups s'.
Proof.
  intros Hw Hk Hb. unfold s_join_done. destruct (sp_threads s !! d) as [y|] eqn:Hd; [|done]. cbn.
  destruct (at_status y) as [| | | |v] eqn:Hst; try done. intros [= <-].
  assert (Hsd : stat s d = Some (SFinished v)) by by rewrite (stat_lookup _ _ _ Hd), Hst.
  assert (Hdc : d ≠ sp_cur s) by (intros ->; rewrite (stat_cur s Hw) in Hsd; done).
  apply (wakeups_go _ s); [done|done| |done|].
  - assert (Hg : gentle s (set_sp_threads (delete d (sp_threads s)) s)).
    { apply gentle_delete; [by apply gentle_refl|by eapply waiting_not_ready]. }
    destruct Hg. by constructor.
  - unfold stat. cbn. rewrite lookup_delete_ne by done. by apply (stat_cur s).
Qed.

Lemma wakeups_sem_wait a kont s s' : swf s → wakeups s →
  (∀ b, retries b (cont_of s (sp_cur s)) = true → b = a) → s_sem_wait a kont s = Some s' →
  wakeups s'.
Proof.
  intros Hw Hk Hb. unfold s_sem_wait. destruct (sp_sems s !! a) as [[n ws]|] eqn:Ha; [|done]. cbn.
  case_decide; [intros [= <-]; by apply wakeups_take|]. case_decide as Hn; [|done]. subst n.
  apply (wakeups_switch s); [done|done|]. constructor.
  - apply (waits_upd (λ x, set_at_status (SWaitSem a) (set_at_cont (ASem a kont) x))); [apply Hk|].
    intros x _ _ b [= <-]. by exists kont.
  - intros t Ht. split; [done|].
    etrans; [apply (cont_upd (λ x, set_at_status (SWaitSem a) (set_at_cont (ASem a kont) x)))|].
    rewrite decide_False; [done|]. intros ->. by apply (swf_cur_ready s).
  - intros b n' ws'. cbn. rewrite lookup_insert. case_decide as Hba; [intros [= <- _] _; lia|].
    intros Hs Hws Hn. split; [eauto|].
    destruct (retries b (cont_of s (sp_cur s))) eqn:E; [|done]. destruct Hba. symmetry. by apply Hb.
Qed.

Lemma wakeups_exit v x s s' : swf s → wakeups s →
  (∀ b, retries b (cont_of s (sp_cur s)) = false) → sp_threads s !! sp_cur s = Some x →
  switch (exited v x s) = Some s' → wakeups s'.
Proof.
  intros Hw Hk Hb Hx. apply (wakeups_switch s); [done|done|]. unfold exited.
  assert (Hg : gentle s (suspend (SFinished v) (at_cont x) s)).
  { apply gentle_suspend; [by apply gentle_refl|done|done|done]. }
  destruct (at_joiners x) as [|j js]; [done|]. by apply gentle_wake, gentle_joiners.
Qed.

(** A call of a running thread. *)
Lemma wakeups_call cl {B} (c : ucmd B) kont x s s' : swf s → wakeups s →
  (∀ b, retries b (cont_of s (sp_cur s)) = false) → sp_threads s !! sp_cur s = Some x →
  s_call cl c kont s = Some s' → wakeups s'.
Proof.
  intros Hw Hk Hb Hx. pose proof (gentle_refl s Hk Hb) as Hg. pose proof (stat_cur s Hw) as Hc.
  assert (Hgo : ∀ p vars mus, wakeups (go p (set_sp_vars vars (set_sp_mutexes mus s)))).
  { intros p vars mus. apply (wakeups_go _ s); [done|done| |done|done]. destruct Hg. by constructor. }
  assert (Hwait : ∀ a k', s_sem_wait a k' s = Some s' → wakeups s').
  { intros a k'. apply wakeups_sem_wait; [done|done|]. intros b. by rewrite Hb. }
  destruct c; cbn; try done;
    try (intros [= <-]; exact (Hgo _ (sp_vars s) (sp_mutexes s)));
    try (intros [= <-]; exact (Hgo _ _ (sp_mutexes s)));
    try (intros [= <-]; exact (Hgo _ (sp_vars s) _));
    try (case_decide; [|done]; intros [= <-]; exact (Hgo _ (sp_vars s) _)).
  - unfold s_create. destruct stack_base; [|done|]; (destruct (least_free s) as [r|] eqn:Hr; [|done]);
      intros [= <-]; apply least_free_Some in Hr as (Hn & _ & _).
    all: assert (Hrr : r ∉ sp_ready s) by
      (intros Hin; apply (wf_ready _ _ _ _ _ Hw) in Hin; unfold stat in Hin; by rewrite Hn in Hin).
    all: apply (wakeups_go _ s); [done|done| |done|].
    1, 3: apply (gentle_ready [r] s (set_sp_threads _ (set_sp_vars _ s))).
    1, 2: apply (gentle_insert r (AThread SReady [] (AStart start_func arg)) s
      (set_sp_vars (<[ptid := r]> (sp_vars s)) s)); [destruct Hg; by constructor|done|by intros ? ?].
    all: unfold stat; cbn; rewrite lookup_insert_ne; [done|]; intros ->; unfold stat in Hc;
      by rewrite Hn in Hc.
  - unfold s_exit. rewrite Hx. cbn. by apply wakeups_exit.
  - intros Hs. apply s_join_inv in Hs as (_ & y & _ & [(v & _ & Hs)|(_ & _ & _ & Hs)]); [| |done].
    + by eapply wakeups_join_done.
    + revert Hs. apply (wakeups_switch s); [done|done|]. unfold join_waits.
      by apply gentle_joiners, gentle_suspend.
  - apply (wakeups_switch s); [done|done|]. by apply gentle_wake, gentle_suspend.
  - unfold s_sem_init. intros Hs.
    assert (s' = go (kont 0) (set_sp_sems (<[sem := (value, [])]> (sp_sems s)) s)) as ->.
    { destruct (sp_sems s !! sem) as [[? [|??]]|]; by simplify_eq. }
    apply (wakeups_go _ s); [done|done| |done|done]. apply gentle_sem; [done|by left].
  - unfold s_sem_post. destruct (sp_sems s !! sem) as [[n ws]|] eqn:Ha; [|done]. cbn.
    case_decide; [|done]. destruct ws as [|w ws]; intros [= <-].
    + apply (wakeups_go _ s); [done|done| |done|done]. apply gentle_sem; [done|by left].
    + by apply wakeups_post.
  - apply Hwait.
  - unfold s_sem_destroy. destruct (sp_sems s !! sem) as [[n [|??]]|]; try done. intros [= <-].
    apply (wakeups_go _ s); [done|done| |done|done]. destruct Hg as [G1 G2 G3].
    constructor; [done|done|]. intros b n' ws'. cbn. rewrite lookup_delete. case_decide; [done|apply G3].
Qed.

Lemma sstep_wakeups cl s s' : swf s → wakeups s → sstep cl s = Some s' → wakeups s'.
Proof.
  intros Hw Hk. unfold sstep. destruct (swf_cur s Hw) as (x & Hx & Hst). rewrite Hx. cbn.
  assert (Hco : cont_of s (sp_cur s) = Some (at_cont x)) by (unfold cont_of; by rewrite Hx).
  destruct (at_cont x) as [f arg|[v|B c kont]|d pret kont|a kont].
  - intros [= <-]. apply (wakeups_go _ s); [done|done| |done|by apply stat_cur].
    apply gentle_refl; [done|]. by rewrite Hco.
  - done.
  - apply (wakeups_call cl c kont x s); [done|done|by rewrite Hco|done].
  - apply wakeups_join_done; [done|done|by rewrite Hco].
  - apply wakeups_sem_wait; [done|done|]. rewrite Hco. cbn. intros b Hb. symmetry.
    by apply bool_decide_eq_true in Hb.
Qed.

Lemma srun_wakeups cl n s : swf s → wakeups s → swf (srun cl n s) ∧ wakeups (srun cl n s).
Proof.
  revert s. induction n as [|n IH]; intros s Hw Hk; cbn; [done|].
  destruct (sstep cl s) as [s'|] eqn:Hs; [|done].
  apply IH; [by eapply sstep_disciplined|by eapply sstep_wakeups].
Qed.
