(* ===== verification/Owned.v ===== *)
(** * What the library has allocated

    With one kernel thread the memory of the library is accounted for: every block
    and stack that is allocated belongs to a thread in [tcbs], or to one of the two
    contexts [uthread_init] makes.  The invariant [owned] says so; it is part of the
    refinement, and what the teardown of the library relies on. *)
From S2P Require Import Prelude Bitvec Machine Kthread Uthread Client Eval UthreadEval Sched Api.

(** The block of thread [t]. *)
Definition addr (tcbs : list (option loc)) (t : Z) (p : loc) : Prop :=
  znth tcbs t = Some (Some p).

(** The block owns the malloc'ed stack at [l]. *)
Definition owns (c : tcb) (l : positive) : Prop :=
  t_stack_allocated c ≠ 0 ∧ ss_sp (t_ctx c) = SMalloc l.

Lemma addr_other tcbs d t p o : 0 ≤ d < Z.of_nat (length tcbs) → t ≠ d →
  addr tcbs t p → addr (<[Z.to_nat d := o]> tcbs) t p.
Proof. intros Hd Hne. unfold addr. rewrite znth_insert by done. by rewrite decide_False. Qed.

(** The malloc'ed stack a block owns. *)
Definition stack_of (c : tcb) : option positive :=
  if t_stack_allocated c =? 0 then None
  else match ss_sp (t_ctx c) with SMalloc l => Some l | _ => None end.
Lemma stack_of_owns c l : stack_of c = Some l ↔ owns c l.
Proof.
  unfold stack_of, owns. destruct (Z.eqb_spec (t_stack_allocated c) 0); [naive_solver|].
  destruct (ss_sp (t_ctx c)); naive_solver.
Qed.

(** What the library holds on one kernel thread: blocks of its threads, the stacks
    they own, the stacks [la] and [ls] of the contexts of abort and of the scheduler,
    and the scheduler's timer.  [f] says which blocks there are and what they own. *)
Record owned (used : gset Z) (m : machine) (f : gmap loc (option positive))
    (la ls : positive) (x : kinfo) : Prop := {
  ow_one : m_num_kthreads m = 1;
  ow_kinfo : m_kinfo m = {[0 := x]};
  ow_null : ∀ t p, addr (m_tcbs m) t p → t ∈ used;
  ow_heap : ∀ p, is_Some (f !! p) → p = exitall ∨ ∃ t, addr (m_tcbs m) t p;
  ow_static : ∀ o, f !! exitall = Some o → o = None;
  ow_abort : ss_sp (m_abort_ctx m) = SMalloc la;
  ow_sched : ss_sp (ki_ctx x) = SMalloc ls;
  ow_ne : la ≠ ls;
  ow_lib : ∀ p, f !! p ≠ Some (Some la) ∧ f !! p ≠ Some (Some ls);
  ow_stacks : ∀ l, is_Some (m_stacks m !! l) → l = la ∨ l = ls ∨
    ∃ t p, addr (m_tcbs m) t p ∧ f !! p = Some (Some l);
  ow_live : is_Some (m_stacks m !! la) ∧ is_Some (m_stacks m !! ls);
  ow_sems : is_Some (m_ksem m !! KInited) ∧ is_Some (m_ksem m !! KExitall);
  ow_timers : ∀ t, is_Some (m_timers m !! t) → m_quantum m ≠ 0 ∧ t = ki_timer x;
}.

Lemma owned_frame used m m' f la ls x x' : owned used m f la ls x →
  m_num_kthreads m' = m_num_kthreads m → m_tcbs m' = m_tcbs m → m_stacks m' = m_stacks m →
  m_quantum m' = m_quantum m → m_timers m' = m_timers m → m_abort_ctx m' = m_abort_ctx m →
  (∀ s, s ≠ KNotEmpty → m_ksem m' !! s = m_ksem m !! s) →
  m_kinfo m' = {[0 := x']} → ki_ctx x' = ki_ctx x → ki_timer x' = ki_timer x →
  owned used m' f la ls x'.
Proof.
  intros [] E1 E2 E3 E4 E5 E6 E7 E8 E9 E10.
  constructor; rewrite ?E1, ?E2, ?E3, ?E4, ?E5, ?E6, ?E9, ?E10, ?E7 by done; done.
Qed.

Lemma stack_upd (h : gmap loc tcb) p c c' : h !! p = Some c → stack_of c' = stack_of c →
  stack_of <$> <[p := c']> h = stack_of <$> h.
Proof.
  intros Hp Hc. rewrite fmap_insert, Hc. apply insert_id. by rewrite lookup_fmap, Hp.
Qed.

Definition accounted (used : gset Z) (m : machine) (f : gmap loc (option positive)) : Prop :=
  ∃ la ls x, owned used m f la ls x.

Lemma accounted_frame used m m' f : accounted used m f →
  m_num_kthreads m' = m_num_kthreads m → m_tcbs m' = m_tcbs m → m_stacks m' = m_stacks m →
  m_quantum m' = m_quantum m → m_timers m' = m_timers m → m_abort_ctx m' = m_abort_ctx m →
  (∀ s, s ≠ KNotEmpty → m_ksem m' !! s = m_ksem m !! s) → m_kinfo m' = m_kinfo m →
  accounted used m' f.
Proof.
  intros (la & ls & x & Ho) ??????? E. exists la, ls, x.
  eapply owned_frame; [exact Ho|done..| |done|done]. rewrite E. apply Ho.
Qed.

(** ** Threads that go and come *)
Lemma stack_freed_lookup cd st l :
  stack_freed cd st !! l = if decide (stack_of cd = Some l) then None else st !! l.
Proof.
  unfold stack_freed, stack_of. destruct (_ =? 0); [by rewrite decide_False|].
  destruct (ss_sp (t_ctx cd)) as [|l'|]; try by rewrite decide_False by done.
  rewrite lookup_delete. repeat case_decide; naive_solver.
Qed.
Lemma stack_freed_ne cd st l : ¬ owns cd l → stack_freed cd st !! l = st !! l.
Proof. intros Ho. rewrite <- stack_of_owns in Ho. by rewrite stack_freed_lookup, decide_False. Qed.

Lemma addr_insert tcbs d t p o : 0 ≤ d < Z.of_nat (length tcbs) →
  addr (<[Z.to_nat d := o]> tcbs) t p ↔ if decide (t = d) then o = Some p else addr tcbs t p.
Proof. intros Hd. unfold addr. rewrite znth_insert by done. case_decide; naive_solver. Qed.

(** [destroy_thread] gives back what it takes away. *)
Lemma owned_reap used m m' f la ls x d pd cd : owned used m f la ls x →
  0 ≤ d < Z.of_nat (length (m_tcbs m)) → addr (m_tcbs m) d pd → f !! pd = Some (stack_of cd) →
  m_num_kthreads m' = m_num_kthreads m → m_kinfo m' = m_kinfo m → m_abort_ctx m' = m_abort_ctx m →
  m_ksem m' = m_ksem m → m_timers m' = m_timers m → m_quantum m' = m_quantum m →
  m_tcbs m' = <[Z.to_nat d := None]> (m_tcbs m) → m_stacks m' = stack_freed cd (m_stacks m) →
  owned (used ∖ {[d]}) m' (delete pd f) la ls x.
Proof.
  intros [] Hd Ha Hf E1 E2 E3 E4 E5 E6 E7 E8.
  assert (Hlib : stack_of cd ≠ Some la ∧ stack_of cd ≠ Some ls).
  { destruct (ow_lib0 pd) as [H1 H2]. rewrite Hf in H1, H2. split; congruence. }
  constructor; rewrite ?E1, ?E2, ?E3, ?E4, ?E5, ?E6, ?E7, ?E8; try done.
  - intros t p. rewrite addr_insert by done. case_decide; [done|]. intros Ht.
    apply ow_null0 in Ht. set_solver.
  - intros p. rewrite lookup_delete. case_decide as Hp; [by intros [? [=]]|]. intros Hs.
    destruct (ow_heap0 p Hs) as [|[t Ht]]; [by left|]. right. exists t.
    rewrite addr_insert by done. case_decide; [|done]. subst. unfold addr in *. congruence.
  - intros o. rewrite lookup_delete. case_decide; [done|]. apply ow_static0.
  - intros p. rewrite lookup_delete. case_decide; [done|]. apply ow_lib0.
  - intros l. rewrite stack_freed_lookup. case_decide as Hl; [by intros [? [=]]|]. intros Hs.
    destruct (ow_stacks0 l Hs) as [|[|(t & p & Ht & Hp)]]; [by left|by right; left|].
    right; right. exists t, p. rewrite addr_insert by done. rewrite lookup_delete.
    assert (pd ≠ p) by congruence. rewrite (decide_False (P := pd = p)) by done. split; [|done].
    case_decide; [|done]. subst. unfold addr in *. congruence.
  - rewrite !stack_freed_lookup, !decide_False by apply Hlib. done.
Qed.

(** [uthread_create] adds a block, and a stack unless the caller gave one. *)
Lemma owned_create used m m' f la ls x r n c b sz : owned used m f la ls x →
  0 ≤ r < Z.of_nat (length (m_tcbs m)) → r ∉ used → f !! n = None → n ≠ exitall →
  m_num_kthreads m' = m_num_kthreads m → m_kinfo m' = m_kinfo m → m_abort_ctx m' = m_abort_ctx m →
  (∀ u, u ≠ KNotEmpty → m_ksem m' !! u = m_ksem m !! u) →
  m_timers m' = m_timers m → m_quantum m' = m_quantum m →
  m_tcbs m' = <[Z.to_nat r := Some n]> (m_tcbs m) → m_stacks m !! b = None →
  (stack_of c = None ∧ m_stacks m' = m_stacks m ∨
   stack_of c = Some b ∧ m_stacks m' = <[b := sz]> (m_stacks m)) →
  owned ({[r]} ∪ used) m' (<[n := stack_of c]> f) la ls x.
Proof.
  intros [] Hr Hnr Hn Hx E1 E2 E3 E4 E5 E6 E7 Hb Hc.
  assert (Hlb : la ≠ b ∧ ls ≠ b).
  { split; intros ->; rewrite Hb in *; by destruct ow_live0 as [[? ?] [? ?]]. }
  constructor; rewrite ?E1, ?E2, ?E3, ?E5, ?E6, ?E7, ?E4 by done; try done.
  - intros t p. rewrite addr_insert by done. case_decide; [set_solver|]. intros Ht.
    apply ow_null0 in Ht. set_solver.
  - intros p. rewrite lookup_insert. case_decide as Hp.
    + intros _. right. exists r. rewrite addr_insert by done. rewrite decide_True; congruence.
    + intros Hs. destruct (ow_heap0 p Hs) as [|[t Ht]]; [by left|]. right. exists t.
      rewrite addr_insert by done. case_decide; [|done]. subst. by apply ow_null0 in Ht.
  - intros o. rewrite lookup_insert_ne by done. apply ow_static0.
  - intros p. rewrite lookup_insert. case_decide; [|apply ow_lib0].
    destruct Hc as [[-> _]|[-> _]]; [done|]. split; intros [= ->]; by destruct Hlb.
  - intros l Hl. destruct (decide (stack_of c = Some l)) as [Hcl|Hcl].
    { right; right. exists r, n. rewrite addr_insert, decide_True by done.
      rewrite lookup_insert_eq. by rewrite Hcl. }
    assert (Hs : is_Some (m_stacks m !! l)).
    { destruct Hc as [[_ ->]|[Hcb ->]] in Hl; [done|]. rewrite lookup_insert_ne in Hl; congruence. }
    destruct (ow_stacks0 l Hs) as [|[|(t & p & Ht & Hp)]]; [by left|by right; left|].
    right; right. exists t, p. rewrite addr_insert by done. rewrite decide_False.
    + split; [done|]. rewrite lookup_insert_ne; congruence.
    + intros ->. by apply ow_null0 in Ht.
  - destruct Hc as [[_ ->]|[_ ->]]; [done|]. rewrite !lookup_insert_ne by naive_solver. done.
Qed.
