(* ===== verification/Refine.v ===== *)
(** * uthread.c implements the abstract scheduler

    [refines s P m]: machine [m], whose kernel thread [k] is about to run [P],
    represents the abstract state [s].  Every abstract step is matched by a run
    of [k]. *)
From Stdlib Require Import FunctionalExtensionality.
From S2P Require Import Prelude Bitvec Machine Kthread Uthread Client Eval UthreadEval Sched Api.
From S2P Require Import Owned Spec.

Section refine.
Context (cl : client) (k i : Z).

(** ** Programs *)

(** A thread that goes on with [p]; [L] is what is left of the kernel thread
    once [p] returned. *)
Definition user (L : prog unit) (p : uprog Z) : prog unit := pbind (compile p) (λ _, L).

(** The program of a thread whose block is at [p]. *)
Definition prog_of (L : prog unit) (p : loc) (co : acont) : prog unit :=
  match co with
  | AStart f arg => pbind (trampoline f arg) (λ _, L)
  | ARun q => user L q
  | AJoin d pret kont => pbind (join_resume d pret) (λ r, user L (kont r))
  | ASem a kont => sem_wait_resume a (Some p) (λ r, user L (kont r))
  end.

Lemma pbind_ext {A B} (p : prog A) (f g : A → prog B) :
  (∀ a, f a = g a) → pbind p f = pbind p g.
Proof. intros H. f_equal. by apply functional_extensionality. Qed.

Lemma compile_ubind {A B} (p : uprog A) (f : A → uprog B) :
  compile (ubind p f) = pbind (compile p) (λ a, compile (f a)).
Proof.
  induction p as [a|C c kont IH]; [done|]. cbn. rewrite pbind_assoc. f_equal.
  by apply functional_extensionality.
Qed.

Lemma user_vis {B} L (c : ucmd B) kont :
  user L (UVis c kont) = pbind (api c) (λ b, user L (kont b)).
Proof. unfold user. cbn. apply pbind_assoc. Qed.

(** ** Threads *)
Definition state_of (st : astatus) : thread_state :=
  match st with
  | SReady => READY | SRunning => RUNNING | SWaitJoin _ => WAITING_JOIN
  | SWaitSem _ => WAITING_SEM | SFinished _ => FINISHED
  end.

Record trel (tcbs : list (option loc)) (h : gmap loc tcb) (st : gmap positive Z)
    (t : Z) (x : athread) (p : loc) (c : tcb) : Prop := {
  tr_addr : addr tcbs t p;
  tr_heap : h !! p = Some c;
  tr_tid : t_tid c = t;
  tr_valid : valid_tid t;
  tr_ne : p ≠ exitall;
  tr_join : ∃ js, t_joinq c = Some js ∧ Forall2 (addr tcbs) (at_joiners x) js;
  tr_stack : t_stack_allocated c = 0 ∨ ∃ l, owns c l ∧ is_Some (st !! l);
  tr_state : t_state c = state_of (at_status x);
  tr_ret : ∀ v, at_status x = SFinished v → t_retval c = v;
  tr_prog : at_status x ≠ SRunning → (∀ v, at_status x ≠ SFinished v) →
    ∃ L, ctx_prog (text cl) (t_ctx c) = Some (prog_of L p (at_cont x));
}.

Record threads_rel (tcbs : list (option loc)) (h : gmap loc tcb) (st : gmap positive Z)
    (ths : gmap Z athread) : Prop := {
  ts_rel : ∀ t x, ths !! t = Some x → ∃ p c, trel tcbs h st t x p c;
  ts_own : ∀ t1 t2 x1 x2 p1 p2 c1 c2 l, ths !! t1 = Some x1 → ths !! t2 = Some x2 →
    trel tcbs h st t1 x1 p1 c1 → trel tcbs h st t2 x2 p2 c2 →
    owns c1 l → owns c2 l → t1 = t2;
}.

(** A thread is represented at one address, and an address represents one. *)
Lemma trel_fun tcbs h st t x x' p p' c c' :
  trel tcbs h st t x p c → trel tcbs h st t x' p' c' → p = p' ∧ c = c'.
Proof.
  intros H1 H2. assert (p = p') as ->.
  { pose proof (tr_addr _ _ _ _ _ _ _ H1) as E. pose proof (tr_addr _ _ _ _ _ _ _ H2) as E'.
    unfold addr in *. congruence. }
  split; [done|]. pose proof (tr_heap _ _ _ _ _ _ _ H1).
  pose proof (tr_heap _ _ _ _ _ _ _ H2). congruence.
Qed.
Lemma trel_inj tcbs h st t t' x x' p c c' :
  trel tcbs h st t x p c → trel tcbs h st t' x' p c' → t = t'.
Proof.
  intros H1 H2. rewrite <- (tr_tid _ _ _ _ _ _ _ H1), <- (tr_tid _ _ _ _ _ _ _ H2).
  pose proof (tr_heap _ _ _ _ _ _ _ H1). pose proof (tr_heap _ _ _ _ _ _ _ H2). congruence.
Qed.

(** Writing one thread's block, and what stands for it. *)
Lemma threads_rel_upd tcbs h st ths t x x' p c c' :
  threads_rel tcbs h st ths → ths !! t = Some x → trel tcbs h st t x p c →
  trel tcbs (<[p := c']> h) st t x' p c' → (∀ l, owns c' l → owns c l) →
  threads_rel tcbs (<[p := c']> h) st (<[t := x']> ths).
Proof.
  intros [Hrel Hown] Hx Ht Ht' Hst.
  assert (Hback : ∀ t1 x1 p1 c1, <[t := x']> ths !! t1 = Some x1 →
    trel tcbs (<[p := c']> h) st t1 x1 p1 c1 →
    ∃ x2 c2, ths !! t1 = Some x2 ∧ trel tcbs h st t1 x2 p1 c2 ∧ (∀ l, owns c1 l → owns c2 l)).
  { intros t1 x1 p1 c1 Hl H1. destruct (decide (t1 = t)) as [->|Hne].
    - destruct (trel_fun _ _ _ _ _ _ _ _ _ _ H1 Ht') as [-> ->]. by exists x, c.
    - rewrite lookup_insert_ne in Hl by congruence. exists x1, c1. split_and!; [done| |done].
      assert (p1 ≠ p). { intros ->. destruct Hne. by eapply trel_inj. }
      destruct H1; constructor; try done. by rewrite lookup_insert_ne in tr_heap0 by congruence. }
  constructor.
  - intros t1 x1 Hl. destruct (decide (t1 = t)) as [->|Hne].
    + rewrite lookup_insert_eq in Hl. injection Hl as <-. by eauto.
    + rewrite lookup_insert_ne in Hl by congruence. destruct (Hrel _ _ Hl) as (p1 & c1 & H1).
      assert (p1 ≠ p). { intros ->. destruct Hne. by eapply trel_inj. }
      exists p1, c1. destruct H1; constructor; try done. by rewrite lookup_insert_ne by congruence.
  - intros t1 t2 x1 x2 p1 p2 c1 c2 l Hl1 Hl2 H1 H2 Ho1 Ho2.
    destruct (Hback _ _ _ _ Hl1 H1) as (y1 & d1 & Hy1 & Hr1 & Hd1).
    destruct (Hback _ _ _ _ Hl2 H2) as (y2 & d2 & Hy2 & Hr2 & Hd2).
    eapply (Hown t1 t2); eauto.
Qed.

Lemma trel_ne tcbs h st t x p c p0 c0 : p ≠ p0 →
  trel tcbs h st t x p c → trel tcbs (<[p0 := c0]> h) st t x p c.
Proof. intros Hne []. constructor; try done. by rewrite lookup_insert_ne. Qed.

(** The updates of one block that the operations make. *)
Section updates.
Context (tcbs : list (option loc)) (h : gmap loc tcb) (st : gmap positive Z).
Context (ths : gmap Z athread) (t : Z) (x : athread) (p : loc) (c : tcb).
Context (Hths : threads_rel tcbs h st ths) (Hx : ths !! t = Some x).
Context (Ht : trel tcbs h st t x p c).

Lemma rel_suspend s mask L co :
  s ≠ SRunning → (∀ v, s ≠ SFinished v) →
  threads_rel tcbs (<[p := saved mask (prog_of L p co) (set_t_state (state_of s) c)]> h) st
    (<[t := set_at_status s (set_at_cont co x)]> ths).
Proof.
  intros Hs Hf. eapply threads_rel_upd; [done|exact Hx|exact Ht| |done].
  destruct Ht. constructor; try done; cbn.
  - by rewrite lookup_insert_eq.
  - intros v Hv. by destruct (Hf v).
  - by exists L.
Qed.

Lemma rel_wake : (∀ v, at_status x ≠ SFinished v) → at_status x ≠ SRunning →
  threads_rel tcbs (<[p := set_t_state READY c]> h) st
    (<[t := set_at_status SReady x]> ths).
Proof.
  intros Hf Hr. eapply threads_rel_upd; [done|exact Hx|exact Ht| |done].
  destruct Ht. constructor; try done; cbn; [by rewrite lookup_insert_eq|]. auto.
Qed.

Lemma rel_run :
  threads_rel tcbs (<[p := set_t_state RUNNING c]> h) st
    (<[t := set_at_status SRunning x]> ths).
Proof.
  eapply threads_rel_upd; [done|exact Hx|exact Ht| |done].
  destruct Ht. constructor; try done; cbn. by rewrite lookup_insert_eq.
Qed.

Lemma rel_joiners js ps : Forall2 (addr tcbs) js ps →
  threads_rel tcbs (<[p := set_t_joinq (Some ps) c]> h) st
    (<[t := set_at_joiners js x]> ths).
Proof.
  intros Hjs. eapply threads_rel_upd; [done|exact Hx|exact Ht| |done].
  destruct Ht. constructor; try done; cbn; [by rewrite lookup_insert_eq|]. eauto.
Qed.

Lemma rel_finish v co :
  threads_rel tcbs (<[p := finished v c]> h) st
    (<[t := set_at_status (SFinished v) (set_at_cont co x)]> ths).
Proof.
  eapply threads_rel_upd; [done|exact Hx|exact Ht| |done].
  destruct Ht. constructor; try done; cbn.
  - by rewrite lookup_insert_eq.
  - by intros v' [= ->].
  - intros _ Hv. by destruct (Hv v).
Qed.

Lemma rel_finish_joiners v co js ps : Forall2 (addr tcbs) js ps →
  threads_rel tcbs (<[p := set_t_joinq (Some ps) (finished v c)]> h) st
    (<[t := set_at_joiners js (set_at_status (SFinished v) (set_at_cont co x))]> ths).
Proof.
  intros Hjs. eapply threads_rel_upd; [done|exact Hx|exact Ht| |done].
  destruct Ht. constructor; try done; cbn.
  - by rewrite lookup_insert_eq.
  - eauto.
  - by intros v' [= ->].
  - intros _ Hv. by destruct (Hv v).
Qed.

Lemma rel_go q : at_status x = SRunning →
  threads_rel tcbs h st (<[t := set_at_cont (ARun q) x]> ths).
Proof.
  intros Hr. rewrite <- (insert_id h p c) by apply Ht.
  eapply threads_rel_upd; [done|exact Hx|exact Ht| |done].
  rewrite (insert_id h p c) by apply Ht.
  destruct Ht. by constructor.
Qed.
End updates.

(** A thread is reaped: its entry, its block and its stack go. *)
Lemma addrs_other tcbs d l ps o : 0 ≤ d < Z.of_nat (length tcbs) → d ∉ l →
  Forall2 (addr tcbs) l ps → Forall2 (addr (<[Z.to_nat d := o]> tcbs)) l ps.
Proof.
  intros Hd Hnin Hl. induction Hl as [|t p l ps Ha Hl IH]; constructor.
  - apply addr_other; [done|set_solver|done].
  - apply IH. set_solver.
Qed.

Lemma stack_freed_None cd st l : st !! l = None → stack_freed cd st !! l = None.
Proof.
  intros Hl. unfold stack_freed. destruct (_ =? 0); [done|].
  destruct (ss_sp (t_ctx cd)); try done. rewrite lookup_delete. by case_decide.
Qed.

Lemma trel_other tcbs h st d pd cd t x p c :
  0 ≤ d < Z.of_nat (length tcbs) → t ≠ d → p ≠ pd → d ∉ at_joiners x →
  (∀ l, owns c l → ¬ owns cd l) → trel tcbs h st t x p c →
  trel (<[Z.to_nat d := None]> tcbs) (delete pd h) (stack_freed cd st) t x p c.
Proof.
  intros Hd Hne Hp Hj Ho []. constructor; try done.
  - by apply addr_other.
  - by rewrite lookup_delete_ne.
  - destruct tr_join0 as (js & Hjs & Hl). exists js. split; [done|]. by apply addrs_other.
  - destruct tr_stack0 as [?|(l & Hl & Hst)]; [by left|]. right. exists l. split; [done|].
    rewrite stack_freed_ne; [done|by apply Ho].
Qed.

Lemma rel_reap tcbs h st ths d xd pd cd :
  threads_rel tcbs h st ths → ths !! d = Some xd → trel tcbs h st d xd pd cd →
  0 ≤ d < Z.of_nat (length tcbs) → (∀ t x, ths !! t = Some x → d ∉ at_joiners x) →
  threads_rel (<[Z.to_nat d := None]> tcbs) (delete pd h) (stack_freed cd st) (delete d ths).
Proof.
  intros [Hrel Hown] Hxd Htd Hd Hj.
  assert (Hother : ∀ t x p c, t ≠ d → ths !! t = Some x → trel tcbs h st t x p c →
    trel (<[Z.to_nat d := None]> tcbs) (delete pd h) (stack_freed cd st) t x p c).
  { intros t x p c Hne Hx Ht. apply trel_other; try done.
    - intros ->. apply Hne. by eapply trel_inj.
    - by eapply Hj.
    - intros l H1 H2. apply Hne. by eapply (Hown t d). }
  assert (Hback : ∀ t x p c, t ≠ d → ths !! t = Some x →
    trel (<[Z.to_nat d := None]> tcbs) (delete pd h) (stack_freed cd st) t x p c →
    trel tcbs h st t x p c).
  { intros t x p c Hne Hx Ht. destruct (Hrel t x Hx) as (p1 & c1 & Ht1).
    destruct (trel_fun _ _ _ _ _ _ _ _ _ _ Ht (Hother _ _ _ _ Hne Hx Ht1)) as [-> ->]. done. }
  constructor.
  - intros t x Hx. apply lookup_delete_Some in Hx as [Hne Hx].
    destruct (Hrel t x Hx) as (p & c & Ht). exists p, c. by apply Hother.
  - intros t1 t2 x1 x2 p1 p2 c1 c2 l H1 H2 Ht1 Ht2 Ho1 Ho2.
    apply lookup_delete_Some in H1 as [Hn1 H1]. apply lookup_delete_Some in H2 as [Hn2 H2].
    apply (Hown t1 t2 x1 x2 p1 p2 c1 c2 l); auto.
Qed.

(** A thread appears. *)
Lemma stacks_with_Some base size l st l' : is_Some (st !! l') →
  is_Some (stacks_with base size l st !! l').
Proof.
  intros H. unfold stacks_with. case_decide; [|done]. rewrite lookup_insert. by case_decide.
Qed.

Lemma trel_new tcbs h st r n f arg base size l mask :
  valid_tid r → length tcbs = Z.to_nat UTHREAD_MAX_THREADS → n ≠ exitall →
  (∀ l', base ≠ SMalloc l') →
  trel (<[Z.to_nat r := Some n]> tcbs) (<[n := new_tcb r f arg base size l mask]> h)
    (stacks_with base size l st) r (AThread SReady [] (AStart f arg)) n
    (new_tcb r f arg base size l mask).
Proof.
  intros Hr Hlen Hn Hb. constructor; try done.
  - unfold addr. rewrite znth_insert, decide_True; [done|done|]. rewrite Hlen. exact Hr.
  - apply lookup_insert_eq.
  - exists []. split; [done|constructor].
  - unfold new_tcb, stacks_with, owns, stack_ptr. cbn.
    destruct (decide (base = SNull)) as [->|Hne]; [right|by left].
    exists l. split; [done|]. rewrite lookup_insert_eq. by eexists.
  - intros _ _. by eexists.
Qed.

Lemma rel_create tcbs h st ths r n f arg base size l mask :
  threads_rel tcbs h st ths → ths !! r = None → valid_tid r →
  length tcbs = Z.to_nat UTHREAD_MAX_THREADS → h !! n = None → n ≠ exitall →
  (∀ l', base ≠ SMalloc l') → st !! l = None →
  (∀ t x, ths !! t = Some x → r ∉ at_joiners x) →
  threads_rel (<[Z.to_nat r := Some n]> tcbs) (<[n := new_tcb r f arg base size l mask]> h)
    (stacks_with base size l st) (<[r := AThread SReady [] (AStart f arg)]> ths).
Proof.
  intros [Hrel Hown] Hr Hv Hlen Hn Hne Hb Hl Hj.
  assert (Hrl : 0 ≤ r < Z.of_nat (length tcbs)) by (rewrite Hlen; exact Hv).
  pose proof (trel_new tcbs h st r n f arg base size l mask Hv Hlen Hne Hb) as Hnew.
  assert (Hother : ∀ t x p c, t ≠ r → ths !! t = Some x → trel tcbs h st t x p c →
    trel (<[Z.to_nat r := Some n]> tcbs) (<[n := new_tcb r f arg base size l mask]> h)
      (stacks_with base size l st) t x p c).
  { intros t x p c Ht Hx []. constructor; try done.
    - by apply addr_other.
    - rewrite lookup_insert_ne; [done|]. intros <-. congruence.
    - destruct tr_join0 as (js & H1 & H2). exists js. split; [done|].
      apply addrs_other; [done|by eapply Hj|done].
    - destruct tr_stack0 as [?|(l' & H1 & H2)]; [by left|]. right. exists l'. split; [done|].
      by apply stacks_with_Some. }
  assert (Hback : ∀ t x p c, t ≠ r → ths !! t = Some x →
    trel (<[Z.to_nat r := Some n]> tcbs) (<[n := new_tcb r f arg base size l mask]> h)
      (stacks_with base size l st) t x p c → trel tcbs h st t x p c).
  { intros t x p c Ht Hx H1. destruct (Hrel t x Hx) as (p1 & c1 & H2).
    destruct (trel_fun _ _ _ _ _ _ _ _ _ _ H1 (Hother _ _ _ _ Ht Hx H2)) as [-> ->]. done. }
  (* a stack that was there is not the new one *)
  assert (Hold : ∀ t x p c l', t ≠ r → ths !! t = Some x → trel tcbs h st t x p c →
    owns c l' → l' ≠ l).
  { intros t x p c l' Ht Hx H1 [Ho1 Ho2] ->. destruct (tr_stack _ _ _ _ _ _ _ H1) as [?|(l2 & [_ H2] & [y H3])];
      [done|]. congruence. }
  assert (Hnl : ∀ l', owns (new_tcb r f arg base size l mask) l' → l' = l).
  { intros l' [Ho1 Ho2]. cbn in Ho1, Ho2. unfold stack_ptr in Ho2.
    case_decide; [by injection Ho2|done]. }
  constructor.
  - intros t x Hx. destruct (decide (t = r)) as [->|Ht].
    + rewrite lookup_insert_eq in Hx. injection Hx as <-. eauto.
    + rewrite lookup_insert_ne in Hx by done. destruct (Hrel t x Hx) as (p & c & H1).
      exists p, c. by apply Hother.
  - intros t1 t2 x1 x2 p1 p2 c1 c2 l' H1 H2 Ht1 Ht2 Ho1 Ho2.
    destruct (decide (t1 = r)) as [->|Hn1], (decide (t2 = r)) as [->|Hn2]; [done|..].
    + rewrite lookup_insert_ne in H2 by done.
      destruct (trel_fun _ _ _ _ _ _ _ _ _ _ Ht1 Hnew) as [-> ->].
      apply Hnl in Ho1. destruct (Hold _ _ _ _ _ Hn2 H2 (Hback _ _ _ _ Hn2 H2 Ht2) Ho2). done.
    + rewrite lookup_insert_ne in H1 by done.
      destruct (trel_fun _ _ _ _ _ _ _ _ _ _ Ht2 Hnew) as [-> ->].
      apply Hnl in Ho2. destruct (Hold _ _ _ _ _ Hn1 H1 (Hback _ _ _ _ Hn1 H1 Ht1) Ho1). done.
    + rewrite lookup_insert_ne in H1 by done. rewrite lookup_insert_ne in H2 by done.
      by apply (Hown t1 t2 x1 x2 p1 p2 c1 c2 l'); auto.
Qed.

(** ** Machines *)

(** The abstract state but for what runs: [h] and [q] stand for the heap and the
    ready queue of [m]. *)
Record world (s : spec) (m : machine) (h : gmap loc tcb) (q : list loc) : Prop := {
  w_inited : m_inited m ≠ 0;
  w_reg : registered m k i;
  w_kinfo : ∃ x, m_kinfo m !! i = Some x ∧ unpreempted m x ∧ uc_body (ki_ctx x) = CtxEntry FSchedule;
  w_threads : threads_rel (m_tcbs m) h (m_stacks m) (sp_threads s);
  w_ready : Forall2 (addr (m_tcbs m)) (sp_ready s) q;
  w_tcbs_lock : m_mutex m !! MTcbs = Some None;
  w_ready_lock : m_mutex m !! MRqueue = Some None;
  w_tids : tids_free m (dom (sp_threads s));
  w_len : length (m_tcbs m) = Z.to_nat UTHREAD_MAX_THREADS;
  w_fresh : ∀ l, (m_next m ≤ l)%positive → h !! l = None ∧ m_stacks m !! l = None;
  w_next : (exitall < m_next m)%positive;
  w_sems : ∀ a n ws, sp_sems s !! a = Some (n, ws) →
    ∃ qs, sem_free m a n qs ∧ Forall2 (addr (m_tcbs m)) ws qs;
  w_vars : m_user m = sp_vars s;
  w_mutexes : ∀ a, m_mutex m !! MUser a = (λ b : bool, if b then Some k else None) <$> sp_mutexes s !! a;
  w_alive : alive k m;
  w_owned : accounted (dom (sp_threads s)) m (stack_of <$> h);
}.

Record refines (s : spec) (P : prog unit) (m : machine) : Prop := {
  r_wf : swf s;
  r_world : ∃ q, world s m (m_heap m) q ∧ m_rqueue m = Some q ∧
    m_ksem m !! KNotEmpty = Some (Z.of_nat (length q));
  r_cur : ∃ x, m_kinfo m !! i = Some x ∧ ki_current_tid x = sp_cur s;
  r_prog : ∃ x p c L, sp_threads s !! sp_cur s = Some x ∧
    trel (m_tcbs m) (m_heap m) (m_stacks m) (sp_cur s) x p c ∧
    P = prog_of L p (at_cont x);
}.

(** Lists of threads are short. *)
Lemma tids_bound (l : list Z) : NoDup l → (∀ t, t ∈ l → valid_tid t) →
  Z.of_nat (length l) ≤ UTHREAD_MAX_THREADS.
Proof.
  intros Hnd Hv. assert (Hs : l ⊆+ Spec.tids).
  { apply NoDup_submseteq; [done|]. intros t Ht. apply elem_of_seqZ, Hv, Ht. }
  apply submseteq_length in Hs. unfold Spec.tids in Hs. rewrite length_seqZ in Hs.
  unfold UTHREAD_MAX_THREADS in *. lia.
Qed.

Lemma ready_bound oc s : disciplined oc s → Z.of_nat (length (sp_ready s)) ≤ UTHREAD_MAX_THREADS.
Proof.
  intros Hd. apply tids_bound; [apply Hd|]. intros t Ht.
  apply (wf_ready _ _ _ _ _ Hd) in Ht. apply (wf_valid _ _ _ _ _ Hd). by eexists.
Qed.
Lemma waiters_bound oc s a : disciplined oc s → Z.of_nat (length (waiters s a)) ≤ UTHREAD_MAX_THREADS.
Proof.
  intros Hd. apply tids_bound; [apply Hd|]. intros t Ht.
  apply (wf_sem _ _ _ _ _ Hd) in Ht. apply (wf_valid _ _ _ _ _ Hd). by eexists.
Qed.

(** What the operations' lemmas ask of the machine. *)
Record at_call (s : spec) (P : prog unit) (L : prog unit) (m : machine) (x : athread) (p : loc) (kx : kinfo)
    (c : tcb) (q : list loc) : Prop := {
  ac_cpu : on_cpu m k i (sp_cur s) p kx c;
  ac_quiet : quiet m q (Z.of_nat (length q));
  ac_world : world s m (m_heap m) q;
  ac_thread : sp_threads s !! sp_cur s = Some x;
  ac_running : at_status x = SRunning;
  ac_trel : trel (m_tcbs m) (m_heap m) (m_stacks m) (sp_cur s) x p c;
  ac_state : t_state c = RUNNING;
  ac_prog : P = prog_of L p (at_cont x);
  ac_rqueue : m_rqueue m = Some q;
  ac_sem : m_ksem m !! KNotEmpty = Some (Z.of_nat (length q));
}.

Lemma refines_at_call s P m : refines s P m → ∃ L x p kx c q, at_call s P L m x p kx c q.
Proof.
  intros [Hw (q & HW & Hq & Hsem) (kx & Hkx & Hcur) (x & p & c & L & Hx & Ht & HP)].
  exists L, x, p, kx, c, q. destruct (swf_cur s Hw) as (x' & Hx' & Hst).
  assert (x' = x) as -> by congruence.
  assert (length (sp_ready s) = length q) as Hlen by by eapply Forall2_length, HW.
  pose proof (ready_bound _ _ Hw) as Hb. rewrite Hlen in Hb.
  destruct (w_kinfo _ _ _ _ HW) as (kx' & Hkx' & Hup & Hsched).
  assert (kx' = kx) as -> by congruence.
  split; try done.
  - destruct HW. destruct Ht. constructor; try done.
  - destruct HW. constructor; [done|constructor; done| |];
      unfold UTHREAD_MAX_THREADS, SEM_VALUE_MAX, INT_MAX in *; lia.
  - rewrite (tr_state _ _ _ _ _ _ _ Ht), Hst. done.
Qed.

(** The head of the ready queue. *)
Lemma world_head s s' m h q : disciplined None s → switch s = Some s' → world s m h q →
  ∃ t ts x p c q', sp_ready s = t :: ts ∧ q = p :: q' ∧ sp_threads s !! t = Some x ∧
    at_status x = SReady ∧ trel (m_tcbs m) h (m_stacks m) t x p c ∧
    (∃ L, ctx_prog (text cl) (t_ctx c) = Some (prog_of L p (at_cont x))) ∧
    s' = set_sp_cur t (set_sp_ready ts (upd_thread (set_at_status SRunning) t s)).
Proof.
  intros Hd Hs HW. pose proof (w_ready _ _ _ _ HW) as Hr. unfold switch in Hs.
  destruct (sp_ready s) as [|t ts] eqn:Hrd; [done|]. injection Hs as <-.
  apply Forall2_cons_inv_l in Hr as (p & q' & Hp & Hq' & ->).
  assert (stat s t = Some SReady) as Hst.
  { apply (wf_ready _ _ _ _ _ Hd). rewrite Hrd. set_solver. }
  unfold stat in Hst. destruct (sp_threads s !! t) as [x|] eqn:Hx; [|done].
  destruct (ts_rel _ _ _ _ (w_threads _ _ _ _ HW) t x Hx) as (p1 & c & Ht).
  assert (p1 = p) as ->.
  { pose proof (tr_addr _ _ _ _ _ _ _ Ht) as E. unfold addr in *. congruence. }
  injection Hst as Hst. exists t, ts, x, p, c, q'. split_and!; try done.
  apply Ht; by rewrite Hst.
Qed.

Lemma dom_upd g t s : dom (sp_threads (upd_thread g t s)) = dom (sp_threads s).
Proof. cbn. apply dom_alter_L. Qed.
Lemma alter_lookup (ths : gmap Z athread) g t x : ths !! t = Some x →
  alter g t ths = <[t := g x]> ths.
Proof.
  intros Hx. apply map_eq. intros u. rewrite lookup_alter, lookup_insert.
  case_decide; subst; [by rewrite Hx|done].
Qed.

(** The next thread runs. *)
Lemma refines_switch s t ts x kx p c q' h m L :
  disciplined None s → sp_ready s = t :: ts → sp_threads s !! t = Some x → at_status x = SReady →
  world s m h (p :: q') → trel (m_tcbs m) h (m_stacks m) t x p c →
  m_kinfo m !! i = Some kx → m_ksem m !! KNotEmpty = Some (Z.of_nat (length q')) →
  refines (set_sp_cur t (set_sp_ready ts (upd_thread (set_at_status SRunning) t s)))
    (prog_of L p (at_cont x)) (resumed k i kx p c q' h m).
Proof.
  intros Hd Hrd Hx Hst HW Ht Hkx Hsem.
  pose proof (rel_run _ _ _ _ _ _ _ _ (w_threads _ _ _ _ HW) Hx Ht) as Hrel.
  rewrite <- (alter_lookup _ _ _ _ Hx) in Hrel.
  assert (kx' : ∃ kx', m_kinfo m !! i = Some kx' ∧ unpreempted m kx' ∧
    uc_body (ki_ctx kx') = CtxEntry FSchedule) by apply HW.
  destruct kx' as (kx' & Hkx' & _ & Hsched). assert (kx' = kx) as -> by congruence.
  constructor.
  - apply (switch_disciplined s); [done|]. unfold switch. by rewrite Hrd.
  - exists q'. split; [|by split]. destruct HW as [].
    unfold resumed. constructor; mproj; try done.
    + by eapply (registered_insert m _ k i i kx).
    + exists (ki_running (t_tid c) kx). split; [lk|]. split; [by right|done].
    + rewrite Hrd in w_ready0. by apply Forall2_cons_1 in w_ready0 as [_ ?].
    + cbn [sp_threads set_sp_cur set_sp_ready upd_thread set_sp_threads]. by rewrite dom_alter_L.
    + intros l Hl. destruct (w_fresh0 l Hl) as [Hh ?]. split; [|done].
      rewrite lookup_insert_ne; [done|]. intros ->. pose proof (tr_heap _ _ _ _ _ _ _ Ht). congruence.
    + by apply alive_thr_upd.
    + destruct w_owned0 as (la & ls & y & Ho). pose proof (ow_kinfo _ _ _ _ _ _ Ho) as Hki.
      rewrite Hki in Hkx. apply lookup_singleton_Some in Hkx as [<- ->].
      exists la, ls, (ki_running (t_tid c) kx).
      cbn [sp_threads set_sp_cur set_sp_ready upd_thread set_sp_threads]. rewrite dom_alter_L.
      erewrite stack_upd by (apply Ht || done).
      eapply owned_frame; [exact Ho|done..| |done|done]. mproj. rewrite Hki. apply insert_singleton_eq.
  - exists (ki_running (t_tid c) kx). unfold resumed. split; [lk|]. cbn. apply Ht.
  - exists (set_at_status SRunning x), p, (set_t_state RUNNING c), L. unfold resumed. cbn.
    split; [by rewrite (alter_lookup _ _ _ _ Hx), lookup_insert_eq|]. split; [|done].
    destruct Ht. constructor; try done. cbn. by rewrite lookup_insert_eq.
Qed.

(** The threads and the ready queue change, the rest of the state does not. *)
Lemma world_same s s1 m h h1 q q1 :
  world s m h q → sp_sems s1 = sp_sems s → sp_vars s1 = sp_vars s →
  sp_mutexes s1 = sp_mutexes s → dom (sp_threads s1) = dom (sp_threads s) →
  stack_of <$> h1 = stack_of <$> h →
  threads_rel (m_tcbs m) h1 (m_stacks m) (sp_threads s1) →
  Forall2 (addr (m_tcbs m)) (sp_ready s1) q1 → world s1 m h1 q1.
Proof.
  intros [] Hsem Hv Hm Hd Hh Hrel Hr. constructor; rewrite ?Hsem, ?Hv, ?Hm, ?Hd, ?Hh; try done.
  intros l Hl. destruct (w_fresh0 l Hl) as [H1 H2]. split; [|done].
  pose proof (f_equal (lookup l) Hh) as E. rewrite !lookup_fmap, H1 in E. by apply fmap_None in E.
Qed.

(** The fields of the machine that [world] does not mention change. *)
Lemma world_frame s m m' h q :
  world s m h q → m_inited m' = m_inited m → m_quantum m' = m_quantum m →
  m_num_kthreads m' = m_num_kthreads m → m_kinfo m' = m_kinfo m → m_tcbs m' = m_tcbs m →
  m_stacks m' = m_stacks m → m_mutex m' = m_mutex m → m_bitvec m' = m_bitvec m →
  m_next m' = m_next m → m_usem m' = m_usem m → m_user m' = m_user m →
  m_timers m' = m_timers m → m_abort_ctx m' = m_abort_ctx m →
  (∀ u, u ≠ KNotEmpty → m_ksem m' !! u = m_ksem m !! u) → alive k m' →
  world s m' h q.
Proof.
  intros [] E1 E2 E3 E4 E5 E6 E7 E8 E9 E10 E11 E12 E13 E14 Ha.
  constructor; rewrite ?E1, ?E4, ?E5, ?E6, ?E7, ?E9, ?E11; try done.
  - by apply (registered_same m).
  - destruct w_kinfo0 as (x & Hx & Hu & Hs). exists x. split; [done|]. split; [|done].
    unfold unpreempted. by rewrite E2.
  - destruct w_tids0 as (H1 & H2 & H3). unfold tids_free. by rewrite E7, E8.
  - intros a n ws Hs. destruct (w_sems0 _ _ _ Hs) as (qs & [H1 H2] & H3).
    exists qs. unfold sem_free. by rewrite E7, E10.
  - by eapply accounted_frame.
Qed.

Lemma world_masked s m b h q : world s m h q → world s (masked b k m) h q.
Proof. intros HW. eapply world_frame; [exact HW|done..|]. apply alive_masked, HW. Qed.
Lemma world_errno s m e h q : world s m h q → world s (thr_upd (set_k_errno e) k m) h q.
Proof. intros HW. eapply world_frame; [exact HW|done..|]. apply alive_thr_upd; [done|apply HW]. Qed.
Lemma world_ksem s m v y h q : y = <[KNotEmpty := v]> (m_ksem m) → world s m h q →
  world s (set_ksem y m) h q.
Proof.
  intros -> HW. eapply world_frame; [exact HW|done..| |apply HW].
  intros u Hu. mproj. by rewrite lookup_insert_ne.
Qed.

(** The running thread's call returns. *)
Lemma refines_go s m x p kx c q pr L :
  swf s → world s m (m_heap m) q → m_rqueue m = Some q →
  m_ksem m !! KNotEmpty = Some (Z.of_nat (length q)) →
  m_kinfo m !! i = Some kx → ki_current_tid kx = sp_cur s →
  sp_threads s !! sp_cur s = Some x → at_status x = SRunning →
  trel (m_tcbs m) (m_heap m) (m_stacks m) (sp_cur s) x p c →
  refines (go pr s) (user L pr) m.
Proof.
  intros Hw HW Hq Hsem Hkx Hcur Hx Hst Ht. unfold go.
  pose proof (rel_go _ _ _ _ _ _ _ _ (w_threads _ _ _ _ HW) Hx Ht pr Hst) as Hrel.
  rewrite <- (alter_lookup _ _ _ _ Hx) in Hrel.
  constructor.
  - by apply go_disciplined.
  - exists q. split; [|done]. eapply world_same; [exact HW|done..| |done|exact Hrel|apply HW].
    apply dom_upd.
  - by exists kx.
  - exists (set_at_cont (ARun pr) x), p, c, L. cbn.
    split; [by rewrite (alter_lookup _ _ _ _ Hx), lookup_insert_eq|]. split; [|done].
    destruct Ht. by constructor.
Qed.

Definition simulates (s' : spec) (P : prog unit) (m : machine) : Prop :=
  ∃ P' m', lrun (text cl) k P m P' m' ∧ refines s' P' m'.

(** Setting what a thread's block says about it, seen through [alter]. *)
Lemma alter_two (ths : gmap Z athread) g f t x : ths !! t = Some x →
  alter g t (alter f t ths) = <[t := g (f x)]> ths.
Proof.
  intros Hx. rewrite (alter_lookup _ _ _ _ Hx), (alter_lookup _ _ _ (f x)) by apply lookup_insert_eq.
  apply insert_insert_eq.
Qed.

Section calls.
Context (s : spec) (P L : prog unit) (m : machine).
Context (x : athread) (p : loc) (kx : kinfo) (c : tcb) (q : list loc).
Context (Hw : swf s) (Hac : at_call s P L m x p kx c q).

Abbreviation me := (sp_cur s).

(** The running thread's block once it is suspended. *)
Lemma suspend_rel st mask rest co :
  st ≠ SRunning → (∀ v, st ≠ SFinished v) → rest = prog_of L p co →
  threads_rel (m_tcbs m) (<[p := saved mask rest (set_t_state (state_of st) c)]> (m_heap m))
    (m_stacks m) (sp_threads (suspend st co s)).
Proof.
  intros H1 H2 ->. destruct Hac. unfold suspend. cbn. rewrite (alter_lookup _ _ _ x) by done.
  eapply rel_suspend; [apply ac_world0|done..].
Qed.

Lemma sim_yield pr s' K : s_yield pr s = Some s' → K tt = user L pr →
  simulates s' (pbind uthread_yield K) m.
Proof.
  intros Hs HK. pose proof Hac as [Hcpu Hqt HW Hx Hst Ht Hcst _ Hrq Hsem].
  set (h := <[p := saved (mask_blocked k m) (K tt) (set_t_state READY c)]> (m_heap m)).
  set (s1 := wake me (suspend SReady (ARun pr) s)).
  assert (Hd : disciplined None s1).
  { by apply yield_mid. }
  assert (HW1 : world s1 m h (q ++ [p])).
  { eapply world_same; [exact HW|done..| | | |].
    - unfold s1, wake. cbn. by rewrite !dom_alter_L.
    - eapply stack_upd; [apply Hcpu|done].
    - pose proof (suspend_rel SReady (mask_blocked k m) (K tt) (ARun pr)) as Hr.
      unfold s1, wake, suspend, me in *. cbn in *. rewrite (alter_two _ _ _ _ x) by done.
      rewrite (alter_lookup _ _ _ x) in Hr by done. apply Hr; done.
    - apply Forall2_app; [apply HW|]. constructor; [apply Ht|constructor]. }
  destruct (world_head _ _ _ _ _ Hd Hs HW1) as (t' & ts & x' & p' & c' & q' & Hr' & Hq' & Hx' & Hst' & Ht' & (L' & HL') & ->).
  eexists _, _. split.
  - eapply (lrun_yield cl k i me p kx c m q _ p' q' c' K);
      [done..|apply Ht'| | | |exact HL'].
    + by rewrite (tr_state _ _ _ _ _ _ _ Ht'), Hst'.
    + rewrite (tr_tid _ _ _ _ _ _ _ Ht'). apply Ht'.
    + apply Ht'.
  - rewrite Hq' in HW1. eapply refines_switch; [done..|apply Hcpu|].
    rewrite Hsem. assert (length (q ++ [p]) = S (length q')) as Hl by by rewrite Hq'.
    rewrite length_app in Hl. cbn in Hl. do 2 f_equal. lia.
Qed.

(** [refines_go] for a machine that keeps the running thread. *)
Lemma sim_go s1 m1 q1 x1 c1 P' pr :
  lrun (text cl) k P' m (user L pr) m1 →
  swf s1 → sp_cur s1 = me → sp_threads s1 !! me = Some x1 → at_status x1 = SRunning →
  world s1 m1 (m_heap m1) q1 → m_rqueue m1 = Some q1 →
  m_ksem m1 !! KNotEmpty = Some (Z.of_nat (length q1)) →
  m_kinfo m1 = m_kinfo m → trel (m_tcbs m1) (m_heap m1) (m_stacks m1) me x1 p c1 →
  simulates (go pr s1) P' m.
Proof.
  intros Hrun Hw1 Hc1 Hx1 Hst1 HW1 Hq1 Hsem1 Hki Ht1. destruct Hac as [Hcpu _ _ _ _ _ _ _ _ _].
  exists (user L pr), m1. split; [done|].
  eapply refines_go; rewrite ?Hc1; try done.
  - rewrite Hki. apply Hcpu.
  - apply Hcpu.
Qed.

Lemma sim_exit v K s' : s_exit v s = Some s' → simulates s' (pbind (uthread_exit v) K) m.
Proof.
  intros Hs. pose proof Hac as [Hcpu Hqt HW Hx Hst Ht Hcst _ Hrq Hsem].
  unfold s_exit in Hs. rewrite Hx in Hs. cbn in Hs.
  pose proof (exit_mid v x s Hw Hx) as Hd.
  destruct (tr_join _ _ _ _ _ _ _ Ht) as (js & Hjs & Hj2).
  pose proof (rel_finish _ _ _ _ _ _ _ _ (w_threads _ _ _ _ HW) Hx Ht v (at_cont x)) as Hfin.
  unfold exited in *. destruct (at_joiners x) as [|j [|j2 rest]] eqn:Hj.
  - apply Forall2_nil_inv_l in Hj2 as ->.
    set (h := <[p := finished v c]> (m_heap m)).
    assert (HW1 : world (suspend (SFinished v) (at_cont x) s) m h q).
    { eapply world_same; [exact HW|done..| | | |apply HW].
      - unfold suspend. by rewrite dom_upd.
      - eapply stack_upd; [apply Hcpu|done].
      - unfold suspend. cbn. by rewrite (alter_lookup _ _ _ x). }
    destruct (world_head _ _ _ _ _ Hd Hs HW1)
      as (t' & ts & x' & p' & c' & q' & Hr' & -> & Hx' & Hst' & Ht' & (L' & HL') & ->).
    eexists _, _. split.
    + eapply (lrun_exit_alone cl k i me p kx c m _ p' q' c' v K);
        [done|done|cbn; lia|done|done|apply Ht'| | | |exact HL'].
      * by rewrite (tr_state _ _ _ _ _ _ _ Ht'), Hst'.
      * rewrite (tr_tid _ _ _ _ _ _ _ Ht'). apply Ht'.
      * apply Ht'.
    + eapply refines_switch; [done..|by eapply world_ksem|exact Ht'|apply Hcpu|].
      mproj. rewrite lookup_insert_eq. f_equal. cbn. lia.
  - apply Forall2_cons_inv_l in Hj2 as (pj & js' & Hpj & Hjs' & ->).
    apply Forall2_nil_inv_l in Hjs' as ->.
    assert (Hsj : stat s j = Some (SWaitJoin me)).
    { apply (wf_join _ _ _ _ _ Hw). rewrite (joiners_lookup _ _ _ Hx), Hj. set_solver. }
    unfold stat in Hsj. destruct (sp_threads s !! j) as [xj|] eqn:Hxj; [|done].
    injection Hsj as Hsj.
    assert (Hjt : j ≠ me). { intros ->. congruence. }
    destruct (ts_rel _ _ _ _ (w_threads _ _ _ _ HW) j xj Hxj) as (pj' & cj & Htj).
    assert (pj' = pj) as ->.
    { pose proof (tr_addr _ _ _ _ _ _ _ Htj) as E. unfold addr in *. congruence. }
    assert (Hpp : pj ≠ p). { intros ->. destruct Hjt. by eapply trel_inj. }
    set (h1 := <[p := set_t_joinq (Some []) (finished v c)]> (m_heap m)).
    set (h := <[pj := set_t_state READY cj]> h1).
    pose proof (rel_finish_joiners _ _ _ _ _ _ _ _ (w_threads _ _ _ _ HW) Hx Ht v (at_cont x)
      [] [] ltac:(constructor)) as Hfj.
    assert (Htj1 : trel (m_tcbs m) h1 (m_stacks m) j xj pj cj) by by apply trel_ne.
    assert (HW1 : world (wake j (upd_thread (set_at_joiners []) me
                    (suspend (SFinished v) (at_cont x) s))) m h (q ++ [pj])).
    { eapply world_same; [exact HW|done..| | | |].
      - unfold wake, suspend. cbn. by rewrite !dom_alter_L.
      - etrans; [eapply stack_upd; [apply Htj1|done]|eapply stack_upd; [apply Ht|done]].
      - unfold wake, suspend. cbn. rewrite (alter_two _ _ _ me x) by done.
        rewrite (alter_lookup _ _ j xj) by by rewrite lookup_insert_ne.
        eapply rel_wake; [exact Hfj|by rewrite lookup_insert_ne|exact Htj1| |];
          intros; by rewrite Hsj.
      - apply Forall2_app; [apply HW|]. constructor; [done|constructor]. }
    destruct (world_head _ _ _ _ _ Hd Hs HW1)
      as (t' & ts & x' & p' & c' & q' & Hr' & Hq' & Hx' & Hst' & Ht' & (L' & HL') & ->).
    eexists _, _. split.
    + eapply (lrun_exit_wake cl k i me p kx c m q _ pj [] cj p' q' c' v K);
        [done..|apply Htj|by rewrite (tr_state _ _ _ _ _ _ _ Htj), Hsj| |done|apply Ht'| | | |
         exact HL'].
      * by rewrite (tr_tid _ _ _ _ _ _ _ Htj).
      * by rewrite (tr_state _ _ _ _ _ _ _ Ht'), Hst'.
      * rewrite (tr_tid _ _ _ _ _ _ _ Ht'). apply Ht'.
      * apply Ht'.
    + rewrite Hq' in HW1. eapply refines_switch; [done..|apply Hcpu|].
      rewrite Hsem. assert (length (q ++ [pj]) = S (length q')) as Hl by by rewrite Hq'.
      rewrite length_app in Hl. cbn in Hl. do 2 f_equal. lia.
  - pose proof (wf_join_one _ _ _ _ _ Hw me) as H1.
    rewrite (joiners_lookup _ _ _ Hx), Hj in H1. cbn in H1. lia.
Qed.

(** The end of a join: [m1] is what [join_finish] leaves. *)
Lemma sim_joined d pret kont s' P' xd pd cd bv' :
  s_join_done d pret kont s = Some s' → sp_threads s !! d = Some xd →
  trel (m_tcbs m) (m_heap m) (m_stacks m) d xd pd cd →
  tids_free (set_bitvec bv' m) (dom (sp_threads s) ∖ {[d]}) →
  lrun (text cl) k P' m (user L (kont 0)) (masked false k (joined d pret pd cd bv' m)) →
  simulates s' P' m.
Proof.
  intros Hs Hxd Htd Htf Hrun. pose proof Hac as [Hcpu Hqt HW Hx Hst Ht Hcst _ Hrq Hsem].
  unfold s_join_done in Hs. rewrite Hxd in Hs. cbn in Hs.
  destruct (at_status xd) as [| | | |v] eqn:Hstd; try done. injection Hs as <-.
  assert (Hstat : stat s d = Some (SFinished v)).
  { unfold stat. rewrite Hxd. cbn. by rewrite Hstd. }
  assert (Hdm : me ≠ d). { intros <-. congruence. }
  assert (Hd : 0 ≤ d < Z.of_nat (length (m_tcbs m))).
  { rewrite (w_len _ _ _ _ HW). apply Htd. }
  assert (Hjo : ∀ t y, sp_threads s !! t = Some y → d ∉ at_joiners y).
  { intros t y Hy Hin. rewrite <- (joiners_lookup _ _ _ Hy) in Hin.
    apply (wf_join _ _ _ _ _ Hw) in Hin. congruence. }
  assert (Hpp : p ≠ pd). { intros ->. destruct Hdm. by eapply trel_inj. }
  pose proof (rel_reap _ _ _ _ _ _ _ _ (w_threads _ _ _ _ HW) Hxd Htd Hd Hjo) as Hrel.
  assert (Hret : t_retval cd = v) by by apply Htd.
  set (s1 := set_sp_vars (match pret with Some y => <[y := v]> (sp_vars s) | None => sp_vars s end)
               (set_sp_threads (delete d (sp_threads s)) s)).
  apply (sim_go s1 (masked false k (joined d pret pd cd bv' m)) q x c); try done.
  - pose proof (discipline_reap _ _ _ _ _ _ _ Hw Hstat) as H1. disc H1; [| |done].
    + unfold stat, at_. cbn. rewrite lookup_delete. by repeat case_decide.
    + unfold joiners at 1. cbn. rewrite lookup_delete. case_decide as E; [|done]. cbn.
      rewrite <- E. symmetry. by eapply (wf_finished _ _ _ _ _ Hw).
  - cbn. by rewrite lookup_delete_ne.
  - apply world_masked. destruct HW. unfold joined. constructor; try done; mproj.
    + apply addrs_other; [done| |done]. intros Hin. apply (wf_ready _ _ _ _ _ Hw) in Hin. congruence.
    + cbn. by rewrite dom_delete_L.
    + by rewrite length_insert.
    + intros l Hl. destruct (w_fresh0 l Hl) as [Hh Hs]. split; [|by apply stack_freed_None].
      rewrite lookup_delete. by case_decide.
    + intros a n ws Ha. destruct (w_sems0 a n ws Ha) as (qs & Hf & Hl). exists qs.
      split; [done|]. apply addrs_other; [done| |done]. intros Hin.
      assert (stat s d = Some (SWaitSem a)); [|congruence].
      apply (wf_sem _ _ _ _ _ Hw). unfold waiters. cbn in Ha. by rewrite Ha.
    + rewrite Hret, w_vars0. by destruct pret.
    + destruct w_owned0 as (la & ls & y & Ho). exists la, ls, y. cbn.
      rewrite dom_delete_L, fmap_delete. eapply owned_reap; [exact Ho|exact Hd|apply Htd| |done..].
      rewrite lookup_fmap, (tr_heap _ _ _ _ _ _ _ Htd). done.
  - unfold joined. mproj. apply trel_other; try done.
    + by eapply Hjo.
    + intros l H1 H2. apply Hdm. by eapply (ts_own _ _ _ _ (w_threads _ _ _ _ HW) me d).
Qed.

Lemma stack_owned_of d xd pd cd : trel (m_tcbs m) (m_heap m) (m_stacks m) d xd pd cd →
  stack_owned m cd.
Proof.
  intros []. destruct tr_stack0 as [?|(l & [_ Hl] & Hst)]; [by left|right; eauto].
Qed.

Lemma sim_join_resume d pret kont s' K :
  s_join_done d pret kont s = Some s' → K 0 = user L (kont 0) →
  simulates s' (pbind (join_resume d pret) K) m.
Proof.
  intros Hs HK. pose proof Hac as [Hcpu Hqt HW Hx Hst Ht Hcst _ Hrq Hsem].
  destruct (sp_threads s !! d) as [xd|] eqn:Hxd; [|by unfold s_join_done in Hs; rewrite Hxd in Hs].
  destruct (ts_rel _ _ _ _ (w_threads _ _ _ _ HW) d xd Hxd) as (pd & cd & Htd).
  assert (Hstd : ∃ v, at_status xd = SFinished v).
  { unfold s_join_done in Hs. rewrite Hxd in Hs. cbn in Hs. destruct (at_status xd); eauto; done. }
  destruct Hstd as [v Hv]. destruct (tr_join _ _ _ _ _ _ _ Htd) as (js & Hjs & _).
  destruct (ev_join_resume k m d pret pd cd js (dom (sp_threads s))) as (bv' & Hbv & Htf & He);
    [apply HW|apply HW|apply Htd|apply Htd|apply Htd| |done|by eapply stack_owned_of|].
  { by rewrite (tr_state _ _ _ _ _ _ _ Htd), Hv. }
  eapply sim_joined; [done|done|exact Htd|exact Htf|]. rewrite <- HK.
  eapply lrun_done; [apply Hcpu|exact He].
Qed.

Lemma sim_join d pret kont s' K :
  s_join d pret kont s = Some s' → (∀ r, K r = user L (kont r)) →
  simulates s' (pbind (uthread_join d pret) K) m.
Proof.
  intros Hs HK. pose proof Hac as [Hcpu Hqt HW Hx Hst Ht Hcst _ Hrq Hsem].
  apply s_join_inv in Hs as (Hd & xd & Hxd & Hs); [|done].
  destruct (ts_rel _ _ _ _ (w_threads _ _ _ _ HW) d xd Hxd) as (pd & cd & Htd).
  destruct (tr_join _ _ _ _ _ _ _ Htd) as (js & Hjs & Hjs2).
  destruct Hs as [(v & Hv & Hs)|(Hnf & Hj & Hjm & Hs)].
  - destruct (ev_join_now k i me p kx c m d pret pd cd js (dom (sp_threads s)))
      as (bv' & Hbv & Htf & He);
      [done|apply HW|apply HW|apply Htd|apply Htd|apply Htd| |done|by eapply stack_owned_of|].
    { by rewrite (tr_state _ _ _ _ _ _ _ Htd), Hv. }
    eapply sim_joined; [done|done|exact Htd|exact Htf|]. rewrite <- HK.
    eapply lrun_done; [apply Hcpu|exact He].
  - pose proof (join_mid d pret kont xd s Hw Hd Hxd Hj Hnf) as Hdisc.
    assert (Hpp : pd ≠ p). { intros ->. destruct Hd. by eapply trel_inj. }
    rewrite Hj in Hjs2. apply Forall2_nil_inv_l in Hjs2 as ->.
    assert (Hjc : t_joinq c = Some []).
    { destruct (tr_join _ _ _ _ _ _ _ Ht) as (jm & Hjm' & Hl).
      rewrite (joiners_lookup _ _ _ Hx) in Hjm. rewrite Hjm in Hl.
      by apply Forall2_nil_inv_l in Hl as ->. }
    set (c1 := saved (mask_blocked k m) (pbind (join_resume d pret) K) (waiting_join c)).
    set (h1 := <[p := c1]> (m_heap m)).
    set (h := <[pd := set_t_joinq (Some ([] ++ [p])) cd]> h1).
    pose proof (suspend_rel (SWaitJoin d) (mask_blocked k m) (pbind (join_resume d pret) K)
      (AJoin d pret kont)) as Hr1.
    assert (Htd1 : trel (m_tcbs m) h1 (m_stacks m) d xd pd cd) by by apply trel_ne.
    assert (HW1 : world (join_waits d pret kont s) m h q).
    { eapply world_same; [exact HW|done..| | | |apply HW].
      - unfold join_waits, suspend. by rewrite !dom_upd.
      - etrans; [eapply stack_upd; [apply Htd1|done]|eapply stack_upd; [apply Ht|done]].
      - unfold join_waits, suspend. unfold suspend in Hr1. cbn [sp_threads upd_thread set_sp_threads] in Hr1 |- *.
        rewrite (alter_lookup _ _ me x) in Hr1 |- * by done.
        rewrite (alter_lookup _ _ d xd) by by rewrite lookup_insert_ne.
        eapply rel_joiners; [apply Hr1; try done|by rewrite lookup_insert_ne|exact Htd1|].
        + cbn [prog_of]. apply pbind_ext, HK.
        + constructor; [apply Ht|constructor]. }
    destruct (world_head _ _ _ _ _ Hdisc Hs HW1)
      as (t' & ts & x' & p' & c' & q' & Hr' & -> & Hx' & Hst' & Ht' & (L' & HL') & ->).
    eexists _, _. split.
    + eapply (lrun_join_block cl k i me p kx c m d pret pd cd [] _ p' q' c' K);
        [done|done|cbn; lia|done|apply Htd|done|apply Htd| |done|done|apply Ht'| | | |
         exact HL'].
      * rewrite (tr_state _ _ _ _ _ _ _ Htd). intros E. destruct (at_status xd) eqn:E'; try done.
        by destruct (Hnf v).
      * by rewrite (tr_state _ _ _ _ _ _ _ Ht'), Hst'.
      * rewrite (tr_tid _ _ _ _ _ _ _ Ht'). apply Ht'.
      * apply Ht'.
    + eapply refines_switch; [done..|by eapply world_ksem|exact Ht'|apply Hcpu|].
      mproj. rewrite lookup_insert_eq. f_equal. cbn. lia.
Qed.

(** A semaphore's entry changes. *)
Lemma world_sem s0 m0 h q0 a n ws qs : world s0 m0 h q0 → Forall2 (addr (m_tcbs m0)) ws qs →
  m_mutex m0 !! MSem a = Some None →
  world (set_sp_sems (<[a := (n, ws)]> (sp_sems s0)) s0)
    (set_usem (<[a := Usem n (Some qs)]> (m_usem m0)) m0) h q0.
Proof.
  intros [] Hl Hlk. constructor; try done; [|by eapply accounted_frame].
  intros b n' ws' Hb. cbn in Hb.
  destruct (decide (b = a)) as [->|Hne].
  - rewrite lookup_insert_eq in Hb. injection Hb as <- <-. exists qs. split; [|done].
    split; [done|]. mproj. apply lookup_insert_eq.
  - rewrite lookup_insert_ne in Hb by done. destruct (w_sems0 _ _ _ Hb) as (qs' & [H1 H2] & H3).
    exists qs'. split; [|done]. split; [done|]. mproj. by rewrite lookup_insert_ne.
Qed.

(** A lock of the client, or of a semaphore, is free. *)
Lemma world_sem_lock s0 m0 h q0 a : world s0 m0 h q0 →
  world s0 (set_mutex (<[MSem a := None]> (m_mutex m0)) m0) h q0.
Proof.
  intros []. constructor; try done; try (mproj; by rewrite lookup_insert_ne).
  - destruct w_tids0 as [H1 H2]. split; [|done]. mproj. by rewrite lookup_insert_ne.
  - intros b n ws Hb. destruct (w_sems0 _ _ _ Hb) as (qs & [H1 H2] & H3).
    exists qs. split; [|done]. split; [|done]. mproj. rewrite lookup_insert. by case_decide.
  - intros b. mproj. by rewrite lookup_insert_ne.
  - by eapply accounted_frame.
Qed.

Lemma sim_sem_init a n kont s' K :
  s_sem_init a n kont s = Some s' → K 0 = user L (kont 0) →
  simulates s' (pbind (uthread_sem_init a n) K) m.
Proof.
  intros Hs HK. pose proof Hac as [Hcpu Hqt HW Hx Hst Ht Hcst _ Hrq Hsem].
  pose proof (s_sem_init_disciplined a n kont s s' Hw Hs) as Hw'.
  set (s1 := set_sp_sems (<[a := (n, [])]> (sp_sems s)) s).
  assert (Hwt : waiters s a = [] ∧ s' = go (kont 0) s1).
  { unfold s_sem_init in Hs. unfold waiters. destruct (sp_sems s !! a) as [[? [|]]|]; by simplify_eq. }
  destruct Hwt as [Hwt ->].
  pose proof (ev_sem_init k i me p kx c m a n Hcpu) as He.
  eapply (sim_go s1 _ q x c); [rewrite <- HK; eapply lrun_done; [apply Hcpu|exact He]|..]; try done.
  - eapply discipline_ext; [done|done| |exact Hw]. intros b. unfold s1. rewrite waiters_insert.
    unfold at_. case_decide; [by subst|done].
  - apply world_masked, world_errno.
    assert (world s1 (set_usem (<[a := Usem n (Some [])]> (m_usem m))
      (set_mutex (<[MSem a := None]> (m_mutex m)) m)) (m_heap m) q) as HW1.
    { apply (world_sem s (set_mutex (<[MSem a := None]> (m_mutex m)) m)); [by apply world_sem_lock|done|].
      mproj. apply lookup_insert_eq. }
    exact HW1.
Qed.

Lemma sim_sem_post a kont s' K :
  s_sem_post a kont s = Some s' → K 0 = user L (kont 0) →
  simulates s' (pbind (uthread_sem_post a) K) m.
Proof.
  intros Hs HK. pose proof Hac as [Hcpu Hqt HW Hx Hst Ht Hcst _ Hrq Hsem].
  unfold s_sem_post in Hs. destruct (sp_sems s !! a) as [[n ws]|] eqn:Ha; [|done]. cbn in Hs.
  case_decide as Hn; [|done].
  destruct (w_sems _ _ _ _ HW a n ws Ha) as (qs & Hfree & Hqs).
  assert (Hwt : waiters s a = ws) by (unfold waiters; by rewrite Ha).
  destruct ws as [|w ws]; injection Hs as <-.
  - apply Forall2_nil_inv_l in Hqs as ->.
    pose proof (ev_sem_post_free k i me p kx c m a n Hcpu Hfree Hn) as He.
    eapply (sim_go _ _ q x c); [rewrite <- HK; eapply lrun_done; [apply Hcpu|exact He]|..]; try done.
    + eapply discipline_ext; [done|done| |exact Hw]. intros b. rewrite waiters_insert.
      unfold at_. case_decide; [by subst|done].
    + apply world_masked, world_sem; [done|constructor|apply Hfree].
  - apply Forall2_cons_inv_l in Hqs as (pw & qs' & Hpw & Hqs & ->).
    assert (Hsw : stat s w = Some (SWaitSem a)).
    { apply (wf_sem _ _ _ _ _ Hw). rewrite Hwt. set_solver. }
    assert (Hwm : w ≠ me).
    { intros ->. rewrite (stat_lookup _ _ _ Hx) in Hsw. congruence. }
    unfold stat in Hsw. destruct (sp_threads s !! w) as [xw|] eqn:Hxw; [|done].
    injection Hsw as Hsw.
    destruct (ts_rel _ _ _ _ (w_threads _ _ _ _ HW) w xw Hxw) as (pw' & cw & Htw).
    assert (pw' = pw) as ->.
    { pose proof (tr_addr _ _ _ _ _ _ _ Htw) as E. unfold addr in *. congruence. }
    assert (Hpp : pw ≠ p). { intros ->. destruct Hwm. by eapply trel_inj. }
    pose proof (ev_sem_post_wake k i me p kx c m a n pw cw qs' q _ Hcpu Hqt Hfree) as He.
    rewrite (tr_state _ _ _ _ _ _ _ Htw), Hsw in He.
    specialize (He (tr_heap _ _ _ _ _ _ _ Htw) eq_refl Hn).
    set (s1 := set_sp_sems (<[a := (n + 1, ws)]> (sp_sems s)) s).
    eapply (sim_go (wake w s1) _ (q ++ [pw]) x c); [rewrite <- HK; eapply lrun_done; [apply Hcpu|exact He]|..]; try done.
    + disc (discipline_wake_waiter _ _ _ _ _ _ _ _ Hw Hwt).
      * rewrite stat_wake by (eexists; exact Hxw). done.
      * by rewrite joiners_wake.
      * apply (waiters_insert s).
    + cbn. rewrite lookup_alter_ne; done.
    + apply world_masked. eapply world_ksem; [done|].
      pose proof (world_sem s m (m_heap m) q a (n + 1) ws qs' HW Hqs (proj1 Hfree)) as HW1.
      fold s1 in HW1. eapply (world_same s1); [|done|done|done| | | |].
      * eapply world_frame; [exact HW1|done..|apply HW].
      * unfold wake. cbn. by rewrite dom_alter_L.
      * eapply stack_upd; [apply Htw|done].
      * unfold wake. cbn. rewrite (alter_lookup _ _ w xw) by done.
        eapply rel_wake; [apply HW|done|exact Htw| |]; intros; by rewrite Hsw.
      * apply Forall2_app; [apply HW|]. constructor; [done|constructor].
    + mproj. rewrite lookup_insert_eq, length_app. cbn. f_equal. lia.
    + mproj. apply trel_ne; [congruence|done].
Qed.

(** Waiting for a semaphore, at the call and when it is tried again. *)
Lemma sim_sem_wait a kont s' K P' :
  s_sem_wait a kont s = Some s' → (∀ r, K r = user L (kont r)) →
  P' = pbind (uthread_sem_wait a) K ∨ P' = sem_wait_resume a (Some p) K →
  simulates s' P' m.
Proof.
  intros Hs HK HP. pose proof Hac as [Hcpu Hqt HW Hx Hst Ht Hcst _ Hrq Hsem].
  unfold s_sem_wait in Hs. destruct (sp_sems s !! a) as [[n ws]|] eqn:Ha; [|done]. cbn in Hs.
  destruct (w_sems _ _ _ _ HW a n ws Ha) as (qs & Hfree & Hqs).
  assert (Hwt : waiters s a = ws) by (unfold waiters; by rewrite Ha).
  assert (Halive : alive k m) by apply Hcpu.
  case_decide as Hn; [|case_decide as Hn0; [|done]].
  - injection Hs as <-. eapply (sim_go _ _ q x c).
    + rewrite <- HK. destruct HP as [->| ->].
      * by eapply (lrun_sem_wait_take cl k i me p kx c m a n qs K).
      * by apply (lrun_sem_resume_take cl k m a n qs (Some p) K).
    + eapply discipline_ext; [done|done| |exact Hw]. intros b. rewrite waiters_insert.
      unfold at_. case_decide; [by subst|done].
    + done.
    + done.
    + done.
    + apply world_masked, world_sem; [done|exact Hqs|apply Hfree].
    + done.
    + done.
    + done.
    + done.
  - subst n.
    pose proof (sem_wait_mid a kont s Hw) as Hdisc. rewrite Hwt in Hdisc.
    set (c1 := saved (mask_blocked k m) (sem_wait_resume a (Some p) K) (waiting_sem c)).
    set (h := <[p := c1]> (m_heap m)).
    pose proof (suspend_rel (SWaitSem a) (mask_blocked k m) (sem_wait_resume a (Some p) K)
      (ASem a kont)) as Hr1.
    assert (HW1 : world (suspend (SWaitSem a) (ASem a kont) s) m h q).
    { eapply world_same; [exact HW|done..| | | |apply HW].
      - unfold suspend. by rewrite dom_upd.
      - eapply stack_upd; [apply Ht|done].
      - apply Hr1; [done|done|]. cbn [prog_of]. f_equal. apply functional_extensionality, HK. }
    assert (HW2 : world (sem_waits a ws kont s)
      (set_usem (<[a := Usem 0 (Some (qs ++ [p]))]> (m_usem m)) m) h q).
    { apply (world_sem (suspend (SWaitSem a) (ASem a kont) s)); [done| |apply Hfree].
      apply Forall2_app; [done|]. constructor; [apply Ht|constructor]. }
    destruct (world_head _ _ _ _ _ Hdisc Hs HW2)
      as (t' & ts & x' & p' & c' & q' & Hr' & -> & Hx' & Hst' & Ht' & (L' & HL') & ->).
    assert (Hlen : Z.of_nat (length qs) < INT_MAX).
    { pose proof (waiters_bound _ _ a Hw) as Hb. rewrite Hwt in Hb.
      rewrite <- (Forall2_length _ _ _ Hqs). unfold UTHREAD_MAX_THREADS, INT_MAX in *. lia. }
    assert (Hc1 : t_state c' = READY) by by rewrite (tr_state _ _ _ _ _ _ _ Ht'), Hst'.
    assert (Hc2 : valid_tid (t_tid c')) by (rewrite (tr_tid _ _ _ _ _ _ _ Ht'); apply Ht').
    assert (Hc3 : p' ≠ exitall) by apply Ht'.
    assert (Hc5 : h !! p' = Some c') by apply Ht'.
    assert (Hv : 0 < Z.of_nat (length (p' :: q'))) by (cbn; lia).
    eexists _, _. split.
    + destruct HP as [->| ->].
      * by eapply (lrun_sem_wait_block cl k i me p kx c m a qs p' q' _ c' K).
      * by eapply (lrun_sem_resume_block cl k i me p kx c m a qs p' q' _ c' K).
    + eapply refines_switch; [done..|by eapply world_ksem|exact Ht'|apply Hcpu|].
      mproj. rewrite lookup_insert_eq. f_equal. cbn. lia.
Qed.

Lemma sim_sem_destroy a kont s' K :
  s_sem_destroy a kont s = Some s' → K tt = user L (kont tt) →
  simulates s' (pbind (uthread_sem_destroy a) K) m.
Proof.
  intros Hs HK. pose proof Hac as [Hcpu Hqt HW Hx Hst Ht Hcst _ Hrq Hsem].
  unfold s_sem_destroy in Hs. destruct (sp_sems s !! a) as [[n ws]|] eqn:Ha; [|done]. cbn in Hs.
  destruct ws; [|done]. injection Hs as <-.
  destruct (w_sems _ _ _ _ HW a n [] Ha) as (qs & Hfree & Hqs).
  apply Forall2_nil_inv_l in Hqs as ->.
  eapply (sim_go _ _ q x c).
  - rewrite <- HK. eapply lrun_done; [apply Hcpu|].
    by apply (ev_sem_destroy k i me p kx c m a n).
  - eapply discipline_ext; [done|done| |exact Hw]. intros b. unfold waiters. cbn.
    rewrite lookup_delete. case_decide as E; [|done]. by rewrite <- E, Ha.
  - done.
  - done.
  - done.
  - apply world_masked. destruct HW. constructor; try done; try (mproj; by rewrite lookup_delete_ne).
    + destruct w_tids0 as [H1 H2]. split; [|done]. mproj. by rewrite lookup_delete_ne.
    + intros b n' ws Hb. cbn in Hb. apply lookup_delete_Some in Hb as [Hne Hb].
      destruct (w_sems0 _ _ _ Hb) as (qs & [H1 H2] & H3).
      exists qs. split; [|done]. split; [|done]. mproj. by rewrite lookup_delete_ne by congruence.
    + intros b. mproj. by rewrite lookup_delete_ne.
    + by eapply accounted_frame.
  - done.
  - done.
  - done.
  - done.
Qed.

Lemma sim_create ptid f arg base size kont s' K :
  s_create ptid f arg base kont s = Some s' → K 0 = user L (kont 0) →
  simulates s' (pbind (uthread_create ptid f arg base size) K) m.
Proof.
  intros Hs HK. pose proof Hac as [Hcpu Hqt HW Hx Hst Ht Hcst _ Hrq Hsem].
  set (s1 := λ r, set_sp_ready (sp_ready s ++ [r])
    (set_sp_threads (<[r := AThread SReady [] (AStart f arg)]> (sp_threads s))
      (set_sp_vars (<[ptid := r]> (sp_vars s)) s))).
  assert (Hs' : (∀ l', base ≠ SMalloc l') ∧ ∃ r, least_free s = Some r ∧ s' = go (kont 0) (s1 r)).
  { unfold s_create in Hs. destruct base; [|done|]; (split; [done|]);
      destruct (least_free s); try done; injection Hs as <-; eauto. }
  destruct Hs' as (Hb & r & Hr & ->). apply least_free_Some in Hr as (Hnone & Hv & Hlow).
  assert (Hout : r ∉ dom (sp_threads s)) by by apply not_elem_of_dom.
  assert (Hlow' : ∀ j, 0 ≤ j < r → j ∈ dom (sp_threads s)) by (intros; by apply elem_of_dom, Hlow).
  destruct (next_tid_free k m r _ (w_tids _ _ _ _ HW) Hv Hout Hlow') as (bv' & Hset & Htf & Hnext).
  pose proof (w_len _ _ _ _ HW) as Hlen.
  assert (Hrl : 0 ≤ r < Z.of_nat (length (m_tcbs m))) by (rewrite Hlen; exact Hv).
  assert (Hnst : stat s r = None) by (unfold stat; by rewrite Hnone).
  assert (Hrm : me ≠ r). { intros <-. congruence. }
  assert (Hjo : ∀ t y, sp_threads s !! t = Some y → r ∉ at_joiners y).
  { intros t y Hy Hin. rewrite <- (joiners_lookup _ _ _ Hy) in Hin.
    apply (wf_join _ _ _ _ _ Hw) in Hin. congruence. }
  destruct (w_fresh _ _ _ _ HW (m_next m)) as [Hf1 _]; [lia|].
  destruct (w_fresh _ _ _ _ HW (Pos.succ (m_next m))) as [_ Hf2]; [lia|].
  pose proof (w_next _ _ _ _ HW) as Hnx.
  assert (Hne : m_next m ≠ exitall) by (unfold exitall in *; lia).
  pose proof (rel_create _ _ _ _ r (m_next m) f arg base size (Pos.succ (m_next m))
    (mask_blocked k m) (w_threads _ _ _ _ HW) Hnone Hv Hlen Hf1 Hne Hb Hf2 Hjo) as Hrel.
  assert (Hrun : lrun (text cl) k (pbind (uthread_create ptid f arg base size) K) m
    (user L (kont 0)) (masked false k (thr_upd (set_k_errno 0) k
      (created k r ptid f arg base size bv' q (Z.of_nat (length q)) m)))).
  { rewrite <- HK. by eapply lrun_create_next. }
  eapply (sim_go (s1 r) _ (q ++ [m_next m]) x c); [exact Hrun|..]; try done.
  - disc (discipline_create _ _ _ _ _ _ Hw Hnst Hv); [| |done].
    + unfold stat, at_. cbn. rewrite lookup_insert. by repeat case_decide.
    + unfold joiners, at_. cbn. rewrite lookup_insert. by repeat case_decide.
  - cbn. by rewrite lookup_insert_ne.
  - apply world_masked, world_errno. unfold created. destruct HW. constructor; try done; mproj.
    + apply Forall2_app; [apply addrs_other; [done| |done]|].
      * intros Hin. apply (wf_ready _ _ _ _ _ Hw) in Hin. congruence.
      * constructor; [|constructor]. unfold addr. rewrite znth_insert by done.
        by rewrite decide_True.
    + cbn. by rewrite dom_insert_L.
    + by rewrite length_insert.
    + intros l Hl.
      assert (m_next m < l)%positive by (unfold stack_next in Hl; case_decide; lia).
      destruct (w_fresh0 l) as [H1 H2]; [lia|]. split.
      * rewrite lookup_insert_ne; [done|lia].
      * unfold stacks_with, stack_next in *. case_decide; [|done].
        rewrite lookup_insert_ne; [done|lia].
    + unfold stack_next. case_decide; lia.
    + intros a n ws Ha. destruct (w_sems0 a n ws Ha) as (qs & Hf & Hl). exists qs.
      split; [done|]. apply addrs_other; [done| |done]. intros Hin.
      assert (stat s r = Some (SWaitSem a)); [|congruence].
      apply (wf_sem _ _ _ _ _ Hw). unfold waiters. cbn in Ha. by rewrite Ha.
    + cbn. by rewrite w_vars0.
    + destruct w_owned0 as (la & ls & y & Ho). exists la, ls, y. cbn.
      rewrite dom_insert_L, fmap_insert.
      eapply (owned_create _ _ _ _ _ _ _ r _ _ (Pos.succ (m_next m)) (stack_size_of size));
        [exact Ho|exact Hrl|exact Hout| |exact Hne|done|done|done| |done|done|done|done|].
      * by rewrite lookup_fmap, Hf1.
      * intros u Hu. mproj. by rewrite lookup_insert_ne.
      * unfold new_tcb, stack_of, stack_ptr, stacks_with. cbn. case_decide; [by right|].
        left. done.
  - unfold created. mproj. rewrite lookup_insert_eq, length_app. cbn. f_equal. lia.
  - unfold created. mproj.
    destruct (ts_rel _ _ _ _ Hrel me x) as (p1 & c1 & Ht1); [by rewrite lookup_insert_ne|].
    assert (p1 = p ∧ c1 = c) as [-> ->]; [|done].
    assert (p1 = p) as ->.
    { pose proof (tr_addr _ _ _ _ _ _ _ Ht1) as E.
      pose proof (addr_other _ r me p (Some (m_next m)) Hrl Hrm (tr_addr _ _ _ _ _ _ _ Ht)) as E'.
      unfold addr in *. congruence. }
    split; [done|]. pose proof (tr_heap _ _ _ _ _ _ _ Ht1) as E.
    pose proof (tr_heap _ _ _ _ _ _ _ Ht) as E'.
    rewrite lookup_insert_ne in E; [congruence|]. intros Heq. rewrite Heq in Hf1. congruence.
Qed.

(** Calls that touch nothing but the client's own variables and locks. *)
Lemma sim_self K kont : (∀ r, K r = user L (kont r)) →
  simulates (go (kont me) s) (pbind uthread_self K) m.
Proof.
  intros HK. pose proof Hac as [Hcpu Hqt HW Hx Hst Ht Hcst _ Hrq Hsem].
  eapply (sim_go s m q x c); try done. rewrite <- HK.
  eapply lrun_done; [apply Hcpu|].
  pose proof (ev_uthread_self k m i kx [] (oc_inited _ _ _ _ _ _ _ Hcpu) (oc_reg _ _ _ _ _ _ _ Hcpu)
    (oc_kinfo _ _ _ _ _ _ _ Hcpu)) as He.
  rewrite (oc_current _ _ _ _ _ _ _ Hcpu), to_uint_tid in He by apply Hcpu. exact He.
Qed.

(** A thread starts with its function, and ends with [uthread_exit]. *)
Lemma sim_start f arg : at_cont x = AStart f arg → simulates (go (thread_body cl f arg) s) P m.
Proof.
  intros Hco. pose proof Hac as [Hcpu Hqt HW Hx Hst Ht Hcst HP Hrq Hsem].
  rewrite HP, Hco. cbn [prog_of].
  eapply (sim_go s m q x c); try done.
  eapply lrun_to; [|done].
  pose proof (lrun_start cl k i me p kx c m f arg (λ _, L) Hcpu (qt_tcbs _ _ _ Hqt) Hcst) as Hrun.
  assert (E : user L (thread_body cl f arg) =
    pbind (compile (cl f arg)) (λ v, pbind (uthread_exit v) (λ _, L))); [|by rewrite E].
  unfold user, thread_body. rewrite compile_ubind, pbind_assoc. apply pbind_ext. intros v.
  cbn [compile api]. by rewrite pbind_assoc.
Qed.

(** The client's variables and locks change, and nothing else. *)
Lemma world_client s0 m0 h q0 mm vars ms :
  world s0 m0 h q0 → (∀ u, (∀ a, u ≠ MUser a) → mm !! u = m_mutex m0 !! u) →
  (∀ a, mm !! MUser a = (λ b : bool, if b then Some k else None) <$> ms !! a) →
  world (set_sp_vars vars (set_sp_mutexes ms s0)) (set_user vars (set_mutex mm m0)) h q0.
Proof.
  intros [] Hu Hms. constructor; try done; try (mproj; by rewrite Hu).
  - destruct w_tids0 as [H1 H2]. split; [|done]. mproj. by rewrite Hu.
  - intros a n ws Ha. destruct (w_sems0 a n ws Ha) as (qs & [H1 H2] & H3).
    exists qs. split; [|done]. split; [|done]. mproj. by rewrite Hu.
  - by eapply accounted_frame.
Qed.

Lemma sim_client mm vars ms pr P' :
  lrun (text cl) k P' m (user L pr) (set_user vars (set_mutex mm m)) →
  (∀ u, (∀ a, u ≠ MUser a) → mm !! u = m_mutex m !! u) →
  (∀ a, mm !! MUser a = (λ b : bool, if b then Some k else None) <$> ms !! a) →
  simulates (go pr (set_sp_vars vars (set_sp_mutexes ms s))) P' m.
Proof.
  intros Hrun Hu Hms. pose proof Hac as [Hcpu Hqt HW Hx Hst Ht Hcst HP Hrq Hsem].
  eapply (sim_go _ _ q x c); [exact Hrun|..]; try done. by apply world_client.
Qed.

Lemma set_spec_id : set_sp_vars (sp_vars s) (set_sp_mutexes (sp_mutexes s) s) = s.
Proof. by destruct s. Qed.

(** A command of the client: it changes its variables, or one of its locks. *)
Lemma sim_vars {B} (c0 : cmd B) b (kont : B → uprog Z) vars P' :
  is_control c0 = false → exec c0 k true m = XOk b (set_user vars m) →
  P' = pbind (do_ c0) (λ b, user L (kont b)) →
  simulates (go (kont b) (set_sp_vars vars s)) P' m.
Proof.
  intros Hc0 He ->. pose proof Hac as [Hcpu Hqt HW Hx Hst Ht Hcst HP Hrq Hsem].
  assert (E : set_sp_vars vars s = set_sp_vars vars (set_sp_mutexes (sp_mutexes s) s)).
  { by destruct s. }
  rewrite E. eapply (sim_client (m_mutex m)); [|done|apply HW].
  eapply (lrun_to _ _ _ _ _ (set_user vars m)); [|by destruct m].
  exact (lrun_exec (text cl) c0 (λ b, user L (kont b)) k true m b _ (oc_alive _ _ _ _ _ _ _ Hcpu) Hc0 He).
Qed.

Lemma sim_mutex {B} (c0 : cmd B) b (kont : B → uprog Z) mm ms P' :
  is_control c0 = false → exec c0 k true m = XOk b (set_mutex mm m) →
  P' = pbind (do_ c0) (λ b, user L (kont b)) →
  (∀ u, (∀ a, u ≠ MUser a) → mm !! u = m_mutex m !! u) →
  (∀ a, mm !! MUser a = (λ b : bool, if b then Some k else None) <$> ms !! a) →
  simulates (go (kont b) (set_sp_mutexes ms s)) P' m.
Proof.
  intros Hc0 He -> Hu Hms. pose proof Hac as [Hcpu Hqt HW Hx Hst Ht Hcst HP Hrq Hsem].
  assert (E : set_sp_mutexes ms s = set_sp_vars (sp_vars s) (set_sp_mutexes ms s)).
  { by destruct s. }
  rewrite E. eapply (sim_client mm); [|done|done].
  eapply (lrun_to _ _ _ _ _ (set_mutex mm m)).
  - exact (lrun_exec (text cl) c0 (λ b, user L (kont b)) k true m b _ (oc_alive _ _ _ _ _ _ _ Hcpu) Hc0 He).
  - rewrite <- (w_vars _ _ _ _ HW). by destruct m.
Qed.

Lemma user_mutex_other a o (u : mutex_id) : (∀ a', u ≠ MUser a') →
  <[MUser a := o]> (m_mutex m) !! u = m_mutex m !! u.
Proof. intros Hu. by rewrite lookup_insert_ne by (intros <-; by apply (Hu a)). Qed.
Lemma user_mutex_insert a (b : bool) a' :
  <[MUser a := if b then Some k else None]> (m_mutex m) !! MUser a' =
  (λ b : bool, if b then Some k else None) <$> <[a := b]> (sp_mutexes s) !! a'.
Proof.
  pose proof (w_mutexes _ _ _ _ (ac_world _ _ _ _ _ _ _ _ _ Hac)) as Hm.
  rewrite !lookup_insert. repeat case_decide; simplify_eq; try done.
Qed.

(** Every call of the interface does what the abstract scheduler says. *)
Lemma sim_call {B} (c0 : ucmd B) kont s' :
  s_call cl c0 kont s = Some s' →
  simulates s' (pbind (api c0) (λ b, user L (kont b))) m.
Proof.
  intros Hs. pose proof Hac as [Hcpu Hqt HW Hx Hst Ht Hcst HP Hrq Hsem].
  pose proof (w_mutexes _ _ _ _ HW) as Hms.
  destruct c0; cbn [s_call api] in *; try done.
  - by eapply sim_create.
  - by eapply sim_exit.
  - by eapply sim_join.
  - injection Hs as <-. by apply sim_self.
  - by eapply sim_yield.
  - by eapply sim_sem_init.
  - by eapply sim_sem_post.
  - eapply sim_sem_wait; [exact Hs|done|by left].
  - by eapply sim_sem_destroy.
  - injection Hs as <-.
    assert (E : s = set_sp_vars (sp_vars s) s) by by destruct s. rewrite E at 2.
    eapply (sim_vars (Load (VUser x0))); [done| |done].
    cbn. rewrite <- (w_vars _ _ _ _ HW). by destruct m.
  - injection Hs as <-. eapply (sim_vars (Store (VUser x0) v)); [done| |done].
    cbn. by rewrite <- (w_vars _ _ _ _ HW).
  - injection Hs as <-. eapply (sim_mutex (MutexInit (MUser a)) 0); [done|done|done|..].
    + intros u Hu. by apply user_mutex_other.
    + apply (user_mutex_insert a false).
  - case_decide as Ha; [|done]. injection Hs as <-.
    eapply (sim_mutex (MutexLock (MUser a)) 0); [done| |done|..].
    + cbn. rewrite Hms, Ha. done.
    + intros u Hu. by apply user_mutex_other.
    + apply (user_mutex_insert a true).
  - case_decide as Ha; [|done]. injection Hs as <-.
    eapply (sim_mutex (MutexUnlock (MUser a)) 0); [done| |done|..].
    + cbn. rewrite Hms, Ha. cbn. rewrite decide_True by done. done.
    + intros u Hu. by apply user_mutex_other.
    + apply (user_mutex_insert a false).
  - case_decide as Ha; [|done]. injection Hs as <-.
    eapply (sim_mutex (MutexDestroy (MUser a)) 0); [done| |done|..].
    + cbn. rewrite Hms, Ha. done.
    + intros u Hu. rewrite lookup_delete_ne; [done|]. intros <-. by apply (Hu a).
    + intros a'. rewrite !lookup_delete. repeat case_decide; simplify_eq; try done.
  - injection Hs as <-. eapply (sim_go s m q x c); try done.
    assert (E : user L (ubind (cl f arg) kont) =
      pbind (compile (cl f arg)) (λ b, user L (kont b))); [|rewrite E; apply lrun_call, Hcpu].
    unfold user. rewrite compile_ubind. apply pbind_assoc.
Qed.
End calls.

(** One abstract step is a run of the kernel thread. *)
Lemma sim_step s P m s' : refines s P m → sstep cl s = Some s' → simulates s' P m.
Proof.
  intros Hr Hs. assert (Hw : swf s) by apply Hr.
  destruct (refines_at_call _ _ _ Hr) as (L & x & p & kx & c & q & Hac).
  pose proof (ac_prog _ _ _ _ _ _ _ _ _ Hac) as HP.
  unfold sstep in Hs. rewrite (ac_thread _ _ _ _ _ _ _ _ _ Hac) in Hs. cbn in Hs.
  destruct (at_cont x) as [f arg|[v|B c0 kont]|d pret kont|a kont] eqn:Hco; cbn [prog_of] in HP.
  - injection Hs as <-. by eapply sim_start.
  - done.
  - rewrite HP, user_vis. by eapply sim_call.
  - rewrite HP. by eapply sim_join_resume.
  - rewrite HP. eapply sim_sem_wait; [done|exact Hac|exact Hs|done|by right].
Qed.

Lemma sim_run n s P m : refines s P m →
  ∃ P' m', lrun (text cl) k P m P' m' ∧ refines (srun cl n s) P' m'.
Proof.
  revert s P m. induction n as [|n IH]; intros s P m Hr; cbn [srun].
  { exists P, m. split; [|done]. apply lrun_refl.
    destruct (refines_at_call _ _ _ Hr) as (L & x & p & kx & c & q & Hac). apply Hac. }
  destruct (sstep cl s) as [s'|] eqn:Hs.
  - destruct (sim_step _ _ _ _ Hr Hs) as (P1 & m1 & Hrun & Hr1).
    destruct (IH _ _ _ Hr1) as (P2 & m2 & Hrun2 & Hr2).
    exists P2, m2. split; [by eapply lrun_trans|done].
  - exists P, m. split; [|done]. apply lrun_refl.
    destruct (refines_at_call _ _ _ Hr) as (L & x & p & kx & c & q & Hac). apply Hac.
Qed.
End refine.
