(* ===== verification/Init.v ===== *)
(** * uthread_init establishes the abstract scheduler's initial state

    With one kernel thread, [uthread_init] takes a process in which the library
    is not initialised to a machine that represents [sp_init]. *)
From S2P Require Import Prelude Bitvec Machine Kthread Uthread Client Eval UthreadEval Sched Api.
From S2P Require Import Owned Spec Refine.
Local Open Scope prog_scope.

(** [init_abort_ctx] and [init_kthread_info] after their [getcontext]. *)
Definition abort_ctx_rest : prog unit :=
  Store (VCtxLink CtxAbort) None ;;
  r ← allocate_stack CtxAbort SNull 0;
  passert (r =? 0) ;;
  Store VErrno 0 ;;
  Makecontext CtxAbort FAbort ;;
  e ← Load VErrno;
  if negb (e =? 0) then abort else Ret tt.

Definition kinfo_rest (i : Z) : prog unit :=
  Store (VCtxLink (CtxSched i)) (Some CtxAbort) ;;
  r ← allocate_stack (CtxSched i) SNull 0;
  passert (r =? 0) ;;
  Store VErrno 0 ;;
  Makecontext (CtxSched i) FSchedule ;;
  e ← Load VErrno;
  (if negb (e =? 0) then abort else Ret tt) ;;
  Store (VKiTimer i) 0 ;;
  Store (VKiPreempted i) 0.

(** [uthread_init] after [init_abort_ctx], and after its first loop. *)
Definition init_end (n : Z) : prog Z :=
  pfor (Z.to_nat (n - (MAIN_KTHREAD_INDEX + 1))) (MAIN_KTHREAD_INDEX + 1)
    (λ i _, or_abort (kthread_create (KinfoKtid i) KthreadMain 0)) tt ;;
  Store VInited 1 ;;
  pfor (Z.to_nat (to_size_t (n - 1))) 0 (λ _ _, or_abort (kthread_sem_post KInited)) tt ;;
  quantum ← Load VQuantum;
  (if negb (quantum =? 0) then
     self ← kthread_self;
     set_timer_interrupt self
   else Ret tt) ;;
  unblock_sigrtmin ;;
  Ret 0.
Definition init_rest : prog Z :=
  ok ← Choose;
  passert ok ;;
  n ← Load VNumKthreads;
  pfor (Z.to_nat n) 0 (λ i _, init_kthread_info i) tt ;;
  init_end n.

(** One thread, which runs. *)
Lemma sp_init_wf u vars : swf (sp_init u vars).
Proof.
  assert (Hst : ∀ t, stat (sp_init u vars) t = if decide (t = 0) then Some SRunning else None).
  { intros t. unfold stat, sp_init. cbn [sp_threads]. rewrite lookup_singleton.
    unfold UTHREAD_TID_MAIN. by repeat case_decide. }
  assert (Hj : ∀ t, joiners (sp_init u vars) t = []).
  { intros t. unfold joiners, sp_init. cbn [sp_threads]. rewrite lookup_singleton.
    by case_decide. }
  assert (Hw : ∀ a, waiters (sp_init u vars) a = []) by done.
  constructor; intros *; rewrite ?Hst, ?Hj, ?Hw; cbn;
    try case_decide; subst; first [by constructor | naive_solver | set_solver | by intros _; split].
Qed.

(** A process that may call [uthread_init]: the library holds nothing. *)
Record fresh_process (m : machine) (k : Z) : Prop := {
  fp_inited : m_inited m = 0;
  fp_alive : alive k m;
  fp_tcbs : m_tcbs m = replicate (Z.to_nat UTHREAD_MAX_THREADS) None;
  fp_heap : ∀ p c, m_heap m !! p = Some c → p = exitall ∧ stack_of c = None;
  fp_stacks : m_stacks m = ∅;
  fp_kinfo : m_kinfo m = ∅;
  fp_timers : m_timers m = ∅;
  fp_next : (exitall < m_next m)%positive;
  fp_mutexes : ∀ a, m_mutex m !! MUser a = None;
}.

Lemma fp_len m k : fresh_process m k → length (m_tcbs m) = Z.to_nat UTHREAD_MAX_THREADS.
Proof. intros H. by rewrite (fp_tcbs _ _ H), length_replicate. Qed.
Lemma fp_fresh m k l : fresh_process m k → (m_next m ≤ l)%positive →
  m_heap m !! l = None ∧ m_stacks m !! l = None.
Proof.
  intros [] Hl. rewrite fp_stacks0. split; [|done]. apply eq_None_not_Some. intros [c Hc].
  apply fp_heap0 in Hc as [-> _]. lia.
Qed.
Lemma znth_replicate {A} n (x : A) i y : znth (replicate n x) i = Some y → y = x.
Proof.
  unfold znth. case_decide; [|done]. intros Hl. by apply lookup_replicate in Hl as [-> _].
Qed.

Section init.
Context (k q : Z).

(** The machine when [init_main_thread] is called, and after it. *)
Definition init0 (bv : bitvec_t) (m : machine) : machine :=
  set_bitvec bv
    (set_ksem (<[KNotEmpty := 0]> (<[KExitall := 0]> (<[KInited := 0]> (m_ksem m))))
      (set_mutex (<[MRqueue := None]> (<[MBitvec := None]> (<[MTcbs := None]> (m_mutex m))))
        (set_rqueue (Some [])
          (masked true k (set_sigset true (set_quantum q (set_num_kthreads 1 m))))))).
Definition init1 (bv : bitvec_t) (m : machine) : machine :=
  set_bitvec bv
    (set_heap (<[m_next m := Tcb 0 0 RUNNING 0 (Some []) uc0]> (m_heap m))
      (set_tcbs (<[0%nat := Some (m_next m)]> (m_tcbs m))
        (set_next (Pos.succ (m_next m)) m))).

(** Thread 0 gets the first tid and a block. *)
Lemma ev_init_main_thread m : tids_free m ∅ → 0 < Z.of_nat (length (m_tcbs m)) →
  ∃ bv, tids_free (init1 bv m) {[0]} ∧
    eval init_main_thread k [] m = EDone tt [] (init1 bv m).
Proof.
  intros HS Hlen. assert (H0 : 0 ≤ 0 < Z.of_nat (length (m_tcbs m))) by lia.
  assert (∀ o, zupd (m_tcbs m) 0 o = Some (<[0%nat := o]> (m_tcbs m))) as Hz.
  { intros o. by apply (zupd_in _ 0). }
  assert (∀ o, znth (<[0%nat := o]> (m_tcbs m)) 0 = Some o) as Hzn.
  { intros o. pose proof (znth_insert (m_tcbs m) 0 0 o H0) as H. by rewrite decide_True in H. }
  assert (∀ m', m_tcbs m' = <[0%nat := Some (m_next m)]> (m_tcbs m) →
    eval (tcb_of 0) k [] m' = EDone (m_next m) [] m') as Hld.
  { intros m' Hm'. unfold tcb_of. ev_cmd (rewrite Hm', Hzn). done. }
  destruct (ev_get_next_tid k m ∅ 0 [] HS) as (bv & Hnext & _ & HS'); [done|done|lia|].
  rewrite (right_id_L ∅ (∪)) in HS'. exists bv. split; [exact HS'|].
  unfold init_main_thread. erewrite eval_bind by exact Hnext.
  mnorm. ev_assert. ev_cmd. ev_cmd (rewrite Hz). ev_cmd (rewrite Hzn).
  rewrite bool_decide_true by eauto. ev_assert.
  ev_call Hld; [done|]. ev_cmd (erewrite st_tcb by lk).
  ev_call Hld; [done|]. ev_cmd (erewrite st_tcb by lk).
  ev_call Hld; [done|]. ev_cmd (erewrite st_tcb by lk).
  ev_call Hld; [done|]. unfold or_abort. ev_cmd (erewrite st_tcb by lk). reflexivity.
Qed.

Lemma ev_init1 m : fresh_process m k →
  ∃ bv0 bv, tids_free (init1 bv (init0 bv0 m)) {[0]} ∧
    eval (uthread_init 1 q) k [] m =
    EStop (Getcontext CtxAbort)
      (λ b, pbind (pbind (checked b) (λ _, abort_ctx_rest)) (λ _, init_rest)) []
      (init1 bv (init0 bv0 m)).
Proof.
  intros Hfp. pose proof (fp_inited _ _ Hfp) as Hin. pose proof (fp_len _ _ Hfp) as Hlen.
  destruct (bitvec_init_rep UTHREAD_MAX_THREADS) as (bv0 & Hbv & Hnb & Hrep); [done..|].
  assert (HS : tids_free (init0 bv0 m) ∅).
  { split; [unfold init0; lk|split; [exact Hrep|exact Hnb]]. }
  destruct (ev_init_main_thread (init0 bv0 m) HS) as (bv & HS' & Hmain).
  { change (m_tcbs (init0 bv0 m)) with (m_tcbs m). by rewrite Hlen. }
  exists bv0, bv. split; [exact HS'|].
  unfold uthread_init, kthread_sem_init, kthread_mutex_init. ev_cmd (rewrite Hin). ev_assert.
  ev_cmd. ev_cmd. ev_cmd. ev_cmd. ev_call ev_block.
  do 3 (erewrite eval_bind; cycle 1; [unfold or_abort; ev_cmd; done|mnorm]).
  ev_cmd. rewrite Hbv. ev_call ev_ret. ev_cmd. ev_call ev_ret.
  do 4 (erewrite eval_bind; cycle 1; [unfold or_abort; ev_cmd; done|mnorm]).
  erewrite eval_bind; cycle 1.
  { refine (eq_trans (f_equal (eval init_main_thread k []) (_ : _ = init0 bv0 m)) Hmain).
    unfold init0. machine_eq. }
  cbv beta. unfold init_abort_ctx. apply eval_bind_stop. apply ev_getcontext.
Qed.

(** The rest of [init_abort_ctx], and [init_kthread_info] up to its [getcontext]. *)
Definition init2 (m : machine) : machine :=
  set_kinfo (<[0 := Kinfo k 0 NONE None None 0 0 uc0]> (m_kinfo m))
    (thr_upd (set_k_errno 0) k
      (set_next (Pos.succ (m_next m))
        (set_stacks (<[m_next m := UTHREAD_DEF_STACK_SIZE]> (m_stacks m))
          (set_abort_ctx (Uctx None (SMalloc (m_next m)) UTHREAD_DEF_STACK_SIZE
            (uc_mask (m_abort_ctx m)) (CtxEntry FAbort)) m)))).

Lemma ev_init2 m : alive k m → m_num_kthreads m = 1 →
  eval (pbind abort_ctx_rest (λ _, init_rest)) k [] m =
  EStop (Getcontext (CtxSched 0))
    (λ b, pbind (pbind (pbind (checked b) (λ _, kinfo_rest 0)) Ret) (λ _, init_end 1)) []
    (init2 m).
Proof.
  intros (th & Hth & Hd) Hn. unfold abort_ctx_rest, allocate_stack.
  erewrite eval_bind; cycle 1.
  { ev_cmd. erewrite eval_bind; cycle 1.
    { ev_cmd. rewrite decide_True by done. erewrite eval_bind; cycle 1.
      { ev_cmd. done. } mnorm. ev_cmd. ev_cmd. done. }
    mnorm. ev_assert. ev_cmd. ev_cmd. ev_cmd (rewrite lookup_alter_eq, Hth; cbn). done. }
  mnorm. unfold init_rest. ev_cmd. ev_assert. ev_cmd. rewrite Hn.
  change (Z.to_nat 1) with 1%nat. cbn [pfor]. unfold init_kthread_info.
  do 2 apply eval_bind_stop. ev_cmd. ev_assert. unfold kthread_self. ev_cmd.
  do 5 (ev_cmd (erewrite st_kinfo by lk)). rewrite ev_getcontext.
  apply estop_eq. unfold init2. machine_eq.
Qed.

(** The entry of [kthread_info] once [init_kthread_info] returned. *)
Definition init_entry (l : positive) (x : kinfo) : kinfo :=
  Kinfo (ki_ktid x) (ki_current_tid x) (ki_task x) (ki_lock x) (ki_queue x) 0 0
    (Uctx (Some CtxAbort) (SMalloc l) UTHREAD_DEF_STACK_SIZE (uc_mask (ki_ctx x))
      (CtxEntry FSchedule)).
Definition init3 (x : kinfo) (m : machine) : machine :=
  set_kinfo (<[0 := init_entry (m_next m) x]> (m_kinfo m))
    (thr_upd (set_k_errno 0) k
      (set_next (Pos.succ (m_next m))
        (set_stacks (<[m_next m := UTHREAD_DEF_STACK_SIZE]> (m_stacks m)) m))).

Lemma ev_kinfo_rest m x : alive k m → m_kinfo m !! 0 = Some x →
  eval (kinfo_rest 0) k [] m = EDone tt [] (init3 x m).
Proof.
  intros (th & Hth & Hd) Hx. unfold kinfo_rest, allocate_stack.
  ev_cmd (erewrite st_kinfo by exact Hx).
  erewrite eval_bind; cycle 1.
  { ev_cmd (erewrite st_kinfo by lk). rewrite decide_True by done.
    erewrite eval_bind; cycle 1. { ev_cmd (erewrite ld_kinfo by lk). reflexivity. }
    mnorm. ev_cmd (erewrite st_kinfo by lk). ev_cmd (erewrite ld_kinfo by lk). done. }
  mnorm. ev_assert. ev_cmd. ev_cmd (erewrite st_kinfo by lk).
  ev_cmd (rewrite lookup_alter_eq, Hth; cbn). ev_call ev_ret.
  ev_cmd (erewrite st_kinfo by lk). cbn. erewrite st_kinfo by lk.
  cbn. f_equal. unfold init3, init_entry. machine_eq.
Qed.

(** The kernel thread's timer, when time slices are used. *)
Definition timer_started (x : kinfo) (m : machine) : machine :=
  if q =? 0 then m
  else
    let t := fresh_key (m_timers m) in
    set_handler true
      (set_timers (<[t := Timer k q]> (m_timers m))
        (set_kinfo (<[0 := set_ki_timer t x]> (m_kinfo m)) m)).

Lemma ev_set_timer_interrupt m x :
  registered m k 0 → m_kinfo m !! 0 = Some x → m_quantum m = q → q ≠ 0 → 0 ≤ q ≤ 999999999 →
  eval (set_timer_interrupt k) k [] m = EDone tt [] (timer_started x m).
Proof.
  intros Hr Hx Hq Hne Hb. unfold set_timer_interrupt, timer_started.
  rewrite (proj2 (Z.eqb_neq q 0)) by done.
  ev_call ev_get_kthread_info; [exact Hr|]. ev_cmd. ev_cmd.
  ev_cmd (erewrite st_kinfo by exact Hx). ev_cmd. rewrite Hq.
  ev_cmd (erewrite ld_kinfo by lk).
  ev_cmd (rewrite lookup_insert_eq, decide_True by done).
  cbn. f_equal. machine_eq.
Qed.

Lemma ev_init_end m x :
  registered m k 0 → m_kinfo m !! 0 = Some x → m_quantum m = q → 0 ≤ q ≤ 999999999 →
  eval (init_end 1) k [] m =
  EDone 0 [] (masked false k (timer_started x (set_inited 1 m))).
Proof.
  intros Hr Hx Hq Hb. unfold init_end.
  change (Z.to_nat (1 - (MAIN_KTHREAD_INDEX + 1))) with 0%nat.
  change (Z.to_nat (to_size_t (1 - 1))) with 0%nat. cbn [pfor].
  ev_call ev_ret. ev_cmd. ev_call ev_ret. ev_cmd.
  assert ((m_quantum m =? 0) = (q =? 0)) as -> by by rewrite Hq.
  destruct (Z.eqb_spec q 0) as [Hz|Hne]; cbn [negb].
  - ev_call ev_ret. ev_call ev_unblock. unfold timer_started.
    rewrite (proj2 (Z.eqb_eq q 0)) by done. reflexivity.
  - erewrite eval_bind; cycle 1.
    { ev_call ev_self. apply ev_set_timer_interrupt; [exact Hr|exact Hx|exact Hq|done|done]. }
    cbv beta. ev_call ev_unblock. reflexivity.
Qed.

(** The machine [uthread_init] leaves. *)
Definition init_ctx (m : machine) (rest : prog unit) : machine :=
  set_abort_ctx (set_uc_regs (mask_of k m) (CtxResume rest) (m_abort_ctx m)) m.
Definition saved_entry (m : machine) (rest : prog unit) : kinfo :=
  Kinfo k 0 NONE None None 0 0 (set_uc_regs (mask_of k m) (CtxResume rest) uc0).
Definition entry_ctx (m : machine) (rest : prog unit) : machine :=
  set_kinfo (<[0 := saved_entry m rest]> (m_kinfo m)) m.
Definition init_main (r2 : prog unit) (m2 : machine) : machine :=
  init3 (saved_entry m2 r2) (entry_ctx m2 r2).
Definition init_done (r2 : prog unit) (m2 : machine) : machine :=
  masked false k (timer_started (init_entry (m_next m2) (saved_entry m2 r2))
    (set_inited 1 (init_main r2 m2))).

Lemma alive_init1 bv bv0 m : alive k m → alive k (init1 bv (init0 bv0 m)).
Proof.
  intros Ha. eapply alive_threads; [reflexivity|]. eapply alive_threads; [reflexivity|].
  by apply (alive_masked true k k (set_sigset true (set_quantum q (set_num_kthreads 1 m)))).
Qed.

Lemma alive_init_ctx m r : alive k m → alive k (init_ctx m r).
Proof. by apply alive_threads. Qed.
Lemma alive_entry_ctx m r : alive k m → alive k (entry_ctx m r).
Proof. by apply alive_threads. Qed.
Lemma ctx_upd_init_ctx m r :
  ctx_upd (set_uc_regs (mask_of k m) (CtxResume r)) CtxAbort m = Ok (init_ctx m r).
Proof. done. Qed.
Lemma ctx_upd_entry_ctx m r : m_kinfo m !! 0 = Some (Kinfo k 0 NONE None None 0 0 uc0) →
  ctx_upd (set_uc_regs (mask_of k m) (CtxResume r)) (CtxSched 0) m = Ok (entry_ctx m r).
Proof. intros Hx. cbn. unfold kinfo_upd. by rewrite Hx. Qed.
Lemma init2_entry m : m_kinfo (init2 m) !! 0 = Some (Kinfo k 0 NONE None None 0 0 uc0).
Proof. unfold init2. lk. Qed.
Lemma alive_init2 m : alive k m → alive k (init2 m).
Proof.
  intros Ha. apply (alive_threads k (thr_upd (set_k_errno 0) k m)); [done|].
  by apply alive_thr_upd.
Qed.
Lemma alive_init3 x m : alive k m → alive k (init3 x m).
Proof.
  intros Ha. apply (alive_threads k (thr_upd (set_k_errno 0) k m)); [done|].
  by apply alive_thr_upd.
Qed.

Lemma registered_entry m x : m_num_kthreads m = 1 → m_kinfo m !! 0 = Some x → ki_ktid x = k →
  registered m k 0.
Proof.
  intros Hn Hx Hk. unfold registered, ktid_at. rewrite Hn. split_and!; [lia..| |].
  - intros j Hj. replace j with 0 by lia. eauto.
  - intros j Hj. replace j with 0 by lia. rewrite Hx. cbn. by rewrite Hk.
Qed.

Lemma init_main_registered r m : m_num_kthreads m = 1 → registered (init_main r m) k 0.
Proof.
  intros Hn. apply (registered_entry _ (init_entry (m_next m) (saved_entry m r)));
    [exact Hn|unfold init_main, init3; lk|done].
Qed.

(** From the second [getcontext] to the end. *)
Lemma lrun_init_end cl m K : alive k m → m_num_kthreads m = 1 → m_quantum m = q →
  0 ≤ q ≤ 999999999 → m_kinfo m !! 0 = Some (Kinfo k 0 NONE None None 0 0 uc0) →
  ∃ r, lrun (text cl) k
    (Vis (Getcontext (CtxSched 0)) (λ b, pbind (pbind (pbind (pbind (checked b)
      (λ _, kinfo_rest 0)) Ret) (λ _, init_end 1)) K)) m (K 0) (init_done r m).
Proof.
  intros Ha Hn Hq Hb Hx.
  set (r := pbind (pbind (pbind (kinfo_rest 0) Ret) (λ _, init_end 1)) K). exists r.
  eapply lrun_trans; [apply (lrun_getcontext (text cl) _ _ _ _ (entry_ctx m r));
    [exact Ha|by apply ctx_upd_entry_ctx]|].
  apply (lrun_done (text cl) (pbind (pbind (kinfo_rest 0) Ret) (λ _, init_end 1)) K k [] _ 0 []).
  { by apply alive_entry_ctx. }
  erewrite eval_bind; cycle 1.
  { erewrite eval_bind; cycle 1.
    { apply (ev_kinfo_rest _ (saved_entry m r)); [by apply alive_entry_ctx|].
      unfold entry_ctx. lk. }
    reflexivity. }
  apply (ev_init_end (init_main r m) (init_entry (m_next m) (saved_entry m r)));
    [by apply init_main_registered|unfold init_main, init3; lk|exact Hq|done].
Qed.

(** From the first one. *)
Lemma lrun_init_ctxs cl m K : alive k m → m_num_kthreads m = 1 → m_quantum m = q →
  0 ≤ q ≤ 999999999 →
  ∃ r1 r2, lrun (text cl) k
    (Vis (Getcontext CtxAbort) (λ b, pbind (pbind (pbind (checked b) (λ _, abort_ctx_rest))
      (λ _, init_rest)) K)) m (K 0) (init_done r2 (init2 (init_ctx m r1))).
Proof.
  intros Ha Hn Hq Hb.
  set (r1 := pbind (pbind abort_ctx_rest (λ _, init_rest)) K).
  pose proof (alive_init_ctx m r1 Ha) as Ha1.
  pose proof (ev_init2 (init_ctx m r1) Ha1 Hn) as He2.
  destruct (lrun_init_end cl (init2 (init_ctx m r1)) K) as [r2 Hrun];
    [by apply alive_init2|exact Hn|exact Hq|done|apply init2_entry|].
  exists r1, r2.
  eapply lrun_trans; [apply (lrun_getcontext (text cl) _ _ _ _ (init_ctx m r1));
    [exact Ha|apply ctx_upd_init_ctx]|].
  eapply lrun_trans; [eapply (lrun_stop (text cl)); [exact Ha1|exact He2]|]. exact Hrun.
Qed.

Lemma init1_num bv bv0 m : m_num_kthreads (init1 bv (init0 bv0 m)) = 1.
Proof. done. Qed.
Lemma init1_quantum bv bv0 m : m_quantum (init1 bv (init0 bv0 m)) = q.
Proof. done. Qed.

Lemma lrun_init cl m K : fresh_process m k → 0 ≤ q ≤ 999999999 →
  ∃ bv0 bv r1 r2, tids_free (init1 bv (init0 bv0 m)) {[0]} ∧
    lrun (text cl) k (pbind (uthread_init 1 q) K) m (K 0)
      (init_done r2 (init2 (init_ctx (init1 bv (init0 bv0 m)) r1))).
Proof.
  intros Hfp Hb. pose proof (fp_alive _ _ Hfp) as Ha.
  destruct (ev_init1 m Hfp) as (bv0 & bv & HS & He1).
  pose proof (alive_init1 bv bv0 m Ha) as Ha1.
  destruct (lrun_init_ctxs cl (init1 bv (init0 bv0 m)) K Ha1 (init1_num _ _ _)
    (init1_quantum _ _ _) Hb) as (r1 & r2 & Hrun).
  exists bv0, bv, r1, r2. split; [exact HS|].
  eapply lrun_trans; [eapply (lrun_stop (text cl)); [exact Ha|exact He1]|]. exact Hrun.
Qed.

(** What the end of [uthread_init] leaves alone, and what it writes. *)
Record init_point (m : machine) (p : loc) : Prop := {
  ip_addr : addr (m_tcbs m) 0 p;
  ip_heap : m_heap m !! p = Some (Tcb 0 0 RUNNING 0 (Some []) uc0);
  ip_ne : p ≠ exitall;
  ip_len : length (m_tcbs m) = Z.to_nat UTHREAD_MAX_THREADS;
  ip_tcbs : m_mutex m !! MTcbs = Some None;
  ip_ready : m_mutex m !! MRqueue = Some None;
  ip_user : ∀ a, m_mutex m !! MUser a = None;
  ip_tids : tids_free m {[0]};
  ip_rqueue : m_rqueue m = Some [];
  ip_sem : m_ksem m !! KNotEmpty = Some 0;
  ip_fresh : ∀ l, (m_next m ≤ l)%positive → m_heap m !! l = None ∧ m_stacks m !! l = None;
  ip_next : (exitall < m_next m)%positive;
  ip_num : m_num_kthreads m = 1;
  ip_quantum : m_quantum m = q;
  ip_null : ∀ t p', addr (m_tcbs m) t p' → t = 0;
  ip_blocks : ∀ p' c, m_heap m !! p' = Some c → (p' = exitall ∨ p' = p) ∧ stack_of c = None;
  ip_stacks : m_stacks m = ∅;
  ip_kinfo : m_kinfo m = ∅;
  ip_timers : m_timers m = ∅;
  ip_sems : is_Some (m_ksem m !! KInited) ∧ is_Some (m_ksem m !! KExitall);
}.

Ltac init_unfold :=
  unfold init_done, timer_started, init_main, init3, entry_ctx, init2, init_ctx;
  destruct (q =? 0).

Lemma init_done_heap r1 r2 m :
  let m' := init_done r2 (init2 (init_ctx m r1)) in
  m_tcbs m' = m_tcbs m ∧ m_heap m' = m_heap m ∧ m_rqueue m' = m_rqueue m ∧
  m_mutex m' = m_mutex m ∧ m_ksem m' = m_ksem m ∧ m_bitvec m' = m_bitvec m.
Proof. init_unfold; done. Qed.
Lemma init_done_control r1 r2 m :
  let m' := init_done r2 (init2 (init_ctx m r1)) in
  m_inited m' = 1 ∧ m_num_kthreads m' = m_num_kthreads m ∧ m_user m' = m_user m.
Proof. init_unfold; done. Qed.
Lemma init_done_stacks r1 r2 m :
  let m' := init_done r2 (init2 (init_ctx m r1)) in
  m_next m' = Pos.succ (Pos.succ (m_next m)) ∧
  m_stacks m' = <[Pos.succ (m_next m) := UTHREAD_DEF_STACK_SIZE]>
                  (<[m_next m := UTHREAD_DEF_STACK_SIZE]> (m_stacks m)).
Proof. init_unfold; done. Qed.
Lemma init_done_kinfo r1 r2 m :
  ∃ x, m_kinfo (init_done r2 (init2 (init_ctx m r1))) !! 0 = Some x ∧
    ki_ktid x = k ∧ ki_current_tid x = 0 ∧ ki_preempted x = 0 ∧
    uc_body (ki_ctx x) = CtxEntry FSchedule.
Proof. init_unfold; eexists; (split; [lk|done]). Qed.

Lemma init_done_kinfo_owned r1 r2 m p : init_point m p →
  let m' := init_done r2 (init2 (init_ctx m r1)) in
  ∃ x, m_kinfo m' = {[0 := x]} ∧ ss_sp (ki_ctx x) = SMalloc (Pos.succ (m_next m)) ∧
    ss_sp (m_abort_ctx m') = SMalloc (m_next m) ∧ m_quantum m' = q ∧
    (∀ t, is_Some (m_timers m' !! t) → q ≠ 0 ∧ t = ki_timer x).
Proof.
  intros []. unfold init_done, timer_started, init_main, init3, entry_ctx, init2, init_ctx.
  destruct (Z.eqb_spec q 0); mproj; rewrite ip_kinfo0, ip_timers0, ?insert_insert_eq;
    (eexists; split; [reflexivity|]); (split_and!; [done|done|done|]); intros t.
  - rewrite lookup_empty. by intros [].
  - rewrite lookup_insert. case_decide; [done|]. rewrite lookup_empty. by intros [].
Qed.

(** What it allocates: two stacks, the scheduler's record and, perhaps, its timer. *)
Lemma init_done_owned r1 r2 m p : init_point m p →
  accounted {[0]} (init_done r2 (init2 (init_ctx m r1)))
    (stack_of <$> m_heap (init_done r2 (init2 (init_ctx m r1)))).
Proof.
  intros Hip. destruct (init_done_heap r1 r2 m) as (Et & Eh & Er & Em & Es & Eb).
  destruct (init_done_control r1 r2 m) as (Ei & En & Eu).
  destruct (init_done_stacks r1 r2 m) as (Ex & Est).
  destruct (init_done_kinfo_owned r1 r2 m p Hip) as (x & Hx & Hsp & Hab & Hqu & Hti).
  destruct Hip. exists (m_next m), (Pos.succ (m_next m)), x.
  set (m' := init_done r2 (init2 (init_ctx m r1))) in *. clearbody m'.
  assert (Hf : ∀ p' o, (stack_of <$> m_heap m') !! p' = Some o → (p' = exitall ∨ p' = p) ∧ o = None).
  { intros p' o. rewrite Eh, lookup_fmap. intros (c & Hc & ->)%fmap_Some_1. by apply ip_blocks0 in Hc. }
  constructor; rewrite ?Et, ?Es, ?Hqu; try done.
  - by rewrite En.
  - intros t p' Ht. apply ip_null0 in Ht. set_solver.
  - intros p' [o Ho]. apply Hf in Ho as [[->| ->] _]; [by left|right; by exists 0].
  - intros o Ho. by apply Hf in Ho as [_ ?].
  - lia.
  - intros p'. split; intros Ho; apply Hf in Ho as [_ ?]; done.
  - intros l. rewrite Est, ip_stacks0, !lookup_insert. repeat case_decide; subst; eauto.
    rewrite lookup_empty. by intros [].
  - rewrite Est, ip_stacks0, !lookup_insert. repeat case_decide; eauto; lia.
Qed.

Lemma alive_timer_started x m : alive k m → alive k (timer_started x m).
Proof. unfold timer_started. destruct (q =? 0); by apply alive_threads. Qed.
Lemma alive_init_done r m : alive k m → alive k (init_done r m).
Proof.
  intros Ha. unfold init_done. apply alive_masked, alive_timer_started.
  apply (alive_threads k (init_main r m)); [done|].
  by apply alive_init3, alive_entry_ctx.
Qed.

(** The initial abstract state is represented. *)
Lemma init_refines cl m p r1 r2 (u : uprog Z) L :
  alive k m → init_point m p →
  refines cl k 0 (sp_init u (m_user m)) (user L u) (init_done r2 (init2 (init_ctx m r1))).
Proof.
  intros Ha Hip. pose proof (init_done_owned r1 r2 m p Hip) as Hown.
  destruct Hip as [Haddr Hheap Hne Hlen Htcbs Hready Huser Htids Hrq Hsem Hfresh Hnext Hnum Hq _ _ _ _ _ _].
  destruct (init_done_heap r1 r2 m) as (Et & Eh & Er & Em & Es & Eb).
  destruct (init_done_control r1 r2 m) as (Ei & En & Eu).
  destruct (init_done_stacks r1 r2 m) as (Ex & Est).
  destruct (init_done_kinfo r1 r2 m) as (x & Hx & Hk & Hcur & Hp & Hb).
  assert (Ha' : alive k (init_done r2 (init2 (init_ctx m r1)))).
  { by apply alive_init_done, alive_init2, alive_init_ctx. }
  set (m' := init_done r2 (init2 (init_ctx m r1))) in *. clearbody m'.
  assert (Hrel : trel cl (m_tcbs m') (m_heap m') (m_stacks m') 0 (AThread SRunning [] (ARun u)) p
    (Tcb 0 0 RUNNING 0 (Some []) uc0)).
  { constructor; rewrite ?Et, ?Eh; cbn; try done; [by exists []|by left]. }
  constructor.
  - apply sp_init_wf.
  - exists []. rewrite Eh, Er, Es. split; [|split; done].
    constructor; rewrite ?Et, ?Eh, ?Em, ?Eu; cbn; try done.
    + by rewrite Ei.
    + apply (registered_entry _ x); [by rewrite En|done|done].
    + exists x. split; [done|]. split; [by right|done].
    + rewrite <- Et, <- Eh. constructor.
      * intros t y [<- <-]%lookup_singleton_Some. eexists p, _. exact Hrel.
      * by intros t1 t2 ???? c1 c2 l [<- <-]%lookup_singleton_Some [<- <-]%lookup_singleton_Some.
    + replace (dom _) with ({[0]} : gset Z) by by rewrite dom_insert_L, dom_empty_L, (right_id_L ∅ (∪)).
      destruct Htids as (H1 & H2 & H3).
      split; [by rewrite Em|]. by rewrite Eb.
    + intros l Hl. rewrite Ex in Hl. rewrite Est. split; [apply Hfresh; lia|].
      rewrite !lookup_insert_ne by lia. apply Hfresh. lia.
    + rewrite Ex. lia.
    + rewrite <- Eh. by replace (dom _) with ({[0]} : gset Z)
        by by rewrite dom_insert_L, dom_empty_L, (right_id_L ∅ (∪)).
  - exists x. done.
  - exists (AThread SRunning [] (ARun u)), p, (Tcb 0 0 RUNNING 0 (Some []) uc0), L.
    split; [apply lookup_singleton_eq|]. done.
Qed.

Lemma init_point_fresh m bv0 bv : fresh_process m k →
  tids_free (init1 bv (init0 bv0 m)) {[0]} →
  init_point (init1 bv (init0 bv0 m)) (m_next m).
Proof.
  intros Hfp HS. pose proof (fp_len _ _ Hfp) as Hlen. pose proof (fp_next _ _ Hfp) as Hn.
  pose proof (λ l, fp_fresh _ _ l Hfp) as Hf.
  assert (H0 : 0 ≤ 0 < Z.of_nat (length (m_tcbs m))) by (rewrite Hlen; done).
  pose proof (znth_insert (m_tcbs m) 0 0 (Some (m_next m)) H0) as Hz.
  rewrite decide_True in Hz by done.
  constructor; [| | | | | | |exact HS|..]; unfold init1, init0; mproj.
  - exact Hz.
  - apply lookup_insert_eq.
  - intros E. rewrite E in Hn. lia.
  - by rewrite length_insert.
  - lk.
  - lk.
  - intros a. rewrite !lookup_insert_ne by done. apply Hfp.
  - done.
  - apply lookup_insert_eq.
  - intros l Hl. split; [|apply Hf; lia]. rewrite lookup_insert_ne by lia. apply Hf. lia.
  - lia.
  - done.
  - done.
  - intros t p. rewrite (addr_insert _ 0) by done. case_decide; [done|].
    unfold addr. rewrite (fp_tcbs _ _ Hfp). by intros ?%znth_replicate.
  - intros p c. rewrite lookup_insert. case_decide as E; [intros [= <-]; by eauto|].
    intros Hc. apply (fp_heap _ _ Hfp) in Hc as [? ?]. by eauto.
  - apply Hfp.
  - apply Hfp.
  - apply Hfp.
  - split; eexists; lk.
Qed.

(** [uthread_init], then the client: the library refines the abstract scheduler. *)
Lemma lrun_init_refines cl m u L : fresh_process m k → 0 ≤ q ≤ 999999999 →
  ∃ m', lrun (text cl) k (pbind (uthread_init 1 q) (λ r, user L (u r))) m (user L (u 0)) m' ∧
    refines cl k 0 (sp_init (u 0) (m_user m)) (user L (u 0)) m'.
Proof.
  intros Hfp Hb.
  destruct (lrun_init cl m (λ r, user L (u r)) Hfp Hb) as (bv0 & bv & r1 & r2 & HS & Hrun).
  eexists. split; [exact Hrun|].
  apply (init_refines cl (init1 bv (init0 bv0 m)) (m_next m) r1 r2 (u 0) L).
  - by apply alive_init1, fp_alive.
  - by apply init_point_fresh.
Qed.
End init.

(** The process [main] starts in may call [uthread_init]. *)
Lemma boot_fresh main : fresh_process (boot main) MAIN_KTID.
Proof.
  constructor; try done.
  - by eexists.
  - intros p c Hc. cbn in Hc. by apply lookup_singleton_Some in Hc as [<- <-].
Qed.
