(* ===== verification/Whole.v ===== *)
(** * The library as a whole

    The theorems of this file are about a client linked with the library, from
    [uthread_init] on: what the program has done after any number of calls, seen
    in the library's own data.  They are about one kernel thread ([uthread_init(1, q)])
    and about a run in which that kernel thread alone moves ([lrun]): no timer expires,
    so no thread is preempted, and the allocations the run needs succeed.  The theorems
    about every interleaving of several kernel threads are those of BootProps. *)
From S2P Require Import Prelude Bitvec Machine Kthread Uthread Client Eval UthreadEval Sched Api.
From S2P Require Import Owned Spec SpecProps Refine Init.

(** The thread identifiers of the blocks in the ready queue, and of the running
    thread of kernel thread [i]. *)
Definition ready_tids (m : machine) : option (list Z) :=
  q ← m_rqueue m; mapM (λ p, t_tid <$> m_heap m !! p) q.
Definition current_tid (i : Z) (m : machine) : option Z := ki_current_tid <$> m_kinfo m !! i.

(** The block of thread [t]. *)
Definition block (m : machine) (t : Z) (p : loc) (c : tcb) : Prop :=
  znth (m_tcbs m) t = Some (Some p) ∧ m_heap m !! p = Some c.

(** What holds of the library's data whenever a thread runs its own code:
    the identifiers in use are those of the threads; exactly the current one is
    RUNNING; the READY ones are in the ready queue, once each, and its semaphore
    counts them; a thread waits in one join queue if it is WAITING_JOIN and in
    none otherwise; no lock of the library is held. *)
Record lib_invariant (i : Z) (used : gset Z) (m : machine) : Prop := {
  li_tids : tids_free m used;
  li_block : ∀ t, t ∈ used → ∃ p c js, block m t p c ∧ t_tid c = t ∧ valid_tid t ∧
    t_joinq c = Some js ∧ p ≠ exitall;
  li_running : ∀ t p c, t ∈ used → block m t p c →
    t_state c = RUNNING ↔ current_tid i m = Some t;
  li_ready : ∃ l, ready_tids m = Some l ∧ NoDup l ∧
    m_ksem m !! KNotEmpty = Some (Z.of_nat (length l)) ∧
    ∀ t p c, t ∈ used → block m t p c → t_state c = READY ↔ t ∈ l;
  li_join : ∀ t p c, t ∈ used → block m t p c →
    t_state c = WAITING_JOIN ↔
    ∃ d pd cd js, d ∈ used ∧ block m d pd cd ∧ t_joinq cd = Some js ∧ p ∈ js;
  li_locks : m_mutex m !! MTcbs = Some None ∧ m_mutex m !! MRqueue = Some None ∧
    m_mutex m !! MBitvec = Some None;
}.

Section refined.
Context (cl : client) (k i : Z) (s : spec) (P : prog unit) (m : machine).
Context (Hr : refines cl k i s P m).

Lemma refined_block t x : sp_threads s !! t = Some x →
  ∃ p c, block m t p c ∧ trel cl (m_tcbs m) (m_heap m) (m_stacks m) t x p c.
Proof.
  intros Hx. destruct Hr as [_ (q & Hw & _) _ _].
  destruct (ts_rel _ _ _ _ _ (w_threads _ _ _ _ _ _ _ Hw) t x Hx) as (p & c & Ht).
  exists p, c. split; [split; apply Ht|done].
Qed.

Lemma block_fun t p c p' c' : block m t p c → block m t p' c' → p = p' ∧ c = c'.
Proof. intros [H1 H2] [H3 H4]. split; congruence. Qed.

Lemma refined_rel t x p c : sp_threads s !! t = Some x → block m t p c →
  trel cl (m_tcbs m) (m_heap m) (m_stacks m) t x p c.
Proof.
  intros Hx Hb. destruct (refined_block t x Hx) as (p' & c' & Hb' & Ht).
  by destruct (block_fun _ _ _ _ _ Hb Hb') as [-> ->].
Qed.

Lemma refined_ready : ready_tids m = Some (sp_ready s).
Proof.
  destruct Hr as [Hwf (q & Hw & Hq & _) _ _]. unfold ready_tids. rewrite Hq. cbn.
  assert (Hin : ∀ t, t ∈ sp_ready s → is_Some (sp_threads s !! t)).
  { intros t Ht. apply (wf_ready _ _ _ _ _ Hwf) in Ht. by eapply stat_is_Some. }
  apply mapM_Some. pose proof (w_ready _ _ _ _ _ _ _ Hw) as Hf.
  clear Hq Hw. revert Hin. induction Hf as [|t p l q' Ha Hf IH]; intros Hin; constructor.
  - destruct (Hin t) as [x Hx]; [set_solver|].
    destruct (refined_block t x Hx) as (p' & c & [Hb1 Hb2] & Ht).
    unfold addr in Ha. assert (p' = p) as -> by congruence. rewrite Hb2. cbn.
    exact (f_equal Some (tr_tid _ _ _ _ _ _ _ _ Ht)).
  - apply IH. intros u Hu. apply Hin. set_solver.
Qed.

Lemma refined_current : current_tid i m = Some (sp_cur s).
Proof. destruct Hr as [_ _ (x & Hx & Hc) _]. unfold current_tid. rewrite Hx. cbn. by f_equal. Qed.

(** The states of the blocks are the statuses of the threads. *)
Lemma refined_state t x p c : sp_threads s !! t = Some x → block m t p c →
  t_state c = state_of (at_status x).
Proof. intros Hx Hb. apply (tr_state _ _ _ _ _ _ _ _ (refined_rel t x p c Hx Hb)). Qed.

(** Addresses stand for threads, one to one. *)
Lemma addr_tid t x p c u : sp_threads s !! t = Some x → block m t p c →
  is_Some (sp_threads s !! u) → addr (m_tcbs m) u p → u = t.
Proof.
  intros Hx Hb [y Hy] Hu. destruct (refined_block u y Hy) as (p' & c' & [Hb1 Hb2] & Ht').
  unfold addr in Hu. assert (p' = p) as -> by congruence.
  symmetry. eapply trel_inj; [by apply refined_rel|exact Ht'].
Qed.

Lemma addrs_elem t x p c l q : sp_threads s !! t = Some x → block m t p c →
  (∀ u, u ∈ l → is_Some (sp_threads s !! u)) → Forall2 (addr (m_tcbs m)) l q → p ∈ q ↔ t ∈ l.
Proof.
  intros Hx Hb Hl Hf. rewrite !list_elem_of_lookup. split.
  - intros [n Hn]. destruct (Forall2_lookup_r _ _ _ _ _ Hf Hn) as (u & Hu & Ha).
    exists n. rewrite Hu. f_equal. eapply addr_tid; [done|done| |done].
    apply Hl. by eapply list_elem_of_lookup_2.
  - intros [n Hn]. destruct (Forall2_lookup_l _ _ _ _ _ Hf Hn) as (p' & Hp & Ha).
    exists n. rewrite Hp. f_equal. destruct Hb as [Hb _]. unfold addr in Ha. congruence.
Qed.

Lemma refined_joiners t x p c : sp_threads s !! t = Some x → block m t p c →
  ∃ js, t_joinq c = Some js ∧ Forall2 (addr (m_tcbs m)) (at_joiners x) js.
Proof. intros Hx Hb. apply (tr_join _ _ _ _ _ _ _ _ (refined_rel t x p c Hx Hb)). Qed.

Lemma refines_invariant : lib_invariant i (dom (sp_threads s)) m.
Proof.
  pose proof Hr as [Hwf (q & Hw & Hq & Hsem) _ _].
  assert (Hlk : ∀ t, t ∈ dom (sp_threads s) → ∃ x, sp_threads s !! t = Some x).
  { intros t Ht. by apply elem_of_dom in Ht. }
  constructor.
  - apply Hw.
  - intros t Ht. destruct (Hlk t Ht) as [x Hx]. destruct (refined_block t x Hx) as (p & c & Hb & Hrel).
    destruct (refined_joiners t x p c Hx Hb) as (js & Hjs & _).
    exists p, c, js. split; [done|]. split; [apply Hrel|]. split; [apply Hrel|]. split; [done|].
    apply Hrel.
  - intros t p c Ht Hb. destruct (Hlk t Ht) as [x Hx].
    rewrite (refined_state t x p c Hx Hb), refined_current.
    pose proof (wf_running _ _ _ _ _ Hwf t) as H. rewrite (stat_lookup _ _ _ Hx) in H.
    split.
    + intros Hs. apply H. destruct (at_status x); done.
    + intros [= <-]. by pose proof (proj2 H eq_refl) as [= ->].
  - exists (sp_ready s). split; [apply refined_ready|]. split; [apply Hwf|]. split.
    { rewrite Hsem. do 2 f_equal. symmetry. eapply Forall2_length, Hw. }
    intros t p c Ht Hb. destruct (Hlk t Ht) as [x Hx].
    rewrite (refined_state t x p c Hx Hb), <- (wf_ready _ _ _ _ _ Hwf t), (stat_lookup _ _ _ Hx).
    destruct (at_status x); cbn; split; congruence.
  - intros t p c Ht Hb. destruct (Hlk t Ht) as [x Hx]. rewrite (refined_state t x p c Hx Hb).
    assert (Hjin : ∀ d u, u ∈ joiners s d → is_Some (sp_threads s !! u)).
    { intros d u Hu. apply (wf_join _ _ _ _ _ Hwf) in Hu. by eapply stat_is_Some. }
    split.
    + intros Hs. destruct (at_status x) as [| |d| |] eqn:Hst; try done.
      assert (Hin : t ∈ joiners s d).
      { apply (wf_join _ _ _ _ _ Hwf). by rewrite (stat_lookup _ _ _ Hx), Hst. }
      unfold joiners in Hin. destruct (sp_threads s !! d) as [y|] eqn:Hd; [|by apply elem_of_nil in Hin].
      destruct (refined_block d y Hd) as (pd & cd & Hbd & _).
      destruct (refined_joiners d y pd cd Hd Hbd) as (js & Hjs & Hf).
      exists d, pd, cd, js. split; [by apply elem_of_dom|]. split; [done|]. split; [done|].
      apply (addrs_elem t x p c _ _ Hx Hb) in Hf; [by apply Hf|].
      intros u Hu. apply (Hjin d). by rewrite (joiners_lookup _ _ _ Hd).
    + intros (d & pd & cd & js & Hd & Hbd & Hjs & Hin). destruct (Hlk d Hd) as [y Hy].
      destruct (refined_joiners d y pd cd Hy Hbd) as (js' & Hjs' & Hf).
      assert (js' = js) as -> by congruence.
      apply (addrs_elem t x p c _ _ Hx Hb) in Hf.
      * apply Hf in Hin. rewrite <- (joiners_lookup _ _ _ Hy) in Hin.
        apply (wf_join _ _ _ _ _ Hwf) in Hin. rewrite (stat_lookup _ _ _ Hx) in Hin.
        injection Hin as ->. done.
      * intros u Hu. apply (Hjin d). by rewrite (joiners_lookup _ _ _ Hy).
  - split; [apply Hw|]. split; [apply Hw|]. apply (w_tids _ _ _ _ _ _ _ Hw).
Qed.
End refined.

(** ** After [uthread_init] *)
Section program.
Context (cl : client) (k q : Z) (m : machine) (u : Z → uprog Z) (L : prog unit).

(** [main] calls [uthread_init(1, q)] and goes on with [u]. *)
Definition main_prog : prog unit := pbind (uthread_init 1 q) (λ r, user L (u r)).
(** The scheduler after [n] steps of that program. *)
Definition after (n : nat) : spec := srun cl n (sp_init (u 0) (m_user m)).

Lemma program_runs (n : nat) : fresh_process m k → 0 ≤ q ≤ 999999999 →
  ∃ P m', lrun (text cl) k main_prog m P m' ∧ refines cl k 0 (after n) P m'.
Proof.
  intros Hf Hq. destruct (lrun_init_refines k q cl m u L Hf Hq) as (m1 & Hrun1 & Hr1).
  destruct (sim_run cl k 0 n _ _ _ Hr1) as (P & m2 & Hrun2 & Hr2).
  exists P, m2. split; [|done]. by eapply lrun_trans.
Qed.

(** C1. Refinement, for one kernel thread: [uthread_init(1, q)] returns 0, and from
    there the library linked with any client can do what the abstract scheduler does,
    whatever the number [n] of calls: there is a run of the C program, in which the
    kernel thread is not interrupted by its timer, to a machine that represents the
    scheduler's state after [n] steps. *)
Theorem library_refines_scheduler (n : nat) : fresh_process m k → 0 ≤ q ≤ 999999999 →
  ∃ P m', lrun (text cl) k main_prog m P m' ∧ refines cl k 0 (after n) P m'.
Proof. apply program_runs. Qed.

(** C2. Invariant, for one kernel thread that is not preempted: for every [n] the
    program runs to a machine that represents the abstract scheduler after [n] calls, and
    there the library's data are in order.  The identifiers in use are the scheduler's
    threads, the ready queue lists exactly its ready threads in its order, and the
    current thread is its current one; the READY threads are in the ready queue, once
    each, counted by its semaphore; the threads waiting to join are in join queues; one
    thread is RUNNING, the current one; every lock is free. *)
Theorem queues_in_order (n : nat) : fresh_process m k → 0 ≤ q ≤ 999999999 →
  ∃ P m', lrun (text cl) k main_prog m P m' ∧ refines cl k 0 (after n) P m' ∧
    lib_invariant 0 (dom (sp_threads (after n))) m' ∧
    ready_tids m' = Some (sp_ready (after n)) ∧ current_tid 0 m' = Some (sp_cur (after n)).
Proof.
  intros Hf Hq. destruct (program_runs n Hf Hq) as (P & m' & Hrun & Hr).
  exists P, m'. split; [done|]. split; [done|]. split; [by eapply refines_invariant|].
  split; [by eapply refined_ready|by eapply refined_current].
Qed.

(** C3. No wake-up is lost, for one kernel thread that is not preempted: if after [n]
    calls a semaphore of the abstract scheduler has a positive counter and waiting
    threads, the program runs to a machine that represents that very state, and in it the
    semaphore of the library has this counter and as many waiting threads, and some
    thread that was woken, the current one or one in the ready queue, is about to try to
    take it. *)
Theorem no_lost_wakeup (n : nat) a c ws :
  fresh_process m k → 0 ≤ q ≤ 999999999 →
  sp_sems (after n) !! a = Some (c, ws) → ws ≠ [] → 0 < c →
  ∃ P m' qs l t p b K, lrun (text cl) k main_prog m P m' ∧
    refines cl k 0 (after n) P m' ∧ sem_free m' a c qs ∧
    length qs = length ws ∧ ready_tids m' = Some l ∧ block m' t p b ∧
    (current_tid 0 m' = Some t ∧ P = sem_wait_resume a (Some p) K ∨
     t ∈ l ∧ ctx_prog (text cl) (t_ctx b) = Some (sem_wait_resume a (Some p) K)).
Proof.
  intros Hf Hq Ha Hws Hc. destruct (program_runs n Hf Hq) as (P & m' & Hrun & Hr).
  pose proof Hr as [Hwf (q' & Hw & Hq' & _) _ (x0 & p0 & c0 & L0 & Hx0 & Ht0 & HP)].
  destruct (w_sems _ _ _ _ _ _ _ Hw a c ws Ha) as (qs & Hs & Hqs).
  destruct (srun_wakeups cl n (sp_init (u 0) (m_user m))) as [_ [Hwt Hcount]].
  { apply sp_init_wf. }
  { constructor; [|done]. intros t x Hx b. change (({[UTHREAD_TID_MAIN := AThread SRunning [] (ARun (u 0))]} : gmap Z athread) !! t = Some x) in Hx.
    by apply lookup_singleton_Some in Hx as [<- <-]. }
  specialize (Hcount a c ws Ha Hws).
  destruct (retrying a (after n)) as [|t l'] eqn:Hl.
  { unfold after in Hl. rewrite Hl in Hcount. cbn in Hcount. lia. }
  assert (Ht : t ∈ retrying a (after n)) by (rewrite Hl; set_solver).
  apply elem_retrying in Ht as [Hret Hin]. unfold cont_of in Hret.
  destruct (sp_threads (after n) !! t) as [x|] eqn:Hx; [|done]. cbn in Hret.
  destruct (at_cont x) as [| | |b kont] eqn:Hco; try done.
  apply bool_decide_eq_true in Hret as ->.
  destruct (refined_block _ _ _ _ _ _ Hr t x Hx) as (p & cb & Hb & Hrel).
  exists P, m', qs, (sp_ready (after n)), t, p, cb.
  assert (Hlen : length qs = length ws) by by symmetry; eapply Forall2_length.
  destruct Hin as [->|Hin].
  - exists (λ r, user L0 (kont r)).
    assert (x0 = x) as -> by congruence.
    destruct (trel_fun _ _ _ _ _ _ _ _ _ _ _ Ht0 Hrel) as [-> _].
    split_and!; try done; [by eapply refined_ready|]. left.
    split; [by eapply refined_current|]. rewrite HP, Hco. done.
  - assert (Hst : at_status x = SReady).
    { apply (wf_ready _ _ _ _ _ Hwf) in Hin. rewrite (stat_lookup _ _ _ Hx) in Hin.
      by injection Hin. }
    destruct (tr_prog _ _ _ _ _ _ _ _ Hrel) as [L1 HL1]; [by rewrite Hst..|].
    exists (λ r, user L1 (kont r)). split_and!; try done; [by eapply refined_ready|].
    right. split; [done|]. rewrite HL1, Hco. done.
Qed.
End program.

(** C4. One call at a time: from any machine that represents a state of the abstract
    scheduler, the C program runs to a machine that represents the next one. *)
Theorem call_refines_step cl k i s P m s' : refines cl k i s P m → sstep cl s = Some s' →
  ∃ P' m', lrun (text cl) k P m P' m' ∧ refines cl k i s' P' m'.
Proof. apply sim_step. Qed.

(** C5. First come, first served: a call never lets a thread overtake another one.
    The thread [t] with the threads [q1] before it in the ready queue stays behind
    exactly these, or the first of them is taken to run, or, when there is none, [t]
    runs. *)
Theorem ready_queue_fcfs cl k i s P m s' q1 t q2 :
  refines cl k i s P m → sstep cl s = Some s' → ready_tids m = Some (q1 ++ t :: q2) →
  ∃ P' m' l, lrun (text cl) k P m P' m' ∧ refines cl k i s' P' m' ∧ ready_tids m' = Some l ∧
    ((∃ q2', l = q1 ++ t :: q2') ∨ (q1 = [] ∧ current_tid i m' = Some t) ∨
     (∃ h q1' q2', q1 = h :: q1' ∧ current_tid i m' = Some h ∧ l = q1' ++ t :: q2')).
Proof.
  intros Hr Hs Hq. rewrite (refined_ready _ _ _ _ _ _ Hr) in Hq. injection Hq as Hq.
  assert (Hw : swf s) by apply Hr.
  destruct (sim_step _ _ _ _ _ _ _ Hr Hs) as (P' & m' & Hrun & Hr').
  exists P', m', (sp_ready s'). split; [done|]. split; [done|].
  split; [by eapply refined_ready|]. rewrite (refined_current _ _ _ _ _ _ Hr').
  destruct (sstep_fcfs cl s s' Hw Hs q1 t q2 Hq) as [H|[[-> <-]|(h & q1' & q2' & -> & <- & ->)]];
    [by left|by right; left|]. right; right. by exists (sp_cur s'), q1', q2'.
Qed.

(** ** The theorems on a program

    Two threads wait for semaphore 7, then the main thread posts it once. *)
Local Open Scope uprog_scope.
Definition waiter : client := λ _ _, USemWait 7 ;; URet 0.
Definition poster (r : Z) : uprog Z :=
  USemInit 7 0 ;; UCreate 50 1 0 SNull 0 ;; UCreate 51 1 0 SNull 0 ;; UYield ;; USemPost 7 ;;
  UYield ;; URet r.
Definition poster_boot : machine := boot (URet tt).
Local Close Scope uprog_scope.

Lemma poster_fresh : fresh_process poster_boot MAIN_KTID.
Proof. apply boot_fresh. Qed.

Example poster_after_9 :
  sp_sems (after waiter poster_boot poster 9) !! 7 = Some (1, [2]) ∧
  sp_ready (after waiter poster_boot poster 9) = [1] ∧
  sp_sems (after waiter poster_boot poster 20) !! 7 = Some (0, [2]).
Proof. by vm_compute. Qed.

Lemma library_refines_scheduler_witness : ∃ P m',
  lrun (text waiter) MAIN_KTID (main_prog 0 poster (Ret tt)) poster_boot P m' ∧
  refines waiter MAIN_KTID 0 (after waiter poster_boot poster 9) P m'.
Proof. apply library_refines_scheduler; [apply poster_fresh|done]. Defined.

Lemma queues_in_order_witness : ∃ P m' used,
  lrun (text waiter) MAIN_KTID (main_prog 0 poster (Ret tt)) poster_boot P m' ∧
  lib_invariant 0 used m' ∧ ready_tids m' = Some [1] ∧ current_tid 0 m' = Some 0.
Proof.
  destruct (queues_in_order waiter MAIN_KTID 0 poster_boot poster (Ret tt) 9 poster_fresh)
    as (P & m' & Hrun & _ & Hinv & Hl & Hc); [done|].
  eexists P, m', _. split; [exact Hrun|]. split; [exact Hinv|].
  split; [rewrite Hl|rewrite Hc]; vm_compute; reflexivity.
Defined.

Lemma no_lost_wakeup_witness : ∃ P m' qs,
  lrun (text waiter) MAIN_KTID (main_prog 0 poster (Ret tt)) poster_boot P m' ∧
  sem_free m' 7 1 qs ∧ length qs = 1%nat.
Proof.
  destruct (no_lost_wakeup waiter MAIN_KTID 0 poster_boot poster (Ret tt) 9 7 1 [2]
    poster_fresh) as (P & m' & qs & l & t & p & b & K & Hrun & _ & Hs & Hl & _);
    [done|vm_compute; reflexivity|done|done|].
  by exists P, m', qs.
Defined.

(** The state in which thread 1 is ready and thread 2 waits. *)
Lemma poster_state : ∃ P m',
  refines waiter MAIN_KTID 0 (after waiter poster_boot poster 9) P m'.
Proof.
  destruct (program_runs waiter MAIN_KTID 0 poster_boot poster (Ret tt) 9 poster_fresh)
    as (P & m' & _ & Hr); [done|]. by exists P, m'.
Qed.

Lemma call_refines_step_witness : ∃ s' P m', sp_cur s' = 1 ∧ refines waiter MAIN_KTID 0 s' P m'.
Proof.
  destruct poster_state as (P & m & Hr).
  destruct (sstep waiter (after waiter poster_boot poster 9)) as [s'|] eqn:Hs; [|discriminate Hs].
  destruct (call_refines_step waiter MAIN_KTID 0 _ P m s' Hr Hs) as (P' & m' & _ & Hr').
  exists s', P', m'. split; [|done]. vm_compute in Hs. by injection Hs as <-.
Defined.

Lemma ready_queue_fcfs_witness : ∃ m', current_tid 0 m' = Some 1.
Proof.
  destruct poster_state as (P & m & Hr).
  destruct (sstep waiter (after waiter poster_boot poster 9)) as [s'|] eqn:Hs; [|discriminate Hs].
  destruct (ready_queue_fcfs waiter MAIN_KTID 0 _ P m s' [] 1 [] Hr Hs)
    as (P' & m' & l & _ & Hr' & Hl & [[q Hq]|[[_ Hc]|(h & q & q' & H & _)]]); [| | |done].
  - by rewrite (refined_ready _ _ _ _ _ _ Hr).
  - rewrite (refined_ready _ _ _ _ _ _ Hr') in Hl. vm_compute in Hs. injection Hs as <-.
    cbn in Hl. by simplify_eq.
  - by exists m'.
Defined.
