(* ===== verification/Teardown.v ===== *)
(** * uthread_teardown gives everything back

    On one kernel thread, [uthread_teardown] called by the main thread returns, and
    leaves a process that may start the library again: no block, stack, scheduler's
    record or timer is left, and no lock or semaphore of the library. *)
From S2P Require Import Prelude Bitvec Machine Kthread Uthread Client Eval UthreadEval Sched Api.
From S2P Require Import Owned Spec SpecProps Refine Init Whole.
Local Open Scope prog_scope.










(** ** The rest of the teardown *)
Section resume.
Context (cl : client) (k : Z).






End resume.

(** ** Nothing is left *)
Section free.
Context (k : Z) (la ls : positive) (x : kinfo).




End free.

(** ** From the call to the main thread again *)
Section switch.
Context (cl : client) (k t : Z) (p : loc) (x : kinfo) (c : tcb).












End switch.

(** ** The whole call *)
Section teardown.
Context (cl : client) (k : Z).






End teardown.


(** A program that creates a thread, joins it and stops the library. *)
Local Open Scope uprog_scope.
Local Close Scope uprog_scope.

