(* ===== verification/KthreadProps.v ===== *)
(** * Properties of kthread.c

    The table [kthreads] is an array of 64 (tid, pthread) entries searched from the
    start; tid 0 marks a free one. *)
From S2P Require Import Prelude Bitvec Machine Kthread Uthread Client Eval UthreadEval Demo.

(** The first entry with identifier [t]. *)
Definition first_entry (t : Z) (l : list (Z * Z)) : option Z :=
  (λ r, Z.of_nat r.1) <$> list_find (λ e : Z * Z, e.1 = t) l.

Lemma first_entry_spec t l i : first_entry t l = Some i ↔
  ∃ p, znth l i = Some (t, p) ∧ ∀ j e, 0 ≤ j < i → znth l j = Some e → e.1 ≠ t.
Proof.
  unfold first_entry, znth. split.
  - intros ([n e] & Hf & ->)%fmap_Some. apply list_find_Some in Hf as (Hn & He & Hmin).
    exists e.2. cbn. rewrite decide_True, Nat2Z.id by lia. destruct e as [a b]. cbn in *. subst.
    split; [done|]. intros j e' Hj. rewrite decide_True by lia. intros He'. eapply Hmin; [done|lia].
  - intros (p & Hi & Hmin). case_decide; [|done].
    rewrite (proj2 (list_find_Some _ l (Z.to_nat i) (t, p))); [cbn; f_equal; lia|].
    split; [done|]. split; [done|]. intros j e He Hj. apply (Hmin (Z.of_nat j)); [lia|].
    rewrite decide_True, Nat2Z.id by lia. done.
Qed.

Lemma first_entry_None t l : first_entry t l = None ↔ ∀ e, e ∈ l → e.1 ≠ t.
Proof.
  unfold first_entry. rewrite fmap_None, list_find_None, Forall_forall. done.
Qed.

Section kthread.
Context (k : Z) (m : machine).
Context (Hlen : length (m_tidmap m) = Z.to_nat MAX_KTHREADS).

Lemma ev_find_from t oks n : ∀ lo m', m_tidmap m' = m_tidmap m → 0 ≤ lo →
  lo + Z.of_nat n = Z.of_nat (length (m_tidmap m)) →
  eval (pfind n lo (λ i, pbind (Load (VKtTid i)) (λ t', Ret (if t' =? t then Some i else None))))
    k oks m' =
  EDone ((λ i, lo + i) <$> first_entry t (drop (Z.to_nat lo) (m_tidmap m))) oks m'.
Proof using Type.
  clear Hlen. induction n as [|n IH]; intros lo m' Hm Hlo Hn; cbn [pfind].
  { rewrite drop_ge by lia. done. }
  destruct (lookup_lt_is_Some_2 (m_tidmap m) (Z.to_nat lo)) as [e He]; [lia|].
  rewrite (drop_S _ _ _ He). unfold first_entry. cbn [list_find].
  rewrite (eval_bind _ _ _ _ _ (if e.1 =? t then Some lo else None) oks m').
  2: { cbn. rewrite Hm. unfold znth. rewrite decide_True, He by lia. done. }
  destruct (Z.eqb_spec e.1 t) as [Het|Het].
  - rewrite decide_True by done. cbn. do 2 f_equal. lia.
  - rewrite decide_False by done. rewrite IH by (done || lia). f_equal.
    replace (Z.to_nat (lo + 1)) with (S (Z.to_nat lo)) by lia. unfold first_entry.
    destruct (list_find _ _) as [[j e']|]; cbn; [|done]. f_equal. lia.
Qed.

Lemma ev_tidmap_find_tid t oks m' : m_tidmap m' = m_tidmap m →
  eval (tidmap_find_tid t) k oks m' = EDone (first_entry t (m_tidmap m)) oks m'.
Proof using Hlen.
  intros Hm. unfold tidmap_find_tid.
  rewrite (ev_find_from t oks) by (rewrite ?Hlen; done).
  cbn [Z.to_nat drop]. destruct (first_entry _ _); done.
Qed.

(** [tidmap_add_self] writes the calling kernel thread into the first free entry
    of the table and returns its identifier; when the 64 entries are taken it
    changes nothing and returns -1. The table's lock is free again either way. *)
Theorem tidmap_add_self_first_free :
  m_mutex m !! MKthreads = Some None →
  eval tidmap_add_self k [] m =
  match first_entry 0 (m_tidmap m) with
  | Some e => EDone k [] (set_tidmap (<[Z.to_nat e := (k, k)]> (m_tidmap m)) m)
  | None => EDone (-1) [] m
  end.
Proof using Hlen.
  intros Hl. unfold tidmap_add_self, kthread_self.
  ev_cmd (rewrite Hl).
  erewrite eval_bind; cycle 1. { by apply ev_tidmap_find_tid. } mnorm.
  destruct (first_entry 0 (m_tidmap m)) as [e|] eqn:He.
  - apply first_entry_spec in He as (p & He & _).
    assert (Hb : 0 ≤ e < Z.of_nat (length (m_tidmap m))) by (apply znth_is_Some; eauto).
    assert (∀ y, znth (<[Z.to_nat e := y]> (m_tidmap m)) e = Some y) as Hz.
    { intros y. pose proof (znth_insert (m_tidmap m) e e y Hb) as H. by rewrite decide_True in H. }
    assert (∀ (l : list (Z * Z)) y, length l = length (m_tidmap m) → zupd l e y = Some (<[Z.to_nat e := y]> l)) as Hu.
    { intros l y Hy. apply zupd_in. by rewrite Hy. }
    ev_cmd. ev_cmd (rewrite He; cbn; rewrite Hu by done; cbn). ev_cmd.
    ev_cmd (rewrite Hz; cbn; rewrite Hu by (by rewrite length_insert); cbn).
    ev_cmd (rewrite lookup_insert_eq, decide_True by done).
    cbn. rewrite list_insert_insert_eq, Hz. cbn. f_equal. machine_eq.
  - ev_cmd (rewrite lookup_insert_eq, decide_True by done). cbn. f_equal. machine_eq.
Qed.

(** Joining an identifier that is not in the table fails with ESRCH and changes
    nothing else. *)
Theorem kthread_join_unknown tid :
  m_mutex m !! MKthreads = Some None → (∀ e, e ∈ m_tidmap m → e.1 ≠ tid) →
  eval (kthread_join tid) k [] m = EDone (-1) [] (thr_upd (set_k_errno ESRCH) k m).
Proof using Hlen.
  intros Hl Hno. unfold kthread_join. ev_cmd (rewrite Hl).
  erewrite eval_bind; cycle 1. { by apply ev_tidmap_find_tid. } mnorm.
  rewrite (proj2 (first_entry_None _ _) Hno).
  ev_cmd (rewrite lookup_insert_eq, decide_True by done).
  cbn. f_equal. machine_eq.
Qed.

(** Up to pthread_join: the lock of the table is taken and released again. *)
Lemma lrun_join_wait text tid e p K :
  alive k m → m_mutex m !! MKthreads = Some None → first_entry tid (m_tidmap m) = Some e →
  znth (m_tidmap m) e = Some (tid, p) →
  ∃ kont, lrun text k (pbind (kthread_join tid) K) m (Vis (PthreadJoin p) kont) m.
Proof using Hlen.
  intros Ha Hl Hf He. eexists. unfold kthread_join.
  set (m1 := set_mutex (<[MKthreads := Some k]> (m_mutex m)) m).
  eapply lrun_trans; [apply (lrun_exec text (MutexLock MKthreads) _ k true m 0 m1); [done..|]|].
  { cbn. by rewrite Hl. }
  rewrite !pbind_assoc. eapply lrun_trans.
  { apply (lrun_done text _ _ k [] m1 (Some e) [] m1); [done|].
    pose proof (ev_tidmap_find_tid tid [] m1 eq_refl) as Hev. by rewrite Hf in Hev. }
  eapply lrun_trans; [apply (lrun_exec text (Load (VKtThread e)) _ k true m1 p m1); [done..|]|].
  { cbn. by rewrite He. }
  eapply lrun_trans; [apply (lrun_exec text (MutexUnlock MKthreads) _ k true m1 0 m); [done..|]|].
  { cbn. rewrite lookup_insert_eq, decide_True by done. f_equal. unfold m1. machine_eq. }
  apply lrun_refl. done.
Qed.

(** C28. Joining a kernel thread that has terminated returns 0, forgets the thread and
    frees its entry, which [tidmap_find_tid(0)] then finds unless an earlier one is
    free.  Joining one that still runs goes to a machine that is the initial one, the
    lock of the table released again, and there pthread_join blocks the caller. *)
Theorem kthread_join_terminated tid e p th :
  m_mutex m !! MKthreads = Some None → first_entry tid (m_tidmap m) = Some e →
  znth (m_tidmap m) e = Some (tid, p) → p ≠ k → m_threads m !! p = Some th →
  if k_done th
  then ∃ m', eval (kthread_join tid) k [] m = EDone 0 [] m' ∧
    m_tidmap m' = <[Z.to_nat e := (0, p)]> (m_tidmap m) ∧
    m_threads m' = delete p (m_threads m) ∧ m_mutex m' = m_mutex m ∧
    ∃ e', first_entry 0 (m_tidmap m') = Some e' ∧ e' ≤ e
  else ∀ text K ok, alive k m → ∃ kont m',
    lrun text k (pbind (kthread_join tid) K) m (Vis (PthreadJoin p) kont) m' ∧
    m_mutex m' !! MKthreads = Some None ∧ m_tidmap m' = m_tidmap m ∧
    step text (LRun k ok) (setp (Vis (PthreadJoin p) kont) k m') = Blocked.
Proof using Hlen.
  intros Hl Hf He Hpk Hth.
  assert (Hb : 0 ≤ e < Z.of_nat (length (m_tidmap m))) by (apply znth_is_Some; eauto).
  assert (Hu : ∀ y, zupd (m_tidmap m) e y = Some (<[Z.to_nat e := y]> (m_tidmap m))).
  { intros y. by apply zupd_in. }
  assert (Hz : znth (<[Z.to_nat e := (0, p)]> (m_tidmap m)) e = Some (0, p)).
  { pose proof (znth_insert (m_tidmap m) e e (0, p) Hb) as H. by rewrite decide_True in H. }
  destruct (k_done th) eqn:Hd.
  - eexists. split.
    { unfold kthread_join, tidmap_del. ev_cmd (rewrite Hl).
      erewrite eval_bind; cycle 1. { by apply ev_tidmap_find_tid. } mnorm. rewrite Hf.
      ev_cmd (rewrite He; cbn).
      ev_cmd (rewrite lookup_insert_eq, decide_True by done).
      ev_cmd (rewrite decide_False by done; rewrite Hth, Hd). cbn [negb Z.eqb].
      ev_cmd (rewrite lookup_insert_eq).
      ev_cmd (rewrite He; cbn; rewrite Hu; cbn).
      ev_cmd (rewrite lookup_insert_eq, decide_True by done). reflexivity. }
    mproj. split; [done|]. split; [done|].
    split; [by apply insert_id|].
    destruct (first_entry 0 _) as [e'|] eqn:He'.
    + exists e'. split; [done|]. apply first_entry_spec in He' as (p' & _ & Hmin).
      destruct (decide (e' ≤ e)); [done|]. destruct (Hmin e (0, p)); [lia|done|done].
    + destruct (proj1 (first_entry_None _ _) He' (0, p)); [|done].
      unfold znth in Hz. case_decide; [|done]. by eapply list_elem_of_lookup_2.
  - intros text K ok Ha. destruct (lrun_join_wait text tid e p K Ha Hl Hf He) as [kont Hrun].
    exists kont, m. split; [done|]. split; [done|]. split; [done|].
    rewrite step_thread_setp by done. cbn. rewrite decide_False, lookup_alter_ne by done.
    by rewrite Hth, Hd.
Qed.
End kthread.

(** ** The theorems on a concrete process

    Kernel thread 100 and a terminated kernel thread 101, registered in the second
    entry. *)
Definition two_kthreads : machine :=
  set_threads {[ 100 := Kthr (Ret tt) false false 0 false; 101 := Kthr (Ret tt) false false 0 true ]}
    (set_tidmap ((100, 100) :: (101, 101) :: replicate 62 (0, 0)) (boot (URet tt))).

Lemma tidmap_add_self_first_free_witness :
  eval tidmap_add_self 100 [] two_kthreads =
  EDone 100 [] (set_tidmap ((100, 100) :: (101, 101) :: (100, 100) :: replicate 61 (0, 0)) two_kthreads).
Proof. exact (tidmap_add_self_first_free 100 two_kthreads eq_refl eq_refl). Defined.

Lemma two_kthreads_not_7 : Forall (λ e : Z * Z, e.1 ≠ 7) (m_tidmap two_kthreads).
Proof. apply (bool_decide_unpack _). vm_compute. exact I. Qed.

Lemma kthread_join_unknown_witness :
  eval (kthread_join 7) 100 [] two_kthreads =
  EDone (-1) [] (thr_upd (set_k_errno ESRCH) 100 two_kthreads).
Proof.
  apply (kthread_join_unknown 100 two_kthreads eq_refl 7 eq_refl).
  intros e He. by apply (proj1 (Forall_forall _ _) two_kthreads_not_7).
Defined.

(** The same with kernel thread 101 still running. *)
Definition two_running : machine :=
  set_threads {[ 100 := Kthr (Ret tt) false false 0 false; 101 := Kthr (Ret tt) false false 0 false ]}
    two_kthreads.

Lemma kthread_join_terminated_witness :
  (∃ m', eval (kthread_join 101) 100 [] two_kthreads = EDone 0 [] m' ∧
    m_tidmap m' = (100, 100) :: (0, 101) :: replicate 62 (0, 0)) ∧
  (∃ kont m', lrun (text (λ _ _, URet 0)) 100 (pbind (kthread_join 101) (λ _, Ret tt)) two_running
      (Vis (PthreadJoin 101) kont) m' ∧ m_mutex m' !! MKthreads = Some None).
Proof.
  split.
  - destruct (kthread_join_terminated 100 two_kthreads eq_refl 101 1 101
      (Kthr (Ret tt) false false 0 true) eq_refl eq_refl eq_refl) as (m' & H1 & H2 & _); [done|done|].
    by exists m'.
  - destruct (kthread_join_terminated 100 two_running eq_refl 101 1 101
      (Kthr (Ret tt) false false 0 false) eq_refl eq_refl eq_refl ltac:(done) eq_refl
      (text (λ _ _, URet 0)) (λ _, Ret tt) true) as (kont & m' & H1 & H2 & _).
    + by exists (Kthr (Ret tt) false false 0 false).
    + by exists kont, m'.
Defined.
