(* ===== verification/Logic.v ===== *)
(** * A logic for programs that interleave

    What one kernel thread may do while the others run, command by command: a
    thread has a ghost state (the locks it holds, the elements of the ready queue
    it accounts for, the task in its entry of [kthread_info], a control block it
    has not published, blocks it knows to be published), and [wp p k L Q] says
    that program [p], on kernel thread [k] with ghost state [L], keeps the rules
    of every command and ends with [Q].  No rule mentions another thread;
    LogicSound shows that the rules are enough for every interleaving. *)
From S2P Require Import Prelude Bitvec Machine.

(** ** Ghost state of a kernel thread *)
Record ghost : Type := Ghost {
  g_held : gset mutex_id;         (* of the library's locks, those it holds *)
  g_credit : nat;                 (* elements of the ready queue it accounts for *)
  g_task : sched_task;            (* the task in its kthread_info entry *)
  g_priv : option loc;            (* a block whose context it is still building *)
  g_slot : option Z;              (* an entry of [tcbs] it wrote, with that block or none *)
  g_known : gset loc;             (* blocks with a context that can be resumed *)
}.

Definition hold (u : mutex_id) (g : ghost) : ghost :=
  Ghost ({[u]} ∪ g_held g) (g_credit g) (g_task g) (g_priv g) (g_slot g) (g_known g).
Definition drop (u : mutex_id) (g : ghost) : ghost :=
  Ghost (g_held g ∖ {[u]}) (g_credit g) (g_task g) (g_priv g)
    (if decide (u = MTcbs) then None else g_slot g) (g_known g).
Definition credit (f : nat → nat) (g : ghost) : ghost :=
  Ghost (g_held g) (f (g_credit g)) (g_task g) (g_priv g) (g_slot g) (g_known g).
Definition set_task (t : sched_task) (g : ghost) : ghost :=
  Ghost (g_held g) (g_credit g) t (g_priv g) (g_slot g) (g_known g).
Definition know (p : loc) (g : ghost) : ghost :=
  Ghost (g_held g) (g_credit g) (g_task g) (g_priv g) (g_slot g) ({[p]} ∪ g_known g).
Definition build (p : option loc) (t : option Z) (g : ghost) : ghost :=
  Ghost (g_held g) (g_credit g) (g_task g) p t (g_known g).

(** The locks of uthread.c the clients cannot reach, and the order in which a
    thread takes them. *)
Definition lib_lock (u : mutex_id) : bool :=
  match u with MTcbs | MBitvec | MRqueue => true | _ => false end.
Definition rank (u : mutex_id) : nat := match u with MTcbs => 0 | _ => 1 end.

(** The lock that protects what a command reads or writes.  Of a control block these
    are its state, identifier and return value, the operations on its join queue, and
    the stores that set up its stack and context; of [tcbs] the stores of a block.
    Not among them, for the code takes no lock there: loads of [tcbs], of a stack and
    of [stack_allocated], [setcontext], and what [destroy_thread] frees and clears. *)
Definition var_guard {A} (v : var A) : option mutex_id :=
  match v with
  | VBitvec => Some MBitvec
  | VTcbTid _ | VTcbState _ | VTcbRetval _ => Some MTcbs
  | _ => None
  end.
Definition ctx_guard (c : ctxref) : option mutex_id :=
  match c with CtxTcb _ => Some MTcbs | _ => None end.
Definition queue_guard (q : qref) : option mutex_id :=
  match q with QReady => Some MRqueue | QJoin _ => Some MTcbs | QSem _ => None end.
Definition store_guard {A} (v : var A) : A → option mutex_id :=
  match v in var A return A → option mutex_id with
  | VTcbs _ => λ x, match x with Some _ => Some MTcbs | None => None end
  | VTcbStackAllocated _ => λ _, Some MTcbs
  | VCtxLink c => λ _, ctx_guard c
  | VCtxSp c => λ _, ctx_guard c
  | VCtxSsize c => λ _, ctx_guard c
  | v => λ _, var_guard v
  end.
Definition guard {B} (c : cmd B) : option mutex_id :=
  match c with
  | Load v => var_guard v
  | Store v x => store_guard v x
  | QEnqueue q _ | QDequeue q | QSize q => queue_guard q
  | QInit (QJoin _) => Some MTcbs
  | Getcontext c | Makecontext c _ | Swapcontext c _ => ctx_guard c
  | _ => None
  end.

(** A thread that holds nothing, between two calls of the library. *)
Definition idle (g : ghost) : Prop :=
  g_held g = ∅ ∧ g_credit g = 0%nat ∧ g_task g = NONE ∧ g_priv g = None.

(** A scheduler's context is entered with [tcbs_lock] unless there is no task. *)
Definition at_schedule (g : ghost) : Prop :=
  g_held g = (if decide (g_task g = NONE) then ∅ else {[MTcbs]}) ∧
  g_credit g = 0%nat ∧ g_priv g = None.

Section logic.
(** The entry of [kthread_info] that is a kernel thread's own; and whether the clients
    are cautious, so that none goes on after [uthread_create] failed. *)
Context (own : Z → option Z) (cautious : bool).

(** The client after a failed [uthread_create], which keeps [tcbs_lock]. *)
Definition stuck (g : ghost) : Prop :=
  g_held g = {[MTcbs]} ∧ g_credit g = 0%nat ∧ g_task g = NONE ∧ cautious = false.
Definition outside (g : ghost) : Prop := idle g ∨ stuck g.

Abbreviation post B := (B → Z → ghost → Prop).

(** ** Functions called by name *)
Definition fspec {A} (f : fn A) (k : Z) (g : ghost) : post A → Prop :=
  match f in fn A return post A → Prop with
  | FSchedule => λ _, at_schedule g
  | FTrampoline _ _ => λ _, idle g
  | FAbort => λ _, True
  | FSigrtminHandler => λ Φ, Φ tt k g
  | FKthreadMain _ => λ _, idle g
  | FSemWaitLoop _ _ => λ Φ, outside g ∧ ∀ o k' g', outside g' → Φ o k' g'
  | FUser _ _ => λ Φ, outside g ∧ ∀ v k' g', outside g' → Φ v k' g'
  | FKthreadTrampoline _ | FMutexDestroyLoop _ | FSemDestroyLoop _ => λ _, False
  end.

(** ** Variables *)
Definition lock_ok (o : option mutex_id) : Prop := ∀ u, o = Some u → lib_lock u = false.
Definition queue_ok (o : option qref) : Prop := o ≠ Some QReady.

(** What the thread knows of a block it reads from [tcbs]. *)
Definition learn (v : option loc) (g : ghost) : ghost :=
  match v with
  | Some p => if decide (MTcbs ∈ g_held g ∧ g_priv g ≠ Some p) then know p g else g
  | None => g
  end.

Definition load_rule {A} (v : var A) (k : Z) (g : ghost) : post A → Prop :=
  match v in var A return post A → Prop with
  | VTcbs t => λ Φ, ∀ x,
      (∀ p, g_slot g = Some t → x = Some p → g_priv g = Some p) → Φ x k (learn x g)
  | VKiKtid i => λ Φ, ∀ x, (x = k → own k = Some i) → Φ x k g
  | VKiTask i => λ Φ, own k = Some i ∧ Φ (g_task g) k g
  | VKiLock _ => λ Φ, ∀ x, lock_ok x → Φ x k g
  | VKiQueue _ => λ Φ, ∀ x, queue_ok x → Φ x k g
  | _ => λ Φ, ∀ x, Φ x k g
  end.

Definition store_rule {A} (v : var A) (k : Z) (g : ghost) : A → post unit → Prop :=
  match v in var A return A → post unit → Prop with
  | VTcbs t => λ x Φ,
      match x with
      | None => Φ tt k (if decide (MTcbs ∈ g_held g ∧ g_priv g = None)
                        then build None (Some t) g else g)
      | Some p => MTcbs ∈ g_held g ∧ g_priv g = Some p ∧ Φ tt k (build (Some p) (Some t) g)
      end
  | VKiTask i => λ x Φ, own k = Some i ∧ Φ tt k (set_task x g)
  | VKiLock _ => λ x Φ, lock_ok x ∧ Φ tt k g
  | VKiQueue _ => λ x Φ, queue_ok x ∧ Φ tt k g
  | VKiKtid _ | VNumKthreads => λ _ _, False
  | _ => λ _ Φ, Φ tt k g
  end.

(** ** Commands *)
Definition rule {B} (c : cmd B) (k : Z) (g : ghost) : post B → Prop :=
  match c in cmd B return post B → Prop with
  | Load v => load_rule v k g
  | Store v x => store_rule v k g x
  | Crash _ => λ _, True
  | MallocTcb => λ Φ,
      MTcbs ∈ g_held g ∧ g_priv g = None ∧ Φ None k g ∧ ∀ p, Φ (Some p) k (build (Some p) None g)
  | QInit q => λ Φ, q ≠ QReady ∧ ∀ r, Φ r k g
  | QDestroy q => λ Φ, q ≠ QReady ∧ Φ tt k g
  | QEnqueue q p => λ Φ,
      p ∈ g_known g ∧ (∀ r, r ≠ 0 → Φ r k g) ∧
      Φ 0 k (if decide (q = QReady) then credit S g else g)
  | QDequeue q => λ Φ,
      if decide (q = QReady)
      then (0 < g_credit g)%nat ∧ ∀ p, Φ (Some p) k (know p (credit Nat.pred g))
      else Φ None k g ∧ ∀ p, Φ (Some p) k (know p g)
  | QSize q => λ Φ, ∀ n, (q = QReady → Z.of_nat (g_credit g) ≤ n) → Φ n k g
  | Gettid | PthreadSelf => λ Φ, Φ k k g
  | PthreadExit => λ _, g_held g = ∅ ∧ g_credit g = 0%nat
  | MutexInit u => λ Φ, lib_lock u = false ∧ ∀ r, Φ r k g
  | MutexLock u => λ Φ,
      if lib_lock u
      then (cautious = false ∧ u = MTcbs ∧ u ∈ g_held g) ∨ (∀ u', u' ∈ g_held g → (rank u' < rank u)%nat) ∧ Φ 0 k (hold u g)
      else ∀ r, Φ r k g
  | MutexUnlock u => λ Φ,
      if lib_lock u then u ∈ g_held g ∧ (u = MTcbs → g_priv g = None) ∧ Φ 0 k (drop u g)
      else ∀ r, Φ r k g
  | MutexDestroy u => λ Φ, lib_lock u = false ∧ ∀ r, Φ r k g
  | SemInit s _ => λ Φ, s ≠ KNotEmpty ∧ ∀ r, Φ r k g
  | SemPost s => λ Φ,
      if decide (s = KNotEmpty)
      then (0 < g_credit g)%nat ∧ Φ 0 k (credit Nat.pred g) ∧ ∀ r, r ≠ 0 → Φ r k g
      else ∀ r, Φ r k g
  | SemWait s => λ Φ,
      if decide (s = KNotEmpty) then g_held g = ∅ ∧ Φ 0 k (credit S g) else ∀ r, Φ r k g
  | SemDestroy s => λ Φ, s ≠ KNotEmpty ∧ ∀ r, Φ r k g
  | Getcontext c => λ Φ, ∃ p, c = CtxTcb p ∧ g_priv g = Some p ∧ Φ 0 k g
  | Makecontext c f => λ Φ,
      ∃ p s a, c = CtxTcb p ∧ f = FTrampoline s a ∧
        Φ tt k (if decide (g_priv g = Some p) then know p (build None None g) else g)
  | Setcontext c => λ _,
      match c with
      | CtxSched _ => at_schedule g
      | CtxTcb p => idle g ∧ p ∈ g_known g
      | CtxAbort => False
      end
  | Swapcontext o c => λ Φ,
      (∃ p, o = CtxTcb p) ∧ (∃ i, c = CtxSched i) ∧ at_schedule g ∧
      ∀ k' g', idle g' → Φ 0 k' g'
  | Call f => fspec f k g
  (* kernel threads come and go, tables and the library's memory are set up only
     in uthread_init and uthread_teardown *)
  | MallocKinfo _ | FreeKinfo _ | AllocArgs | FreeArgs _ | PthreadCreate _ | PthreadJoin _ =>
      λ _, False
  | _ => λ Φ, ∀ b, Φ b k g
  end.

Definition cmd_wp {B} (c : cmd B) (Φ : post B) (k : Z) (g : ghost) : Prop :=
  (∀ u, guard c = Some u → u ∈ g_held g) ∧ rule c k g Φ.

(** ** Programs *)
Fixpoint wp {A} (p : prog A) (Q : post A) (k : Z) (g : ghost) : Prop :=
  match p with
  | Ret a => Q a k g
  | Vis c kont => cmd_wp c (λ b k' g', wp (kont b) Q k' g') k g
  end.

Lemma rule_mono {B} (c : cmd B) k g (Φ Ψ : post B) :
  (∀ b k' g', Φ b k' g' → Ψ b k' g') → rule c k g Φ → rule c k g Ψ.
Proof.
  intros H. destruct c; cbn; try naive_solver.
  all: try (destruct v; cbn; try naive_solver; destruct x; naive_solver).
  all: try (destruct (lib_lock _); naive_solver).
  all: try (case_decide; naive_solver).
  destruct f; cbn; naive_solver.
Qed.

Lemma wp_mono {A} (p : prog A) (Q Q' : post A) k g :
  (∀ a k' g', Q a k' g' → Q' a k' g') → wp p Q k g → wp p Q' k g.
Proof.
  intros H. revert k g. induction p as [a|B c kont IH]; intros k g; cbn; [apply H|].
  intros [Hg Hr]. split; [done|]. revert Hr. apply rule_mono. intros b k' g'. apply IH.
Qed.

Lemma wp_bind {A B} (p : prog A) (f : A → prog B) (Q : post B) k g :
  wp p (λ a k' g', wp (f a) Q k' g') k g → wp (pbind p f) Q k g.
Proof.
  revert k g. induction p as [a|C c kont IH]; intros k g; cbn; [done|].
  intros [Hg Hr]. split; [done|]. revert Hr. apply rule_mono. intros b k' g'. apply IH.
Qed.

(** Loops, with an invariant. *)
Lemma wp_pfor {S} (I : S → Prop) n i (body : Z → S → prog S) s (Q : post S) k g :
  I s → (∀ j s, I s → wp (body j s) (λ s' k' g', I s' ∧ k' = k ∧ g' = g) k g) →
  (∀ s, I s → Q s k g) → wp (pfor n i body s) Q k g.
Proof.
  intros Hs Hb HQ. revert i s Hs. induction n as [|n IH]; intros i s Hs; cbn; [auto|].
  apply wp_bind. eapply wp_mono; [|by apply Hb]. intros s' k' g' (Hs' & -> & ->). auto.
Qed.
End logic.
