(* ===== verification/Locks.v ===== *)
(** * The library keeps the rules of Logic

    A specification per function of uthread.c, for a kernel thread that runs
    while others do. *)
From S2P Require Import Prelude Bitvec Machine Kthread Uthread Client Logic.
Local Open Scope prog_scope.
#[local] Arguments or_abort : simpl never.
#[local] Arguments learn : simpl never.

Section specs.
Context (own : Z → option Z) (cautious : bool).
Implicit Types (k : Z) (g : ghost).

Abbreviation wp := (Logic.wp own cautious).
Abbreviation cmd_wp := (Logic.cmd_wp own cautious).
Abbreviation outside := (Logic.outside cautious).
Abbreviation stuck := (Logic.stuck cautious).
Abbreviation post B := (B → Z → ghost → Prop).

(** ** Steps of a proof *)
Lemma wp_cmd {A B} (c : cmd B) (f : B → prog A) (Q : post A) k g :
  cmd_wp c (λ b k' g', wp (f b) Q k' g') k g → wp (pbind (do_ c) f) Q k g.
Proof. done. Qed.

Lemma wp_or_abort p (Q : post unit) k g :
  wp p (λ r k' g', r = 0 → Q tt k' g') k g → wp (or_abort p) Q k g.
Proof.
  intros H. unfold or_abort. apply wp_bind. revert H. apply wp_mono.
  intros r k' g' Hr. destruct (Z.eqb_spec r 0); [by apply Hr|done].
Qed.

Lemma wp_passert b (Q : post unit) k g : (b = true → Q tt k g) → wp (passert b) Q k g.
Proof. destruct b; cbn; [by auto|done]. Qed.

Lemma wp_deref {A} (p : option A) (Q : post A) k g :
  (∀ x, p = Some x → Q x k g) → wp (deref p) Q k g.
Proof. destruct p; cbn; [by auto|done]. Qed.

Lemma wp_lift_res {A} (r : res A) (Q : post A) k g :
  (∀ x, r = Ok x → Q x k g) → wp (lift_res r) Q k g.
Proof. destruct r; cbn; [by auto|done]. Qed.

Lemma wp_crash {A} f (Q : post A) k g : wp (crash f) Q k g.
Proof. done. Qed.

(** The next command: its guard, and its rule. *)
Ltac wcmd := apply wp_cmd; split; [try done|cbn [rule load_rule store_rule fspec]].

(** ** Helpers of uthread.c *)
Lemma wp_block_sigrtmin (Q : post unit) k g : Q tt k g → wp block_sigrtmin Q k g.
Proof.
  intros H. wcmd. intros q. destruct (negb _); [|done].
  wcmd. intros s. apply wp_or_abort. split; [done|]. by intros r _.
Qed.

Lemma wp_unblock_sigrtmin (Q : post unit) k g : Q tt k g → wp unblock_sigrtmin Q k g.
Proof.
  intros H. wcmd. intros q. destruct (negb _); [|done].
  wcmd. intros s. apply wp_or_abort. split; [done|]. by intros r _.
Qed.

Lemma wp_get_kthread_info (Q : post Z) k g :
  (∀ i, own k = Some i → Q i k g) → wp (get_kthread_info k) Q k g.
Proof.
  intros H. wcmd. intros n. apply wp_bind.
  apply (wp_pfor own cautious (λ o, ∀ i, o = Some i → own k = Some i)); [done| |].
  - intros j s Hs. wcmd. intros x Hx.
    destruct (Z.eqb_spec x k); naive_solver.
  - intros s Hs. apply wp_bind, wp_passert. intros _. apply wp_deref. auto.
Qed.

Lemma wp_get_sched_ctx (Q : post ctxref) k g :
  (∀ i, own k = Some i → Q (CtxSched i) k g) → wp get_sched_ctx Q k g.
Proof.
  intros H. wcmd. apply wp_bind, wp_get_kthread_info. auto.
Qed.

Lemma wp_uthread_self (Q : post Z) k g : (∀ t, Q t k g) → wp uthread_self Q k g.
Proof.
  intros H. wcmd. intros i. apply wp_bind, wp_passert. intros _.
  wcmd. apply wp_bind, wp_get_kthread_info. intros j _.
  wcmd. intros t. apply H.
Qed.

Lemma wp_lock_tcbs (Q : post unit) k g :
  g_held g = ∅ ∨ MTcbs ∈ g_held g ∧ cautious = false → (g_held g = ∅ → Q tt k (hold MTcbs g)) →
  wp lock_tcbs Q k g.
Proof.
  intros Hg H. apply wp_or_abort. split; [done|]. cbn.
  destruct Hg as [Hg|[Hg Hc]]; [right|by left].
  rewrite Hg. split; [set_solver|auto].
Qed.

Lemma wp_unlock_tcbs (Q : post unit) k g :
  MTcbs ∈ g_held g → g_priv g = None → Q tt k (drop MTcbs g) → wp unlock_tcbs Q k g.
Proof. intros Hg Hp H. apply wp_or_abort. split; [done|]. cbn. auto. Qed.

(** A block read from [tcbs] under [tcbs_lock] by a thread that builds none. *)
Lemma wp_load_tcbs {A} t (f : option loc → prog A) (Q : post A) k g :
  (∀ x, wp (f x) Q k (learn x g)) → wp (pbind (Load (VTcbs t)) f) Q k g.
Proof. intros H. wcmd. intros x _. apply H. Qed.

Lemma wp_tcb_of t (Q : post loc) k g :
  (∀ p, Q p k (learn (Some p) g)) → wp (tcb_of t) Q k g.
Proof.
  intros H. unfold tcb_of. apply wp_load_tcbs. intros x. apply wp_deref. intros p ->. apply H.
Qed.

(** What [learn] changes. *)
Lemma learn_held x g : g_held (learn x g) = g_held g.
Proof. unfold learn; destruct x; cbn; [case_decide|]; done. Qed.
Lemma learn_credit x g : g_credit (learn x g) = g_credit g.
Proof. unfold learn; destruct x; cbn; [case_decide|]; done. Qed.
Lemma learn_task x g : g_task (learn x g) = g_task g.
Proof. unfold learn; destruct x; cbn; [case_decide|]; done. Qed.
Lemma learn_priv x g : g_priv (learn x g) = g_priv g.
Proof. unfold learn; destruct x; cbn; [case_decide|]; done. Qed.
Lemma learn_slot x g : g_slot (learn x g) = g_slot g.
Proof. unfold learn; destruct x; cbn; [case_decide|]; done. Qed.
Lemma learn_mono x g : g_known g ⊆ g_known (learn x g).
Proof. unfold learn; destruct x; cbn; [case_decide|]; set_solver. Qed.

Lemma learn_known p g :
  MTcbs ∈ g_held g → g_priv g = None → p ∈ g_known (learn (Some p) g).
Proof. intros H1 H2. unfold learn. rewrite decide_True by (rewrite H2; done). cbn. set_solver. Qed.

(** [tcbs_lock] is released and nothing else is held. *)
Definition released (g : ghost) : Prop :=
  g_held g = ∅ ∧ g_credit g = 0%nat ∧ g_priv g = None.

(** [uthread_create] after [malloc] gave it block [p]: it holds [tcbs_lock], and
    [p] is in [tcbs], where only [None] can take its place. *)
Definition building (t : Z) (p : loc) (g : ghost) : Prop :=
  g_held g = {[MTcbs]} ∧ g_credit g = 0%nat ∧ g_task g = NONE ∧
  g_priv g = Some p ∧ g_slot g = Some t.

(** Goals about ghost states: compute the fields, then sets. *)
Ltac fields := cbn [g_held g_credit g_task g_priv g_slot g_known hold drop credit set_task know build];
  rewrite ?learn_held, ?learn_credit, ?learn_task, ?learn_priv, ?learn_slot;
  cbn [g_held g_credit g_task g_priv g_slot g_known hold drop credit set_task know build].
Ltac gs_open := repeat match goal with
  | H : idle _ |- _ => destruct H as (? & ? & ? & ?)
  | H : Logic.stuck _ _ |- _ => destruct H as (? & ? & ? & ?)
  | H : at_schedule _ |- _ => destruct H as (? & ? & ?)
  | H : released _ |- _ => destruct H as (? & ? & ?)
  | H : building _ _ _ |- _ => destruct H as (? & ? & ? & ? & ?)
  end.
Ltac gs := gs_open; unfold at_schedule, Logic.outside, Logic.stuck, idle, released, building; repeat progress fields;
  repeat match goal with H : g_held _ = _ |- _ => rewrite H end;
  repeat match goal with H : g_task _ = _ |- _ => rewrite H end;
  repeat match goal with H : g_credit _ = _ |- _ => rewrite H end;
  repeat match goal with H : g_priv _ = _ |- _ => rewrite H end;
  try case_decide; try done; split_and?; try done; try (clear; set_solver).

Lemma wp_uthread_yield (Q : post unit) k g :
  outside g → (∀ k' g', idle g' → Q tt k' g') → wp uthread_yield Q k g.
Proof.
  intros Hg H. unfold uthread_yield. wcmd. intros i. apply wp_bind, wp_passert. intros _.
  apply wp_bind, wp_block_sigrtmin. wcmd. apply wp_bind, wp_get_kthread_info. intros j Hj.
  wcmd. split; [done|].
  apply wp_bind, wp_lock_tcbs; [destruct Hg; [left|right]; gs|]. intros H0.
  apply wp_bind, wp_uthread_self. intros t. apply wp_load_tcbs. intros x.
  apply wp_bind, wp_deref. intros p ->.
  wcmd; [intros ? [= <-]; gs|]. intros st. apply wp_bind, wp_passert. intros _.
  wcmd; [intros ? [= <-]; gs|].
  apply wp_bind, wp_get_sched_ctx. intros j' _. apply wp_or_abort.
  split; [intros ? [= <-]; gs|]. cbn [rule].
  destruct Hg as [Hg|Hg]; [|destruct Hg as [Hg _]; cbn in H0; rewrite Hg in H0; set_solver].
  split_and!; [eauto|eauto|gs|intros k' g' Hi _; by apply H].
Qed.

Lemma wp_check_preempted (Q : post unit) k g :
  outside g → (∀ k' g', outside g' → Q tt k' g') → wp check_preempted Q k g.
Proof.
  intros Hg H. wcmd. apply wp_bind, wp_get_kthread_info. intros i Hi. wcmd. intros q.
  destruct (q =? 0); [by apply H|]. wcmd. intros x. destruct (x =? 0); [by apply H|].
  wcmd. apply wp_uthread_yield; [done|]. intros k' g' Hg'. apply H. by left.
Qed.

(** ** Identifiers *)
Lemma outside_held g u : outside g → u ∈ g_held g → u = MTcbs.
Proof. intros [Hg|Hg]; gs. Qed.

Lemma drop_hold u g : u ≠ MTcbs → u ∉ g_held g → drop u (hold u g) = g.
Proof.
  intros Hn Hu. destruct g as [h c t p s kn]. cbn in *. unfold drop, hold. cbn.
  rewrite decide_False by done. f_equal. set_solver.
Qed.

(** A critical section of [bitvec_lock]. *)
Lemma wp_lock_bitvec {A} (p : prog A) (Q : post A) k g :
  outside g → wp p Q k (hold MBitvec g) → wp (or_abort (kthread_mutex_lock MBitvec) ;; p) Q k g.
Proof.
  intros Hg H. apply wp_bind, wp_or_abort. split; [done|]. cbn. right. split; [|by intros _].
  intros u Hu. rewrite (outside_held g u); [cbn; lia|done..].
Qed.

Lemma wp_unlock_bitvec (Q : post unit) k g :
  outside g → Q tt k g → wp (or_abort (kthread_mutex_unlock MBitvec)) Q k (hold MBitvec g).
Proof.
  intros Hg H. apply wp_or_abort. split; [done|]. cbn. split_and!; [set_solver|done|].
  intros _. rewrite drop_hold; [done|done|]. intros Hu. by apply outside_held in Hu.
Qed.

Lemma wp_get_next_tid (Q : post Z) k g :
  outside g → (∀ t, Q t k g) → wp get_next_tid Q k g.
Proof.
  intros Hg H. apply wp_lock_bitvec; [done|]. wcmd; [intros ? [= <-]; cbn; set_solver|]. intros bv.
  apply wp_bind, wp_lift_res. intros t _. apply wp_bind.
  assert (Hend : ∀ r, wp (or_abort (kthread_mutex_unlock MBitvec) ;; Ret r) Q k (hold MBitvec g)).
  { intros r. by apply wp_bind, wp_unlock_bitvec; cbn. }
  destruct (t <? 0); [apply Hend|]. apply wp_bind, wp_lift_res. intros bv' _.
  wcmd; [intros ? [= <-]; cbn; set_solver|]. apply Hend.
Qed.

Lemma wp_reclaim_tid t (Q : post unit) k g : outside g → Q tt k g → wp (reclaim_tid t) Q k g.
Proof.
  intros Hg H. apply wp_lock_bitvec; [done|]. wcmd; [intros ? [= <-]; cbn; set_solver|]. intros bv.
  apply wp_bind, wp_lift_res. intros bv' _. wcmd; [intros ? [= <-]; cbn; set_solver|].
  by apply wp_unlock_bitvec.
Qed.

(** ** The ready queue *)

(** Neither lock of the second rank is held. *)
Definition low (g : ghost) : Prop := ∀ u, u ∈ g_held g → u = MTcbs.

Lemma credit_id g f : f (g_credit g) = g_credit g → credit f g = g.
Proof. intros H. destruct g. unfold credit. cbn in *. by rewrite H. Qed.

Lemma wp_ready_enqueue o (Q : post unit) k g :
  low g → (∀ p, o = Some p → p ∈ g_known g) → Q tt k g → wp (ready_enqueue o) Q k g.
Proof.
  intros Hl Hp H. apply wp_bind, wp_or_abort. split; [done|]. cbn. right.
  split; [intros u Hu; rewrite (Hl u Hu); cbn; lia|]. intros _.
  apply wp_bind, wp_or_abort. destruct o as [p|]; [|done]. split; [intros ? [= <-]; cbn; set_solver|].
  cbn [rule]. rewrite decide_True by done. split_and!; [cbn; auto|done|]. intros _.
  apply wp_bind, wp_or_abort. split; [done|]. cbn. split_and!; [set_solver|done|]. intros _.
  apply wp_or_abort. split; [done|]. cbn. split_and!; [lia| |done]. intros _.
  replace (credit _ _) with g; [done|]. destruct g as [h c t p' s kn]. unfold drop, hold, credit.
  cbn. rewrite decide_False by done. f_equal. assert (MRqueue ∉ h) by (intros Hu; by apply Hl in Hu). set_solver.
Qed.

Lemma wp_ready_dequeue (Q : post loc) k g :
  g_held g = ∅ → (∀ p, Q p k (know p g)) → wp ready_dequeue Q k g.
Proof.
  intros Hg H. apply wp_bind, wp_or_abort. split; [done|]. cbn. split; [done|]. intros _.
  apply wp_bind, wp_or_abort. split; [done|]. cbn. right. rewrite Hg.
  split; [set_solver|]. intros _. wcmd; [intros ? [= <-]; cbn; set_solver|]. intros n _.
  apply wp_bind, wp_passert. intros _. wcmd; [intros ? [= <-]; cbn; set_solver|].
  rewrite decide_True by done. split; [cbn; lia|]. intros p. apply wp_bind, wp_passert. intros _.
  apply wp_bind, wp_or_abort. split; [done|]. cbn. split_and!; [set_solver|done|]. intros _.
  replace (drop _ _) with (know p g); [apply H|]. destruct g as [h c t p' s kn].
  unfold drop, hold, credit, know. cbn in *. rewrite decide_False by done. f_equal. set_solver.
Qed.

(** ** Contexts and blocks *)
Lemma wp_allocate_stack c b n (Q : post Z) k g :
  (∀ u, ctx_guard c = Some u → u ∈ g_held g) → (∀ r, Q r k g) →
  wp (allocate_stack c b n) Q k g.
Proof.
  intros Hc H. wcmd. apply wp_bind.
  assert (Hend : ∀ sp, wp (Store (VCtxSp c) sp ;; sp' ← Load (VCtxSp c);
    Ret (if decide (sp' = SNull) then 1 else 0)) Q k g).
  { intros sp. wcmd. wcmd. intros x. apply H. }
  case_decide; [|apply Hend]. wcmd. intros x. split; [done|]. intros y. apply Hend.
Qed.

Lemma outside_build t g : outside g → outside (build None t g).
Proof. unfold Logic.outside, idle, Logic.stuck. cbn. naive_solver. Qed.

Lemma outside_learn x g : outside g → outside (learn x g).
Proof. intros [Hg|Hg]; [left|right]; gs. Qed.

Lemma wp_destroy_thread t (Q : post unit) k g :
  outside g → (∀ g', outside g' → Q tt k g') → wp (destroy_thread t) Q k g.
Proof.
  intros Hg H. unfold destroy_thread.
  pose proof outside_learn as Hl.
  apply wp_bind, wp_tcb_of. intros p. wcmd. split; [done|].
  apply wp_bind, wp_tcb_of. intros p2. wcmd. intros a. apply wp_bind.
  set (g2 := learn _ (learn _ g)). assert (Hg2 : outside g2) by (unfold g2; auto).
  assert (Hend : ∀ g, outside g →
    wp (p ← Load (VTcbs t); FreeTcb p ;; Store (VTcbs t) None) Q k g).
  { intros g3 Hg3. apply wp_load_tcbs. intros x. wcmd. intros _. split; [done|].
    cbn [rule store_rule Logic.wp]. apply H. specialize (Hl x _ Hg3).
    case_decide; [|done]. by apply outside_build. }
  destruct (negb _); [|by apply Hend].
  apply wp_bind, wp_tcb_of. intros p3. wcmd. intros sp. split; [done|]. intros []. apply Hend. auto.
Qed.

Lemma wp_uthread_exit v (Q : post unit) k g : outside g → wp (uthread_exit v) Q k g.
Proof.
  intros Hg. wcmd. intros i. apply wp_bind, wp_passert. intros _.
  apply wp_bind, wp_block_sigrtmin. apply wp_bind, wp_check_preempted; [done|].
  clear k g Hg. intros k g Hg.
  apply wp_bind, wp_lock_tcbs; [destruct Hg; [left|right]; gs|]. intros H0.
  apply wp_bind, wp_uthread_self. intros t. apply wp_bind, wp_tcb_of. intros p.
  wcmd; [intros ? [= <-]; gs|]. wcmd; [intros ? [= <-]; gs|]. intros st.
  apply wp_bind, wp_passert. intros _. wcmd; [intros ? [= <-]; gs|].
  wcmd. apply wp_bind, wp_get_kthread_info. intros j Hj. wcmd. split; [done|].
  apply wp_bind, wp_get_sched_ctx. intros j' _. apply wp_or_abort. split; [done|]. cbn [rule].
  destruct Hg as [Hg|[Hg _]]; [|rewrite Hg in H0; set_solver]. gs.
Qed.

Lemma wp_trampoline s a (Q : post unit) k g : idle g → wp (trampoline s a) Q k g.
Proof.
  intros Hg. apply wp_bind, wp_lock_tcbs; [left; gs|]. intros H0.
  apply wp_bind, wp_uthread_self. intros t. apply wp_bind, wp_tcb_of. intros p.
  wcmd; [intros ? [= <-]; gs|]. intros st. apply wp_bind, wp_passert. intros _.
  apply wp_bind, wp_unlock_tcbs; [gs|gs|]. wcmd. split; [left; gs|].
  intros v k' g' Hg'. by apply wp_uthread_exit.
Qed.

(** ** The scheduler *)

(** A block put on a queue that is not the ready queue. *)
Lemma wp_queue_enqueue q o (Q : post Z) k g :
  queue_ok q → MTcbs ∈ g_held g → (∀ p, o = Some p → p ∈ g_known g) → (∀ r, Q r k g) →
  wp (queue_enqueue q o) Q k g.
Proof.
  intros Hq Hh Ho H. destruct q as [q|], o as [p|]; try done. cbn [queue_enqueue].
  assert (q ≠ QReady) by (by intros ->).
  split; [by destruct q; intros ? [= <-]|]. cbn [rule]. rewrite decide_False by done. split_and!; [by apply Ho|by intros r _; apply H|apply H].
Qed.

Lemma wp_unlock_released (Q : post unit) k g :
  g_held g = {[MTcbs]} → g_credit g = 0%nat → g_priv g = None →
  (∀ g', released g' → Q tt k g') → wp unlock_tcbs Q k g.
Proof. intros Hh Hc Hp H. apply wp_unlock_tcbs; [gs|done|]. apply H. unfold released. gs. Qed.

Lemma wp_schedule_task i t x (Q : post unit) k g :
  own k = Some i → at_schedule g → (g_task g ≠ NONE → ∀ p, x = Some p → p ∈ g_known g) →
  (∀ g', released g' → Q tt k g') → wp (schedule_task i t x) Q k g.
Proof.
  intros Hi (Hh & Hc & Hp) Hx H. wcmd. split; [done|].
  destruct (decide (g_task g = NONE)) as [Ht|Ht].
  { rewrite Ht. by apply H. }
  specialize (Hx Ht).
  assert (Hl : low g) by (intros u; rewrite Hh; set_solver).
  destruct (g_task g) eqn:Etask; [done|..].
  - apply wp_bind, wp_ready_enqueue; [done..|]. by apply wp_unlock_released.
  - apply wp_bind, wp_deref. intros c ->. wcmd; [intros ? [= <-]; gs|].
    intros n _. apply wp_bind. destruct (0 <? n); [|by apply wp_unlock_released].
    wcmd; [intros ? [= <-]; gs|]. rewrite decide_False by done. split; [done|]. intros p.
    cbn [pbind]. wcmd; [intros ? [= <-]; gs|]. intros jt.
    wcmd; [intros ? [= <-]; gs|]. intros st. apply wp_bind, wp_passert. intros _.
    wcmd; [intros ? [= <-]; gs|]. apply wp_ready_enqueue; [done|intros ? [= <-]; gs|].
    by apply wp_unlock_released.
  - wcmd. intros q Hq. apply wp_bind, wp_or_abort, wp_queue_enqueue; [done|gs|done|]. intros r _.
    by apply wp_unlock_released.
  - wcmd. intros q Hq. apply wp_bind, wp_or_abort, wp_queue_enqueue; [done|gs|done|]. intros r _.
    wcmd. intros u Hu. apply wp_bind, wp_deref. intros u' ->. apply wp_bind, wp_or_abort.
    split; [done|]. cbn [rule]. rewrite (Hu u') by done. intros r' _. by apply wp_unlock_released.
  - apply wp_bind, wp_deref. intros c ->. wcmd; [intros ? [= <-]; gs|].
    apply wp_bind, wp_ready_enqueue; [done..|]. by apply wp_unlock_released.
Qed.

Lemma wp_dispatch i p (Q : post unit) k g :
  idle g → p ∈ g_known g → wp (dispatch i p) Q k g.
Proof.
  intros Hg Hp. apply wp_bind, wp_lock_tcbs; [left; gs|]. intros _. wcmd.
  apply wp_bind, wp_get_kthread_info. intros j _. wcmd; [intros ? [= <-]; gs|]. intros t.
  wcmd. wcmd; [intros ? [= <-]; gs|]. intros st. apply wp_bind, wp_passert. intros _.
  wcmd; [intros ? [= <-]; gs|]. apply wp_bind, wp_unlock_tcbs; [gs|gs|]. wcmd.
  apply wp_bind, wp_unblock_sigrtmin. apply wp_or_abort. split; [done|]. cbn [rule]. gs.
Qed.

Lemma wp_handle_exitall (Q : post unit) k g :
  idle g → Q tt k g → wp handle_exitall Q k g.
Proof.
  intros Hg H. wcmd. wcmd. intros main _. destruct (k =? main).
  - wcmd. intros n. apply wp_bind. apply (wp_pfor own cautious (λ _, True)); [done| |].
    + intros j s _. apply wp_or_abort. split; [done|]. cbn [rule]. rewrite decide_False by done. done.
    + intros _ _. split; [done|]. cbn [rule fspec]. gs.
  - apply wp_bind, wp_or_abort. split; [done|]. cbn [rule]. rewrite decide_False by done.
    intros r _. split; [done|]. cbn [rule]. gs.
Qed.

Lemma wp_schedule (Q : post unit) k g : at_schedule g → wp schedule Q k g.
Proof.
  intros Hg. apply wp_bind, wp_block_sigrtmin. wcmd. apply wp_bind, wp_get_kthread_info.
  intros i Hi. apply wp_bind, wp_uthread_self. intros t.
  assert (Hrest : ∀ x g, at_schedule g → (g_task g ≠ NONE → ∀ p, x = Some p → p ∈ g_known g) →
    wp (ktid ← Load (VKiKtid i); passert (k =? ktid) ;; schedule_task i (to_int t) x ;;
        Store (VKiTask i) NONE ;; Store (VKiLock i) None ;; Store (VKiQueue i) None ;;
        next_tcb ← ready_dequeue;
        (if decide (next_tcb = exitall) then handle_exitall else Ret tt) ;;
        dispatch i next_tcb) Q k g).
  { clear g Hg. intros x g Hg Hx. wcmd. intros ktid _. apply wp_bind, wp_passert. intros _.
    apply wp_bind, wp_schedule_task; [done..|]. intros g' (Hh & Hc & Hp).
    wcmd. split; [done|]. wcmd. split; [done|]. wcmd. split; [done|].
    apply wp_bind, wp_ready_dequeue; [done|]. intros p. apply wp_bind.
    assert (Hd : wp (dispatch i p) Q k (know p (set_task NONE g'))) by (apply wp_dispatch; gs).
    case_decide; [|done]. apply wp_handle_exitall; [gs|done]. }
  apply wp_bind. destruct (0 <=? _).
  - split; [done|]. cbn [rule load_rule]. intros x _. apply Hrest; [gs|]. intros Ht p ->.
    destruct Hg as (Hh & _ & Hp). rewrite learn_task in Ht. rewrite decide_False in Hh by done.
    apply learn_known; [set_solver|done].
  - by apply Hrest.
Qed.

(** ** Entry points of kernel threads and signals *)
Lemma wp_set_timer_interrupt (Q : post unit) k g : Q tt k g → wp (set_timer_interrupt k) Q k g.
Proof.
  intros H. apply wp_bind, wp_get_kthread_info. intros i _. wcmd. intros r. wcmd. intros [t|]; [|done].
  wcmd. wcmd. intros q. wcmd. intros t'. wcmd. intros r'. by destruct (r' <? 0).
Qed.

Lemma wp_kthread_main a (Q : post unit) k g : idle g → wp (kthread_main a) Q k g.
Proof.
  intros Hg. apply wp_bind, wp_or_abort. split; [done|]. cbn [rule]. rewrite decide_False by done.
  intros r _. apply wp_bind, wp_block_sigrtmin. wcmd. intros i. apply wp_bind, wp_passert. intros _.
  wcmd. intros q. apply wp_bind.
  assert (Hend : wp (sched ← get_sched_ctx; or_abort (Setcontext sched)) Q k g).
  { apply wp_bind, wp_get_sched_ctx. intros j _. apply wp_or_abort. split; [done|]. cbn [rule]. gs. }
  destruct (negb _); [|done]. wcmd. by apply wp_set_timer_interrupt.
Qed.

Lemma wp_sigrtmin_handler (Q : post unit) k g : Q tt k g → wp sigrtmin_handler Q k g.
Proof.
  intros H. wcmd. intros i. destruct (i =? 0); [done|]. wcmd. intros q. destruct (q =? 0); [done|].
  wcmd. apply wp_bind, wp_get_kthread_info. intros j _. by split.
Qed.

(** ** Creation *)

Lemma wp_load_building {A} t p (f : option loc → prog A) (Q : post A) k g :
  building t p g → wp (f None) Q k g → wp (f (Some p)) Q k g →
  wp (pbind (Load (VTcbs t)) f) Q k g.
Proof.
  intros (_ & _ & _ & Hp & Ht) H0 H1. wcmd. intros [q|] Hq; [|done].
  assert (q = p) as -> by (specialize (Hq q); naive_solver). unfold learn. rewrite decide_False by naive_solver. done.
Qed.

Lemma wp_tcb_of_building t p (Q : post loc) k g :
  building t p g → Q p k g → wp (tcb_of t) Q k g.
Proof. intros Hg H. by eapply wp_load_building; [done| |]. Qed.

(** What a call of [uthread_create] that returned [r] leaves: nothing held, but after a
    failure [tcbs_lock], with which only a client that is not cautious goes on. *)
Definition created (r : Z) (g : ghost) : Prop := outside g ∨ (cautious = true ∧ r ≠ 0).

Lemma kept_created r g : g_held g = {[MTcbs]} → g_credit g = 0%nat → g_task g = NONE →
  r ≠ 0 → created r g.
Proof.
  intros Hh Hc Ht Hr. unfold created, Logic.outside, Logic.stuck.
  destruct cautious; [by right|left; right]. by split_and!.
Qed.

Lemma building_created t p g r : building t p g → r ≠ 0 → created r g.
Proof. intros (? & ? & ? & _) ?. by apply kept_created. Qed.

Lemma wp_uthread_create pt f a b n (Q : post Z) k g :
  outside g → (∀ r k' g', created r g' → Q r k' g') → wp (uthread_create pt f a b n) Q k g.
Proof.
  intros Hg H. wcmd. intros i. apply wp_bind, wp_passert. intros _.
  apply wp_bind, wp_block_sigrtmin. apply wp_bind, wp_check_preempted; [done|].
  clear k g Hg. intros k g Hg. apply wp_bind, wp_get_next_tid; [done|]. intros t. cbn zeta.
  set (t' := to_uint t). apply wp_bind.
  assert (Hend : ∀ r k g, created r g → wp (unblock_sigrtmin ;; Ret r) Q k g).
  { intros r k' g' Hg'. apply wp_bind, wp_unblock_sigrtmin. by apply H. }
  destruct (t' <? 0); [wcmd; apply Hend; by left|]. wcmd.
  apply wp_bind, wp_lock_tcbs; [destruct Hg; [left|right]; gs|]. intros H0.
  destruct Hg as [Hg|[Hg _]]; [|rewrite Hg in H0; set_solver].
  wcmd. split_and!; [gs|gs| |intros p].
  - wcmd. rewrite (decide_True (P := MTcbs ∈ _ ∧ _)) by (split; gs). wcmd. intros [p|] Hx.
    + specialize (Hx p). cbn in Hx. naive_solver.
    + apply Hend, kept_created; [gs..|done].
  - wcmd; [intros ? [= <-]; gs|]. split_and!; [gs|done|]. set (g1 := build _ _ _).
    assert (Hg1 : building t' p g1)  by (unfold g1; gs). clearbody g1. clear g Hg H0.
    assert (Hlock : ∀ u, Some MTcbs = Some u → u ∈ g_held g1) by (intros ? [= <-]; gs).
    eapply wp_load_building; [done|apply Hend; by eapply building_created|].
    apply wp_bind. eapply wp_tcb_of_building; [done|]. wcmd.
    apply wp_bind. eapply wp_tcb_of_building; [done|]. wcmd.
    apply wp_bind. eapply wp_tcb_of_building; [done|].
    apply wp_bind, wp_or_abort. split; [done|]. cbn [rule]. split; [done|]. intros r _.
    apply wp_bind. eapply wp_tcb_of_building; [done|].
    apply wp_bind, wp_or_abort. split; [done|]. cbn [rule]. exists p.
    split_and!; [done|apply Hg1|]. intros _.
    apply wp_bind. eapply wp_tcb_of_building; [done|].
    apply wp_bind, wp_allocate_stack; [done|]. intros r'. destruct (negb _).
    { eapply wp_load_building; [done|..]; wcmd; intros _; apply Hend; by eapply building_created. }
    apply wp_bind. eapply wp_tcb_of_building; [done|]. wcmd.
    apply wp_bind. eapply wp_tcb_of_building; [done|]. wcmd. wcmd.
    apply wp_bind. eapply wp_tcb_of_building; [done|]. wcmd.
    eexists _, _, _. split_and!; [done..|].
    destruct Hg1 as (Hh & Hc & Ht & Hp & Hs). rewrite (decide_True (P := g_priv _ = _)) by done.
    wcmd. intros e. apply wp_bind. destruct (negb _); [done|]. cbn [Logic.wp].
    apply wp_load_tcbs. intros x.
    apply wp_bind, wp_ready_enqueue; [intros u; gs| |].
    { intros q ->. apply learn_known; gs. }
    apply wp_bind, wp_unlock_tcbs; [gs|gs|]. apply Hend. left. left. gs.
Qed.

(** ** Joining *)

(** [tcbs_lock] is held and nothing else. *)
Definition locked (g : ghost) : Prop :=
  g_held g = {[MTcbs]} ∧ g_credit g = 0%nat ∧ g_task g = NONE ∧ g_priv g = None.

Lemma wp_lock_outside (Q : post unit) k g :
  outside g → (∀ g', locked g' → Q tt k g') → wp lock_tcbs Q k g.
Proof.
  intros Hg H. apply wp_lock_tcbs; [destruct Hg; [left|right]; gs|]. intros H0. apply H.
  destruct Hg as [Hg|[Hg _]]; [unfold locked; gs|]. rewrite Hg in H0. set_solver.
Qed.

Lemma locked_learn x g : locked g → locked (learn x g).
Proof. intros (? & ? & ? & ?). unfold locked. gs. Qed.

Lemma locked_held g : locked g → MTcbs ∈ g_held g.
Proof. intros (-> & _). set_solver. Qed.

Lemma locked_idle g : locked g → idle (drop MTcbs g).
Proof. intros (? & ? & ? & ?). gs. Qed.

Lemma locked_at_schedule t g : locked g → t ≠ NONE → at_schedule (set_task t g).
Proof. intros (? & ? & ? & ?) Ht. unfold at_schedule. cbn. by rewrite decide_False. Qed.

Lemma wp_join_end t o (Q : post Z) k g :
  locked g → (∀ r k' g', outside g' → Q r k' g') →
  wp (t' ← tcb_of t;
      st ← Load (VTcbState t');
      passert (bool_decide (st = FINISHED)) ;;
      match o with
      | Some x => t' ← tcb_of t; v ← Load (VTcbRetval t'); Store (VUser x) v
      | None => Ret tt
      end ;;
      unlock_tcbs ;; reclaim_tid t ;; destroy_thread t ;; unblock_sigrtmin ;; Ret 0) Q k g.
Proof.
  intros Hg H. apply wp_bind, wp_tcb_of. intros p.
  apply (locked_learn (Some p)) in Hg. revert Hg. generalize (learn (Some p) g). clear g. intros g Hg.
  wcmd; [intros ? [= <-]; by apply locked_held|]. intros st. apply wp_bind, wp_passert. intros _.
  assert (Hend : ∀ g, locked g → wp (unlock_tcbs ;; reclaim_tid t ;; destroy_thread t ;;
    unblock_sigrtmin ;; Ret 0) Q k g).
  { clear g Hg. intros g Hg. apply wp_bind, wp_unlock_tcbs; [by apply locked_held|apply Hg|].
    apply locked_idle in Hg. apply wp_bind, wp_reclaim_tid; [by left|].
    apply wp_bind, wp_destroy_thread; [by left|]. intros g' Hg'. by apply wp_bind, wp_unblock_sigrtmin, H. }
  apply wp_bind. destruct o as [x|]; [|by apply Hend].
  apply wp_bind, wp_tcb_of. intros p2. apply (locked_learn (Some p2)) in Hg.
  wcmd; [intros ? [= <-]; by apply locked_held|]. intros v. split; [done|]. by apply Hend.
Qed.

Lemma wp_uthread_join t o (Q : post Z) k g :
  outside g → (∀ r k' g', outside g' → Q r k' g') → wp (uthread_join t o) Q k g.
Proof.
  intros Hg H. wcmd. intros i. apply wp_bind, wp_passert. intros _.
  apply wp_bind, wp_block_sigrtmin. apply wp_bind, wp_check_preempted; [done|].
  clear k g Hg. intros k g Hg. apply wp_bind, wp_uthread_self. intros ct.
  apply wp_load_tcbs. intros cur. apply wp_load_tcbs. intros tgt.
  apply wp_bind, wp_lock_outside; [by apply outside_learn, outside_learn|].
  clear g Hg. intros g Hg. apply wp_bind, wp_deref. intros p ->.
  wcmd; [intros ? [= <-]; by apply locked_held|]. intros st. apply wp_bind.
  destruct (negb _); [|by apply wp_join_end]. apply wp_bind, wp_deref. intros c ->.
  wcmd; [intros ? [= <-]; by apply locked_held|]. intros n _. apply wp_bind, wp_passert.
  intros _. wcmd.
  apply wp_bind, wp_get_kthread_info. intros j Hj. wcmd. split; [done|]. wcmd. split; [done|].
  wcmd; [intros ? [= <-]; by apply (locked_held g)|].
  apply wp_bind, wp_get_sched_ctx. intros j' _. apply wp_bind, wp_or_abort.
  split; [intros ? [= <-]; by apply (locked_held g)|].
  cbn [rule]. split_and!; [eauto|eauto|by apply locked_at_schedule|]. intros k' g' Hg' _.
  apply wp_bind, wp_block_sigrtmin. apply wp_lock_outside; [by left|].
  intros g2 Hg2. by apply wp_join_end.
Qed.

(** ** Semaphores *)
Lemma wp_uthread_sem_init a v (Q : post Z) k g :
  outside g → (∀ r k' g', outside g' → Q r k' g') → wp (uthread_sem_init a v) Q k g.
Proof.
  intros Hg H. wcmd. intros i. apply wp_bind, wp_passert. intros _.
  apply wp_bind, wp_block_sigrtmin. apply wp_bind, wp_check_preempted; [done|].
  clear k g Hg. intros k g Hg. wcmd. wcmd. split; [done|]. intros e. wcmd. apply wp_bind.
  assert (Hend : ∀ r, wp (unblock_sigrtmin ;; Ret r) Q k g).
  { intros r. by apply wp_bind, wp_unblock_sigrtmin, H. }
  destruct (negb _); [apply Hend|]. wcmd. split; [done|]. intros r. apply Hend.
Qed.

Lemma outside_know p g : outside g → outside (know p g).
Proof. intros [Hg|Hg]; [left|right]; gs. Qed.

Lemma wp_uthread_sem_post a (Q : post Z) k g :
  outside g → (∀ r k' g', outside g' → Q r k' g') → wp (uthread_sem_post a) Q k g.
Proof.
  intros Hg H. wcmd. intros i. apply wp_bind, wp_passert. intros _.
  apply wp_bind, wp_block_sigrtmin. apply wp_bind, wp_check_preempted; [done|].
  clear k g Hg. intros k g Hg. wcmd. intros r. apply wp_bind.
  assert (Hend : ∀ r g, outside g → wp (unblock_sigrtmin ;; Ret r) Q k g).
  { intros r' g' Hg'. by apply wp_bind, wp_unblock_sigrtmin, H. }
  destruct (negb _); [by apply Hend|]. wcmd. intros c. apply wp_bind, wp_lift_res. intros c' _.
  wcmd. wcmd. intros n _. apply wp_bind.
  assert (Hun : ∀ g, outside g → wp (r ← kthread_mutex_unlock (MSem a);
    Ret (if negb (r =? 0) then 1 else 0))
    (λ x k' g', wp (unblock_sigrtmin ;; Ret x) Q k' g') k g).
  { intros g' Hg'. wcmd. intros r'. by apply Hend. }
  destruct (0 <? n); [|by apply Hun]. wcmd. rewrite decide_False by done.
  split; [apply wp_bind, wp_lock_outside; [done|]; intros g' _; apply wp_bind, wp_passert; done|].
  intros p. apply wp_bind, wp_lock_tcbs; [destruct Hg; [left|right]; gs|]. intros H0.
  destruct Hg as [Hg|[Hg _]]; [|cbn in H0; rewrite Hg in H0; set_solver].
  apply wp_bind, wp_passert. intros _. apply wp_bind, wp_deref. intros ? [= <-].
  wcmd; [intros ? [= <-]; gs|]. intros st. apply wp_bind, wp_passert. intros _.
  wcmd; [intros ? [= <-]; gs|]. apply wp_bind, wp_unlock_tcbs; [gs|gs|].
  apply wp_ready_enqueue; [intros u; gs|intros ? [= <-]; gs|]. apply Hun. left. gs.
Qed.

Lemma wp_sem_wait_loop a cur (Q : post (option Z)) k g :
  outside g → (∀ o k' g', outside g' → Q o k' g') → wp (sem_wait_loop a cur) Q k g.
Proof.
  intros Hg H. wcmd. intros c. destruct (negb _); [by apply H|]. wcmd.
  apply wp_bind, wp_get_kthread_info. intros i Hi. wcmd. split; [done|].
  wcmd. split; [by intros u [= <-]|]. wcmd. split; [done|].
  apply wp_bind, wp_lock_tcbs; [destruct Hg; [left|right]; gs|]. intros H0.
  destruct Hg as [Hg|[Hg _]]; [|cbn in H0; rewrite Hg in H0; set_solver].
  apply wp_bind, wp_deref. intros p _. wcmd; [intros ? [= <-]; gs|].
  apply wp_bind, wp_get_sched_ctx. intros j' _. apply wp_bind, wp_or_abort.
  split; [intros ? [= <-]; gs|]. cbn [rule]. split_and!; [eauto|eauto|gs|]. intros k' g' Hg' _.
  apply wp_bind, wp_block_sigrtmin. wcmd. intros r. destruct (negb _); [by apply H; left|].
  split; [done|]. cbn [rule fspec]. split; [by left|apply H].
Qed.

Lemma wp_uthread_sem_wait a (Q : post Z) k g :
  outside g → (∀ r k' g', outside g' → Q r k' g') → wp (uthread_sem_wait a) Q k g.
Proof.
  intros Hg H. wcmd. intros i. apply wp_bind, wp_passert. intros _.
  apply wp_bind, wp_block_sigrtmin. apply wp_bind, wp_check_preempted; [done|].
  clear k g Hg. intros k g Hg. wcmd. intros r. apply wp_bind.
  assert (Hend : ∀ r k g, outside g → wp (unblock_sigrtmin ;; Ret r) Q k g).
  { intros r' k' g' Hg'. by apply wp_bind, wp_unblock_sigrtmin, H. }
  destruct (negb _); [by apply Hend|]. apply wp_bind, wp_uthread_self. intros t.
  apply wp_load_tcbs. intros cur. apply (outside_learn cur) in Hg.
  wcmd. intros c. apply wp_bind, wp_passert. intros _. wcmd. split; [done|].
  clear k Hg. intros o k g' Hg'. destruct o as [x|]; [by apply Hend|].
  wcmd. intros c2. apply wp_bind, wp_passert. intros _. wcmd. intros c3. wcmd. wcmd.
  intros r'. by apply Hend.
Qed.

Lemma wp_uthread_sem_destroy a (Q : post unit) k g :
  outside g → (∀ k' g', outside g' → Q tt k' g') → wp (uthread_sem_destroy a) Q k g.
Proof.
  intros Hg H. wcmd. intros i. apply wp_bind, wp_passert. intros _.
  apply wp_bind, wp_check_preempted; [done|]. clear k g Hg. intros k g Hg.
  apply wp_bind, wp_block_sigrtmin. wcmd. split; [done|]. wcmd. split; [done|]. intros r.
  by apply wp_unblock_sigrtmin, H.
Qed.

(** ** Clients *)

(** A client that neither starts the library nor tears it down. *)
Definition plain_cmd {B} (c : ucmd B) : bool :=
  match c with UInit _ _ | UTeardown => false | _ => true end.
Fixpoint plain {A} (u : uprog A) : Prop :=
  match u with
  | URet _ => True
  | UVis c kont => plain_cmd c = true ∧ ∀ b, plain (kont b)
  end.

(** A cautious one does not go on after [uthread_create] failed. *)
Definition stops {A} (u : uprog A) : Prop := ∃ f kont, u = UVis (UStop f) kont.
Definition create_failed {B} (c : ucmd B) : B → bool :=
  match c in ucmd B return B → bool with
  | UCreate _ _ _ _ _ => λ r, negb (r =? 0)
  | _ => λ _, false
  end.
Fixpoint careful {A} (u : uprog A) : Prop :=
  match u with
  | URet _ => True
  | UVis c kont => plain_cmd c = true ∧
      ∀ b, careful (kont b) ∧ (create_failed c b = true → stops (kont b))
  end.
Definition behaved (cf : bool) {A} (u : uprog A) : Prop := if cf then careful u else plain u.

Lemma wp_api {B} (c : ucmd B) (Q : post B) k g :
  plain_cmd c = true → outside g →
  (∀ b k' g', outside g' ∨ (cautious = true ∧ create_failed c b = true) → Q b k' g') →
  wp (api c) Q k g.
Proof.
  intros Hc Hg H'. assert (H : ∀ b k' g', outside g' → Q b k' g') by (intros; apply H'; by left).
  destruct c; try discriminate Hc; cbn [api].
  - apply wp_uthread_create; [done|]. intros r k' g' [Hr|[Hcf Hr]]; [by apply H|].
    apply H'. right. split; [done|]. cbn. by rewrite (proj2 (Z.eqb_neq r 0)).
  - by apply wp_uthread_exit.
  - by apply wp_uthread_join.
  - apply wp_uthread_self. auto.
  - apply wp_uthread_yield; [done|]. intros k' g' Hg'. apply H. by left.
  - by apply wp_uthread_sem_init.
  - by apply wp_uthread_sem_post.
  - by apply wp_uthread_sem_wait.
  - apply wp_uthread_sem_destroy; [done|]. intros k' g'. apply H.
  - split; [done|]. cbn [rule load_rule]. intros b. by apply H.
  - split; [done|]. by apply H.
  - split; [done|]. split; [done|]. intros b. by apply H.
  - split; [done|]. intros b. by apply H.
  - split; [done|]. intros b. by apply H.
  - split; [done|]. split; [done|]. intros b. by apply H.
  - split; [done|]. split; [done|]. intros b k' g' Hg'. by apply H.
  - done.
Qed.

Lemma behaved_vis {A B} (c : ucmd B) (kont : B → uprog A) : behaved cautious (UVis c kont) →
  plain_cmd c = true ∧ ∀ b, behaved cautious (kont b) ∧
    (cautious = true → create_failed c b = true → stops (kont b)).
Proof. unfold behaved. destruct cautious; intros [Hc H]; naive_solver. Qed.

Lemma wp_stops {A} (u : uprog A) (Q : post A) k g : stops u → wp (compile u) Q k g.
Proof. by intros (f & kont & ->). Qed.

Lemma wp_compile {A} (u : uprog A) (Q : post A) k g :
  behaved cautious u → outside g → (∀ a k' g', outside g' → Q a k' g') → wp (compile u) Q k g.
Proof.
  revert k g. induction u as [a|B c kont IH]; intros k g Hu Hg H; [by apply H|].
  cbn [compile]. apply behaved_vis in Hu as [Hc Hk]. apply wp_bind, wp_api; [done..|].
  intros b k' g' [Hg'|[Hcf Hf]]; destruct (Hk b) as [Hb Hs]; [by apply IH|by apply wp_stops, Hs].
Qed.

Lemma wp_text cl {A} (f : fn A) (Q : post A) k g :
  (∀ s a, behaved cautious (cl s a)) → fspec cautious f k g Q → wp (text cl A f) Q k g.
Proof.
  intros Hcl H. destruct f; cbn in *; try done.
  - by apply wp_schedule.
  - by apply wp_trampoline.
  - by apply wp_sigrtmin_handler.
  - by apply wp_kthread_main.
  - destruct H as [Hg H]. by apply wp_sem_wait_loop.
  - destruct H as [Hg H]. by apply wp_compile.
Qed.
End specs.
