(* ===== verification/LogicSound.v ===== *)
(** * The rules of Logic are sound for every interleaving

    [inv G m]: the ghost states [G] of the kernel threads agree with machine [m],
    and the program of every thread follows the rules.  Every step of every thread,
    every timer and every signal keeps it. *)
From S2P Require Import Prelude Bitvec Machine Eval Logic.

(** ** Sums over the kernel threads *)
Definition credits (G : gmap Z ghost) : nat := map_fold (λ _ g n, (g_credit g + n)%nat) 0%nat G.

Lemma credits_delete G k g : G !! k = Some g → credits G = (g_credit g + credits (delete k G))%nat.
Proof. intros H. unfold credits. rewrite (map_fold_delete_L _ _ k g); [done| |done]. intros; lia. Qed.

Lemma credits_insert G k g g' : G !! k = Some g →
  (credits (<[k := g']> G) + g_credit g = credits G + g_credit g')%nat.
Proof.
  intros H. rewrite (credits_delete G k g H).
  rewrite (credits_delete (<[k := g']> G) k g') by apply lookup_insert_eq.
  rewrite delete_insert_eq. lia.
Qed.

Lemma credits_le G k g : G !! k = Some g → (g_credit g ≤ credits G)%nat.
Proof. intros H. rewrite (credits_delete G k g H). lia. Qed.

Section sound.
Context (own : Z → option Z) (cautious : bool).
Context (own_inj : ∀ k k' i, own k = Some i → own k' = Some i → k = k').
Implicit Types (G : gmap Z ghost) (m : machine) (g : ghost) (p : loc).

(** ** Ghost states and the machine *)

(** The lock is held by the thread whose ghost state says so. *)
Definition locks G m : Prop := ∀ u, lib_lock u = true →
  ∃ o, m_mutex m !! u = Some o ∧ ∀ k g, G !! k = Some g → u ∈ g_held g ↔ o = Some k.

(** The semaphore and the credits count the ready queue. *)
Definition counted G m : Prop := ∃ l v,
  m_rqueue m = Some l ∧ m_ksem m !! KNotEmpty = Some v ∧ 0 ≤ v ∧
  Z.of_nat (length l) = v + Z.of_nat (credits G).

(** Kernel thread [k] alone writes the task of its entry. *)
Definition tasks G m : Prop := ∀ k i g x,
  own k = Some i → G !! k = Some g → m_kinfo m !! i = Some x → ki_task x = g_task g.

Definition kinfos m : Prop := ∀ i x, m_kinfo m !! i = Some x →
  own (ki_ktid x) = Some i ∧ lock_ok (ki_lock x) ∧ queue_ok (ki_queue x) ∧
  uc_body (ki_ctx x) = CtxEntry FSchedule.

(** A block nobody is building. *)
Definition public G m p : Prop :=
  (p < m_next m)%positive ∧ ∀ k g, G !! k = Some g → g_priv g ≠ Some p.

(** A block on some queue. *)
Definition queued m p : Prop :=
  (∃ l, m_rqueue m = Some l ∧ p ∈ l) ∨
  (∃ p' x l, m_heap m !! p' = Some x ∧ t_joinq x = Some l ∧ p ∈ l) ∨
  (∃ a s l, m_usem m !! a = Some s ∧ us_queue s = Some l ∧ p ∈ l).

(** A context that any idle kernel thread may resume. *)
Definition ctx_ok (u : uctx) : Prop :=
  match uc_body u with
  | CtxNone => True
  | CtxEntry f => ∃ s a, f = FTrampoline s a
  | CtxResume q => ∀ k g, idle g → wp own cautious q (λ _ _ _, True) k g
  end.

Record blocks G m : Prop := {
  bl_heap : ∀ p x, m_heap m !! p = Some x → (p < m_next m)%positive;
  bl_tcbs : ∀ t p, znth (m_tcbs m) t = Some (Some p) → (p < m_next m)%positive;
  bl_priv : ∀ k g p, G !! k = Some g → g_priv g = Some p → MTcbs ∈ g_held g;
  bl_next : ∀ k g p, G !! k = Some g → g_priv g = Some p → (p < m_next m)%positive;
  bl_slot : ∀ k g t, G !! k = Some g → g_slot g = Some t →
    MTcbs ∈ g_held g ∧ ∀ p, znth (m_tcbs m) t = Some (Some p) → g_priv g = Some p;
  bl_known : ∀ k g p, G !! k = Some g → p ∈ g_known g → public G m p;
  bl_queued : ∀ p, queued m p → public G m p;
  bl_ctx : ∀ p x, m_heap m !! p = Some x → public G m p → ctx_ok (t_ctx x);
}.

Record shared G m : Prop := {
  sh_locks : locks G m; sh_counted : counted G m; sh_tasks : tasks G m;
  sh_kinfos : kinfos m; sh_blocks : blocks G m;
}.

(** ** Parts of the machine no rule is about *)
Record same m m' : Prop := {
  sm_mutex : ∀ u, lib_lock u = true → m_mutex m' !! u = m_mutex m !! u;
  sm_rqueue : m_rqueue m' = m_rqueue m;
  sm_ksem : m_ksem m' !! KNotEmpty = m_ksem m !! KNotEmpty;
  sm_kinfo : m_kinfo m' = m_kinfo m;
  sm_tcbs : m_tcbs m' = m_tcbs m;
}.

Lemma locks_same G m m' k g g' : G !! k = Some g → g_held g' = g_held g →
  (∀ u, lib_lock u = true → m_mutex m' !! u = m_mutex m !! u) →
  locks G m → locks (<[k := g']> G) m'.
Proof.
  intros Hk Hh Hm Hl u Hu. destruct (Hl u Hu) as (o & Ho & H). exists o. rewrite Hm by done.
  split; [done|]. intros k' g0. rewrite lookup_insert. case_decide; [|apply H].
  intros [= <-]. subst. rewrite Hh. by apply H.
Qed.

Lemma counted_same G m m' k g g' : G !! k = Some g → g_credit g' = g_credit g →
  m_rqueue m' = m_rqueue m → m_ksem m' !! KNotEmpty = m_ksem m !! KNotEmpty →
  counted G m → counted (<[k := g']> G) m'.
Proof.
  intros Hk Hc Hq Hs (l & v & Hl & Hv & H0 & Hn). exists l, v. rewrite Hq, Hs.
  split_and!; [done..|]. pose proof (credits_insert G k g g' Hk). lia.
Qed.

Lemma tasks_same G m m' k g g' : G !! k = Some g → g_task g' = g_task g →
  m_kinfo m' = m_kinfo m → tasks G m → tasks (<[k := g']> G) m'.
Proof.
  intros Hk Ht Hm H k' i g0 x Hi. rewrite lookup_insert, Hm. case_decide.
  - intros [= <-] Hx. subst. rewrite Ht. exact (H _ _ _ _ Hi Hk Hx).
  - intros Hk' Hx. exact (H _ _ _ _ Hi Hk' Hx).
Qed.

Lemma public_mono G m m' k g g' p : G !! k = Some g → (m_next m ≤ m_next m')%positive →
  g_priv g' = g_priv g ∨ g_priv g' = None ∨ g_priv g' = Some (m_next m) →
  public G m p → public (<[k := g']> G) m' p.
Proof.
  intros Hk Hn Hp [Hlt H]. split; [lia|]. intros k' g0. rewrite lookup_insert.
  case_decide; [|intros Hk'; exact (H _ _ Hk')]. intros [= <-]. pose proof (H _ _ Hk).
  destruct Hp as [->|[->| ->]]; [done|done|]. intros [= <-]. lia.
Qed.

(** The thread that holds a lock is the only one. *)
Lemma locks_unique G m u k g k' g' : locks G m → lib_lock u = true →
  G !! k = Some g → u ∈ g_held g → G !! k' = Some g' → u ∈ g_held g' → k' = k.
Proof.
  intros Hl Hu Hk Hg Hk' Hg'. destruct (Hl u Hu) as (o & _ & H).
  apply (H k g Hk) in Hg. apply (H k' g' Hk') in Hg'. congruence.
Qed.

(** What a step of [k] has to keep. *)
Lemma blocks_step G m m' k g g' : G !! k = Some g → locks G m → blocks G m →
  (m_next m ≤ m_next m')%positive →
  g_priv g' = g_priv g ∨ g_priv g' = None ∨
    (g_priv g' = Some (m_next m) ∧ (m_next m < m_next m')%positive) →
  (g_priv g' ≠ None → MTcbs ∈ g_held g') →
  (∀ t, g_slot g' = Some t → MTcbs ∈ g_held g' ∧
     ∀ p, znth (m_tcbs m') t = Some (Some p) → g_priv g' = Some p) →
  (∀ t p, znth (m_tcbs m') t = Some (Some p) → znth (m_tcbs m) t = Some (Some p) ∨
     MTcbs ∈ g_held g ∧ (p < m_next m')%positive) →
  (∀ p, p ∈ g_known g' → p ∈ g_known g ∨ public (<[k := g']> G) m' p) →
  (∀ p, queued m' p → queued m p ∨ public (<[k := g']> G) m' p) →
  (∀ p x, m_heap m' !! p = Some x → (p < m_next m')%positive ∧
     (public (<[k := g']> G) m' p → ctx_ok (t_ctx x))) →
  blocks (<[k := g']> G) m'.
Proof.
  intros Hk Hl Hb Hn Hpr Hph Hs Ht Hkn Hq Hh.
  assert (Hpub : ∀ p, public G m p → public (<[k := g']> G) m' p).
  { intros p. apply (public_mono G m m' k g g'); [done..|]. naive_solver. }
  constructor.
  - intros p x Hx. by destruct (Hh p x Hx).
  - intros t p Hp. destruct (Ht t p Hp) as [H|[_ H]]; [|done]. pose proof (bl_tcbs _ _ Hb t p H). lia.
  - intros k' g0 p. rewrite lookup_insert. case_decide; [|apply (bl_priv _ _ Hb)].
    intros [= <-] Hp. apply Hph. by rewrite Hp.
  - intros k' g0 p. rewrite lookup_insert. case_decide.
    + intros [= <-] Hp. destruct Hpr as [Hpr|[Hpr|[Hpr Hlt]]]; [|congruence|].
      * rewrite Hpr in Hp. pose proof (bl_next _ _ Hb _ _ _ Hk Hp). lia.
      * assert (p = m_next m) as -> by congruence. done.
    + intros Hk' Hp. pose proof (bl_next _ _ Hb _ _ _ Hk' Hp). lia.
  - intros k' g0 t. rewrite lookup_insert. case_decide; [intros [= <-]; apply Hs|].
    intros Hk' Hg0. destruct (bl_slot _ _ Hb _ _ _ Hk' Hg0) as [Hm H0]. split; [done|].
    intros p Hp. destruct (Ht t p Hp) as [Hp'|[Hm' _]]; [by apply H0|].
    exfalso. apply H. symmetry. by apply (locks_unique G m MTcbs k g k' g0).
  - intros k' g0 p. rewrite lookup_insert. case_decide.
    + intros [= <-] Hp. destruct (Hkn p Hp) as [H1|H1]; [|done]. by eapply Hpub, (bl_known _ _ Hb).
    + intros Hk' Hp. by eapply Hpub, (bl_known _ _ Hb).
  - intros p Hp. destruct (Hq p Hp) as [H|H]; [|done]. by apply Hpub, (bl_queued _ _ Hb).
  - intros p x Hx. by destruct (Hh p x Hx).
Qed.

(** A step that leaves the ghost state, [tcbs] and the contexts alone. *)
Definition heap_le m m' : Prop := ∀ p x, m_heap m' !! p = Some x →
  ctx_ok (t_ctx x) ∧ is_Some (m_heap m !! p) ∨
  ∃ x', m_heap m !! p = Some x' ∧ uc_body (t_ctx x') = uc_body (t_ctx x).

Lemma heap_le_refl m m' : m_heap m' = m_heap m → heap_le m m'.
Proof. intros Hh p x Hx. rewrite Hh in Hx. right. eauto. Qed.

Lemma heap_le_ok G m m' k g' p x : blocks G m → heap_le m m' → (m_next m ≤ m_next m')%positive →
  (∀ p, public (<[k := g']> G) m' p → is_Some (m_heap m !! p) → public G m p) →
  m_heap m' !! p = Some x → (p < m_next m')%positive ∧
    (public (<[k := g']> G) m' p → ctx_ok (t_ctx x)).
Proof.
  intros Hb Hle Hn Hpub Hx. destruct (Hle p x Hx) as [[Hc [x' Hx']]|(x' & Hx' & He)].
  - pose proof (bl_heap _ _ Hb _ _ Hx'). split; [lia|done].
  - pose proof (bl_heap _ _ Hb _ _ Hx'). split; [lia|]. intros Hp.
    pose proof (bl_ctx _ _ Hb _ _ Hx' (Hpub p Hp (mk_is_Some _ _ Hx'))) as Hc. unfold ctx_ok in *. by rewrite <- He.
Qed.

(** [g'] differs from [g] at most in what it knows, its credit and its task. *)
Lemma blocks_frame G m m' k g g' : G !! k = Some g → locks G m → blocks G m →
  (m_next m ≤ m_next m')%positive →
  g_priv g' = g_priv g → g_slot g' = g_slot g → (MTcbs ∈ g_held g → MTcbs ∈ g_held g') →
  (∀ t p, znth (m_tcbs m') t = Some (Some p) → znth (m_tcbs m) t = Some (Some p)) →
  (∀ p, p ∈ g_known g' → p ∈ g_known g ∨ public G m p) →
  (∀ p, queued m' p → queued m p ∨ public G m p) →
  heap_le m m' → blocks (<[k := g']> G) m'.
Proof.
  intros Hk Hl Hb Hn Hp Hs Hh Ht Hkn Hq Hle.
  assert (Hpub : ∀ p, public G m p → public (<[k := g']> G) m' p).
  { intros p. apply (public_mono G m m' k g g'); [done..|]. naive_solver. }
  apply (blocks_step G m m' k g g'); try done.
  - by left.
  - intros H. apply Hh. rewrite Hp in H. destruct (g_priv g) eqn:E; [|done]. by eapply (bl_priv _ _ Hb).
  - intros t H. rewrite Hs in H. destruct (bl_slot _ _ Hb _ _ _ Hk H) as [H1 H2].
    split; [by apply Hh|]. intros p Hx. rewrite Hp. by apply H2, Ht.
  - intros t p Hx. left. by apply Ht.
  - intros p Hx. destruct (Hkn p Hx); [by left|right; auto].
  - intros p Hx. destruct (Hq p Hx); [by left|right; auto].
  - intros p x Hx. eapply heap_le_ok; [done..| |done]. intros p' [_ H] [x' Hx'].
    split; [by apply (bl_heap _ _ Hb _ _ Hx')|]. intros k' g0 Hk'. destruct (decide (k' = k)) as [->|].
    + rewrite Hk in Hk'. injection Hk' as <-. rewrite <- Hp. apply (H k). apply lookup_insert_eq.
    + apply (H k'). by rewrite lookup_insert_ne.
Qed.

(** ** Steps that keep the ghost state, or change only what it knows *)
Lemma shared_frame G m m' k g g' : G !! k = Some g → shared G m → same m m' →
  (m_next m ≤ m_next m')%positive →
  g_held g' = g_held g → g_credit g' = g_credit g → g_task g' = g_task g →
  g_priv g' = g_priv g → g_slot g' = g_slot g →
  (∀ p, p ∈ g_known g' → p ∈ g_known g ∨ public G m p) →
  (∀ p, queued m' p → queued m p ∨ public G m p) →
  heap_le m m' → shared (<[k := g']> G) m'.
Proof.
  intros Hk [Hl Hc Ht Hi Hb] [Hm1 Hm2 Hm3 Hm4 Hm5] Hn H1 H2 H3 H4 H5 H6 H7 H8. constructor.
  - by apply (locks_same G m m' k g g').
  - by apply (counted_same G m m' k g g').
  - by apply (tasks_same G m m' k g g').
  - intros i x. rewrite Hm4. apply Hi.
  - apply (blocks_frame G m m' k g g'); try done; [by rewrite H1|by rewrite Hm5].
Qed.

Lemma shared_same G m m' k g : G !! k = Some g → shared G m → same m m' →
  m_next m' = m_next m → m_heap m' = m_heap m → m_usem m' = m_usem m → shared G m'.
Proof.
  intros Hk Hs Hm Hn Hh Hu. rewrite <- (insert_id G k g) by done.
  apply (shared_frame G m m' k g g); try done; [by rewrite Hn|by left| |by apply heap_le_refl].
  intros p. left. unfold queued in *. by rewrite <- (sm_rqueue _ _ Hm), <- Hh, <- Hu.
Qed.

Lemma shared_learn G m k g x : G !! k = Some g → shared G m →
  (∀ p, x = Some p → MTcbs ∈ g_held g → g_priv g ≠ Some p → public G m p) →
  shared (<[k := learn x g]> G) m.
Proof.
  intros Hk Hs Hx. destruct x as [p|]; cbn; [|by rewrite insert_id].
  case_decide as Hd; [|by rewrite insert_id]. destruct Hd as [H1 H2].
  apply (shared_frame G m m k g (know p g)); try done; [..|by left|by apply heap_le_refl].
  intros q [->%elem_of_singleton|Hq]%elem_of_union; [right|by left]. by apply Hx.
Qed.

(** The block at [p] keeps its queue and its context. *)
Lemma queued_insert m p x x' q : m_heap m !! p = Some x → t_joinq x' = t_joinq x →
  queued (set_heap (<[p := x']> (m_heap m)) m) q → queued m q.
Proof.
  intros Hx Hj [H|[(p' & y & l & Hy & H)|H]]; [by left| |by right; right]. cbn in Hy.
  revert Hy. rewrite lookup_insert. case_decide; [|right; left; eauto 10].
  intros [= <-]. right. left. exists p, x, l. by rewrite <- Hj.
Qed.

Lemma heap_le_insert m p x x' : m_heap m !! p = Some x →
  ctx_ok (t_ctx x') ∨ uc_body (t_ctx x) = uc_body (t_ctx x') →
  heap_le m (set_heap (<[p := x']> (m_heap m)) m).
Proof.
  intros Hx H q y. cbn. rewrite lookup_insert. case_decide; [|right; eauto].
  intros [= <-]. subst. destruct H as [H|H]; [left; eauto|right; eauto].
Qed.

Lemma shared_heap G m k g p x x' : G !! k = Some g → shared G m → m_heap m !! p = Some x →
  t_joinq x' = t_joinq x → ctx_ok (t_ctx x') ∨ uc_body (t_ctx x) = uc_body (t_ctx x') →
  shared G (set_heap (<[p := x']> (m_heap m)) m).
Proof.
  intros Hk Hs Hx Hj Hc. rewrite <- (insert_id G k g) by done.
  apply (shared_frame G m _ k g g); try done; [by left| |by eapply heap_le_insert].
  intros q Hq. left. by eapply queued_insert.
Qed.

(** An entry of [kthread_info] keeps its thread, its task and its context. *)
Definition kinfo_le (x x' : kinfo) : Prop :=
  ki_ktid x' = ki_ktid x ∧ uc_body (ki_ctx x') = uc_body (ki_ctx x) ∧
  (lock_ok (ki_lock x) → lock_ok (ki_lock x')) ∧ (queue_ok (ki_queue x) → queue_ok (ki_queue x')).

Lemma kinfos_insert m i x x' : kinfos m → m_kinfo m !! i = Some x → kinfo_le x x' →
  kinfos (set_kinfo (<[i := x']> (m_kinfo m)) m).
Proof.
  intros Hi Hx (H1 & H2 & H3 & H4) j y. cbn. rewrite lookup_insert. case_decide; [|apply Hi].
  intros [= <-]. subst. destruct (Hi _ _ Hx) as (Ho & Hl & Hq & Hc). rewrite H1, H2. auto.
Qed.

Lemma blocks_same G m m' k g g' : G !! k = Some g → shared G m →
  g_held g' = g_held g → g_priv g' = g_priv g → g_slot g' = g_slot g → g_known g' = g_known g →
  m_next m' = m_next m → m_tcbs m' = m_tcbs m → m_heap m' = m_heap m →
  (∀ p, queued m' p → queued m p ∨ public G m p) → blocks (<[k := g']> G) m'.
Proof.
  intros Hk [Hl _ _ _ Hb] H1 H2 H3 H4 H5 H6 H7 H8.
  apply (blocks_frame G m m' k g g'); try done;
    [by rewrite H5|by rewrite H1|by rewrite H6|left; by rewrite <- H4|by apply heap_le_refl].
Qed.

Lemma shared_kinfo G m k g i x x' : G !! k = Some g → shared G m → m_kinfo m !! i = Some x →
  kinfo_le x x' → ki_task x' = ki_task x →
  shared G (set_kinfo (<[i := x']> (m_kinfo m)) m).
Proof.
  intros Hk Hs Hx Hle Ht. rewrite <- (insert_id G k g) by done. constructor.
  - apply (locks_same G m _ k g g); try done. apply Hs.
  - apply (counted_same G m _ k g g); try done. apply Hs.
  - rewrite insert_id by done. intros k' j g0 y Hj Hk'. cbn. rewrite lookup_insert. case_decide.
    + intros [= <-]. subst. rewrite Ht. by eapply (sh_tasks _ _ Hs).
    + by eapply (sh_tasks _ _ Hs).
  - eapply kinfos_insert; [apply Hs|done..].
  - apply (blocks_same G m _ k g g); try done. by left.
Qed.

Lemma shared_task G m k g i x t : G !! k = Some g → shared G m → own k = Some i →
  m_kinfo m !! i = Some x →
  shared (<[k := Logic.set_task t g]> G) (set_kinfo (<[i := set_ki_task t x]> (m_kinfo m)) m).
Proof.
  intros Hk Hs Hi Hx. constructor.
  - apply (locks_same G m _ k g); try done. apply Hs.
  - apply (counted_same G m _ k g); try done. apply Hs.
  - intros k' j g0 y Hj. cbn. rewrite !lookup_insert. repeat case_decide; subst.
    + by intros [= <-] [= <-].
    + intros _ Hy. exfalso. congruence.
    + intros _ [= <-]. exfalso. apply H. symmetry. by eapply own_inj.
    + intros Hk' Hy. by eapply (sh_tasks _ _ Hs).
  - eapply kinfos_insert; [apply Hs|done|]. by split_and!.
  - apply (blocks_same G m _ k g); try done. by left.
Qed.

(** ** Loads and stores *)

(** What a command leaves behind, for a postcondition [Φ]. *)
Definition sound {B} (Φ : B → Z → ghost → Prop) (b : B) (k : Z) G m' : Prop :=
  ∃ g', Φ b k g' ∧ shared (<[k := g']> G) m'.

Lemma sound_id {B} (Φ : B → Z → ghost → Prop) b k g G m' :
  G !! k = Some g → Φ b k g → shared G m' → sound Φ b k G m'.
Proof. intros Hk HΦ Hs. exists g. by rewrite insert_id. Qed.

Lemma tcbs_public G m k g t p : G !! k = Some g → shared G m →
  znth (m_tcbs m) t = Some (Some p) → MTcbs ∈ g_held g → g_priv g ≠ Some p → public G m p.
Proof.
  intros Hk Hs Ht Hg Hp. split; [by eapply (bl_tcbs _ _ (sh_blocks _ _ Hs))|].
  intros k' g' Hk' Hp'. pose proof (bl_priv _ _ (sh_blocks _ _ Hs) _ _ _ Hk' Hp') as Hg'.
  assert (k' = k) as -> by (by eapply (locks_unique G m MTcbs); [apply Hs|..]). congruence.
Qed.

Lemma load_sound {A} (v : var A) k g m x G Φ : shared G m → G !! k = Some g →
  load v k m = Ok x → load_rule own v k g Φ → sound Φ x k G m.
Proof.
  intros Hs Hk Hx Hr.
  destruct v; cbn in Hr; try (apply (sound_id Φ x k g); auto; fail).
  - apply of_opt_Ok in Hx. exists (learn x g). split.
    + apply Hr. intros p Ht ->. by eapply (bl_slot _ _ (sh_blocks _ _ Hs)).
    + apply shared_learn; [done..|]. intros p ->. by eapply tcbs_public.
  - cbn in Hx. unfold kinfo_get in Hx. apply res_bind_Ok in Hx as (y & Hy%of_opt_Ok & [= <-]).
    apply (sound_id Φ _ k g); [done| |done]. apply Hr. intros <-.
    by destruct (sh_kinfos _ _ Hs _ _ Hy).
  - cbn in Hx. unfold kinfo_get in Hx. apply res_bind_Ok in Hx as (y & Hy%of_opt_Ok & [= <-]).
    destruct Hr as [Hi Hr]. apply (sound_id Φ _ k g); [done| |done].
    by rewrite (sh_tasks _ _ Hs k i g y).
  - cbn in Hx. unfold kinfo_get in Hx. apply res_bind_Ok in Hx as (y & Hy%of_opt_Ok & [= <-]).
    apply (sound_id Φ _ k g); [done| |done]. apply Hr, (sh_kinfos _ _ Hs _ _ Hy).
  - cbn in Hx. unfold kinfo_get in Hx. apply res_bind_Ok in Hx as (y & Hy%of_opt_Ok & [= <-]).
    apply (sound_id Φ _ k g); [done| |done]. apply Hr, (sh_kinfos _ _ Hs _ _ Hy).
Qed.

Lemma tcb_upd_sound G m k g p f m' : shared G m → G !! k = Some g → tcb_upd f p m = Ok m' →
  (∀ x, t_joinq (f x) = t_joinq x ∧ uc_body (t_ctx (f x)) = uc_body (t_ctx x)) → shared G m'.
Proof.
  intros Hs Hk Hm Hf. apply res_bind_Ok in Hm as (x & Hx%of_opt_Ok & [= <-]).
  destruct (Hf x). eapply shared_heap; [done..|by right].
Qed.

Lemma kinfo_upd_sound G m k g i f m' : shared G m → G !! k = Some g → kinfo_upd f i m = Ok m' →
  (∀ x, kinfo_le x (f x) ∧ ki_task (f x) = ki_task x) → shared G m'.
Proof.
  intros Hs Hk Hm Hf. apply res_bind_Ok in Hm as (x & Hx%of_opt_Ok & [= <-]).
  destruct (Hf x). by eapply shared_kinfo.
Qed.

Lemma ctx_upd_sound G m k g c f m' : shared G m → G !! k = Some g → ctx_upd f c m = Ok m' →
  (∀ u, uc_body (f u) = uc_body u) → shared G m'.
Proof.
  intros Hs Hk Hm Hf. destruct c; cbn in Hm.
  - eapply kinfo_upd_sound; [done..|]. intros x. unfold kinfo_le. cbn. by rewrite Hf.
  - eapply tcb_upd_sound; [done..|]. intros x. cbn. by rewrite Hf.
  - injection Hm as <-. by eapply shared_same.
Qed.

(** Writing an entry of [tcbs]. *)
Lemma zupd_lookup {A} (l l' : list A) i x j y :
  zupd l i x = Some l' → znth l' j = Some y → j = i ∧ y = x ∨ znth l j = Some y.
Proof.
  unfold zupd. case_decide; [|done]. intros [= <-]. rewrite znth_insert by done.
  case_decide; [intros [= ->]; auto|auto].
Qed.

Lemma tcbs_clear_sound G m k g t l : shared G m → G !! k = Some g →
  zupd (m_tcbs m) t None = Some l →
  shared (<[k := if decide (MTcbs ∈ g_held g ∧ g_priv g = None) then build None (Some t) g else g]> G)
    (set_tcbs l m).
Proof.
  intros Hs Hk Hl.
  assert (Hlook : ∀ j p, znth l j = Some (Some p) → znth (m_tcbs m) j = Some (Some p)).
  { intros j p Hj. destruct (zupd_lookup _ _ _ _ _ _ Hl Hj) as [[_ ?]|?]; [done|done]. }
  set (g' := if decide _ then _ else _).
  assert (Hg : g_held g' = g_held g ∧ g_credit g' = g_credit g ∧ g_task g' = g_task g ∧
    g_priv g' = g_priv g ∧ g_known g' = g_known g).
  { unfold g'. case_decide as Hd; [|done]. by destruct Hd as [_ ->]. }
  destruct Hg as (H1 & H2 & H3 & H4 & H5). pose proof Hs as [Hs1 Hs2 Hs3 Hs4 Hs5]. constructor.
  - by apply (locks_same G m _ k g).
  - by apply (counted_same G m _ k g).
  - by apply (tasks_same G m _ k g).
  - exact Hs4.
  - apply (blocks_step G m _ k g); try done; cbn [m_tcbs set_tcbs m_next].
    + by left.
    + rewrite H1, H4. intros Hp. destruct (g_priv g) eqn:E; [|done]. by eapply (bl_priv _ _ Hs5).
    + intros j. unfold g'. case_decide as Hd.
      * intros [= <-]. split; [by destruct Hd|]. intros p Hj.
        destruct (zupd_lookup _ _ _ _ _ _ Hl Hj) as [[_ ?]|Hj']; [done|]. exfalso.
        revert Hj Hl. unfold zupd. case_decide; [|done]. intros Hj [= <-].
        rewrite znth_insert in Hj by done. by rewrite decide_True in Hj.
      * intros Hj. destruct (bl_slot _ _ Hs5 _ _ _ Hk Hj) as [? Hp]. split; [done|].
        intros p Hj'. by apply Hp, Hlook.
    + intros j p Hj. left. by apply Hlook.
    + intros p. rewrite H5. by left.
    + by left.
    + intros p x Hx. split; [by eapply (bl_heap _ _ Hs5)|]. intros [Hlt Hp].
      apply (bl_ctx _ _ Hs5 p x Hx). split; [done|]. intros k' g0 Hk'.
      destruct (decide (k' = k)) as [->|].
      * assert (g0 = g) as -> by congruence. rewrite <- H4. apply (Hp k). apply lookup_insert_eq.
      * apply (Hp k'). by rewrite lookup_insert_ne.
Qed.

Lemma zupd_written {A} (l l' : list A) i x y :
  zupd l i x = Some l' → znth l' i = Some y → y = x.
Proof.
  unfold zupd. case_decide; [|done]. intros [= <-]. rewrite znth_insert, decide_True by done. congruence.
Qed.

(** Contexts stay as they are, and blocks are as public as before. *)
Lemma heap_ok_same G m m' k g g' p x : G !! k = Some g → blocks G m → m_heap m' = m_heap m →
  m_next m' = m_next m → g_priv g' = g_priv g → m_heap m' !! p = Some x →
  (p < m_next m')%positive ∧ (public (<[k := g']> G) m' p → ctx_ok (t_ctx x)).
Proof.
  intros Hk Hb Hh Hn Hp Hx. rewrite Hh in Hx. rewrite Hn. split; [by eapply (bl_heap _ _ Hb)|].
  intros [Hlt H]. apply (bl_ctx _ _ Hb p x Hx). rewrite Hn in Hlt. split; [done|]. intros k' g0 Hk'.
  destruct (decide (k' = k)) as [->|].
  - assert (g0 = g) as -> by congruence. rewrite <- Hp. apply (H k). apply lookup_insert_eq.
  - apply (H k'). by rewrite lookup_insert_ne.
Qed.

Lemma tcbs_put_sound G m k g t p l : shared G m → G !! k = Some g →
  MTcbs ∈ g_held g → g_priv g = Some p → zupd (m_tcbs m) t (Some p) = Some l →
  shared (<[k := build (Some p) (Some t) g]> G) (set_tcbs l m).
Proof.
  intros Hs Hk Hg Hp Hl. pose proof Hs as [Hs1 Hs2 Hs3 Hs4 Hs5]. constructor.
  - by apply (locks_same G m _ k g).
  - by apply (counted_same G m _ k g).
  - by apply (tasks_same G m _ k g).
  - exact Hs4.
  - apply (blocks_step G m _ k g); try done; cbn [m_tcbs set_tcbs m_next g_priv build g_slot g_held].
    + left. by rewrite Hp.
    + intros j [= <-]. split; [done|]. intros q Hq. symmetry. by eapply zupd_written.
    + intros j q Hq. destruct (zupd_lookup _ _ _ _ _ _ Hl Hq) as [[_ [= ->]]|?]; [right|by left].
      split; [done|]. by eapply (bl_next _ _ Hs5).
    + by left.
    + by left.
    + intros q x Hx. by apply (heap_ok_same G m (set_tcbs l m) k g).
Qed.

Lemma shared_usem G m k g a s s' : shared G m → G !! k = Some g →
  (∀ l q, us_queue s' = Some l → q ∈ l → public G m q ∨
     ∃ l', m_usem m !! a = Some s ∧ us_queue s = Some l' ∧ q ∈ l') →
  shared G (set_usem (<[a := s']> (m_usem m)) m).
Proof.
  intros Hs Hk Hq. rewrite <- (insert_id G k g) by done.
  apply (shared_frame G m _ k g g); try done; [by left| |by apply heap_le_refl].
  intros p [H|[H|(a' & y & l & Hy & Hl & Hp)]]; [left; by left|left; by right; left|].
  cbn in Hy. revert Hy. rewrite lookup_insert. case_decide.
  - intros [= <-]. destruct (Hq l p Hl Hp) as [?|(l' & H1 & H2 & H3)]; [by right|].
    left. right. right. by exists a, s, l'.
  - left. right. right. by exists a', y, l.
Qed.

Lemma store_sound {A} (v : var A) x k g m m' G Φ : shared G m → G !! k = Some g →
  store v x k m = Ok m' → store_rule own v k g x Φ → sound Φ tt k G m'.
Proof.
  intros Hs Hk Hm Hr.
  assert (Hend : Φ tt k g → shared G m' → sound Φ tt k G m') by (intros; by eapply sound_id).
  destruct v; cbn in Hr; cbn in Hm; try done.
  all: try (apply Hend; [done|]; injection Hm as <-; by eapply shared_same).
  all: try (apply Hend; [done|]; by eapply tcb_upd_sound; [..|intros; split]).
  all: try (apply Hend; [done|]; by eapply ctx_upd_sound).
  all: try (apply Hend; [done|]; by eapply kinfo_upd_sound; [..|intros; split; [split_and!|]]).
  all: try (apply Hend; [done|]; apply res_bind_Ok in Hm as (e & He%of_opt_Ok & Hm);
    try (apply res_bind_Ok in Hm as (l & Hl%of_opt_Ok & Hm)); injection Hm as <-; by eapply shared_same).
  - apply res_bind_Ok in Hm as (l & Hl%of_opt_Ok & [= <-]). destruct x as [p|].
    + destruct Hr as (Hg & Hp & Hr). eexists. split; [done|]. by apply tcbs_put_sound.
    + eexists. split; [done|]. by apply tcbs_clear_sound.
  - destruct Hr as [Hi Hr]. apply res_bind_Ok in Hm as (y & Hy%of_opt_Ok & [= <-]).
    eexists. split; [done|]. by apply shared_task.
  - destruct Hr as [Hx Hr]. apply Hend; [done|]. eapply kinfo_upd_sound; [done..|].
    intros y. by split; [split_and!|].
  - destruct Hr as [Hx Hr]. apply Hend; [done|]. eapply kinfo_upd_sound; [done..|].
    intros y. by split; [split_and!|].
  - injection Hm as <-. apply Hend; [done|].
    destruct (m_usem m !! a) as [s|] eqn:Ha; cbn.
    + eapply (shared_usem G m k g a s); [done..|]. intros l q Hl Hq. right. eauto.
    + eapply (shared_usem G m k g a (Usem 0 None)); [done..|]. intros l q Hl Hq. done.
Qed.

(** ** Queues *)
Lemma queue_get_queued m q l p : queue_get q m = Ok l → p ∈ l → queued m p.
Proof.
  destruct q as [|p'|a]; cbn; unfold tcb_get.
  - intros Hl%of_opt_Ok Hp. left. eauto.
  - intros (o & (x & Hx%of_opt_Ok & [= <-])%res_bind_Ok & Ho%of_opt_Ok)%res_bind_Ok Hp.
    right. left. by exists p', x, l.
  - intros (u & Hu%of_opt_Ok & Ho%of_opt_Ok)%res_bind_Ok Hp. right. right. by exists a, u, l.
Qed.

(** A queue of a block or of a semaphore gets a new content. *)
Lemma queue_set_sound G m m' k g o q : shared G m → G !! k = Some g → q ≠ QReady →
  queue_set o q m = Ok m' → (∀ l p, o = Some l → p ∈ l → public G m p) → shared G m'.
Proof.
  intros Hs Hk Hq Hm Ho. destruct q as [|p|a]; [done|..]; cbn in Hm.
  - apply res_bind_Ok in Hm as (x & Hx%of_opt_Ok & [= <-]). rewrite <- (insert_id G k g) by done.
    apply (shared_frame G m _ k g g); try done; [by left| |eapply heap_le_insert; [done|by right]].
    intros q' [H|[(p' & y & l & Hy & Hl & Hp)|H]]; [left; by left| |left; by right; right].
    cbn in Hy. revert Hy. rewrite lookup_insert. case_decide.
    + intros [= <-]. right. by apply (Ho l).
    + left. right. left. by exists p', y, l.
  - injection Hm as <-. eapply (shared_usem G m k g a (Usem 0 None)); [done..|].
    cbn. intros l q' Hl Hp. left. by apply (Ho l).
Qed.

(** The ready queue gets a new content. *)
Lemma rqueue_sound G m k g g' l l' : shared G m → G !! k = Some g → m_rqueue m = Some l →
  g_held g' = g_held g → g_task g' = g_task g → g_priv g' = g_priv g → g_slot g' = g_slot g →
  (∀ p, p ∈ g_known g' → p ∈ g_known g ∨ public G m p) →
  (∀ p, p ∈ l' → public G m p) →
  (length l' + g_credit g = length l + g_credit g')%nat →
  shared (<[k := g']> G) (set_rqueue (Some l') m).
Proof.
  intros Hs Hk Hl H1 H2 H3 H4 H5 Hl' Hn. pose proof Hs as [Hs1 Hs2 Hs3 Hs4 Hs5]. constructor.
  - by apply (locks_same G m _ k g).
  - destruct Hs2 as (l0 & v & Hl0 & Hv & H0 & Hc). exists l', v. split_and!; [done..|].
    assert (l0 = l) as -> by congruence. pose proof (credits_insert G k g g' Hk). lia.
  - by apply (tasks_same G m _ k g).
  - exact Hs4.
  - apply (blocks_frame G m _ k g g'); try done; [by rewrite H1| |by apply heap_le_refl].
    intros p [(l0 & [= <-] & Hp)|[H|H]]; [right; by apply Hl'|left; by right; left|left; by right; right].
Qed.

(** The semaphore that counts the ready queue changes. *)
Lemma ksem_sound G m k g g' v v' : shared G m → G !! k = Some g → m_ksem m !! KNotEmpty = Some v →
  g_held g' = g_held g → g_task g' = g_task g → g_priv g' = g_priv g → g_slot g' = g_slot g →
  g_known g' = g_known g → 0 ≤ v' → v' + Z.of_nat (g_credit g') = v + Z.of_nat (g_credit g) →
  shared (<[k := g']> G) (set_ksem (<[KNotEmpty := v']> (m_ksem m)) m).
Proof.
  intros Hs Hk Hv H1 H2 H3 H4 H5 H0 Hn. pose proof Hs as [Hs1 Hs2 Hs3 Hs4 Hs5]. constructor.
  - by apply (locks_same G m _ k g).
  - destruct Hs2 as (l & v0 & Hl & Hv0 & Hpos & Hc). exists l, v'.
    split_and!; [done|apply lookup_insert_eq|done|].
    assert (v0 = v) as -> by congruence. pose proof (credits_insert G k g g' Hk). lia.
  - by apply (tasks_same G m _ k g).
  - exact Hs4.
  - apply (blocks_same G m _ k g g'); try done. by left.
Qed.

(** A lock of the library changes hands. *)
Lemma mutex_sound G m k g g' u o : shared G m → G !! k = Some g → lib_lock u = true →
  (∀ u', u' ≠ u → u' ∈ g_held g' ↔ u' ∈ g_held g) → (u ∈ g_held g' ↔ o = Some k) →
  (∀ k' g0, k' ≠ k → G !! k' = Some g0 → u ∈ g_held g0 ↔ o = Some k') →
  g_credit g' = g_credit g → g_task g' = g_task g → g_priv g' = g_priv g →
  g_known g' = g_known g → (g_priv g ≠ None → MTcbs ∈ g_held g') →
  (∀ t, g_slot g' = Some t → g_slot g = Some t ∧ MTcbs ∈ g_held g') →
  shared (<[k := g']> G) (set_mutex (<[u := o]> (m_mutex m)) m).
Proof.
  intros Hs Hk Hu H1 H2 H3 H4 H5 H6 H7 H8 H9. pose proof Hs as [Hs1 Hs2 Hs3 Hs4 Hs5]. constructor.
  - intros u' Hu'. cbn. destruct (decide (u' = u)) as [->|Hne].
    + exists o. split; [apply lookup_insert_eq|]. intros k' g0. rewrite lookup_insert.
      case_decide; [intros [= <-]; by subst|]. by apply H3.
    + destruct (Hs1 u' Hu') as (o' & Ho' & H). exists o'. rewrite lookup_insert_ne by done.
      split; [done|]. intros k' g0. rewrite lookup_insert. case_decide; [|apply H].
      intros [= <-]. subst. rewrite H1 by done. by apply H.
  - by apply (counted_same G m _ k g).
  - by apply (tasks_same G m _ k g).
  - exact Hs4.
  - apply (blocks_step G m _ k g); try done; cbn [m_tcbs set_mutex m_next].
    + by left.
    + by rewrite H6.
    + intros t Ht. destruct (H9 t Ht) as [H H']. split; [done|]. rewrite H6.
      by apply (bl_slot _ _ Hs5 _ _ _ Hk H).
    + by left.
    + intros p. rewrite H7. by left.
    + by left.
    + intros p x Hx. by apply (heap_ok_same G m (set_mutex (<[u := o]> (m_mutex m)) m) k g).
Qed.

(** ** Blocks *)
Lemma malloc_sound G m k g : shared G m → G !! k = Some g → MTcbs ∈ g_held g → g_priv g = None →
  shared (<[k := build (Some (m_next m)) None g]> G)
    (set_next (Pos.succ (m_next m)) (set_heap (<[m_next m := tcb0]> (m_heap m)) m)).
Proof.
  intros Hs Hk Hg Hp. pose proof Hs as [Hs1 Hs2 Hs3 Hs4 Hs5]. constructor.
  - by apply (locks_same G m _ k g).
  - by apply (counted_same G m _ k g).
  - by apply (tasks_same G m _ k g).
  - exact Hs4.
  - apply (blocks_step G m _ k g); try done; cbn [m_tcbs set_next set_heap m_next m_heap].
    + lia.
    + right. right. split; [done|lia].
    + by left.
    + by left.
    + intros p [H|[(p' & y & l & Hy & Hl & Hq)|H]]; [left; by left| |left; by right; right].
      cbn in Hy. revert Hy. rewrite lookup_insert. case_decide.
      * intros [= <-]. cbn in Hl. injection Hl as <-. by apply elem_of_nil in Hq.
      * left. right. left. by exists p', y, l.
    + intros p x. rewrite lookup_insert. case_decide.
      * intros [= <-]. subst. split; [lia|]. done.
      * intros Hx. pose proof (bl_heap _ _ Hs5 p x Hx). split; [lia|]. intros [Hlt Hpub].
        apply (bl_ctx _ _ Hs5 p x Hx). split; [done|]. intros k' g0 Hk'.
        destruct (decide (k' = k)) as [->|]; [congruence|].
        apply (Hpub k'). by rewrite lookup_insert_ne.
Qed.

Lemma free_sound G m k g p : shared G m → G !! k = Some g →
  shared G (set_heap (delete p (m_heap m)) m).
Proof.
  intros Hs Hk. rewrite <- (insert_id G k g) by done.
  apply (shared_frame G m _ k g g); try done; [by left|..].
  - intros q [H|[(p' & y & l & Hy & H)|H]]; [left; by left| |left; by right; right].
    left. right. left. cbn in Hy. apply lookup_delete_Some in Hy as [_ Hy]. by exists p', y, l.
  - intros q x Hx. cbn in Hx. apply lookup_delete_Some in Hx as [_ Hx]. right. eauto.
Qed.

(** [makecontext] on a block of a thread: from now on it can be resumed. *)
Lemma makecontext_sound G m m' k g p s a : shared G m → G !! k = Some g →
  ctx_upd (λ u, set_uc_regs (uc_mask u) (CtxEntry (FTrampoline s a)) u) (CtxTcb p) m = Ok m' →
  shared (<[k := if decide (g_priv g = Some p) then know p (build None None g) else g]> G) m'.
Proof.
  intros Hs Hk Hm. cbn in Hm. apply res_bind_Ok in Hm as (x & Hx%of_opt_Ok & [= <-]).
  set (x' := set_t_ctx _ x). assert (Hok : ctx_ok (t_ctx x')) by (cbn; eauto).
  case_decide as Hp.
  2: { rewrite insert_id by done. eapply shared_heap; [done..|by left]. }
  pose proof Hs as [Hs1 Hs2 Hs3 Hs4 Hs5].
  assert (Hpub : public (<[k := know p (build None None g)]> G) (set_heap (<[p := x']> (m_heap m)) m) p).
  { split; [by eapply (bl_heap _ _ Hs5)|]. intros k' g0. rewrite lookup_insert.
    case_decide; [by intros [= <-]|]. intros Hk' Hp'.
    apply H. symmetry. eapply (locks_unique G m MTcbs); [done..| |done|]; by eapply (bl_priv _ _ Hs5). }
  constructor.
  - by apply (locks_same G m _ k g).
  - by apply (counted_same G m _ k g).
  - by apply (tasks_same G m _ k g).
  - exact Hs4.
  - apply (blocks_step G m _ k g); try done; cbn [m_tcbs set_heap m_next m_heap].
    + right. by left.
    + by left.
    + intros q [->%elem_of_singleton|Hq]%elem_of_union; [by right|by left].
    + intros q Hq. left. by apply (queued_insert m p x x').
    + intros q y. rewrite lookup_insert. case_decide.
      * intros [= <-]. subst. split; [by eapply (bl_heap _ _ Hs5)|done].
      * intros Hy. split; [by eapply (bl_heap _ _ Hs5)|]. intros [Hlt H'].
        apply (bl_ctx _ _ Hs5 q y Hy). split; [done|]. intros k' g0 Hk'.
        destruct (decide (k' = k)) as [->|].
        -- assert (g0 = g) as -> by congruence. rewrite Hp. congruence.
        -- apply (H' k'). by rewrite lookup_insert_ne.
Qed.

(** ** Commands *)

(** The programs of the kernel threads, and which of them have terminated. *)
Definition progs m : gmap Z (prog unit * bool) := (λ t, (k_prog t, k_done t)) <$> m_threads m.

Lemma shared_threads G m th : shared G m → shared G (set_threads th m).
Proof. by intros [? ? ? ? []]. Qed.

Lemma error_sound {B} (Φ : B → Z → ghost → Prop) k k' g G m m' e (b b' : B) :
  shared G m → G !! k = Some g → sem_error e k' m b = XOk b' m' → Φ b' k g → sound Φ b' k G m'.
Proof. intros Hs Hk [= <- <-] H. eapply sound_id; [done..|]. by apply shared_threads. Qed.

Lemma enqueue_sound q p k g ok r m m' G Φ : shared G m → G !! k = Some g →
  exec (QEnqueue q p) k ok m = XOk r m' → rule own cautious (QEnqueue q p) k g Φ → sound Φ r k G m'.
Proof.
  intros Hs Hk He (Hp & Hne & H0). destruct ok; cbn in He.
  2: { injection He as <- <-. eapply sound_id; [done|by apply Hne|done]. }
  destruct (queue_get q m) as [l|] eqn:Hl; [|done]. cbn in He.
  destruct (int_of _); [|done]. cbn in He.
  destruct (queue_set _ q m) as [m1|] eqn:Hm; [|done]. injection He as <- <-.
  assert (Hpub : ∀ p', p' ∈ l ++ [p] → public G m p').
  { intros p' [Hp'|Hp'%list_elem_of_singleton]%elem_of_app.
    - eapply (bl_queued _ _ (sh_blocks _ _ Hs)). by eapply queue_get_queued.
    - subst. by eapply (bl_known _ _ (sh_blocks _ _ Hs)). }
  revert H0. case_decide as Hq; intros H0.
  - subst. cbn in Hl, Hm. apply of_opt_Ok in Hl. injection Hm as <-.
    eexists. split; [done|]. apply (rqueue_sound G m k g _ l); try done; [by left|].
    rewrite length_app. cbn. lia.
  - eapply sound_id; [done..|]. eapply queue_set_sound; [done..|]. intros l' p' [= <-]. apply Hpub.
Qed.

Lemma dequeue_sound q k g ok r m m' G Φ : shared G m → G !! k = Some g →
  exec (QDequeue q) k ok m = XOk r m' → rule own cautious (QDequeue q) k g Φ → sound Φ r k G m'.
Proof.
  intros Hs Hk He Hr. cbn [exec] in He. cbn [rule] in Hr.
  destruct (queue_get q m) as [l|] eqn:Hl; [|done]. cbn in He.
  assert (Hpub : ∀ p, p ∈ l → public G m p).
  { intros p Hp. eapply (bl_queued _ _ (sh_blocks _ _ Hs)). by eapply queue_get_queued. }
  case_decide as Hq.
  - subst. cbn in Hl. apply of_opt_Ok in Hl. destruct Hr as [Hc Hr].
    destruct (sh_counted _ _ Hs) as (l0 & v & Hl0 & _ & Hv & Hn). pose proof (credits_le G k g Hk).
    assert (l0 = l) as -> by congruence. destruct l as [|p l]; [cbn in Hn; lia|].
    injection He as <- <-. eexists. split; [apply Hr|].
    apply (rqueue_sound G m k g _ (p :: l)); try done.
    + intros p' [->%elem_of_singleton|Hp']%elem_of_union; [right|by left]. apply Hpub. left.
    + intros p' Hp'. apply Hpub. by right.
    + cbn. lia.
  - destruct Hr as [H0 H1]. destruct l as [|p l]; [injection He as <- <-; by eapply sound_id|].
    cbn in He. destruct (queue_set _ q m) as [m1|] eqn:Hm; [|done]. injection He as <- <-.
    assert (Hs1 : shared G m1).
    { eapply queue_set_sound; [done..|]. intros l' p' [= <-] Hp'. apply Hpub. by right. }
    eexists. split; [apply H1|].
    apply (shared_frame G m1 m1 k g (know p g)); try done; [..|by left|by apply heap_le_refl].
    intros p' [->%elem_of_singleton|Hp']%elem_of_union; [right|by left].
    destruct (Hpub p) as [Hlt Hpr]; [left|]. split; [|done].
    destruct q as [|p'|a]; [done|..]; cbn in Hm.
    + by apply res_bind_Ok in Hm as (x & _ & [= <-]).
    + by injection Hm as <-.
Qed.

Lemma lock_sound u k g ok r m m' G Φ : shared G m → G !! k = Some g →
  exec (MutexLock u) k ok m = XOk r m' → rule own cautious (MutexLock u) k g Φ → sound Φ r k G m'.
Proof.
  intros Hs Hk He Hr. cbn [exec] in He. cbn [rule] in Hr. destruct (lib_lock u) eqn:Hu.
  - destruct (sh_locks _ _ Hs u Hu) as (o & Ho & Hheld). rewrite Ho in He.
    destruct o as [x|]; [done|]. injection He as <- <-.
    assert (Hno : ∀ k' g0, G !! k' = Some g0 → u ∉ g_held g0).
    { intros k' g0 Hk' Hg0. by apply (Hheld k' g0) in Hg0. }
    destruct Hr as [(_ & _ & Hin)|[_ Hr]]; [by destruct (Hno k g)|]. eexists. split; [done|].
    apply (mutex_sound G m k g); try done.
    + intros u' Hu'. cbn. set_solver.
    + cbn. set_solver.
    + intros k' g0 Hne Hk'. split; [by intros ?%(Hno k')|]. by intros [= ->].
    + intros Hp. cbn. destruct (g_priv g) eqn:E; [|done].
      pose proof (bl_priv _ _ (sh_blocks _ _ Hs) _ _ _ Hk E). set_solver.
    + intros t Ht. split; [done|]. destruct (bl_slot _ _ (sh_blocks _ _ Hs) _ _ _ Hk Ht) as [? _].
      cbn. set_solver.
  - assert (Hend : same m m' → m_next m' = m_next m → m_heap m' = m_heap m →
      m_usem m' = m_usem m → sound Φ r k G m').
    { intros. eapply sound_id; [done..|]. by eapply shared_same. }
    destruct (m_mutex m !! u) as [[x|]|]; [done| |]; injection He as <- <-; apply Hend; try done.
    constructor; try done. intros u' Hu'. cbn. apply lookup_insert_ne. congruence.
Qed.

Lemma unlock_sound u k g ok r m m' G Φ : shared G m → G !! k = Some g →
  exec (MutexUnlock u) k ok m = XOk r m' → rule own cautious (MutexUnlock u) k g Φ → sound Φ r k G m'.
Proof.
  intros Hs Hk He Hr. cbn [exec] in He. cbn [rule] in Hr. destruct (lib_lock u) eqn:Hu.
  - destruct Hr as (Hg & Hp & Hr). destruct (sh_locks _ _ Hs u Hu) as (o & Ho & Hheld).
    pose proof (proj1 (Hheld k g Hk) Hg) as ->. rewrite Ho, decide_True in He by done.
    injection He as <- <-. eexists. split; [done|].
    apply (mutex_sound G m k g); try done.
    + intros u' Hu'. cbn. set_solver.
    + cbn. split; [set_solver|done].
    + intros k' g0 Hne Hk'. split; [|done]. intros Hg0. apply (Hheld k' g0) in Hg0; [|done]. congruence.
    + intros Hpr. cbn. destruct (g_priv g) eqn:E; [|done].
      pose proof (bl_priv _ _ (sh_blocks _ _ Hs) _ _ _ Hk E).
      destruct (decide (u = MTcbs)) as [->|]; [by specialize (Hp eq_refl)|set_solver].
    + intros t. cbn. case_decide; [done|]. intros Ht. split; [done|].
      destruct (bl_slot _ _ (sh_blocks _ _ Hs) _ _ _ Hk Ht) as [? _]. set_solver.
  - destruct (m_mutex m !! u) as [[x|]|].
    + case_decide; [|done]. injection He as <- <-. eapply sound_id; [done..|].
      eapply shared_same; try done. constructor; try done.
      intros u' Hu'. cbn. apply lookup_insert_ne. congruence.
    + done.
    + injection He as <- <-. by eapply sound_id.
Qed.

Lemma sem_post_sound s k g ok r m m' G Φ : shared G m → G !! k = Some g →
  exec (SemPost s) k ok m = XOk r m' → rule own cautious (SemPost s) k g Φ → sound Φ r k G m'.
Proof.
  intros Hs Hk He Hr. cbn [exec] in He. cbn [rule] in Hr. revert Hr. case_decide as Hn; intros Hr.
  - subst. destruct Hr as (Hc & H0 & H1). destruct (sh_counted _ _ Hs) as (l & v & _ & Hv & Hpos & _).
    rewrite Hv in He. case_decide.
    2: { injection He as <- <-. eapply error_sound; [done|done|done|]. by apply H1. }
    injection He as <- <-. eexists. split; [done|].
    apply (ksem_sound G m k g _ v); try done; cbn; lia.
  - destruct (m_ksem m !! s); [|by eapply error_sound].
    case_decide; [|by eapply error_sound]. injection He as <- <-.
    eapply sound_id; [done..|]. eapply shared_same; try done. constructor; try done.
    cbn. by apply lookup_insert_ne.
Qed.

Lemma sem_wait_sound s k g ok r m m' G Φ : shared G m → G !! k = Some g →
  exec (SemWait s) k ok m = XOk r m' → rule own cautious (SemWait s) k g Φ → sound Φ r k G m'.
Proof.
  intros Hs Hk He Hr. cbn [exec] in He. cbn [rule] in Hr. revert Hr. case_decide as Hn; intros Hr.
  - subst. destruct Hr as (Hc & H0). destruct (sh_counted _ _ Hs) as (l & v & _ & Hv & Hpos & _).
    rewrite Hv in He. case_decide; [|done].
    injection He as <- <-. eexists. split; [done|].
    apply (ksem_sound G m k g _ v); try done; cbn; lia.
  - destruct (m_ksem m !! s); [|by eapply error_sound].
    case_decide; [|done]. injection He as <- <-.
    eapply sound_id; [done..|]. eapply shared_same; try done. constructor; try done.
    cbn. by apply lookup_insert_ne.
Qed.

Lemma exec_sound {B} (c : cmd B) k g ok m b m' G Φ : shared G m → G !! k = Some g →
  is_control c = false → exec c k ok m = XOk b m' → rule own cautious c k g Φ → sound Φ b k G m'.
Proof.
  intros Hs Hk Hc He Hr.
  assert (Hid : Φ b k g → shared G m' → sound Φ b k G m') by (intros; by eapply sound_id).
  assert (Hsame : Φ b k g → same m m' → m_next m' = m_next m → m_heap m' = m_heap m →
    m_usem m' = m_usem m → sound Φ b k G m').
  { intros. apply Hid; [done|]. by eapply shared_same. }
  destruct c; try discriminate Hc; cbn [rule] in Hr; try done; cbn [exec] in He.
  - destruct (load v k m) eqn:Hl; [|done]. injection He as <- <-. by eapply load_sound.
  - unfold x_set in He. destruct (store v x k m) eqn:Hl; [|done]. injection He as <- <-. by eapply store_sound.
  - injection He as <- <-. by apply Hid.
  - destruct Hr as (Hg & Hp & H0 & H1). destruct ok; injection He as <- <-; [|by apply Hid].
    eexists. split; [apply H1|]. by apply malloc_sound.
  - destruct p as [p|]; [|injection He as <- <-; by apply Hid].
    destruct (m_heap m !! p); [|done]. injection He as <- <-. apply Hid; [done|]. by eapply free_sound.
  - destruct ok; injection He as <- <-; [|by apply Hid]. apply Hid; [done|].
    rewrite <- (insert_id G k g) by done.
    apply (shared_frame G m _ k g g); try done; [cbn; lia|by left|by left|by apply heap_le_refl].
  - destruct p as [|l|]; [injection He as <- <-; by apply Hid| |done].
    destruct (m_stacks m !! l); [|done]. injection He as <- <-. by apply Hsame.
  - destruct Hr as [Hq Hr]. destruct (queue_set _ _ _) as [m1|] eqn:Hm; [|done]. injection He as <- <-.
    apply Hid; [done|]. eapply queue_set_sound; [done..|]. intros l p [= <-] Hp. by apply elem_of_nil in Hp.
  - destruct Hr as [Hq Hr]. unfold x_set in He.
    destruct (queue_get q m) as [[|x l]|]; cbn in He; [injection He as <- <-; by apply Hid| |done].
    destruct (queue_set _ _ _) as [m1|] eqn:Hm; [|done]. injection He as <- <-.
    apply Hid; [done|]. by eapply queue_set_sound.
  - by eapply (enqueue_sound _ _ _ _ ok).
  - by eapply (dequeue_sound _ _ _ ok).
  - destruct (queue_get q m) as [l|] eqn:Hl; [|done]. injection He as <- <-. apply Hid; [|done].
    apply Hr. intros ->. cbn in Hl. apply of_opt_Ok in Hl.
    destruct (sh_counted _ _ Hs) as (l0 & v & Hl0 & _ & Hv & Hn). pose proof (credits_le G k g Hk).
    assert (l0 = l) as -> by congruence. lia.
  - injection He as <- <-. by apply Hid.
  - injection He as <- <-. by apply Hid.
  - destruct Hr as [Hu Hr]. injection He as <- <-. apply Hsame; try done. constructor; try done.
    intros u' Hu'. cbn. apply lookup_insert_ne. congruence.
  - by eapply (lock_sound _ _ _ ok).
  - by eapply (unlock_sound _ _ _ ok).
  - destruct Hr as [Hu Hr]. destruct (m_mutex m !! m0) as [[x|]|]; injection He as <- <-; [by apply Hid| |by apply Hid].
    apply Hsame; try done. constructor; try done. intros u' Hu'. cbn. apply lookup_delete_ne. congruence.
  - destruct Hr as [Hs' Hr]. case_decide; [|by eapply error_sound]. injection He as <- <-.
    apply Hsame; try done. constructor; try done. cbn. by apply lookup_insert_ne.
  - by eapply (sem_post_sound _ _ _ ok).
  - by eapply (sem_wait_sound _ _ _ ok).
  - destruct Hr as [Hs' Hr]. destruct (m_ksem m !! s); [|by eapply error_sound]. injection He as <- <-.
    apply Hsame; try done. constructor; try done. cbn. by apply lookup_delete_ne.
  - injection He as <- <-. destruct set; [|by apply Hid]. apply Hid; [done|]. by apply shared_threads.
  - injection He as <- <-. by apply Hsame.
  - injection He as <- <-. apply Hid; [done|]. by apply shared_threads.
  - destruct ok; injection He as <- <-; [by apply Hsame|by apply Hid].
  - destruct (m_timers m !! t); [|by eapply error_sound].
    case_decide; [|by eapply error_sound]. injection He as <- <-. by apply Hsame.
  - destruct (m_timers m !! t); [|by eapply error_sound]. injection He as <- <-. by apply Hsame.
  - destruct Hr as (p & s & a & -> & -> & Hr). unfold x_set in He.
    destruct (ctx_upd _ _ m) as [m1|] eqn:Hm; [|done]. injection He as <- <-.
    eexists. split; [done|]. by eapply makecontext_sound.
Qed.

(** ** Contexts *)

(** [getcontext] on a block the thread is building: nobody can resume it. *)
Lemma getcontext_sound G m m' k g p q mask : shared G m → G !! k = Some g → g_priv g = Some p →
  ctx_upd (set_uc_regs mask (CtxResume q)) (CtxTcb p) m = Ok m' → shared G m'.
Proof.
  intros Hs Hk Hp Hm. cbn in Hm. apply res_bind_Ok in Hm as (x & Hx%of_opt_Ok & [= <-]).
  rewrite <- (insert_id G k g) by done. pose proof Hs as [Hs1 Hs2 Hs3 Hs4 Hs5]. constructor.
  - by apply (locks_same G m _ k g).
  - by apply (counted_same G m _ k g).
  - by apply (tasks_same G m _ k g).
  - exact Hs4.
  - apply (blocks_step G m _ k g); try done; cbn [m_tcbs set_heap m_next m_heap].
    + by left.
    + intros _. by eapply (bl_priv _ _ Hs5).
    + intros t Ht. by eapply (bl_slot _ _ Hs5).
    + by left.
    + by left.
    + intros y Hy. left. revert Hy. by apply (queued_insert m p x).
    + rewrite (insert_id G k g) by done. intros y z. rewrite lookup_insert. case_decide.
      * intros [= <-]. subst. split; [by eapply (bl_heap _ _ Hs5)|]. intros [_ Hpub].
        by destruct (Hpub k g Hk).
      * intros Hz. split; [by eapply (bl_heap _ _ Hs5)|]. by apply (bl_ctx _ _ Hs5).
Qed.

(** [swapcontext] saves a program that an idle thread may run. *)
Lemma save_sound G m m' k g p q mask : shared G m → G !! k = Some g →
  (∀ k g, idle g → wp own cautious q (λ _ _ _, True) k g) →
  ctx_upd (set_uc_regs mask (CtxResume q)) (CtxTcb p) m = Ok m' → shared G m'.
Proof.
  intros Hs Hk Hq Hm. cbn in Hm. apply res_bind_Ok in Hm as (x & Hx%of_opt_Ok & [= <-]).
  eapply shared_heap; [done..|by left].
Qed.

Context (text : ∀ A, fn A → prog A).
Context (text_ok : ∀ A (f : fn A) Q k g, fspec cautious f k g Q → wp own cautious (text A f) Q k g).

(** Whatever a program ends with. *)
Abbreviation any := (λ _ _ _, True).

Lemma resume_sound G m k g c m' : shared G m → G !! k = Some g →
  match c with
  | CtxSched _ => at_schedule g
  | CtxTcb p => idle g ∧ p ∈ g_known g
  | CtxAbort => False
  end → resume text c k m = Next m' →
  ∃ q mask, wp own cautious q any k g ∧ m' = thr_upd (λ t, set_k_mask mask (set_k_prog q t)) k m.
Proof.
  intros Hs Hk Hc Hr. unfold resume in Hr.
  destruct (ctx_get c m) as [u|] eqn:Hu; [|done]. destruct (ctx_prog text u) as [q|] eqn:Hq; [|done].
  injection Hr as <-. exists q, (uc_mask u). split; [|done]. unfold ctx_prog in Hq.
  destruct c as [i|p|]; [..|done]; cbn in Hu.
  - apply res_bind_Ok in Hu as (x & Hx%of_opt_Ok & [= <-]).
    destruct (sh_kinfos _ _ Hs i x Hx) as (_ & _ & _ & Hb). rewrite Hb in Hq. injection Hq as <-.
    by apply wp_bind, text_ok.
  - destruct Hc as [Hg Hp]. apply res_bind_Ok in Hu as (x & Hx%of_opt_Ok & [= <-]).
    pose proof (bl_ctx _ _ (sh_blocks _ _ Hs) p x Hx) as Hok. unfold ctx_ok in Hok.
    specialize (Hok (bl_known _ _ (sh_blocks _ _ Hs) k g p Hk Hp)).
    destruct (uc_body (t_ctx x)) as [|f|q']; [done|..]; injection Hq as <-; [|by apply Hok].
    destruct Hok as (s & a & ->). by apply wp_bind, text_ok.
Qed.

(** ** Threads *)
Record inv G m : Prop := {
  inv_shared : shared G m;
  inv_progs : ∀ k q, progs m !! k = Some (q, false) →
    ∃ g, G !! k = Some g ∧ wp own cautious q any k g;
}.

Lemma progs_thr_upd f k m : (∀ t, k_prog (f t) = k_prog t ∧ k_done (f t) = k_done t) →
  progs (thr_upd f k m) = progs m.
Proof.
  intros Hf. unfold progs, thr_upd. cbn. apply map_eq. intros j. rewrite !lookup_fmap, lookup_alter.
  case_decide; [|done]. subst. destruct (m_threads m !! _) as [t|]; [|done]. cbn.
  by destruct (Hf t) as [-> ->].
Qed.

Lemma progs_set f k m j q d :
  progs (thr_upd f k m) !! j = Some (q, d) → j ≠ k → progs m !! j = Some (q, d).
Proof. intros H Hne. revert H. unfold progs, thr_upd. cbn. by rewrite !lookup_fmap, lookup_alter_ne. Qed.

Lemma progs_same m m' : m_threads m' = m_threads m → progs m' = progs m.
Proof. unfold progs. by intros ->. Qed.

(** Commands leave the programs alone. *)
Lemma store_progs {A} (v : var A) x k m m' : store v x k m = Ok m' → progs m' = progs m.
Proof.
  intros Hs. destruct v; cbn in Hs;
    try (injection Hs as <-; reflexivity);
    try (apply progs_same; by eapply ctx_upd_threads);
    unfold tcb_upd, kinfo_upd, targs_upd in Hs;
    try (destruct (zupd _ _ _); cbn in Hs; simplify_eq; reflexivity);
    try (destruct (znth _ _); cbn in Hs; [destruct (zupd _ _ _); cbn in Hs|]; simplify_eq; reflexivity);
    try (destruct (_ !! _); cbn in Hs; simplify_eq; reflexivity).
  injection Hs as <-. by apply progs_thr_upd.
Qed.

Lemma error_progs {B} e k m (x b : B) m' : sem_error e k m x = XOk b m' → progs m' = progs m.
Proof. intros [= _ <-]. by apply progs_thr_upd. Qed.

(** A command that leaves the table of kernel threads alone. *)
Ltac same_progs He := injection He as _ <-; by apply progs_same.

Lemma queue_set_progs {B} o q m (x b : B) m' :
  match queue_set o q m with Ok m1 => XOk x m1 | Fault f => XFault f end = XOk b m' →
  progs m' = progs m.
Proof.
  intros He. destruct (queue_set o q m) eqn:Hq; [|done]. injection He as _ <-.
  by apply progs_same; eapply queue_set_threads.
Qed.

Definition keeps_threads {B} (c : cmd B) : bool :=
  match c with PthreadCreate _ | PthreadJoin _ => false | _ => negb (is_control c) end.

Lemma exec_progs {B} (c : cmd B) k ok m b m' :
  exec c k ok m = XOk b m' → keeps_threads c = true → progs m' = progs m.
Proof.
  intros He Hc. destruct c; try discriminate Hc; cbn [exec] in He; try discriminate He; clear Hc.
  - destruct (load v k m); [same_progs He|done].
  - destruct (store v x k m) eqn:Hs; [|done]. injection He as _ <-. by eapply store_progs.
  - same_progs He.
  - destruct ok; same_progs He.
  - destruct p as [l|]; [|same_progs He]. destruct (m_heap m !! l); [|done]. same_progs He.
  - destruct ok; same_progs He.
  - destruct p as [|l|]; [same_progs He| |done]. destruct (m_stacks m !! l); [|done]. same_progs He.
  - destruct ok; same_progs He.
  - destruct (m_kinfo m !! i); [same_progs He|done].
  - same_progs He.
  - same_progs He.
  - by eapply queue_set_progs.
  - destruct (queue_get q m) as [[|]|]; [same_progs He| |done]. by eapply (queue_set_progs None q m tt).
  - destruct ok; [|same_progs He].
    destruct (queue_get q m) as [l|]; [|done]. cbn in He. destruct (int_of _); [|done]. cbn in He.
    destruct (queue_set _ q m) eqn:Hq; [|done]. injection He as _ <-.
    apply progs_same. by eapply queue_set_threads.
  - destruct (queue_get q m) as [[|]|]; [same_progs He| |done]. cbn in He.
    destruct (queue_set _ q m) eqn:Hq; [|done]. injection He as _ <-.
    apply progs_same. by eapply queue_set_threads.
  - destruct (queue_get q m); [same_progs He|done].
  - same_progs He.
  - same_progs He.
  - same_progs He.
  - destruct (m_mutex m !! m0) as [[?|]|]; [done|same_progs He..].
  - destruct (m_mutex m !! m0) as [[?|]|]; [case_decide; [|done]| |]; try done; same_progs He.
  - destruct (m_mutex m !! m0) as [[?|]|]; same_progs He.
  - case_decide; [same_progs He|by eapply error_progs].
  - destruct (m_ksem m !! s); [case_decide|]; [same_progs He|by eapply error_progs..].
  - destruct (m_ksem m !! s); [case_decide; [same_progs He|done]|by eapply error_progs].
  - destruct (m_ksem m !! s); [same_progs He|by eapply error_progs].
  - injection He as _ <-. destruct set; [by apply progs_thr_upd|done].
  - same_progs He.
  - injection He as _ <-. by apply progs_thr_upd.
  - destruct ok; same_progs He.
  - destruct (m_timers m !! t); [case_decide|]; [same_progs He|by eapply error_progs..].
  - destruct (m_timers m !! t); [same_progs He|by eapply error_progs].
  - destruct (ctx_upd _ c m) eqn:Hc; [|done]. injection He as _ <-.
    apply progs_same. by eapply ctx_upd_threads.
Qed.

Lemma rule_keeps {B} (c : cmd B) k g Φ : rule own cautious c k g Φ → is_control c = false → keeps_threads c = true.
Proof. intros Hr Hc. by destruct c. Qed.

(** ** Steps *)

(** Kernel thread [k] goes on with [q] and ghost state [g']. *)
Lemma inv_run G m m1 k g' q f : inv G m → progs m1 = progs m → shared (<[k := g']> G) m1 →
  wp own cautious q any k g' → (∀ t, k_prog (f t) = q) → inv (<[k := g']> G) (thr_upd f k m1).
Proof.
  intros [_ Hp] He Hs Hq Hf. constructor; [by apply shared_threads|].
  intros j p. destruct (decide (j = k)) as [->|Hne].
  - intros Hj. exists g'. split; [apply lookup_insert_eq|].
    revert Hj. unfold progs, thr_upd. cbn. rewrite lookup_fmap, lookup_alter_eq.
    destruct (m_threads m1 !! k) as [t|]; [|done]. cbn. intros [= <- _]. by rewrite Hf.
  - intros Hj%progs_set; [|done]. rewrite He in Hj. destruct (Hp j p Hj) as (g & Hg & Hw).
    exists g. by rewrite lookup_insert_ne.
Qed.

Lemma inv_run_same G m m1 k g q f : inv G m → progs m1 = progs m → G !! k = Some g → shared G m1 →
  wp own cautious q any k g → (∀ t, k_prog (f t) = q) → inv G (thr_upd f k m1).
Proof.
  intros Hi He Hk Hs Hq Hf. rewrite <- (insert_id G k g) by done.
  apply (inv_run G m m1 k g q); try done. by rewrite insert_id.
Qed.

(** A thread terminates. *)
Lemma inv_done G m k f : inv G m → (∀ t, k_done (f t) = true) → inv G (thr_upd f k m).
Proof.
  intros [Hs Hp] Hf. constructor; [by apply shared_threads|]. intros j p.
  destruct (decide (j = k)) as [->|Hne]; [|intros Hj%progs_set; auto].
  unfold progs, thr_upd. cbn. rewrite lookup_fmap, lookup_alter_eq.
  destruct (m_threads m !! k) as [t|]; [|done]. cbn. intros [= _ Hd]. by rewrite Hf in Hd.
Qed.

Lemma step_cmd_sound {B} (c : cmd B) kont k g ok G m m' : inv G m → G !! k = Some g →
  cmd_wp own cautious c (λ b k' g', wp own cautious (kont b) any k' g') k g →
  step_cmd text c kont k ok m = Next m' → ∃ G', inv G' m'.
Proof.
  intros Hi Hk [_ Hr] Hst. pose proof (inv_shared _ _ Hi) as Hs.
  destruct (is_control c) eqn:Hc.
  - destruct c; try discriminate Hc; cbn [step_cmd] in Hst; cbn [rule] in Hr.
    + injection Hst as <-. exists G. by apply inv_done.
    + destruct Hr as (p & -> & Hp & Hw). unfold save_ctx in Hst.
      destruct (ctx_upd _ _ m) as [m1|] eqn:Hm; [|done]. injection Hst as <-. exists G.
      apply (inv_run_same G m m1 k g (kont 0)); try done.
      * apply progs_same. by eapply ctx_upd_threads.
      * by apply (getcontext_sound G m m1 k g p _ _ Hs Hk Hp Hm).
    + destruct (resume_sound G m k g c m' Hs Hk Hr Hst) as (q & mask & Hq & ->). exists G.
      by apply (inv_run_same G m m k g q).
    + destruct Hr as ((p & ->) & (i & ->) & Hat & Hw). unfold save_ctx in Hst.
      destruct (ctx_upd _ _ m) as [m1|] eqn:Hm; [|done].
      assert (Hs1 : shared G m1) by (eapply (save_sound G m); [done..|exact Hw|exact Hm]).
      destruct (resume_sound G m1 k g (CtxSched i) m' Hs1 Hk Hat Hst) as (q & mask & Hq & ->). exists G.
      apply (inv_run_same G m m1 k g q); try done.
      apply progs_same. by eapply ctx_upd_threads.
    + injection Hst as <-. exists G. apply (inv_run_same G m m k g (pbind (text _ f) kont)); try done.
      by apply wp_bind, text_ok.
  - assert (He : ∃ b m1, exec c k ok m = XOk b m1 ∧ m' = thr_upd (set_k_prog (kont b)) k m1).
    { destruct c; try discriminate Hc; cbn [step_cmd] in Hst;
        (destruct (exec _ k ok m) as [b m1| |] eqn:He; [|done..]); injection Hst as <-; eauto. }
    destruct He as (b & m1 & He & ->).
    destruct (exec_sound c k g ok m b m1 G _ Hs Hk Hc He Hr) as (g' & Hw & Hs').
    exists (<[k := g']> G). apply (inv_run G m m1 k g' (kont b)); try done.
    eapply exec_progs; [done|by eapply rule_keeps].
Qed.

Lemma wp_signal (q : prog unit) k g : wp own cautious q any k g →
  wp own cautious (Vis (Call FSigrtminHandler) (λ _, Vis SigReturn (λ _, q))) any k g.
Proof. intros Hq. split; [done|]. cbn. split; [done|]. by intros _. Qed.

Lemma progs_lookup m k t : m_threads m !! k = Some t → progs m !! k = Some (k_prog t, k_done t).
Proof. intros H. unfold progs. by rewrite lookup_fmap, H. Qed.

Lemma step_sound l G m m' : inv G m → step text l m = Next m' → ∃ G', inv G' m'.
Proof.
  intros Hi Hst. destruct l as [k ok|t|k]; cbn in Hst.
  - unfold step_thread in Hst. destruct (m_threads m !! k) as [t|] eqn:Ht; [|done].
    destruct (k_done t) eqn:Hd; [done|]. apply progs_lookup in Ht. rewrite Hd in Ht.
    destruct (inv_progs _ _ Hi _ _ Ht) as (g & Hg & Hw).
    destruct (k_prog t) as [u|B c kont].
    + injection Hst as <-. exists G. by apply inv_done.
    + eapply (step_cmd_sound c kont k g ok G m m'); done.
  - unfold step_tick in Hst. destruct (m_timers m !! t); [|done]. case_decide; [done|].
    injection Hst as <-. exists G. destruct Hi as [Hs Hp]. constructor; [by apply shared_threads|].
    intros j q. rewrite progs_thr_upd by done. apply Hp.
  - unfold step_signal in Hst. destruct (m_threads m !! k) as [t|] eqn:Ht; [|done].
    destruct (_ && _) eqn:Hd; [|done]. destruct (m_handler m); [|done]. injection Hst as <-.
    apply andb_true_iff in Hd as [_ Hd%negb_true_iff].
    pose proof (progs_lookup _ _ _ Ht) as Hl. rewrite Hd in Hl.
    destruct (inv_progs _ _ Hi _ _ Hl) as (g & Hg & Hw). exists G.
    destruct Hi as [Hs Hp]. constructor; [by apply shared_threads|]. intros j q.
    destruct (decide (j = k)) as [->|Hne]; [|intros Hj%progs_set; auto].
    unfold progs, thr_upd. cbn. rewrite lookup_fmap, lookup_alter_eq, Ht. cbn.
    intros [= <- _]. exists g. split; [done|]. by apply wp_signal.
Qed.

Lemma steps_sound G m m' : inv G m → steps text m m' → ∃ G', inv G' m'.
Proof.
  intros Hi Hst. revert G Hi. induction Hst as [m|l m m1 m2 Hl Hst IH]; intros G Hi; [eauto|].
  destruct (step_sound l G m m1 Hi Hl) as [G' Hi']. by eapply IH.
Qed.

(** ** The table of kernel threads stays as it is

    Neither the number of entries, nor the identifiers in them, nor the set of kernel
    threads changes. *)
Record same_table m m' : Prop := {
  st_num : m_num_kthreads m' = m_num_kthreads m;
  st_ids : ki_ktid <$> m_kinfo m' = ki_ktid <$> m_kinfo m;
  st_dom : dom (m_threads m') = dom (m_threads m);
}.

#[export] Instance same_table_preorder : PreOrder same_table.
Proof. split; [done|]. intros m1 m2 m3 [] []. constructor; congruence. Qed.

Lemma table_thr_upd f k m : same_table m (thr_upd f k m).
Proof. constructor; [done|done|]. cbn. by rewrite dom_alter_L. Qed.

Lemma table_kinfo f i m m' : kinfo_upd f i m = Ok m' → (∀ x, ki_ktid (f x) = ki_ktid x) → same_table m m'.
Proof.
  unfold kinfo_upd, of_opt. destruct (m_kinfo m !! i) as [x|] eqn:Hx; [|done]. intros [= <-] Hf.
  constructor; [done| |done]. cbn. rewrite fmap_insert, Hf. apply insert_id. by rewrite lookup_fmap, Hx.
Qed.

Lemma table_tcb f p m m' : tcb_upd f p m = Ok m' → same_table m m'.
Proof. unfold tcb_upd. destruct (_ !! _); [|done]. by intros [= <-]. Qed.

Lemma table_ctx f c m m' : ctx_upd f c m = Ok m' → same_table m m'.
Proof.
  destruct c; cbn; [intros H; by eapply table_kinfo|apply table_tcb|]. by intros [= <-].
Qed.

Lemma table_queue o q m m' : queue_set o q m = Ok m' → same_table m m'.
Proof. destruct q; cbn; [by intros [= <-]|apply table_tcb|by intros [= <-]]. Qed.

Lemma table_store {A} (v : var A) x k g m m' Φ : store v x k m = Ok m' → store_rule own v k g x Φ →
  same_table m m'.
Proof.
  intros Hs Hr. destruct v; cbn in Hs, Hr; try done;
    try (injection Hs as <-; done); try (by eapply table_ctx); try (by eapply table_tcb);
    try (eapply table_kinfo; [done|done]);
    unfold targs_upd in Hs;
    try (destruct (zupd _ _ _); cbn in Hs; simplify_eq; done);
    try (destruct (znth _ _); cbn in Hs; [destruct (zupd _ _ _); cbn in Hs|]; simplify_eq; done);
    try (destruct (_ !! _); cbn in Hs; simplify_eq; done).
  injection Hs as <-. apply table_thr_upd.
Qed.

Lemma table_error {B} e k m (x b : B) m' : sem_error e k m x = XOk b m' → same_table m m'.
Proof. intros [= _ <-]. apply table_thr_upd. Qed.

Lemma table_same m m' : m_num_kthreads m' = m_num_kthreads m → m_kinfo m' = m_kinfo m →
  m_threads m' = m_threads m → same_table m m'.
Proof. intros ? Hk Ht. constructor; [done|by rewrite Hk|by rewrite Ht]. Qed.

(** A command that leaves all three alone, or fails and sets errno. *)
Ltac tbl He := first [injection He as _ <-; by apply table_same | by eapply table_error].

Lemma exec_table {B} (c : cmd B) k g ok m b m' Φ :
  exec c k ok m = XOk b m' → rule own cautious c k g Φ → same_table m m'.
Proof.
  intros He Hr. destruct c; cbn [exec] in He; try discriminate He; cbn [rule] in Hr; try done;
    unfold x_set, x_of in He.
  - destruct (load v k m); [tbl He|done].
  - destruct (store v x k m) eqn:Hs; [|done]. injection He as _ <-. by eapply table_store.
  - tbl He.
  - destruct ok; tbl He.
  - destruct p as [l|]; [|tbl He]. destruct (m_heap m !! l); [|done]. tbl He.
  - destruct ok; tbl He.
  - destruct p as [|l|]; [tbl He| |done]. destruct (m_stacks m !! l); [|done]. tbl He.
  - destruct (queue_set _ q m) eqn:Hq; [|done]. injection He as _ <-. by eapply table_queue.
  - destruct (queue_get q m) as [[|]|]; [tbl He| |done]. cbn in He.
    destruct (queue_set _ q m) eqn:Hq; [|done]. injection He as _ <-. by eapply table_queue.
  - destruct ok; [|tbl He]. destruct (queue_get q m) as [l|]; [|done]. cbn in He.
    destruct (int_of _); [|done]. cbn in He. destruct (queue_set _ q m) eqn:Hq; [|done].
    injection He as _ <-. by eapply table_queue.
  - destruct (queue_get q m) as [[|]|]; [tbl He| |done]. cbn in He.
    destruct (queue_set _ q m) eqn:Hq; [|done]. injection He as _ <-. by eapply table_queue.
  - destruct (queue_get q m); [tbl He|done].
  - tbl He.
  - tbl He.
  - tbl He.
  - destruct (m_mutex m !! _) as [[?|]|]; [done|tbl He..].
  - clear Hr. destruct (m_mutex m !! _) as [[?|]|]; [case_decide; [|done]| |]; try done; tbl He.
  - destruct (m_mutex m !! _) as [[?|]|]; tbl He.
  - case_decide; tbl He.
  - clear Hr. destruct (m_ksem m !! _); [case_decide|]; tbl He.
  - clear Hr. destruct (m_ksem m !! _); [case_decide; [|done]|]; tbl He.
  - destruct (m_ksem m !! _); tbl He.
  - injection He as _ <-. destruct set; [apply table_thr_upd|done].
  - tbl He.
  - injection He as _ <-. apply table_thr_upd.
  - destruct ok; tbl He.
  - destruct (m_timers m !! _); [case_decide|]; tbl He.
  - destruct (m_timers m !! _); tbl He.
  - destruct (ctx_upd _ c m) eqn:Hc; [|done]. injection He as _ <-. by eapply table_ctx.
Qed.

Lemma resume_table c k m m' : resume text c k m = Next m' → same_table m m'.
Proof.
  unfold resume. destruct (ctx_get c m) as [u|]; [|done]. destruct (ctx_prog text u); [|done].
  intros [= <-]. apply table_thr_upd.
Qed.

Lemma step_cmd_table {B} (c : cmd B) kont k g ok m m' Φ : rule own cautious c k g Φ →
  step_cmd text c kont k ok m = Next m' → same_table m m'.
Proof.
  intros Hr Hst. destruct (is_control c) eqn:Hc.
  - destruct c; try discriminate Hc; cbn [step_cmd] in Hst; unfold save_ctx in Hst.
    + injection Hst as <-. apply table_thr_upd.
    + destruct (ctx_upd _ _ m) as [m1|] eqn:Hm; [|done]. injection Hst as <-.
      etransitivity; [by eapply table_ctx|apply table_thr_upd].
    + by eapply resume_table.
    + destruct (ctx_upd _ _ m) as [m1|] eqn:Hm; [|done].
      etransitivity; [by eapply table_ctx|by eapply resume_table].
    + injection Hst as <-. apply table_thr_upd.
  - assert (∃ b m1, exec c k ok m = XOk b m1 ∧ m' = thr_upd (set_k_prog (kont b)) k m1) as (b & m1 & He & ->).
    { destruct c; try discriminate Hc; cbn [step_cmd] in Hst;
        (destruct (exec _ k ok m) as [b m1| |] eqn:He; [|done..]); injection Hst as <-; eauto. }
    etransitivity; [by eapply exec_table|apply table_thr_upd].
Qed.

Lemma step_table l G m m' : inv G m → step text l m = Next m' → same_table m m'.
Proof.
  intros Hi Hst. destruct l as [k ok|t|k]; cbn in Hst.
  - unfold step_thread in Hst. destruct (m_threads m !! k) as [t|] eqn:Ht; [|done].
    destruct (k_done t) eqn:Hd; [done|]. apply progs_lookup in Ht. rewrite Hd in Ht.
    destruct (inv_progs _ _ Hi _ _ Ht) as (g & Hg & Hw).
    destruct (k_prog t) as [u|B c kont]; [injection Hst as <-; apply table_thr_upd|].
    destruct Hw as [_ Hw]. by eapply step_cmd_table.
  - unfold step_tick in Hst. destruct (m_timers m !! t); [|done]. case_decide; [done|].
    injection Hst as <-. apply table_thr_upd.
  - unfold step_signal in Hst. destruct (m_threads m !! k); [|done]. destruct (_ && _); [|done].
    destruct (m_handler m); [|done]. injection Hst as <-. apply table_thr_upd.
Qed.

Lemma steps_table G m m' : inv G m → steps text m m' → same_table m m'.
Proof.
  intros Hi Hst. revert G Hi. induction Hst as [m|l m m1 m2 Hl Hst IH]; intros G Hi; [done|].
  destruct (step_sound l G m m1 Hi Hl) as [G' Hi'].
  etransitivity; [by eapply step_table|by eapply IH].
Qed.

(** ** What the invariant says of the next command of a thread *)
Lemma inv_next {B} G m k t (c : cmd B) kont : inv G m → m_threads m !! k = Some t →
  k_done t = false → k_prog t = Vis c kont →
  ∃ g Φ, G !! k = Some g ∧ shared G m ∧ cmd_wp own cautious c Φ k g.
Proof.
  intros Hi Ht Hd Hp. apply progs_lookup in Ht. rewrite Hd, Hp in Ht.
  destruct (inv_progs _ _ Hi _ _ Ht) as (g & Hg & Hw). exists g, (λ b k' g', wp own cautious (kont b) any k' g').
  split_and!; [done|apply Hi|exact Hw].
Qed.

Lemma inv_owner G m k g u : shared G m → G !! k = Some g → lib_lock u = true →
  u ∈ g_held g → m_mutex m !! u = Some (Some k).
Proof.
  intros Hs Hk Hu Hg. destruct (sh_locks _ _ Hs u Hu) as (o & Ho & H).
  rewrite Ho. f_equal. by apply (H k g).
Qed.

Lemma inv_holds G m k g u : shared G m → G !! k = Some g → lib_lock u = true →
  m_mutex m !! u = Some (Some k) → u ∈ g_held g.
Proof.
  intros Hs Hk Hu Hm. destruct (sh_locks _ _ Hs u Hu) as (o & Ho & H).
  apply (H k g Hk). congruence.
Qed.
End sound.
