(* ===== verification/Interleave.v ===== *)
(** * Every interleaving of the kernel threads

    From a machine that is [started], the library initialised, with any number of
    kernel threads, whatever the clients' threads call (but [uthread_teardown]),
    whichever kernel thread moves, whenever a timer signal arrives and whatever
    malloc answers: the library's locks protect what they are meant to protect,
    nobody waits in a circle (but the client that goes on after a failed
    [uthread_create], for itself), and the ready queue is never found empty.  The flag
    [cf] says whether the clients are [careful] or only [plain].  BootProps states it of
    the whole program. *)
From stdpp Require Import relations.
From S2P Require Import Prelude Bitvec Machine Kthread Uthread Client Eval Logic LogicSound Locks.

(** ** The machine once the library is initialised *)

(** [uthread_init] once [inited] is 1. *)
Definition init_tail (n : Z) : prog Z :=
  (pfor (Z.to_nat (to_size_t (n - 1))) 0 (λ _ _, or_abort (kthread_sem_post KInited)) tt ;;
   quantum ← Load VQuantum;
   (if negb (quantum =? 0) then
      self ← kthread_self;
      set_timer_interrupt self
    else Ret tt) ;;
   unblock_sigrtmin ;;
   Ret 0)%prog.

(** A kernel thread that [uthread_init] created has not entered the scheduler. *)
Inductive asleep : prog unit → Prop :=
| asleep_main (a : Z) (f : unit → prog unit) : asleep (pbind (kthread_main a) f)
| asleep_call (a : Z) (f : unit → prog unit) : asleep (Vis (Call (FKthreadMain a)) f)
| asleep_ret : asleep (Ret tt).

(** Each kernel thread runs the client, the end of [uthread_init] or [kthread_main]. *)
Inductive initial_prog (cf : bool) : prog unit → Prop :=
| initial_client (u : uprog unit) : behaved cf u → initial_prog cf (compile u)
| initial_init (n : Z) (u : Z → uprog unit) : (∀ r, behaved cf (u r)) →
    initial_prog cf (pbind (init_tail n) (λ r, compile (u r)))
| initial_asleep (p : prog unit) : asleep p → initial_prog cf p.

Definition initial_ctx (u : uctx) : Prop :=
  uc_body u = CtxNone ∨ ∃ s a, uc_body u = CtxEntry (FTrampoline s a).

Record started (cf : bool) (m : machine) : Prop := {
  st_locks : ∀ u, lib_lock u = true → m_mutex m !! u = Some None;
  st_ready : ∃ l, m_rqueue m = Some l ∧ m_ksem m !! KNotEmpty = Some (Z.of_nat (length l));
  st_ktids : ∀ i j x y, m_kinfo m !! i = Some x → m_kinfo m !! j = Some y →
    ki_ktid x = ki_ktid y → i = j;
  st_kinfo : ∀ i x, m_kinfo m !! i = Some x → ki_task x = NONE ∧ ki_lock x = None ∧
    ki_queue x = None ∧ uc_body (ki_ctx x) = CtxEntry FSchedule;
  st_tcbs : ∀ t p, znth (m_tcbs m) t = Some (Some p) → (p < m_next m)%positive;
  st_queued : ∀ p, queued m p → (p < m_next m)%positive;
  st_heap : ∀ p x, m_heap m !! p = Some x → (p < m_next m)%positive ∧ initial_ctx (t_ctx x);
  st_threads : ∀ k t, m_threads m !! k = Some t → k_done t = false → initial_prog cf (k_prog t);
}.

(** The entry of [kthread_info] of a kernel thread. *)
Definition entry_of (m : machine) (k : Z) : option Z :=
  fst <$> head (filter (λ e : Z * kinfo, ki_ktid e.2 = k) (map_to_list (m_kinfo m))).

Lemma entry_of_Some m k i : entry_of m k = Some i →
  ∃ x, m_kinfo m !! i = Some x ∧ ki_ktid x = k.
Proof.
  unfold entry_of. destruct (filter _ _) as [|[j x] l] eqn:Hf; [done|]. intros [= <-].
  assert (Hin : (j, x) ∈ filter (λ e : Z * kinfo, ki_ktid e.2 = k) (map_to_list (m_kinfo m))).
  { rewrite Hf. left. }
  apply list_elem_of_filter in Hin as [Hk Hx%elem_of_map_to_list]. by exists x.
Qed.

Lemma entry_of_inj m k k' i : entry_of m k = Some i → entry_of m k' = Some i → k = k'.
Proof.
  intros (x & Hx & <-)%entry_of_Some (y & Hy & <-)%entry_of_Some. congruence.
Qed.

Lemma entry_of_started cf m i x : started cf m → m_kinfo m !! i = Some x →
  entry_of m (ki_ktid x) = Some i.
Proof.
  intros Hst Hx. destruct (entry_of m (ki_ktid x)) as [j|] eqn:Hj.
  - apply entry_of_Some in Hj as (y & Hy & Hk). f_equal. by eapply (st_ktids _ _ Hst).
  - exfalso. unfold entry_of in Hj. destruct (filter _ _) as [|e l] eqn:Hf; [|done].
    assert (Hin : (i, x) ∈ filter (λ e : Z * kinfo, ki_ktid e.2 = ki_ktid x) (map_to_list (m_kinfo m))).
    { apply list_elem_of_filter. split; [done|]. by apply elem_of_map_to_list. }
    rewrite Hf in Hin. by apply elem_of_nil in Hin.
Qed.

(** ** The invariant holds from there on *)
Definition ghost0 : ghost := Ghost ∅ 0 NONE None None ∅.

Lemma ghost0_idle : idle ghost0.
Proof. done. Qed.

Lemma credits_ghost0 (th : gmap Z kthr) : credits ((λ _, ghost0) <$> th) = 0%nat.
Proof.
  unfold credits. rewrite map_fold_fmap.
  by apply (map_fold_weak_ind (λ n (_ : gmap Z kthr), n = 0%nat)).
Qed.

(** Every kernel thread keeps the rules of Logic. *)
Lemma wp_init_tail own cf n (Q : Z → Z → ghost → Prop) k g : (∀ r, Q r k g) →
  wp own cf (init_tail n) Q k g.
Proof.
  intros HQ. apply wp_bind, (wp_pfor own cf (λ _, True)); [done| |intros _ _].
  - intros j t _. apply wp_or_abort. split; [done|]. cbn [rule]. rewrite decide_False by done. by destruct t.
  - split; [done|]. intros q. cbn [wp].
    assert (wp own cf (pbind unblock_sigrtmin (λ _, Ret 0)) Q k g) as Hu.
    { apply wp_bind, wp_unblock_sigrtmin. exact (HQ 0). }
    apply wp_bind. cbn [wp]. apply wp_bind. destruct (negb (q =? 0)); [|exact Hu]. split; [done|]. by apply wp_set_timer_interrupt.
Qed.

Lemma wp_initial own cf p k : initial_prog cf p → wp own cf p (λ _ _ _, True) k ghost0.
Proof.
  intros [u Hu|n u Hu|q [a f|a f|]].
  - apply wp_compile; [done|by left|done].
  - apply wp_bind, wp_init_tail. intros r. apply wp_compile; [done|by left|done].
  - by apply wp_bind, wp_kthread_main.
  - by split.
  - done.
Qed.

Section reach.
Context (cl : client) (cf : bool) (Hcl : ∀ s a, behaved cf (cl s a)).
Context (m : machine) (Hm : started cf m).

Abbreviation own := (entry_of m).
Abbreviation G0 := ((λ _, ghost0) <$> m_threads m).

Lemma G0_lookup k g : G0 !! k = Some g → g = ghost0.
Proof. rewrite lookup_fmap. destruct (m_threads m !! k); [|done]. by intros [= <-]. Qed.

Lemma G0_public p : (p < m_next m)%positive → public G0 m p.
Proof. intros Hp. split; [done|]. by intros k g ->%G0_lookup. Qed.

Lemma shared_started : shared own cf G0 m.
Proof.
  constructor.
  - intros u Hu. exists None. split; [by apply (st_locks _ _ Hm)|].
    intros k g ->%G0_lookup. split; [|done]. cbn. set_solver.
  - destruct (st_ready _ _ Hm) as (l & Hl & Hv). exists l, (Z.of_nat (length l)).
    rewrite credits_ghost0. split_and!; [done..|lia|lia].
  - intros k i g x _ ->%G0_lookup Hx. by destruct (st_kinfo _ _ Hm i x Hx) as [-> _].
  - intros i x Hx. split; [by eapply entry_of_started|].
    destruct (st_kinfo _ _ Hm i x Hx) as (_ & -> & -> & ->). by split_and!.
  - constructor.
    + intros p x Hx. by apply (st_heap _ _ Hm p x).
    + apply (st_tcbs _ _ Hm).
    + by intros k g p ->%G0_lookup.
    + by intros k g p ->%G0_lookup.
    + by intros k g t ->%G0_lookup.
    + intros k g p ->%G0_lookup. cbn. set_solver.
    + intros p Hp. by apply G0_public, (st_queued _ _ Hm).
    + intros p x Hx _. unfold ctx_ok.
      destruct (st_heap _ _ Hm p x Hx) as [_ [-> | (s & a & ->)]]; [done|eauto].
Qed.

Lemma inv_started : inv own cf G0 m.
Proof.
  constructor; [apply shared_started|]. intros k q. unfold progs. rewrite lookup_fmap.
  destruct (m_threads m !! k) as [t|] eqn:Ht; [|done]. intros [= Hq Hd].
  exists ghost0. rewrite lookup_fmap, Ht. split; [done|].
  pose proof (st_threads _ _ Hm k t Ht Hd) as Hp. rewrite Hq in Hp. by apply wp_initial.
Qed.

Lemma inv_reachable m' : steps (text cl) m m' → ∃ G, inv own cf G m'.
Proof.
  apply (steps_sound own cf (entry_of_inj m) (text cl) (λ A f Q k g, wp_text own cf cl f Q k g Hcl) G0).
  apply inv_started.
Qed.

Lemma table_reachable m' : steps (text cl) m m' → same_table m m'.
Proof.
  apply (steps_table own cf (entry_of_inj m) (text cl) (λ A f Q k g, wp_text own cf cl f Q k g Hcl) G0).
  apply inv_started.
Qed.
End reach.

(** ** What follows *)

(** Kernel thread [k] is about to execute [c]. *)
Inductive about_to {B} (m : machine) (k : Z) (c : cmd B) : Prop :=
| About (t : kthr) (kont : B → prog unit) : m_threads m !! k = Some t → k_done t = false →
    k_prog t = Vis c kont → about_to m k c.

(** The mutex kernel thread [k] is about to lock, and who has it. *)
Definition wanted (p : prog unit) : option mutex_id :=
  match p with
  | Vis c _ => match c with MutexLock u => Some u | _ => None end
  | Ret _ => None
  end.
Definition wants (m : machine) (k : Z) : option mutex_id :=
  t ← m_threads m !! k; if k_done t then None else wanted (k_prog t).
Definition waits (m : machine) (k k' : Z) : Prop :=
  ∃ u, lib_lock u = true ∧ wants m k = Some u ∧ m_mutex m !! u = Some (Some k').

(** [k] is about to lock [tcbs_lock], which it holds itself. *)
Definition relocks_tcbs (m : machine) (k : Z) : Prop :=
  wants m k = Some MTcbs ∧ m_mutex m !! MTcbs = Some (Some k).

Lemma wants_about m k u : wants m k = Some u → about_to m k (MutexLock u).
Proof.
  unfold wants. destruct (m_threads m !! k) as [t|] eqn:Ht; [|done]. cbn.
  destruct (k_done t) eqn:Hd; [done|]. destruct (k_prog t) as [|B c kont] eqn:Hp; [done|].
  destruct c; try done. intros [= ->]. by eapply About.
Qed.

Section consequences.
Context (own : Z → option Z) (cf : bool) (G : gmap Z ghost) (m : machine).
Context (Hi : inv own cf G m).

Lemma about_rule {B} k (c : cmd B) : about_to m k c →
  ∃ g Φ, G !! k = Some g ∧ shared own cf G m ∧ cmd_wp own cf c Φ k g.
Proof. intros [t kont Ht Hd Hp]. by eapply inv_next. Qed.

Lemma guard_lib {B} (c : cmd B) u : guard c = Some u → lib_lock u = true.
Proof.
  destruct c; try done; cbn; try (destruct v); try (destruct q); try (destruct c); try (destruct o);
    cbn; try (destruct x); naive_solver.
Qed.

Lemma about_guarded {B} k (c : cmd B) u : about_to m k c → guard c = Some u →
  m_mutex m !! u = Some (Some k).
Proof.
  intros Hc Hg. destruct (about_rule k c Hc) as (g & Φ & Hk & Hs & Hr & _).
  eapply inv_owner; [done..|by eapply guard_lib|by apply Hr].
Qed.

Lemma about_unlock k u : about_to m k (MutexUnlock u) → lib_lock u = true →
  m_mutex m !! u = Some (Some k).
Proof.
  intros Hc Hu. destruct (about_rule k _ Hc) as (g & Φ & Hk & Hs & _ & Hr).
  cbn in Hr. rewrite Hu in Hr. by eapply inv_owner; [..|apply Hr].
Qed.

(** Locks are taken in order, but for a thread that relocks [tcbs_lock]. *)
Lemma about_lock k u u' : wants m k = Some u → lib_lock u = true → lib_lock u' = true →
  m_mutex m !! u' = Some (Some k) →
  (cf = false ∧ relocks_tcbs m k) ∨ (rank u' < rank u)%nat.
Proof.
  intros Hc Hu Hu' Hm. destruct (about_rule k _ (wants_about _ _ _ Hc)) as (g & Φ & Hk & Hs & _ & Hr).
  cbn in Hr. rewrite Hu in Hr. destruct Hr as [(Hcf & -> & Hr)|[Hr _]]; [left|right].
  - split; [done|]. split; [done|]. by eapply inv_owner.
  - apply Hr. by eapply inv_holds.
Qed.

Lemma waits_rank k1 k2 k3 u1 u2 : waits m k1 k2 → waits m k2 k3 →
  wants m k1 = Some u1 → wants m k2 = Some u2 →
  (cf = false ∧ relocks_tcbs m k2) ∨ (rank u1 < rank u2)%nat.
Proof.
  intros (v1 & L1 & W1 & O1) (v2 & L2 & W2 & O2) E1 E2.
  assert (v1 = u1) as -> by congruence. assert (v2 = u2) as -> by congruence.
  by apply about_lock.
Qed.

Lemma tc_waits_first a b : tc (waits m) a b → ∃ u d, waits m a d ∧ wants m a = Some u.
Proof.
  intros [x y Hw|x y z Hw _]; pose proof Hw as (u & _ & Hu & _); eauto.
Qed.

(** Who waits for itself waits for nobody else. *)
Lemma relocks_waits k k' : relocks_tcbs m k → waits m k k' → k' = k.
Proof. intros [Hw Ho] (u & _ & Hu & Hk). congruence. Qed.

Lemma relocks_tc k k' : relocks_tcbs m k → tc (waits m) k k' → k' = k.
Proof.
  intros Hr Ht. induction Ht as [a b Hab|a c b Hac Hcb IH]; [by apply relocks_waits|].
  apply relocks_waits in Hac as ->; [|done]. by apply IH.
Qed.

Lemma tc_waits_rank k1 k2 k3 u1 u2 : tc (waits m) k1 k2 → waits m k2 k3 →
  wants m k1 = Some u1 → wants m k2 = Some u2 →
  (cf = false ∧ relocks_tcbs m k2) ∨ (rank u1 < rank u2)%nat.
Proof.
  intros Ht. revert u1. induction Ht as [a b Hab|a c b Hac Hcb IH]; intros u1 H23 E1 E2.
  - by apply (waits_rank a b k3).
  - assert (∃ uc d, waits m c d ∧ wants m c = Some uc) as (uc & d & Hcd & Ec).
    { by eapply tc_waits_first. }
    destruct (waits_rank a c d u1 uc Hac Hcd E1 Ec) as [[Hcf Hr]|Hlt].
    + pose proof (relocks_tc c b Hr Hcb) as ->. by left.
    + destruct (IH uc H23 Ec E2) as [?|?]; [by left|right; lia].
Qed.
End consequences.

Section theorems.
Context (cl : client) (cf : bool) (Hcl : ∀ s a, behaved cf (cl s a)) (m m' : machine).
Context (Hm : started cf m) (Hst : steps (text cl) m m').

(** One thread at a time uses what a lock protects. *)
Lemma started_guarded {B} (c : cmd B) k u : about_to m' k c → guard c = Some u →
  m_mutex m' !! u = Some (Some k) ∧
  ∀ k' B' (c' : cmd B'), about_to m' k' c' → guard c' = Some u → k' = k.
Proof.
  intros Hc Hg. destruct (inv_reachable cl cf Hcl m Hm m' Hst) as [G Hi].
  pose proof (about_guarded _ _ _ _ Hi k c u Hc Hg) as Hk. split; [done|].
  intros k' B' c' Hc' Hg'. pose proof (about_guarded _ _ _ _ Hi k' c' u Hc' Hg'). congruence.
Qed.

(** A thread unlocks what it locked. *)
Lemma started_unlock k u ok : about_to m' k (MutexUnlock u) → lib_lock u = true →
  m_mutex m' !! u = Some (Some k) ∧ step_thread (text cl) k ok m' ≠ Crashed MutexMisuse.
Proof.
  intros Hc Hu. destruct (inv_reachable cl cf Hcl m Hm m' Hst) as [G Hi].
  pose proof (about_unlock _ _ _ _ Hi k u Hc Hu) as Hk. split; [done|].
  destruct Hc as [t kont Ht Hd Hp]. unfold step_thread. rewrite Ht, Hd, Hp. cbn.
  rewrite Hk, decide_True by done. done.
Qed.

(** The semaphore never counts more than the ready queue has. *)
Lemma started_ready k : ∃ l v, m_rqueue m' = Some l ∧ m_ksem m' !! KNotEmpty = Some v ∧
  0 ≤ v ≤ Z.of_nat (length l) ∧ (about_to m' k (QDequeue QReady) → l ≠ []).
Proof.
  destruct (inv_reachable cl cf Hcl m Hm m' Hst) as [G Hi].
  destruct (sh_counted _ _ _ _ (inv_shared _ _ _ _ Hi)) as (l & v & Hl & Hv & H0 & Hn).
  exists l, v. split_and!; [done|done|lia|lia|]. intros Hc ->. cbn in Hn.
  destruct (about_rule _ _ _ _ Hi k _ Hc) as (g & Φ & Hk & Hs & _ & Hr). cbn [rule] in Hr.
  rewrite decide_True in Hr by done. pose proof (credits_le G k g Hk). lia.
Qed.

(** Waiting is acyclic, but for a thread that waits for itself; and who sleeps or ends
    holds no lock. *)
Lemma started_acyclic k : (tc (waits m') k k → cf = false ∧ relocks_tcbs m' k) ∧
  (about_to m' k (SemWait KNotEmpty) ∨ about_to m' k PthreadExit →
   ∀ u, lib_lock u = true → m_mutex m' !! u ≠ Some (Some k)).
Proof.
  destruct (inv_reachable cl cf Hcl m Hm m' Hst) as [G Hi]. split.
  - intros Ht. assert (∃ u d, waits m' k d ∧ wants m' k = Some u) as (u & d & Hd & Hu).
    { by eapply tc_waits_first. }
    destruct (tc_waits_rank _ _ _ _ Hi k k d u u Ht Hd Hu Hu) as [?|?]; [done|lia].
  - intros Hc u Hu Ho.
    assert (∃ g, G !! k = Some g ∧ g_held g = ∅) as (g & Hk & Hg).
    { destruct Hc as [Hc|Hc]; destruct (about_rule _ _ _ _ Hi k _ Hc) as (g & Φ & Hk & _ & _ & Hr);
        exists g; (split; [done|]); cbn [rule] in Hr; try (rewrite decide_True in Hr by done); apply Hr. }
    pose proof (inv_holds _ _ _ _ _ _ _ (inv_shared _ _ _ _ Hi) Hk Hu Ho). set_solver.
Qed.
End theorems.
