(* ===== verification/Start.v ===== *)
(** * uthread_init starts the library

    An interleaving of the kernel threads after which [uthread_init] has returned to the
    client, for up to twelve kernel threads and every quantum, run by evaluation.  The
    quantum is a variable, so a step that arms a timer is taken without the system's
    range check, and the values it was asked for are recorded ([act]); the run is one of
    the machine when they are all in range. *)
From stdpp Require Import relations.
From S2P Require Import Prelude Bitvec Machine Kthread Uthread Client Eval Logic LogicSound Locks Interleave.

(** ** Schedules

    Threads take turns: the main one runs until it waits, then the new kernel thread runs
    until it waits, and so on; at the end the main thread makes its last [last] steps. *)
Definition turns (n : nat) (last : nat) : list label :=
  concat ((λ i, replicate 1000 (LRun MAIN_KTID true) ++ replicate 1000 (LRun (MAIN_KTID + Z.of_nat i) true))
    <$> seq 1 n) ++ replicate last (LRun MAIN_KTID true).

(** They are enough to return from [uthread_init(n, 0)]. *)
Definition init_turns (n : nat) : list label :=
  turns (n - 1) (if decide (n = 1)%nat then 64 else n + 6).

Lemma run_steps text ls m m' : run text ls m = Next m' → steps text m m'.
Proof.
  revert m. induction ls as [|l ls IH]; intros m; cbn; [intros [= ->]; constructor|].
  destruct (step text l m) as [m1| |f] eqn:Hl; [|by apply IH|done].
  intros H. econstructor; [done|]. by apply IH.
Qed.

Section act.
Context (text : ∀ A, fn A → prog A).

(** A step of kernel thread [k], with the nanoseconds it asks a timer for, if any; a
    thread that is blocked stays where it is. *)
Definition settime {B} (c : cmd B) (kont : B → prog unit) (k : Z) (m : machine) : option (list Z * machine) :=
  match c in cmd B return (B → prog unit) → option (list Z * machine) with
  | TimerSettime t ns => λ kont,
      match m_timers m !! t with
      | Some tm => Some ([ns], thr_upd (set_k_prog (kont 0)) k
                                 (set_timers (<[t := Timer (tm_ktid tm) ns]> (m_timers m)) m))
      | None => None
      end
  | _ => λ _,
      match step_thread text k true m with
      | Next m' => Some ([], m')
      | Blocked => Some ([], m)
      | Crashed _ => None
      end
  end kont.
Definition act (k : Z) (m : machine) : option (list Z * machine) :=
  match m_threads m !! k with
  | Some t => if k_done t then Some ([], m)
              else match k_prog t with Vis c kont => settime c kont k m | Ret _ => None end
  | None => Some ([], m)
  end.

Fixpoint acts (n : nat) (k : Z) (m : machine) : option (list Z * machine) :=
  match n with
  | O => Some ([], m)
  | S n' => '(l, m1) ← act k m; '(l', m2) ← acts n' k m1; Some (l ++ l', m2)
  end.
Fixpoint plan (ks : list (Z * nat)) (m : machine) : option (list Z * machine) :=
  match ks with
  | [] => Some ([], m)
  | (k, n) :: ks' => '(l, m1) ← acts n k m; '(l', m2) ← plan ks' m1; Some (l ++ l', m2)
  end.

Definition in_range (ns : Z) : Prop := 0 ≤ ns ≤ 999999999.

Lemma act_steps k m l m' : act k m = Some (l, m') → Forall in_range l → steps text m m'.
Proof.
  unfold act. destruct (m_threads m !! k) as [t|] eqn:Ht.
  2: { intros [= _ <-] _. constructor. }
  destruct (k_done t) eqn:Hd; [intros [= _ <-] _; constructor|].
  destruct (k_prog t) as [|B c kont] eqn:Hp; [done|].
  assert (Hstep : ∀ o, match step_thread text k true m with
      | Next m' => Some ([], m') | Blocked => Some ([], m) | Crashed _ => None end =
      Some (o : list Z, m') → steps text m m').
  { intros o. destruct (step_thread text k true m) as [m1| |] eqn:Hs; [|intros [= _ <-]; constructor|done].
    intros [= _ <-]. eapply (steps_step _ (LRun k true)); [exact Hs|constructor]. }
  destruct c; cbn [settime]; try (intros H _; by eapply Hstep).
  destruct (m_timers m !! t0) as [tm|] eqn:Htm; [|done]. intros [= <- <-] Hr.
  apply Forall_cons_1 in Hr as [Hr _].
  eapply (steps_step _ (LRun k true)); [|constructor]. cbn [step]. unfold step_thread.
  rewrite Ht, Hd, Hp. cbn [step_cmd exec]. by rewrite Htm, decide_True.
Qed.

Lemma steps_app m1 m2 m3 : steps text m1 m2 → steps text m2 m3 → steps text m1 m3.
Proof. induction 1; eauto using steps_step. Qed.

Lemma acts_steps n k m l m' : acts n k m = Some (l, m') → Forall in_range l → steps text m m'.
Proof.
  revert m l. induction n as [|n IH]; intros m l; cbn; [intros [= _ <-] _; constructor|].
  destruct (act k m) as [[l1 m1]|] eqn:H1; [|done]. cbn.
  destruct (acts n k m1) as [[l2 m2]|] eqn:H2; [|done]. cbn. intros [= <- <-] [Hl1 Hl2]%Forall_app.
  eapply steps_app; [by eapply act_steps|by eapply IH].
Qed.

Lemma plan_steps ks m l m' : plan ks m = Some (l, m') → Forall in_range l → steps text m m'.
Proof.
  revert m l. induction ks as [|[k n] ks IH]; intros m l; cbn; [intros [= _ <-] _; constructor|].
  destruct (acts n k m) as [[l1 m1]|] eqn:H1; [|done]. cbn.
  destruct (plan ks m1) as [[l2 m2]|] eqn:H2; [|done]. cbn. intros [= <- <-] [Hl1 Hl2]%Forall_app.
  eapply steps_app; [by eapply acts_steps|by eapply IH].
Qed.
End act.

(** ** The machine uthread_init leaves *)

(** Kernel thread [i] is about to enter its scheduler. *)
Definition entering (m : machine) (i : Z) : bool :=
  match m_threads m !! (MAIN_KTID + i) with
  | Some t => negb (k_done t) &&
      match k_prog t with
      | Vis c _ => match c with Setcontext (CtxSched j) => j =? i | _ => false end
      | Ret _ => false
      end
  | None => false
  end.

Lemma entering_about m i : entering m i = true →
  about_to m (MAIN_KTID + i) (Setcontext (CtxSched i)).
Proof.
  unfold entering. destruct (m_threads m !! (MAIN_KTID + i)) as [t|] eqn:Ht; [|done].
  rewrite andb_true_iff, negb_true_iff. intros [Hd Hp].
  destruct (k_prog t) as [|B c kont] eqn:Hk; [done|].
  destruct c; try done. destruct c; try done. apply Z.eqb_eq in Hp as ->. by eapply About.
Qed.

(** The timer of entry [i]: the kernel thread it signals, and its period. *)
Definition timer_of (m : machine) (i : Z) : option (Z * Z) :=
  x ← m_kinfo m !! i; tm ← m_timers m !! ki_timer x; Some (tm_ktid tm, tm_nsec tm).

(** [uthread_init(n, q)] has returned to the client's program [p] on the main kernel
    thread; the [n - 1] others have passed [kthread_main].  Every kernel thread has its
    entry, and its timer with period [q], unless [q] is 0; with timers, SIGRTMIN is blocked
    in the others and not in the main one; the locks are free and the ready queue is empty. *)
Record library_started (n q : Z) (p : prog unit) (m : machine) : Prop := {
  ls_inited : m_inited m = 1;
  ls_num : m_num_kthreads m = n;
  ls_quantum : m_quantum m = q;
  ls_handler : m_handler m = negb (q =? 0);
  ls_threads : Z.of_nat (size (m_threads m)) = n;
  ls_main : k_prog <$> m_threads m !! MAIN_KTID = Some p ∧ mask_of MAIN_KTID m = false;
  ls_others : ∀ i, 1 ≤ i < n →
    about_to m (MAIN_KTID + i) (Setcontext (CtxSched i)) ∧
    mask_of (MAIN_KTID + i) m = negb (q =? 0);
  ls_kinfo : ∀ i, 0 ≤ i < n → ki_ktid <$> m_kinfo m !! i = Some (MAIN_KTID + i);
  ls_timers : if decide (q = 0) then m_timers m = ∅
              else Z.of_nat (size (m_timers m)) = n ∧
                   ∀ i, 0 ≤ i < n → timer_of m i = Some (MAIN_KTID + i, q);
  ls_locks : ∀ u, lib_lock u = true → m_mutex m !! u = Some None;
  ls_ready : m_rqueue m = Some [] ∧ m_ksem m !! KNotEmpty = Some 0;
}.

Section init.
Context (cl : client) (P : Z → prog unit).

Definition booted (p : prog unit) : machine := thr_upd (set_k_prog p) MAIN_KTID (boot (URet tt)).
Definition init_boot (n : nat) (q : Z) : machine := booted (pbind (uthread_init (Z.of_nat n) q) P).

(** Enough steps to get to the next wait of a thread in [kthread_create]. *)
Definition turn_steps (n : nat) : nat := 400 + 30 * n.
(** How many steps the threads make after [inited] was set. *)
Definition last_steps (n : nat) (timed : bool) : nat := if timed then 2 * n + 16 else n + 6.
Definition start_plan (n : nat) (timed : bool) : list (Z * nat) :=
  concat ((λ i, [(MAIN_KTID, turn_steps n); (MAIN_KTID + Z.of_nat i, turn_steps n)]) <$> seq 1 (n - 1)) ++
  (MAIN_KTID, if decide (n = 1%nat) then (if timed then 77 else 64) else last_steps n timed)%nat ::
  ((λ i, (MAIN_KTID + Z.of_nat i, last_steps n timed)) <$> seq 1 (n - 1)).

(** What the run has to show: these data of the times asked for and of the machine. *)
Record facts : Type := Facts {
  fa_times : list Z;
  fa_data : Z * Z * Z * bool * nat;
  fa_main : option (prog unit) * bool;
  fa_others : bool;
  fa_masks : list bool;
  fa_kinfo : list (option Z);
  fa_timers : list (option (Z * Z)) * nat;
  fa_locks : list (option (option Z));
  fa_ready : option (list loc) * option Z;
}.
Definition facts_of (n : nat) (lm : list Z * machine) : facts :=
  let m := lm.2 in
  {| fa_times := lm.1;
     fa_data := (m_inited m, m_num_kthreads m, m_quantum m, m_handler m, size (m_threads m));
     fa_main := (k_prog <$> m_threads m !! MAIN_KTID, mask_of MAIN_KTID m);
     fa_others := forallb (λ i, entering m (Z.of_nat i)) (seq 1 (n - 1));
     fa_masks := (λ i, mask_of (MAIN_KTID + Z.of_nat i) m) <$> seq 1 (n - 1);
     fa_kinfo := (λ i, ki_ktid <$> m_kinfo m !! Z.of_nat i) <$> seq 0 n;
     fa_timers := ((λ i, timer_of m (Z.of_nat i)) <$> seq 0 n, size (m_timers m));
     fa_locks := (λ u, m_mutex m !! u) <$> [MTcbs; MBitvec; MRqueue];
     fa_ready := (m_rqueue m, m_ksem m !! KNotEmpty) |}.
Definition expected (n : nat) (q : Z) : facts :=
  {| fa_times := if q =? 0 then [] else replicate n q;
     fa_data := (1, Z.of_nat n, q, negb (q =? 0), n);
     fa_main := (Some (P 0), false);
     fa_others := true;
     fa_masks := replicate (n - 1) (negb (q =? 0));
     fa_kinfo := (λ i, Some (MAIN_KTID + Z.of_nat i)) <$> seq 0 n;
     fa_timers := if q =? 0 then (replicate n None, 0%nat)
                  else ((λ i, Some (MAIN_KTID + Z.of_nat i, q)) <$> seq 0 n, n);
     fa_locks := [Some None; Some None; Some None];
     fa_ready := (Some [], Some 0) |}.
Definition started_facts (n : nat) (q : Z) : option facts :=
  facts_of n <$> plan (text cl) (start_plan n (negb (q =? 0))) (init_boot n q).

(** The numbers of kernel threads tried. *)
Definition counts : list nat := seq 1 12.

Lemma started_untimed :
  (λ n, started_facts n 0) <$> counts = (λ n, Some (expected n 0)) <$> counts.
Proof. vm_compute. reflexivity. Qed.
Lemma started_timed p :
  (λ n, started_facts n (Zpos p)) <$> counts = (λ n, Some (expected n (Zpos p))) <$> counts.
Proof. vm_compute. reflexivity. Qed.

Lemma started_as_expected n q : (1 ≤ n ≤ 12)%nat → 0 ≤ q →
  started_facts n q = Some (expected n q).
Proof.
  intros Hn Hq.
  assert (Hi : counts !! (n - 1)%nat = Some n) by (apply lookup_seq; lia).
  assert (Hall : (λ n, started_facts n q) <$> counts = (λ n, Some (expected n q)) <$> counts).
  { destruct q as [|p|p]; [apply started_untimed|apply started_timed|lia]. }
  apply (f_equal (.!! (n - 1)%nat)) in Hall. rewrite !list_lookup_fmap, Hi in Hall. by injection Hall.
Qed.

(** From the lists of facts to the record. *)
Lemma seq_nth {A} (f : Z → A) (g : nat → A) a n i : (λ i, f (Z.of_nat i)) <$> seq a n = g <$> seq a n →
  Z.of_nat a ≤ i < Z.of_nat (a + n) → f i = g (Z.to_nat i).
Proof.
  intros H Hi. apply (f_equal (.!! (Z.to_nat i - a)%nat)) in H. rewrite !list_lookup_fmap in H.
  assert (seq a n !! (Z.to_nat i - a)%nat = Some (Z.to_nat i)) as E by (apply lookup_seq; lia).
  rewrite E in H. cbn in H. rewrite Z2Nat.id in H by lia. by injection H.
Qed.

Lemma replicate_seq {A} a n (x : A) : replicate n x = (λ _, x) <$> seq a n.
Proof.
  revert a. induction n as [|n IH]; intros a; [done|]. cbn [replicate seq].
  by rewrite (IH (S a)).
Qed.

Lemma facts_started n q l m : (1 ≤ n)%nat → facts_of n (l, m) = expected n q →
  library_started (Z.of_nat n) q (P 0) m.
Proof.
  intros Hn H. pose proof (f_equal fa_data H) as [= Hi Hnum Hq Hh Hth].
  pose proof (f_equal fa_main H) as [= Hmain Hmask]. pose proof (f_equal fa_others H) as Hoth.
  pose proof (f_equal fa_masks H) as Hmasks. pose proof (f_equal fa_kinfo H) as Hki.
  pose proof (f_equal fa_timers H) as Htim. pose proof (f_equal fa_locks H) as [= Hl1 Hl2 Hl3].
  pose proof (f_equal fa_ready H) as [= Hr Hs]. clear H. cbn in Hoth, Hmasks, Hki, Htim.
  assert (Hm : ∀ i, 0 ≤ i < Z.of_nat n → ki_ktid <$> m_kinfo m !! i = Some (MAIN_KTID + i)).
  { intros i Hi'. rewrite (seq_nth (λ i, ki_ktid <$> m_kinfo m !! i) _ 0 n i Hki) by lia.
    by rewrite Z2Nat.id by lia. }
  constructor; try done.
  - by rewrite Hth.
  - intros i Hi'. split.
    + apply entering_about. rewrite forallb_forall in Hoth.
      specialize (Hoth (Z.to_nat i)). rewrite Z2Nat.id in Hoth by lia. apply Hoth.
      apply in_seq. lia.
    + rewrite (replicate_seq 1) in Hmasks.
      apply (seq_nth (λ i, mask_of (MAIN_KTID + i) m) _ 1 (n - 1) i Hmasks). lia.
  - destruct (Z.eqb_spec q 0) as [->|Hq0].
    + rewrite decide_True by done. injection Htim as _ Hz. by apply map_size_empty_inv.
    + rewrite decide_False by done. injection Htim as Ht Hz. split; [by rewrite Hz|].
      intros i Hi'. rewrite (seq_nth (λ i, timer_of m i) _ 0 n i Ht) by lia. by rewrite Z2Nat.id by lia.
  - intros []; done.
Qed.
End init.

(** C11. [uthread_init] starts the library with one up to twelve kernel threads and any
    quantum up to 999999999, 0 for none: there is an interleaving of the kernel threads,
    no timer expiring yet and no allocation failing, after which it has returned 0 to the
    client on the main one.  [inited] is 1, every kernel thread has its entry of
    [kthread_info], the others have passed [kthread_main] and are about to enter their
    schedulers; with a quantum the handler is installed, each kernel thread has its own
    timer with that period, and SIGRTMIN is blocked in the others and not in the main
    one; without, there is no timer.  The locks are free and the ready queue is empty. *)
Theorem uthread_init_starts cl (u : Z → uprog unit) n q : 1 ≤ n ≤ 12 → 0 ≤ q ≤ 999999999 →
  ∃ m, steps (text cl) (boot (ubind (UInit n q) u)) m ∧ library_started n q (compile (u 0)) m.
Proof.
  intros Hn Hq. set (P := λ r, compile (u r)).
  pose proof (started_as_expected cl P (Z.to_nat n) q ltac:(lia) ltac:(lia)) as H.
  unfold started_facts in H.
  destruct (plan _ _ _) as [[l m]|] eqn:Hp; [|done].
  apply (inj Some) in H.
  assert (Hb : init_boot P (Z.to_nat n) q = boot (ubind (UInit n q) u)).
  { unfold init_boot. by rewrite Z2Nat.id by lia. }
  exists m. split.
  - rewrite <- Hb. eapply plan_steps; [exact Hp|]. pose proof (f_equal fa_times H) as Hl. cbn in Hl. rewrite Hl.
    destruct (q =? 0); [done|]. by apply Forall_replicate.
  - replace n with (Z.of_nat (Z.to_nat n)) by lia.
    apply (facts_started P (Z.to_nat n) q l m); [lia|done].
Qed.

(** The client yields. *)
Definition yielder : Z → uprog unit := λ _, (UYield ;; URet tt)%uprog.
Definition idler : client := λ _ _, URet 0.

Lemma uthread_init_starts_witness : ∃ m,
  steps (text idler) (boot (ubind (UInit 12 1000) yielder)) m ∧ size (m_threads m) = 12%nat ∧
  timer_of m 11 = Some (111, 1000).
Proof.
  destruct (uthread_init_starts idler yielder 12 1000) as (m & Hst & Hs); [lia|lia|].
  exists m. split; [exact Hst|]. destruct Hs. split; [lia|].
  rewrite decide_False in ls_timers0 by lia. apply ls_timers0. lia.
Defined.
