(* ===== verification/Boot.v ===== *)
(** * A logic for uthread_init, before the library is initialised

    While [uthread_init] runs, one kernel thread moves at a time: the main one, or
    the one it is creating, for which it waits; the others wait for [inited_sem].
    [bst] is what is known of the machine meanwhile, [bwp p Q k s] says that program
    [p] of kernel thread [k] takes it from [s] to [Q], whatever malloc answers, and
    [booting] that a machine is in this phase.  BootProps applies it. *)
From Stdlib Require Import Eqdep.
From S2P Require Import Prelude Bitvec Machine Kthread Uthread Client Eval Logic LogicSound Interleave.

(** ** What is known of the machine *)

(** An entry of [kthread_info]: its thread, and whether its context starts the
    scheduler. *)
Definition is_schedule {A} (f : fn A) : bool := match f with FSchedule => true | _ => false end.
Definition desc (x : kinfo) : Z * bool :=
  (ki_ktid x, match uc_body (ki_ctx x) with CtxEntry f => is_schedule f | _ => false end).

Lemma desc_entry x : (desc x).2 = true → uc_body (ki_ctx x) = CtxEntry FSchedule.
Proof.
  assert (H : ∀ A (f : fn A), is_schedule f = true → existT A f = existT (unit : Type) FSchedule :> sigT fn) by (by intros A []).
  unfold desc. cbn. destruct (uc_body (ki_ctx x)) as [|f|q]; try done.
  intros Hf%H. apply inj_pair2 in Hf. by subst.
Qed.

Record bst : Type := Bst {
  b_mutex : gmap mutex_id (option Z);
  b_ksem : gmap ksem_id Z;
  b_kinfo : gmap Z (Z * bool);
  b_targs : gmap Z targs;
  b_tidmap : list (Z * Z);
  b_dom : gset Z;  (* the kernel threads *)
  b_next : positive;  (* a bound of the addresses in use *)
  b_num : Z;  (* [num_kthreads] *)
  b_registered : Z;  (* [inited] of kthread.c *)
}.

Definition up_mutex x s := Bst x (b_ksem s) (b_kinfo s) (b_targs s) (b_tidmap s) (b_dom s)
  (b_next s) (b_num s) (b_registered s).
Definition up_ksem x s := Bst (b_mutex s) x (b_kinfo s) (b_targs s) (b_tidmap s) (b_dom s)
  (b_next s) (b_num s) (b_registered s).
Definition up_kinfo x s := Bst (b_mutex s) (b_ksem s) x (b_targs s) (b_tidmap s) (b_dom s)
  (b_next s) (b_num s) (b_registered s).
Definition up_targs x s := Bst (b_mutex s) (b_ksem s) (b_kinfo s) x (b_tidmap s) (b_dom s)
  (b_next s) (b_num s) (b_registered s).
Definition up_tidmap x s := Bst (b_mutex s) (b_ksem s) (b_kinfo s) (b_targs s) x (b_dom s)
  (b_next s) (b_num s) (b_registered s).
Definition up_dom x s := Bst (b_mutex s) (b_ksem s) (b_kinfo s) (b_targs s) (b_tidmap s) x
  (b_next s) (b_num s) (b_registered s).
Definition up_next x s := Bst (b_mutex s) (b_ksem s) (b_kinfo s) (b_targs s) (b_tidmap s)
  (b_dom s) x (b_num s) (b_registered s).
Definition up_num x s := Bst (b_mutex s) (b_ksem s) (b_kinfo s) (b_targs s) (b_tidmap s)
  (b_dom s) (b_next s) x (b_registered s).
Definition up_registered x s := Bst (b_mutex s) (b_ksem s) (b_kinfo s) (b_targs s)
  (b_tidmap s) (b_dom s) (b_next s) (b_num s) x.

(** The rest is as the process started, but for blocks nobody can reach yet. *)
Record bfacts (s : bst) (m : machine) : Prop := {
  bf_inited : m_inited m = 0;
  bf_mutex : m_mutex m = b_mutex s;
  bf_ksem : m_ksem m = b_ksem s;
  bf_kinfo : desc <$> m_kinfo m = b_kinfo s;
  bf_tasks : ∀ i x, m_kinfo m !! i = Some x → ki_task x = NONE ∧ ki_lock x = None ∧ ki_queue x = None;
  bf_targs : m_targs m = b_targs s;
  bf_tidmap : m_tidmap m = b_tidmap s;
  bf_dom : dom (m_threads m) = b_dom s;
  bf_pending : ∀ j t, m_threads m !! j = Some t → k_pending t = false;
  bf_timers : m_timers m = ∅;
  bf_rqueue : m_rqueue m = Some [];
  bf_usem : m_usem m = ∅;
  bf_num : m_num_kthreads m = b_num s;
  bf_registered : m_kt_inited m = b_registered s;
  bf_next : (b_next s ≤ m_next m)%positive;
  bf_tcbs : ∀ t p, znth (m_tcbs m) t = Some (Some p) → (p < m_next m)%positive;
  bf_heap : ∀ p x, m_heap m !! p = Some x →
    (p < m_next m)%positive ∧ t_joinq x = Some [] ∧ uc_body (t_ctx x) = CtxNone;
}.

(** ** The effect of a command *)
Definition on {X} (o : option X) (f : X → Prop) : Prop :=
  match o with Some x => f x | None => True end.

Definition b_load {A} (v : var A) (s : bst) : (A → bst → Prop) → Prop :=
  match v in var A return (A → bst → Prop) → Prop with
  | VInited => λ Φ, Φ 0 s
  | VNumKthreads => λ Φ, Φ (b_num s) s
  | VKtInited => λ Φ, Φ (b_registered s) s
  | VKtTid i => λ Φ, on (znth (b_tidmap s) i) (λ e, Φ e.1 s)
  | VArgStart a => λ Φ, on (b_targs s !! a) (λ t, Φ (ta_start t) s)
  | VArgArg a => λ Φ, on (b_targs s !! a) (λ t, Φ (ta_arg t) s)
  | VArgPtid a => λ Φ, on (b_targs s !! a) (λ t, Φ (ta_ptid t) s)
  | VArgError a => λ Φ, on (b_targs s !! a) (λ t, Φ (ta_error t) s)
  | _ => λ Φ, ∀ x, Φ x s
  end.

Definition b_args (a : Z) (f : targs → targs) (s : bst) (Φ : unit → bst → Prop) : Prop :=
  on (b_targs s !! a) (λ t, Φ tt (up_targs (<[a := f t]> (b_targs s)) s)).

Definition b_store {A} (v : var A) (s : bst) : A → (unit → bst → Prop) → Prop :=
  match v in var A return A → (unit → bst → Prop) → Prop with
  | VInited | VSemCounter _ => λ _ _, False
  | VNumKthreads => λ x Φ, Φ tt (up_num x s)
  | VKtInited => λ x Φ, Φ tt (up_registered x s)
  | VTcbs _ => λ x Φ, match x with Some p => (p < b_next s)%positive | None => True end ∧ Φ tt s
  | VKiKtid i => λ x Φ, on (b_kinfo s !! i) (λ e, Φ tt (up_kinfo (<[i := (x, e.2)]> (b_kinfo s)) s))
  | VKiTask _ => λ x Φ, x = NONE ∧ Φ tt s
  | VKiLock _ => λ x Φ, x = None ∧ Φ tt s
  | VKiQueue _ => λ x Φ, x = None ∧ Φ tt s
  | VKtTid i => λ x Φ, on (znth (b_tidmap s) i) (λ e,
      on (zupd (b_tidmap s) i (x, e.2)) (λ l, Φ tt (up_tidmap l s)))
  | VKtThread i => λ x Φ, on (znth (b_tidmap s) i) (λ e,
      on (zupd (b_tidmap s) i (e.1, x)) (λ l, Φ tt (up_tidmap l s)))
  | VArgStart a => λ x, b_args a (λ t, Targs x (ta_arg t) (ta_ptid t) (ta_error t)) s
  | VArgArg a => λ x, b_args a (λ t, Targs (ta_start t) x (ta_ptid t) (ta_error t)) s
  | VArgPtid a => λ x, b_args a (λ t, Targs (ta_start t) (ta_arg t) x (ta_error t)) s
  | VArgError a => λ x, b_args a (λ t, Targs (ta_start t) (ta_arg t) (ta_ptid t) x) s
  | _ => λ _ Φ, Φ tt s
  end.

(** Commands that [uthread_init] does not use on its own are not allowed; the thread
    that is being created leaves the semaphores alone until it is done. *)
Definition brule {B} (c : cmd B) (k : Z) (s : bst) : (B → bst → Prop) → Prop :=
  match c in cmd B return (B → bst → Prop) → Prop with
  | Load v => b_load v s
  | Store v x => b_store v s x
  | Crash _ => λ _, True
  | Choose => λ Φ, ∀ b, Φ b s
  | MallocTcb => λ Φ, Φ None s ∧ ∀ p, Φ (Some p) (up_next (Pos.succ p) s)
  | MallocStack _ => λ Φ, ∀ sp, Φ sp s
  | MallocKinfo i => λ Φ, Φ false s ∧ Φ true (up_kinfo (<[i := (0, false)]> (b_kinfo s)) s)
  | AllocArgs => λ Φ, let a := fresh_key (b_targs s) in
      Φ a (up_targs (<[a := Targs KthreadMain 0 (KinfoKtid 0) 0]> (b_targs s)) s)
  | FreeArgs a => λ Φ, Φ tt (up_targs (delete a (b_targs s)) s)
  | QInit q => λ Φ, match q with QSem _ => False | _ => ∀ r, Φ r s end
  | Gettid | PthreadSelf => λ Φ, Φ k s
  | MutexInit u => λ Φ, Φ 0 (up_mutex (<[u := None]> (b_mutex s)) s)
  | MutexLock u => λ Φ,
      match b_mutex s !! u with
      | None => Φ EINVAL s
      | Some (Some _) => True
      | Some None => Φ 0 (up_mutex (<[u := Some k]> (b_mutex s)) s)
      end
  | MutexUnlock u => λ Φ,
      match b_mutex s !! u with
      | None => Φ EINVAL s
      | Some (Some k') => k' = k → Φ 0 (up_mutex (<[u := None]> (b_mutex s)) s)
      | Some None => True
      end
  | SemInit u v => λ Φ, k = MAIN_KTID ∧ (u = KInited → v = 0) ∧
      if decide (0 ≤ v ≤ SEM_VALUE_MAX) then Φ 0 (up_ksem (<[u := v]> (b_ksem s)) s) else Φ (-1) s
  | SemWait u => λ Φ, k = MAIN_KTID ∧ u ≠ KInited ∧
      match b_ksem s !! u with
      | None => Φ (-1) s
      | Some v => 0 < v → Φ 0 (up_ksem (<[u := v - 1]> (b_ksem s)) s)
      end
  | SemDestroy u => λ Φ, k = MAIN_KTID ∧ u ≠ KInited ∧ Φ (-1) s ∧
      Φ 0 (up_ksem (delete u (b_ksem s)) s)
  | Sigmask _ _ => λ Φ, Φ 0 s
  | Getcontext c => λ Φ,
      match c with
      | CtxAbort => Φ 0 s
      | CtxSched i => on (b_kinfo s !! i) (λ e, Φ 0 (up_kinfo (<[i := (e.1, false)]> (b_kinfo s)) s))
      | CtxTcb _ => False
      end
  | Makecontext c f => λ Φ,
      match c with
      | CtxAbort => Φ tt s
      | CtxSched i => f = FSchedule ∧
          on (b_kinfo s !! i) (λ e, Φ tt (up_kinfo (<[i := (e.1, true)]> (b_kinfo s)) s))
      | CtxTcb _ => False
      end
  | _ => λ _, False
  end.

Fixpoint bwp {A} (p : prog A) (Q : A → bst → Prop) (k : Z) (s : bst) : Prop :=
  match p with
  | Ret a => Q a s
  | Vis c kont => brule c k s (λ b, bwp (kont b) Q k)
  end.

Lemma brule_mono {B} (c : cmd B) k s (Φ Ψ : B → bst → Prop) :
  (∀ b s', Φ b s' → Ψ b s') → brule c k s Φ → brule c k s Ψ.
Proof.
  intros H. destruct c; cbn; unfold b_args, on; try naive_solver.
  - destruct v; cbn; unfold on; repeat case_match; naive_solver.
  - destruct v; cbn; unfold b_args, on; repeat case_match; naive_solver.
  - destruct q; naive_solver.
  - repeat case_match; naive_solver.
  - repeat case_match; naive_solver.
  - repeat case_match; naive_solver.
  - repeat case_match; naive_solver.
  - unfold on; repeat case_match; naive_solver.
  - unfold on; repeat case_match; naive_solver.
Qed.

Lemma bwp_mono {A} (p : prog A) (Q Q' : A → bst → Prop) k s :
  (∀ a s', Q a s' → Q' a s') → bwp p Q k s → bwp p Q' k s.
Proof.
  intros H. revert s. induction p as [a|B c kont IH]; intros s; cbn; [apply H|].
  apply brule_mono. intros b s'. apply IH.
Qed.

Lemma bwp_bind {A B} (p : prog A) (f : A → prog B) (Q : B → bst → Prop) k s :
  bwp p (λ a s', bwp (f a) Q k s') k s → bwp (pbind p f) Q k s.
Proof.
  revert s. induction p as [a|C c kont IH]; intros s; cbn; [done|].
  apply brule_mono. intros b s'. apply IH.
Qed.

(** ** The rules are sound *)
Lemma bfacts_threads s m f j : bfacts s m → (∀ t, k_pending (f t) = k_pending t) →
  bfacts s (thr_upd f j m).
Proof.
  intros [] Hf. constructor; cbn; try done; [by rewrite dom_alter_L|].
  intros i t. rewrite lookup_alter. case_decide; subst; [|apply bf_pending0].
  destruct (m_threads m !! i) as [t'|] eqn:Ht; [|done]. intros [= <-]. rewrite Hf. by eapply bf_pending0.
Qed.

(** A block or an entry that changes in what nothing is known of. *)
Lemma bfacts_tcb s m m' p f : bfacts s m → tcb_upd f p m = Ok m' →
  (∀ x, t_joinq (f x) = t_joinq x ∨ t_joinq (f x) = Some []) →
  (∀ x, uc_body (t_ctx (f x)) = uc_body (t_ctx x)) → bfacts s m'.
Proof.
  unfold tcb_upd, of_opt. intros [] He Hj Hb. destruct (m_heap m !! p) as [x|] eqn:Hx; [|done].
  injection He as <-. constructor; cbn; try done. intros q y. rewrite lookup_insert. case_decide.
  - intros [= <-]. subst. destruct (bf_heap0 _ _ Hx) as (? & ? & ?). destruct (Hj x) as [-> | ->];
      by rewrite Hb.
  - apply bf_heap0.
Qed.

Lemma bfacts_kinfo s m m' i f : bfacts s m → kinfo_upd f i m = Ok m' →
  (∀ x, ki_task x = NONE ∧ ki_lock x = None ∧ ki_queue x = None →
        ki_task (f x) = NONE ∧ ki_lock (f x) = None ∧ ki_queue (f x) = None) →
  ∃ x, b_kinfo s !! i = Some (desc x) ∧ bfacts (up_kinfo (<[i := desc (f x)]> (b_kinfo s)) s) m'.
Proof.
  unfold kinfo_upd, of_opt. intros [] He Hf. destruct (m_kinfo m !! i) as [x|] eqn:Hx; [|done].
  injection He as <-. exists x. rewrite <- bf_kinfo0, lookup_fmap, Hx. split; [done|].
  constructor; cbn; try done; [by rewrite fmap_insert, ?bf_kinfo0|].
  intros j y. rewrite lookup_insert. case_decide; [|apply bf_tasks0].
  intros [= <-]. by eapply Hf, bf_tasks0.
Qed.

Lemma bfacts_kinfo_same s m m' i f : bfacts s m → kinfo_upd f i m = Ok m' →
  (∀ x, ki_task x = NONE ∧ ki_lock x = None ∧ ki_queue x = None →
        ki_task (f x) = NONE ∧ ki_lock (f x) = None ∧ ki_queue (f x) = None) →
  (∀ x, desc (f x) = desc x) → bfacts s m'.
Proof.
  intros Hf He Ht Hd. destruct (bfacts_kinfo s m m' i f Hf He Ht) as (x & Hx & Hs).
  rewrite Hd, insert_id in Hs by done. by destruct s.
Qed.

Lemma bfacts_ctx s m m' c f : bfacts s m → ctx_upd f c m = Ok m' →
  (∀ u, uc_body (f u) = uc_body u) → bfacts s m'.
Proof.
  intros Hf He Hb. destruct c as [i|p|]; cbn in He.
  - eapply bfacts_kinfo_same; [done..| |]; [by intros x|]. intros x. unfold desc. cbn. by rewrite Hb.
  - eapply bfacts_tcb; [done..| |]; [by left|]. intros x. cbn. apply Hb.
  - injection He as <-. destruct Hf. by constructor.
Qed.

Lemma bfacts_targs s m m' a f (Φ : unit → bst → Prop) : bfacts s m → targs_upd f a m = Ok m' →
  b_args a f s Φ → ∃ s', bfacts s' m' ∧ Φ tt s'.
Proof.
  unfold targs_upd, of_opt, b_args. intros Hf He Hr. rewrite <- (bf_targs _ _ Hf) in Hr.
  destruct (m_targs m !! a); [|done]. injection He as <-. eexists. split; [|exact Hr].
  destruct Hf. by constructor.
Qed.

Lemma b_load_sound {A} (v : var A) k s m x Φ : bfacts s m → load v k m = Ok x → b_load v s Φ → Φ x s.
Proof.
  intros Hf Hl Hr.
  assert (Ha : ∀ X (f : targs → X) a y, targs_get f a m = Ok y → ∃ t, b_targs s !! a = Some t ∧ f t = y).
  { unfold targs_get, of_opt. intros X f a y. rewrite (bf_targs _ _ Hf).
    destruct (b_targs s !! a); [|done]. intros [= <-]. eauto. }
  destruct v; cbn in Hl, Hr; try apply Hr; try (apply Ha in Hl as (t & Ht & <-); by rewrite Ht in Hr).
  - injection Hl as <-. by rewrite (bf_inited _ _ Hf).
  - injection Hl as <-. by rewrite (bf_num _ _ Hf).
  - injection Hl as <-. by rewrite (bf_registered _ _ Hf).
  - rewrite (bf_tidmap _ _ Hf) in Hl. destruct (znth (b_tidmap s) i); [|done]. by injection Hl as <-.
Qed.

Lemma b_store_sound {A} (v : var A) x k s m m' Φ : bfacts s m → store v x k m = Ok m' →
  b_store v s x Φ → ∃ s', bfacts s' m' ∧ Φ tt s'.
Proof.
  intros Hf Hl Hr. destruct v; cbn [store] in Hl; cbn in Hr; try done;
    try (eexists; split; [|exact Hr]; injection Hl as <-; destruct Hf; by constructor);
    try (exists s; split; [|apply Hr]); try (injection Hl as <-; destruct Hf; by constructor);
    try (by eapply bfacts_targs).
  - destruct Hr as [Hx _]. unfold of_opt in Hl. cbn in Hl. destruct (zupd _ _ _) as [l|] eqn:Hu; [|done].
    injection Hl as <-. destruct Hf. constructor; try done. cbn. intros t p Hp.
    destruct (zupd_lookup _ _ _ _ _ _ Hu Hp) as [[_ <-]|Hp']; [|by eapply bf_tcbs0]. cbn in Hx. lia.
  - eapply bfacts_tcb; [done..|by left|done].
  - eapply bfacts_tcb; [done..|by left|done].
  - eapply bfacts_tcb; [done..|by left|done].
  - eapply bfacts_tcb; [done..|by left|done].
  - by eapply bfacts_ctx.
  - by eapply bfacts_ctx.
  - by eapply bfacts_ctx.
  - destruct (bfacts_kinfo s m m' i (set_ki_ktid x) Hf Hl) as (y & Hy & Hs); [done|].
    rewrite Hy in Hr. eauto.
  - by eapply bfacts_kinfo_same.
  - destruct Hr as [-> _]. eapply bfacts_kinfo_same; [done..| |done]. naive_solver.
  - destruct Hr as [-> _]. eapply bfacts_kinfo_same; [done..| |done]. naive_solver.
  - destruct Hr as [-> _]. eapply bfacts_kinfo_same; [done..| |done]. naive_solver.
  - by eapply bfacts_kinfo_same.
  - by eapply bfacts_kinfo_same.
  - rewrite <- (bf_tidmap _ _ Hf) in Hr. unfold of_opt in Hl. destruct (znth _ _) as [e|]; [|done].
    cbn in Hl, Hr. destruct (zupd _ _ _) as [l|]; [|done]. injection Hl as <-. eexists. split; [|exact Hr].
    destruct Hf. by constructor.
  - rewrite <- (bf_tidmap _ _ Hf) in Hr. unfold of_opt in Hl. destruct (znth _ _) as [e|]; [|done].
    cbn in Hl, Hr. destruct (zupd _ _ _) as [l|]; [|done]. injection Hl as <-. eexists. split; [|exact Hr].
    destruct Hf. by constructor.
  - injection Hl as <-. by apply bfacts_threads.
Qed.

Lemma bfacts_error {B} s m k e (b b' : B) m' : bfacts s m → sem_error e k m b = XOk b' m' →
  b' = b ∧ bfacts s m'.
Proof. intros Hf [= <- <-]. split; [done|]. by apply bfacts_threads. Qed.

Lemma b_exec_sound {B} (c : cmd B) k ok s m b m' Φ : bfacts s m → is_control c = false →
  exec c k ok m = XOk b m' → brule c k s Φ → ∃ s', bfacts s' m' ∧ Φ b s'.
Proof.
  intros Hf Hc He Hr. destruct c; try discriminate Hc; cbn [brule] in Hr; try done; cbn [exec] in He.
  - destruct (load v k m) eqn:Hl; [|done]. injection He as <- <-. exists s. split; [done|].
    by eapply b_load_sound.
  - unfold x_set in He. destruct (store v x k m) eqn:Hl; [|done]. injection He as <- <-.
    by eapply b_store_sound.
  - injection He as <- <-. eauto.
  - destruct Hr as [H0 H1]. destruct ok; injection He as <- <-; [|eauto]. eexists. split; [|apply H1].
    destruct Hf. constructor; cbn; try done.
    + intros t p Hp. specialize (bf_tcbs0 t p Hp). lia.
    + intros p x. rewrite lookup_insert. case_decide; [|intros Hx; specialize (bf_heap0 p x Hx); naive_solver lia].
      intros [= <-]. cbn. split_and!; [lia|done|done].
  - exists s. split; [|apply Hr]. destruct ok; injection He as <- <-; [|done]. destruct Hf.
    constructor; cbn; try done; [lia| |].
    + intros t p Hp. specialize (bf_tcbs0 t p Hp). lia.
    + intros p x Hx. specialize (bf_heap0 p x Hx). naive_solver lia.
  - destruct Hr as [H0 H1]. destruct ok; injection He as <- <-; [|eauto]. eexists. split; [|apply H1].
    destruct Hf. constructor; cbn; try done; [by rewrite fmap_insert, bf_kinfo0|].
    intros j x. rewrite lookup_insert. case_decide; [by intros [= <-]|apply bf_tasks0].
  - injection He as <- <-. rewrite (bf_targs _ _ Hf). eexists. split; [|exact Hr].
    destruct Hf. constructor; cbn; try done; congruence.
  - injection He as <- <-. eexists. split; [|exact Hr]. destruct Hf. constructor; cbn; try done; congruence.
  - destruct (queue_set _ _ _) as [m1|] eqn:Hq; [|done]. injection He as <- <-.
    exists s. destruct q as [|p|a]; [..|done]; (split; [|apply Hr]); cbn in Hq.
    + injection Hq as <-. destruct Hf. by constructor.
    + eapply bfacts_tcb; [done..|by right|done].
  - injection He as <- <-. eauto.
  - injection He as <- <-. eauto.
  - injection He as <- <-. eexists. split; [|exact Hr]. destruct Hf. constructor; cbn; try done; congruence.
  - rewrite <- (bf_mutex _ _ Hf) in Hr. destruct (m_mutex m !! _) as [[k'|]|]; [done|..]; injection He as <- <-; [|eauto].
    eexists. split; [|exact Hr]. destruct Hf. by constructor.
  - rewrite <- (bf_mutex _ _ Hf) in Hr. destruct (m_mutex m !! _) as [[k'|]|]; [|done|injection He as <- <-; eauto].
    case_decide; [|done]. injection He as <- <-. eexists. split; [|by apply Hr]. destruct Hf. by constructor.
  - destruct Hr as (_ & _ & Hr). case_decide.
    + injection He as <- <-. eexists. split; [|exact Hr]. destruct Hf. constructor; cbn; try done; congruence.
    + destruct (bfacts_error _ _ _ _ _ _ _ Hf He) as [-> Hf']. eauto.
  - destruct Hr as (_ & _ & Hr). rewrite <- (bf_ksem _ _ Hf) in Hr. destruct (m_ksem m !! _) as [v|].
    + case_decide; [|done]. injection He as <- <-. eexists. split; [|by apply Hr]. destruct Hf. by constructor.
    + destruct (bfacts_error _ _ _ _ _ _ _ Hf He) as [-> Hf']. eauto.
  - destruct Hr as (_ & _ & H1 & H0). destruct (m_ksem m !! _) as [v|].
    + injection He as <- <-. eexists. split; [|exact H0]. destruct Hf. constructor; cbn; try done; congruence.
    + destruct (bfacts_error _ _ _ _ _ _ _ Hf He) as [-> Hf']. eauto.
  - injection He as <- <-. exists s. split; [|done]. destruct set; [|done]. by apply bfacts_threads.
  - unfold x_set in He. destruct (ctx_upd _ _ _) as [m1|] eqn:Hu; [|done]. injection He as <- <-.
    destruct c as [i|p|]; [..|done|]; cbn in Hu.
    + destruct Hr as [-> Hr]. destruct (bfacts_kinfo _ _ _ _ _ Hf Hu) as (x & Hx & Hs); [done|].
      rewrite Hx in Hr. eexists. split; [exact Hs|exact Hr].
    + injection Hu as <-. exists s. split; [|done]. destruct Hf. by constructor.
Qed.

Lemma b_getcontext_sound c p k s m m' Φ : bfacts s m → save_ctx p c k m = Ok m' →
  brule (Getcontext c) k s Φ → ∃ s', bfacts s' m' ∧ Φ 0 s'.
Proof.
  unfold save_ctx. intros Hf Hu Hr. cbn in Hr. destruct c as [i|q|]; cbn in Hu; [..|done|].
  - destruct (bfacts_kinfo _ _ _ _ _ Hf Hu) as (x & Hx & Hs); [done|].
    rewrite Hx in Hr. eexists. split; [exact Hs|exact Hr].
  - injection Hu as <-. exists s. split; [|done]. destruct Hf. by constructor.
Qed.

(** A thread that runs alone neither creates nor wakes another one. *)
Record ble (k : Z) (s s' : bst) : Prop := {
  bl_dom : b_dom s' = b_dom s;
  bl_ksem : k ≠ MAIN_KTID → b_ksem s' = b_ksem s;
  bl_inited : b_ksem s !! KInited = Some 0 → b_ksem s' !! KInited = Some 0;
}.

Lemma ble_same k s s' : b_dom s' = b_dom s → b_ksem s' = b_ksem s → ble k s s'.
Proof. intros Hd Hk. constructor; [done|done|by rewrite Hk]. Qed.

Lemma ble_sem k s x : k = MAIN_KTID → (b_ksem s !! KInited = Some 0 → x !! KInited = Some 0) →
  ble k s (up_ksem x s).
Proof. by constructor. Qed.

Lemma brule_le {B} (c : cmd B) k s Φ : brule c k s Φ → brule c k s (λ b s', Φ b s' ∧ ble k s s').
Proof.
  assert (Hs : ∀ s', b_dom s' = b_dom s → b_ksem s' = b_ksem s → ble k s s') by (intros; by apply ble_same).
  destruct c; cbn; try done; try naive_solver.
  - destruct v; cbn; unfold on; try naive_solver; case_match; naive_solver.
  - destruct v; cbn; unfold b_args, on; repeat case_match; naive_solver.
  - destruct q; naive_solver.
  - repeat case_match; naive_solver.
  - repeat case_match; naive_solver.
  - intros (-> & Hi & H). split_and!; [done..|]. case_decide; (split; [done|]); [|by apply Hs].
    apply ble_sem; [done|]. rewrite lookup_insert. case_decide; [subst; by rewrite Hi|done].
  - intros (-> & Hi & H). split_and!; [done..|]. case_match; [|naive_solver]. intros Hz.
    split; [by apply H|]. apply ble_sem; [done|]. by rewrite lookup_insert_ne.
  - intros (-> & Hi & H1 & H0). split_and!; [done..|by apply Hs|done|].
    apply ble_sem; [done|]. by rewrite lookup_delete_ne.
  - unfold on; repeat case_match; naive_solver.
  - unfold on; repeat case_match; naive_solver.
Qed.

(** ** What the main kernel thread, and the one it creates, have left to do *)

(** Nothing is in the way of the theorems of Interleave. *)
Record init_done (s : bst) : Prop := {
  id_locks : ∀ u, lib_lock u = true → b_mutex s !! u = Some None;
  id_ready : b_ksem s !! KNotEmpty = Some 0;
  id_kinfo : ∀ i e, b_kinfo s !! i = Some e → e.2 = true;
  id_ktids : ∀ i j e e', b_kinfo s !! i = Some e → b_kinfo s !! j = Some e' → e.1 = e'.1 → i = j;
}.

Section phases.
Context (cl : client) (cf : bool).
Context (F : bst → Prop).  (* what is known when [inited] becomes 1 *)
Abbreviation text := (Client.text cl).

(** Kernel thread [c] runs [p], up to the [sem_post] that wakes its creator. *)
Inductive cnext (c a : Z) (R : bst → Prop) : prog unit → bst → Prop :=
| cn_seg {A} (p : prog A) (Q : A → bst → Prop) K s :
    bwp p Q c s → (∀ r s', Q r s' → cnext c a R (K r) s') → cnext c a R (pbind p K) s
| cn_call (f : fn unit) K s :
    cnext c a R (pbind (text _ f) K) s → cnext c a R (Vis (Call f) K) s
| cn_post K s : b_ksem s !! KArgs a = Some 0 → (∀ r, asleep (K r)) →
    R (up_ksem (<[KArgs a := 1]> (b_ksem s)) s) → cnext c a R (Vis (SemPost (KArgs a)) K) s.

(** The main kernel thread waits for [KArgs a]. *)
Definition waits_for (a : Z) (p : prog unit) : Prop := ∃ K, p = Vis (SemWait (KArgs a)) K.

(** The main kernel thread runs [p], up to [inited = 1]. *)
Inductive mnext : prog unit → bst → Prop :=
| mn_final K s : F s → init_done s → initial_prog cf (K tt) → mnext (Vis (Store VInited 1) K) s
| mn_seg {A} (p : prog A) (Q : A → bst → Prop) K s :
    bwp p Q MAIN_KTID s → (∀ r s', Q r s' → mnext (K r) s') → mnext (pbind p K) s
| mn_create (f : fn unit) K a (R : bst → Prop) s :
    waits_for a (K 0) → b_ksem s !! KInited = Some 0 → b_ksem s !! KArgs a = Some 0 →
    (∀ r, r ≠ 0 → mnext (K r) s) →
    (∀ c, c ∉ b_dom s → 0 < c → cnext c a R (Vis (Call f) Ret) (up_dom ({[c]} ∪ b_dom s) s)) →
    (∀ s', R s' → mnext (K 0) s') →
    mnext (Vis (PthreadCreate f) K) s.

Lemma mn_run {A} (p : prog A) K s : bwp p (λ r s', mnext (K r) s') MAIN_KTID s → mnext (pbind p K) s.
Proof. intros H. by eapply mn_seg; [exact H|]. Qed.

Lemma cn_run {A} c a R (p : prog A) K s :
  bwp p (λ r s', cnext c a R (K r) s') c s → cnext c a R (pbind p K) s.
Proof. intros H. by eapply cn_seg; [exact H|]. Qed.

(** ** Machines in this phase *)

(** The kernel threads but those of [X] have ended or are asleep. *)
Definition others_asleep (X : gset Z) (m : machine) : Prop :=
  ∀ j p, progs m !! j = Some (p, false) → j ∉ X → asleep p.

Definition runs (m : machine) (k : Z) (p : prog unit) : Prop := progs m !! k = Some (p, false).

Definition quiet (s : bst) : Prop := b_ksem s !! KInited = Some 0 ∨ b_dom s = {[MAIN_KTID]}.

Inductive booting (m : machine) : Prop :=
| boot_main s p : bfacts s m → quiet s → runs m MAIN_KTID p → mnext p s →
    others_asleep {[MAIN_KTID]} m → booting m
| boot_child s c a R p q : bfacts s m → b_ksem s !! KInited = Some 0 → c ≠ MAIN_KTID →
    b_ksem s !! KArgs a = Some 0 → runs m c p → cnext c a R p s →
    runs m MAIN_KTID q → waits_for a q → (∀ s', R s' → mnext q s') →
    others_asleep {[MAIN_KTID; c]} m → booting m.

Lemma booting_inited m : booting m → m_inited m = 0.
Proof. by intros [s ? Hf|s ? ? ? ? ? Hf]; destruct Hf. Qed.

(** *** Changes of one thread *)
Lemma progs_upd f k m j : progs (thr_upd f k m) !! j =
  if decide (k = j) then (λ t, (k_prog t, k_done t)) <$> (f <$> m_threads m !! j) else progs m !! j.
Proof.
  unfold progs, thr_upd. cbn. rewrite !lookup_fmap, lookup_alter. case_decide; [subst; by destruct (m_threads m !! _)|done].
Qed.

(** A thread of [X] goes on. *)
Lemma others_run X f k m m1 : others_asleep X m → progs m1 = progs m → k ∈ X →
  others_asleep X (thr_upd f k m1).
Proof.
  intros Ho Hm Hk j p Hj Hx. rewrite progs_upd, Hm in Hj. case_decide; [by subst|by eapply Ho].
Qed.

Lemma runs_run m m1 k p q : runs m k p → progs m1 = progs m → runs (thr_upd (set_k_prog q) k m1) k q.
Proof.
  unfold runs. intros Hr Hm. rewrite progs_upd, decide_True by done. rewrite <- Hm in Hr. revert Hr.
  unfold progs. rewrite lookup_fmap. destruct (m_threads m1 !! k); [|done]. cbn. congruence.
Qed.

Lemma runs_other m m1 k p j f : runs m k p → progs m1 = progs m → j ≠ k → runs (thr_upd f j m1) k p.
Proof. unfold runs. intros Hr Hm Hj. rewrite progs_upd, decide_False by done. by rewrite Hm. Qed.

(** *** Steps *)

(** The machine has the table of [s], for which [F] holds. *)
Definition finished (m : machine) : Prop := ∃ s, F s ∧
  m_num_kthreads m = b_num s ∧ desc <$> m_kinfo m = b_kinfo s ∧ dom (m_threads m) = b_dom s.

Lemma step_thread_runs j ok m m' : step_thread text j ok m = Next m' → ∃ p, runs m j p.
Proof.
  unfold step_thread, runs, progs. rewrite lookup_fmap. destruct (m_threads m !! j) as [t|]; [|done].
  destruct (k_done t) eqn:Hd; [done|]. intros _. exists (k_prog t). cbn. by rewrite Hd.
Qed.

Lemma runs_inv m k p : runs m k p → ∃ t, m_threads m !! k = Some t ∧ k_done t = false ∧ k_prog t = p.
Proof.
  unfold runs, progs. rewrite lookup_fmap. destruct (m_threads m !! k) as [t|]; [|done].
  cbn. intros [= <- Hd]. by exists t.
Qed.

Lemma step_thread_vis {B} (c : cmd B) kont k ok m :
  runs m k (Vis c kont) → step_thread text k ok m = step_cmd text c kont k ok m.
Proof. intros (t & Ht & Hd & Hp)%runs_inv. unfold step_thread. by rewrite Ht, Hd, Hp. Qed.

Lemma step_exec {B} (c : cmd B) kont k ok m m' : is_control c = false →
  step_cmd text c kont k ok m = Next m' →
  ∃ b m1, exec c k ok m = XOk b m1 ∧ m' = thr_upd (set_k_prog (kont b)) k m1.
Proof.
  intros Hc Hst. destruct c; try discriminate Hc; cbn [step_cmd] in Hst;
    (destruct (exec _ k ok m) as [b m1| |] eqn:He; [|done..]); injection Hst as <-; eauto.
Qed.

(** A command the rules allow. *)
Lemma seg_step {A B} (c : cmd B) (kont : B → prog A) Q k (K : A → prog unit) s ok m m' :
  bfacts s m → runs m k (pbind (Vis c kont) K) → bwp (Vis c kont) Q k s →
  step_thread text k ok m = Next m' →
  ∃ b s' m1, bfacts s' m' ∧ ble k s s' ∧ bwp (kont b) Q k s' ∧ progs m1 = progs m ∧
    m' = thr_upd (set_k_prog (pbind (kont b) K)) k m1.
Proof.
  intros Hf Hr Hw Hst. rewrite (step_thread_vis c _ _ _ _ Hr) in Hst. cbn in Hw. apply brule_le in Hw.
  destruct (is_control c) eqn:Hc.
  - destruct c; try discriminate Hc; try done. cbn [step_cmd] in Hst.
    destruct (save_ctx _ _ _ _) as [m1|] eqn:Hs; [|done]. injection Hst as <-.
    destruct (b_getcontext_sound _ _ _ _ _ _ _ Hf Hs Hw) as (s' & Hf' & Hq & Hle).
    exists 0, s', m1. split_and!; [by apply bfacts_threads|done|done| |done].
    apply progs_same. by eapply ctx_upd_threads.
  - destruct (step_exec c _ k ok m m' Hc Hst) as (b & m1 & He & ->).
    destruct (b_exec_sound c k ok s m b m1 _ Hf Hc He Hw) as (s' & Hf' & Hq & Hle).
    exists b, s', m1. split_and!; [by apply bfacts_threads|done|done| |done].
    eapply exec_progs; [done|]. destruct c; try done; discriminate Hc.
Qed.

Lemma quiet_le k s s' : ble k s s' → quiet s → quiet s'.
Proof. intros [Hd _ Hi] [H|H]; [left; by apply Hi|right; by rewrite Hd]. Qed.

(** A thread that sleeps waits for [inited_sem], or ends. *)
Lemma sleeper_step s j ok p m m' : bfacts s m → b_ksem s !! KInited = Some 0 → runs m j p → asleep p →
  step_thread text j ok m = Next m' →
  bfacts s m' ∧ (∀ k, k ≠ j → progs m' !! k = progs m !! k) ∧ ∀ X, others_asleep X m → others_asleep X m'.
Proof.
  intros Hf Hi Hr Hp Hst.
  assert (H : ∀ f, m' = thr_upd f j m → (∀ t, k_pending (f t) = k_pending t) →
    (∀ t, k_done t = false → k_done (f t) = true ∨ asleep (k_prog (f t))) →
    bfacts s m' ∧ (∀ k, k ≠ j → progs m' !! k = progs m !! k) ∧ ∀ X, others_asleep X m → others_asleep X m').
  { intros f -> Hpe Hd. split; [by apply bfacts_threads|split].
    - intros k Hk. rewrite progs_upd. by rewrite decide_False.
    - intros X Ho i q Hq Hx. rewrite progs_upd in Hq. case_decide; [|by eapply Ho]. subst.
      apply runs_inv in Hr as (t & Ht & Htd & _). rewrite Ht in Hq. cbn in Hq. injection Hq as <- Hft.
      destruct (Hd t Htd); [congruence|done]. }
  destruct Hp as [a f|a f|].
  - rewrite (step_thread_vis (SemWait KInited) _ _ _ _ Hr) in Hst. cbn [step_cmd exec] in Hst.
    rewrite (bf_ksem _ _ Hf), Hi, decide_False in Hst by lia. done.
  - rewrite (step_thread_vis _ _ _ _ _ Hr) in Hst. cbn [step_cmd] in Hst. injection Hst as <-.
    eapply H; [done|done|]. intros t _. right. exact (asleep_main a f).
  - apply runs_inv in Hr as (t & Ht & Hd & Hp). unfold step_thread in Hst. rewrite Ht, Hd, Hp in Hst.
    injection Hst as <-. eapply H; [done|done|]. by left.
Qed.
(** The main kernel thread stores 1 in [inited]. *)
Lemma init_done_started s m p q : bfacts s m → init_done s → runs m MAIN_KTID p →
  initial_prog cf q →
  others_asleep {[MAIN_KTID]} m → started cf (thr_upd (set_k_prog q) MAIN_KTID (set_inited 1 m)).
Proof.
  intros Hf [Hl Hn He Hd] Hr Hq Ho. pose proof Hf as [].
  assert (Hk : ∀ i x, m_kinfo m !! i = Some x → b_kinfo s !! i = Some (desc x)).
  { intros i x Hx. by rewrite <- bf_kinfo0, lookup_fmap, Hx. }
  constructor; cbn.
  - intros u Hu. rewrite bf_mutex0. by apply Hl.
  - exists []. by rewrite bf_rqueue0, bf_ksem0, Hn.
  - intros i j x y Hx Hy. apply (Hd i j (desc x) (desc y)); by apply Hk.
  - intros i x Hx. destruct (bf_tasks0 i x Hx) as (? & ? & ?). split_and!; try done.
    apply desc_entry. by eapply He, Hk.
  - done.
  - intros a [(l & Hl' & Ha)|[(p' & x & l & Hx & Hl' & Ha)|(b & y & l & Hy & _)]]; cbn in *.
    + rewrite bf_rqueue0 in Hl'. injection Hl' as <-. by apply elem_of_nil in Ha.
    + destruct (bf_heap0 _ _ Hx) as (_ & Hj & _). rewrite Hj in Hl'. injection Hl' as <-. by apply elem_of_nil in Ha.
    + by rewrite bf_usem0 in Hy.
  - intros a x Hx. destruct (bf_heap0 a x Hx) as (? & _ & Hb). split; [done|by left].
  - intros k t Ht Hkd. assert (Hp : progs (thr_upd (set_k_prog q) MAIN_KTID m) !! k = Some (k_prog t, false)).
    { unfold progs, thr_upd. cbn. by rewrite lookup_fmap, Ht, <- Hkd. }
    rewrite progs_upd in Hp. case_decide.
    + subst. apply runs_inv in Hr as (t0 & Ht0 & _ & _). rewrite Ht0 in Hp. cbn in Hp. injection Hp as <- _. done.
    + apply initial_asleep, (Ho k); [done|set_solver].
Qed.

Lemma child_key m : m_threads m !! MAIN_KTID ≠ None →
  fresh_key (m_threads m) ∉ dom (m_threads m) ∧ MAIN_KTID < fresh_key (m_threads m).
Proof.
  intros Hm. split; [apply not_elem_of_dom, fresh_key_None|].
  destruct (m_threads m !! MAIN_KTID) eqn:H; [|done]. by eapply fresh_key_bound.
Qed.

(** [pthread_create] succeeds. *)
Lemma create_step s m (f : fn unit) K a R ok m' : bfacts s m → runs m MAIN_KTID (Vis (PthreadCreate f) K) →
  waits_for a (K 0) → b_ksem s !! KInited = Some 0 → b_ksem s !! KArgs a = Some 0 →
  (∀ c, c ∉ b_dom s → 0 < c → cnext c a R (Vis (Call f) Ret) (up_dom ({[c]} ∪ b_dom s) s)) →
  (∀ r, r ≠ 0 → mnext (K r) s) → (∀ s', R s' → mnext (K 0) s') → others_asleep {[MAIN_KTID]} m →
  step_thread text MAIN_KTID ok m = Next m' → booting m'.
Proof.
  intros Hf Hr Hw Hi Ha Hc HK HR Ho Hst. rewrite (step_thread_vis _ _ _ _ _ Hr) in Hst.
  cbn [step_cmd exec] in Hst. destruct ok; injection Hst as <-; last first.
  { apply (boot_main _ s (K EAGAIN)); [by apply bfacts_threads|by left|by eapply runs_run|by apply HK|].
    eapply others_run; [done|done|set_solver]. }
  pose proof Hr as (t & Ht & Hd & _)%runs_inv. destruct (child_key m) as [Hk Hgt]; [by rewrite Ht|].
  set (c := fresh_key (m_threads m)) in *. rewrite (bf_dom _ _ Hf) in Hk.
  set (th := Kthr _ _ _ _ _). set (m1 := set_threads (<[c := th]> (m_threads m)) m).
  assert (Hf1 : bfacts (up_dom ({[c]} ∪ b_dom s) s) m1).
  { destruct Hf. constructor; try done; cbn.
    - by rewrite dom_insert_L, bf_dom0.
    - intros j t'. rewrite lookup_insert. case_decide; [by intros [= <-]|apply bf_pending0]. }
  assert (Hp1 : ∀ j, progs m1 !! j = if decide (c = j) then Some (Vis (Call f) Ret, false) else progs m !! j).
  { intros j. unfold progs, m1. cbn. rewrite !lookup_fmap, lookup_insert. by case_decide. }
  assert (Hne : c ≠ MAIN_KTID) by lia.
  apply (boot_child _ (up_dom ({[c]} ∪ b_dom s) s) c a R (Vis (Call f) Ret) (K 0)); try done.
  - by apply bfacts_threads.
  - unfold runs. rewrite progs_upd, decide_False by congruence. by rewrite Hp1, decide_True.
  - apply Hc; [done|]. unfold MAIN_KTID in Hgt. lia.
  - eapply (runs_run m1 m1); [|done]. unfold runs. rewrite Hp1, decide_False by done. exact Hr.
  - eapply (others_run {[MAIN_KTID; c]} _ _ m1); [|done|set_solver]. intros j p Hj Hx.
    rewrite Hp1, decide_False in Hj by set_solver. apply (Ho j); [done|set_solver].
Qed.

Lemma main_step s m p ok m' : mnext p s → bfacts s m → quiet s → runs m MAIN_KTID p →
  others_asleep {[MAIN_KTID]} m → step_thread text MAIN_KTID ok m = Next m' → booting m' ∨ started cf m' ∧ finished m'.
Proof.
  intros Hn. revert m. induction Hn as [K s HF Hd Hp|A p Q K s Hw HK IH|f K a R s Hw Hi Ha HK IH Hc HR IH'];
    intros m Hf Hq Hr Ho Hst.
  - right. rewrite (step_thread_vis _ _ _ _ _ Hr) in Hst. injection Hst as <-.
    split; [by eapply init_done_started|]. destruct Hf. exists s. split_and!; try done.
    cbn. by rewrite dom_alter_L.
  - destruct p as [r|B c kont]; [by eapply IH|]. left.
    destruct (seg_step _ _ _ _ _ _ _ _ _ Hf Hr Hw Hst) as (b & s' & m1 & Hf' & Hle & Hw' & Hm & ->).
    apply (boot_main _ s' (pbind (kont b) K)); [done|by eapply quiet_le|by eapply runs_run|by eapply mn_seg|].
    eapply others_run; [done|done|set_solver].
  - left. by eapply create_step.
Qed.

Lemma child_step s c a R p q m ok m' : cnext c a R p s → bfacts s m → b_ksem s !! KInited = Some 0 →
  c ≠ MAIN_KTID → b_ksem s !! KArgs a = Some 0 → runs m c p → runs m MAIN_KTID q → waits_for a q →
  (∀ s', R s' → mnext q s') → others_asleep {[MAIN_KTID; c]} m →
  step_thread text c ok m = Next m' → booting m'.
Proof.
  intros Hn. revert m. induction Hn as [A p Q K s Hw HK IH|f K s Hn IH|K s Ha' HK HR];
    intros m Hf Hi Hc Ha Hr Hq Hwa HRq Ho Hst.
  - destruct p as [r|B cm kont]; [by eapply IH|].
    destruct (seg_step _ _ _ _ _ _ _ _ _ Hf Hr Hw Hst) as (b & s' & m1 & Hf' & [_ Hk _] & Hw' & Hm & ->).
    specialize (Hk Hc). apply (boot_child _ s' c a R (pbind (kont b) K) q); try done.
    + by rewrite Hk.
    + by rewrite Hk.
    + by eapply runs_run.
    + by eapply cn_seg.
    + by eapply runs_other.
    + eapply others_run; [done|done|set_solver].
  - rewrite (step_thread_vis _ _ _ _ _ Hr) in Hst. injection Hst as <-.
    apply (boot_child _ s c a R (pbind (text _ f) K) q); try done.
    + by apply bfacts_threads.
    + by eapply runs_run.
    + by eapply runs_other.
    + eapply others_run; [done|done|set_solver].
  - rewrite (step_thread_vis _ _ _ _ _ Hr) in Hst. cbn [step_cmd exec] in Hst.
    rewrite (bf_ksem _ _ Hf), Ha, decide_True in Hst by done. injection Hst as <-.
    set (m1 := set_ksem _ m). assert (Hm1 : progs m1 = progs m) by done.
    apply (boot_main _ (up_ksem (<[KArgs a := 1]> (b_ksem s)) s) q).
    + apply bfacts_threads; [|done]. destruct Hf. by constructor.
    + left. cbn. by rewrite lookup_insert_ne.
    + by eapply runs_other.
    + by apply HRq.
    + intros j p Hj Hx. rewrite progs_upd in Hj. case_decide; [|apply (Ho j); [done|set_solver]].
      subst j. apply runs_inv in Hr as (t & Ht & _ & _). cbn in Hj. rewrite Ht in Hj. cbn in Hj.
      injection Hj as <- _. apply HK.
Qed.
(** No signal is pending and no timer runs: only kernel threads move. *)
Lemma boot_run s l m m' : bfacts s m → step text l m = Next m' →
  ∃ k ok p, step_thread text k ok m = Next m' ∧ runs m k p.
Proof.
  intros Hf Hst. destruct l as [k ok|t|k]; cbn in Hst.
  - destruct (step_thread_runs _ _ _ _ Hst) as [p Hp]. eauto.
  - unfold step_tick in Hst. by rewrite (bf_timers _ _ Hf) in Hst.
  - unfold step_signal in Hst. destruct (m_threads m !! k) as [t|] eqn:Ht; [|done].
    by rewrite (bf_pending _ _ Hf _ _ Ht) in Hst.
Qed.

Lemma boot_step l m m' : booting m → step text l m = Next m' → booting m' ∨ started cf m' ∧ finished m'.
Proof.
  intros [s p Hf Hq Hr Hn Ho|s c a R p q Hf Hi Hc Ha Hr Hn Hm Hw HR Ho] Hst;
    destruct (boot_run _ _ _ _ Hf Hst) as (k & ok & p' & Hst' & Hr').
  - destruct (decide (k = MAIN_KTID)) as [->|Hk]; [by eapply main_step|]. left.
    assert (Hi : b_ksem s !! KInited = Some 0).
    { destruct Hq as [H|H]; [done|]. exfalso. apply runs_inv in Hr' as (t & Ht & _).
      apply elem_of_dom_2 in Ht. rewrite (bf_dom _ _ Hf), H in Ht. set_solver. }
    assert (Hp : asleep p') by (apply (Ho k); [done|set_solver]).
    destruct (sleeper_step _ _ _ _ _ _ Hf Hi Hr' Hp Hst') as (Hf' & Hs & HX).
    apply (boot_main _ s p); [done..| |done|by apply HX]. unfold runs. by rewrite Hs.
  - left. destruct (decide (k = c)) as [->|Hkc]; [by eapply child_step|].
    destruct (decide (k = MAIN_KTID)) as [->|Hk].
    + exfalso. destruct Hw as [K ->]. rewrite (step_thread_vis _ _ _ _ _ Hm) in Hst'.
      cbn [step_cmd exec] in Hst'. by rewrite (bf_ksem _ _ Hf), Ha, decide_False in Hst' by lia.
    + assert (Hp : asleep p') by (apply (Ho k); [done|set_solver]).
      destruct (sleeper_step _ _ _ _ _ _ Hf Hi Hr' Hp Hst') as (Hf' & Hs & HX).
      apply (boot_child _ s c a R p q); try done; [..|by apply HX]; unfold runs; by rewrite Hs.
Qed.

(** Once [inited] is 1, the machine went through one that is [started]. *)
Lemma booting_steps m m' : booting m → steps text m m' → m_inited m' ≠ 0 →
  ∃ m0, started cf m0 ∧ finished m0 ∧ steps text m m0 ∧ steps text m0 m'.
Proof.
  intros Hb Hst. induction Hst as [m|l m m1 m2 Hl Hst IH]; intros Hi.
  - destruct Hi. by apply booting_inited.
  - destruct (boot_step l m m1 Hb Hl) as [Hb'|[Hs HF]].
    + destruct (IH Hb' Hi) as (m0 & Hs & HF & H1 & H2). exists m0. split; [done|]. split; [done|].
      split; [by eapply steps_step|done].
    + exists m1. split; [done|]. split; [done|]. split; [|done]. eapply steps_step; [done|]. constructor.
Qed.
End phases.
