(* ===== verification/BootProps.v ===== *)
(** * uthread_init, whatever the interleaving

    [uthread_init] with any number of kernel threads follows the rules of Boot, so
    every machine of the program whose [inited] is not 0 comes after one that is
    [started]; the theorems of Interleave hold of the whole program. *)
From stdpp Require Import relations.
From S2P Require Import Prelude Bitvec Machine Kthread Uthread Client Eval UthreadEval Logic LogicSound Locks.
From S2P Require Import Interleave Start Boot.
Local Open Scope prog_scope.
#[local] Arguments or_abort : simpl never.
#[local] Arguments passert : simpl never.

(** ** Steps of a proof *)
Section rules.
Implicit Types (k : Z) (s : bst).

Lemma bwp_do {B} (c : cmd B) (Q : B → bst → Prop) k s : brule c k s Q → bwp (do_ c) Q k s.
Proof. done. Qed.

Lemma bwp_cmd {A B} (c : cmd B) (f : B → prog A) (Q : A → bst → Prop) k s :
  brule c k s (λ b s', bwp (f b) Q k s') → bwp (pbind (do_ c) f) Q k s.
Proof. done. Qed.

Lemma bwp_or_abort p (Q : unit → bst → Prop) k s :
  bwp p (λ r s', r = 0 → Q tt s') k s → bwp (or_abort p) Q k s.
Proof.
  intros H. unfold or_abort. apply bwp_bind. revert H. apply bwp_mono.
  intros r s' Hr. destruct (Z.eqb_spec r 0); [by apply Hr|done].
Qed.

Lemma bwp_passert b (Q : unit → bst → Prop) k s : (b = true → Q tt s) → bwp (passert b) Q k s.
Proof. destruct b; unfold passert; cbn; [by auto|done]. Qed.

Lemma bwp_lift {A} (r : res A) (Q : A → bst → Prop) k s : (∀ a, Q a s) → bwp (lift_res r) Q k s.
Proof. destruct r; cbn; [by auto|done]. Qed.

Lemma bwp_deref {A} (o : option A) (Q : A → bst → Prop) k s : (∀ a, Q a s) → bwp (deref o) Q k s.
Proof. destruct o; cbn; [by auto|done]. Qed.

Lemma bwp_pfor {S} (I : Z → S → bst → Prop) n i (body : Z → S → prog S) t (Q : S → bst → Prop) k s :
  I i t s →
  (∀ j t s, i ≤ j < i + Z.of_nat n → I j t s → bwp (body j t) (λ t' s', I (j + 1) t' s') k s) →
  (∀ t s, I (i + Z.of_nat n) t s → Q t s) → bwp (pfor n i body t) Q k s.
Proof.
  revert i t s. induction n as [|n IH]; intros i t s Hs Hb HQ; cbn.
  - apply HQ. by replace (i + Z.of_nat 0) with i by lia.
  - apply bwp_bind. eapply bwp_mono; [|apply Hb; [lia|done]]. intros t' s' H. cbn beta in H.
    apply (IH _ _ _ H); [intros j t1 s1 Hj; apply Hb; lia|]. intros t1 s1 H1. apply HQ.
    by replace (i + Z.of_nat (Datatypes.S n)) with (i + 1 + Z.of_nat n) by lia.
Qed.

Lemma bwp_pfind {R} (P : Z → option R → Prop) n i (body : Z → prog (option R)) (Q : option R → bst → Prop) k s :
  (∀ j, i ≤ j < i + Z.of_nat n → bwp (body j) (λ o s', s' = s ∧ P j o) k s) →
  (∀ j r, P j (Some r) → Q (Some r) s) →
  ((∀ j, i ≤ j < i + Z.of_nat n → P j None) → Q None s) → bwp (pfind n i body) Q k s.
Proof.
  revert i. induction n as [|n IH]; intros i Hb HS HN; cbn; [apply HN; lia|].
  apply bwp_bind. eapply bwp_mono; [|apply Hb; lia]. intros [r|] s' [-> HP]; [by eapply HS|].
  apply IH; [intros j Hj; apply Hb; lia|done|]. intros HP'. apply HN. intros j Hj.
  destruct (decide (j = i)) as [->|]; [done|apply HP'; lia].
Qed.

Lemma bwp_block (Q : unit → bst → Prop) k s : Q tt s → bwp block_sigrtmin Q k s.
Proof.
  intros H. apply bwp_cmd. intros q. destruct (negb _); [|done].
  apply bwp_cmd. intros x. apply bwp_or_abort, bwp_do. by intros _.
Qed.

(** A state after a lock was taken and released. *)
Lemma up_mutex_id s u o : b_mutex s !! u = Some None →
  up_mutex (<[u := None]> (<[u := o]> (b_mutex s))) s = s.
Proof. intros Hu. rewrite insert_insert_eq, insert_id by done. by destruct s. Qed.

Lemma bwp_get_next_tid (Q : Z → bst → Prop) k s : b_mutex s !! MBitvec = Some None →
  (∀ t, Q t s) → bwp get_next_tid Q k s.
Proof.
  intros Hu HQ. apply bwp_bind, bwp_or_abort, bwp_do. cbn [brule]. rewrite Hu. intros _.
  apply bwp_cmd. intros bv. apply bwp_bind, bwp_lift. intros t. apply bwp_bind.
  assert (Hend : ∀ r, bwp (or_abort (kthread_mutex_unlock MBitvec) ;; Ret r) Q k
    (up_mutex (<[MBitvec := Some k]> (b_mutex s)) s)).
  { intros r. apply bwp_bind, bwp_or_abort, bwp_do. cbn [brule up_mutex b_mutex].
    rewrite lookup_insert_eq. intros _ _. pose proof (up_mutex_id s MBitvec (Some k) Hu) as He.
    unfold up_mutex in He |- *. cbn in He |- *. rewrite He. apply HQ. }
  destruct (t <? 0); [apply Hend|]. apply bwp_bind, bwp_lift. intros bv'. apply bwp_cmd. apply Hend.
Qed.

(** The entries of the table of kthread.c that are in use. *)
Definition weight (e : Z * Z) : nat := if decide (e.1 = 0) then 0 else 1.
Definition used (l : list (Z * Z)) : nat := sum_list_with weight l.

Lemma used_le l : (used l ≤ length l)%nat.
Proof. induction l as [|e l IH]; [done|]. unfold used, weight in *. cbn. case_decide; lia. Qed.

Lemma used_full l : Forall (λ e, e.1 ≠ 0) l → used l = length l.
Proof.
  induction 1 as [|e l He _ IH]; [done|]. cbn. unfold used in *. cbn. rewrite IH. unfold weight.
  by rewrite decide_False.
Qed.

Lemma used_insert l i x y : l !! i = Some x →
  (used (<[i := y]> l) + weight x = used l + weight y)%nat.
Proof.
  intros Hi. rewrite insert_take_drop by (by eapply lookup_lt_Some).
  rewrite <- (take_drop_middle l i x Hi) at 3. unfold used. rewrite !sum_list_with_app. cbn. lia.
Qed.

Lemma used_zupd l l' e x y : znth l e = Some x → zupd l e y = Some l' →
  length l' = length l ∧ (used l' + weight x = used l + weight y)%nat.
Proof.
  unfold znth, zupd. intros Hx Hl. case_decide; [|done]. case_decide; [|done]. injection Hl as <-.
  split; [by rewrite length_insert|]. by apply used_insert.
Qed.

(** [tidmap_find_tid] looks at every entry. *)
Lemma bwp_tidmap_find_tid tid (Q : option Z → bst → Prop) k s :
  (∀ e x, znth (b_tidmap s) e = Some x → x.1 = tid → Q (Some e) s) →
  ((∀ e x, 0 ≤ e < MAX_KTHREADS → znth (b_tidmap s) e = Some x → x.1 ≠ tid) → Q None s) →
  bwp (tidmap_find_tid tid) Q k s.
Proof.
  intros HS HN. apply (bwp_pfind (λ j o, ∃ x, znth (b_tidmap s) j = Some x ∧
    o = if x.1 =? tid then Some j else None)).
  - intros j _. apply bwp_cmd. cbn [brule b_load]. destruct (znth _ _) as [x|]; [|done]. cbn [on bwp].
    split; [done|]. by exists x.
  - intros j r (x & Hx & Hr). destruct (Z.eqb_spec x.1 tid); [|done]. injection Hr as ->. by eapply HS.
  - intros H. apply HN. intros e x He Hx. destruct (H e) as (x' & Hx' & Hn); [done|].
    assert (x' = x) as -> by congruence. by destruct (Z.eqb_spec x.1 tid).
Qed.

(** [tidmap_add_self] takes a free entry and returns the thread's identifier; it fails
    when the table is full. *)
Definition registers (k id : Z) (l l' : list (Z * Z)) : Prop :=
  length l' = length l ∧
  (id = k ∧ used l' = S (used l) ∨
   id < 0 ∧ (length l = Z.to_nat MAX_KTHREADS → used l' = length l)).

Lemma bwp_tidmap_add_self (Q : Z → bst → Prop) k s : k ≠ 0 → b_mutex s !! MKthreads = Some None →
  (∀ id l, registers k id (b_tidmap s) l → Q id (up_tidmap l s)) → bwp tidmap_add_self Q k s.
Proof.
  intros Hk Hu HQ. apply bwp_cmd. cbn [brule]. rewrite Hu.
  set (s1 := up_mutex _ s).
  assert (Hun : ∀ l X, bwp X Q k (up_tidmap l s) → brule (MutexUnlock MKthreads) k (up_tidmap l s1)
    (λ _ s', bwp X Q k s')).
  { intros l X HX. cbn [brule up_tidmap b_mutex s1 up_mutex]. rewrite lookup_insert_eq. intros _.
    unfold up_mutex. cbn. rewrite insert_insert_eq, insert_id by done. exact HX. }
  assert (Hs1 : up_tidmap (b_tidmap s1) s1 = s1) by (by destruct s).
  apply bwp_bind, bwp_tidmap_find_tid.
  - intros e x Hx Hx0. apply bwp_cmd. cbn [brule]. apply bwp_cmd. cbn [brule b_store].
    rewrite Hx. cbn [on].
    destruct (zupd (b_tidmap s1) e (k, x.2)) as [l|] eqn:Hl; [|done]. cbn [on].
    apply bwp_cmd. cbn [brule]. apply bwp_cmd. cbn [brule b_store b_tidmap up_tidmap].
    destruct (znth l e) as [y|] eqn:Hy; [|done]. cbn [on].
    destruct (zupd l e (y.1, k)) as [l'|] eqn:Hl'; [|done]. cbn [on].
    apply bwp_cmd. apply (Hun l' _). apply bwp_do. cbn [brule b_load b_tidmap up_tidmap].
    destruct (znth l' e) as [z|] eqn:Hz; [|done]. cbn [on].
    destruct (used_zupd _ _ _ _ _ Hx Hl) as [Hn1 Hw1], (used_zupd _ _ _ _ _ Hy Hl') as [Hn2 Hw2].
    rewrite (zupd_written _ _ _ _ _ Hl' Hz). rewrite (zupd_written _ _ _ _ _ Hl Hy) in *. cbn in *.
    apply HQ. split; [congruence|]. left. split; [done|].
    assert (∀ z, weight (k, z) = 1%nat) as Hk1 by (intros z'; unfold weight; by rewrite decide_False).
    rewrite !Hk1 in *. replace (weight x) with 0%nat in Hw1 by (unfold weight; by rewrite decide_True).
    unfold used in *. lia.
  - intros Hfull. apply bwp_cmd. rewrite <- Hs1. apply (Hun _ (Ret (-1))). apply HQ. split; [done|].
    right. split; [lia|]. intros Hlen. apply used_full, Forall_lookup. intros i x Hi.
    apply lookup_lt_Some in Hi as Hlt. apply (Hfull (Z.of_nat i)); [lia|]. by rewrite znth_of_nat.
Qed.
(** ** The functions of uthread_init *)

(** A command; what it does to the state is computed. *)
Ltac bcmd := apply bwp_cmd; cbn [brule b_load b_store].

Lemma bwp_tcb_of t (Q : loc → bst → Prop) k s : (∀ p, Q p s) → bwp (tcb_of t) Q k s.
Proof. intros HQ. bcmd. intros o. by apply bwp_deref. Qed.

Lemma bwp_allocate_stack c base size (Q : Z → bst → Prop) k s : (∀ r, Q r s) →
  bwp (allocate_stack c base size) Q k s.
Proof.
  intros HQ. bcmd. apply bwp_bind.
  assert (H : ∀ sp, bwp (Store (VCtxSp c) sp ;; sp' ← Load (VCtxSp c);
    Ret (if decide (sp' = SNull) then 1 else 0)) Q k s) by (intros sp; bcmd; bcmd; intros sp'; apply HQ).
  case_decide; [|apply H]. bcmd. intros z. apply bwp_do. cbn [brule]. intros sp. apply H.
Qed.

(** Some block is allocated and put in [tcbs]. *)
Lemma bwp_init_main_thread (Q : unit → bst → Prop) k s : b_mutex s !! MBitvec = Some None →
  (∀ p, Q tt (up_next p s)) → bwp init_main_thread Q k s.
Proof.
  intros Hu HQ. apply bwp_bind, bwp_get_next_tid; [done|]. intros t. apply bwp_bind, bwp_passert. intros _.
  bcmd. split.
  - bcmd. split; [done|]. bcmd. intros o. apply bwp_bind, bwp_passert. intros _.
    do 3 (apply bwp_bind, bwp_tcb_of; intros ?; bcmd). apply bwp_bind, bwp_tcb_of. intros ?. apply bwp_or_abort, bwp_do. intros r _.
    destruct s. apply HQ.
  - intros p. bcmd. split; [cbn; lia|]. bcmd. intros o. apply bwp_bind, bwp_passert. intros _.
    do 3 (apply bwp_bind, bwp_tcb_of; intros ?; bcmd). apply bwp_bind, bwp_tcb_of. intros ?. apply bwp_or_abort, bwp_do. intros r _. apply HQ.
Qed.

Lemma bwp_init_abort_ctx (Q : unit → bst → Prop) k s : Q tt s → bwp init_abort_ctx Q k s.
Proof.
  intros HQ. apply bwp_bind, bwp_or_abort, bwp_do. intros _. bcmd.
  apply bwp_bind, bwp_allocate_stack. intros r. apply bwp_bind, bwp_passert. intros _. bcmd. bcmd. bcmd.
  intros e. by destruct (negb _).
Qed.

(** An entry of [kthread_info], and nothing else. *)
Lemma bwp_init_kthread_info i (Q : unit → bst → Prop) s :
  Q tt (up_kinfo (<[i := (if i =? 0 then MAIN_KTID else -1, true)]> (b_kinfo s)) s) →
  bwp (init_kthread_info i) Q MAIN_KTID s.
Proof.
  intros HQ. bcmd. split; [done|]. apply bwp_bind, bwp_passert. intros _. bcmd. bcmd.
  cbn [b_kinfo up_kinfo]. rewrite lookup_insert_eq. cbn [on fst snd].
  bcmd. bcmd. split; [done|]. bcmd. split; [done|]. bcmd. split; [done|].
  apply bwp_bind, bwp_or_abort, bwp_do. cbn [brule b_kinfo up_kinfo].
  rewrite insert_insert_eq, lookup_insert_eq. cbn [on fst snd]. intros _. bcmd.
  apply bwp_bind, bwp_allocate_stack. intros r. apply bwp_bind, bwp_passert. intros _. bcmd. bcmd.
  split; [done|]. cbn [b_kinfo up_kinfo]. rewrite insert_insert_eq, lookup_insert_eq. cbn [on fst snd].
  rewrite insert_insert_eq. bcmd. intros e. apply bwp_bind. destruct (negb _); [done|]. bcmd. by apply bwp_do.
Qed.
End rules.
#[local] Arguments used : simpl never.

(** ** The creation of a kernel thread *)

(** What [uthread_init] knows before it creates the thread of entry [j]. *)
Record creating (n j : Z) (s : bst) : Prop := {
  cr_locks : ∀ u, lib_lock u = true → b_mutex s !! u = Some None;
  cr_kthreads : b_mutex s !! MKthreads = Some None;
  cr_inited : b_ksem s !! KInited = Some 0;
  cr_ready : b_ksem s !! KNotEmpty = Some 0;
  cr_kinfo : ∀ i e, b_kinfo s !! i = Some e → 0 ≤ i < n ∧ e.2 = true ∧ (i < j → e.1 ∈ b_dom s);
  cr_ktids : ∀ i i' e e', b_kinfo s !! i = Some e → b_kinfo s !! i' = Some e' →
    i < j → i' < j → e.1 = e'.1 → i = i';
  cr_size : length (b_tidmap s) = Z.to_nat MAX_KTHREADS;
  cr_num : b_num s = n;
  cr_all : ∀ i, 0 ≤ i < n → is_Some (b_kinfo s !! i);
  cr_dom : 1 ≤ n → ∀ c, c ∈ b_dom s → ∃ i e, b_kinfo s !! i = Some e ∧ e.1 = c ∧ i < j;
  cr_used : b_registered s = 0 ∧ j = 1 ∨ b_registered s ≠ 0 ∧ j ≤ Z.of_nat (used (b_tidmap s));
}.

Section create.
Context (cl : client) (cf : bool) (F : bst → Prop) (n j : Z).
Abbreviation mnext := (Boot.mnext cl cf F).
Abbreviation cnext := (Boot.cnext cl).

(** The state when thread [c] signalled: it failed, or entry [j] has its identifier. *)
Definition signalled (a c : Z) (s s' : bst) : Prop := ∃ l e,
  (e = EAGAIN ∧ s' = Bst (b_mutex s) (<[KArgs a := 1]> (b_ksem s)) (b_kinfo s)
     (<[a := Targs KthreadMain 0 (KinfoKtid j) e]> (b_targs s)) l ({[c]} ∪ b_dom s) (b_next s)
     (b_num s) (b_registered s)) ∨
  ∃ x, b_kinfo s !! j = Some x ∧ length l = length (b_tidmap s) ∧ used l = S (used (b_tidmap s)) ∧
    s' = Bst (b_mutex s) (<[KArgs a := 1]> (b_ksem s)) (<[j := (c, x.2)]> (b_kinfo s)) (b_targs s) l
     ({[c]} ∪ b_dom s) (b_next s) (b_num s) (b_registered s).

Lemma cnext_trampoline a c (R : bst → Prop) s : b_mutex s !! MKthreads = Some None → 0 < c →
  b_targs s !! a = Some (Targs KthreadMain 0 (KinfoKtid j) 0) → b_ksem s !! KArgs a = Some 0 →
  (∀ s', signalled a c s s' → R s') →
  cnext c a R (Vis (Call (FKthreadTrampoline a)) Ret) (up_dom ({[c]} ∪ b_dom s) s).
Proof.
  intros Hu Hc Ha Hk HR. apply cn_call. cbn [Client.text]. unfold kthread_trampoline.
  rewrite pbind_assoc. apply cn_run, bwp_do. cbn [brule b_load b_targs up_dom]. rewrite Ha. cbn [on ta_start].
  rewrite pbind_assoc. apply cn_run, bwp_do. cbn [brule b_load b_targs up_dom]. rewrite Ha. cbn [on ta_arg].
  rewrite pbind_assoc. apply cn_run, bwp_tidmap_add_self; [lia|done|]. intros id l [Hlen Hid].
  destruct (Z.ltb_spec id 0) as [Hlt|Hge].
  - rewrite pbind_assoc. apply cn_run, bwp_do. cbn [brule b_store]. unfold b_args. cbn [b_targs up_tidmap up_dom].
    rewrite Ha. cbn [on].
    rewrite pbind_assoc. apply cn_post; [done|intros _; apply asleep_ret|].
    apply HR. exists l, EAGAIN. by left.
  - destruct Hid as [[-> Hused]|]; [|lia]. rewrite pbind_assoc. apply cn_run, bwp_do.
    cbn [brule b_load b_targs up_dom up_tidmap]. rewrite Ha. cbn [on ta_ptid store_ktid].
    rewrite pbind_assoc. apply cn_run, bwp_do. cbn [brule b_store b_kinfo up_dom up_tidmap].
    destruct (b_kinfo s !! j) as [x|] eqn:Hx; [|done]. cbn [on].
    rewrite pbind_assoc. apply cn_post; [done|intros _; apply asleep_call|].
    apply HR. exists l, 0. right. by exists x.
Qed.
(** Entry [j] is that of the new thread. *)
Lemma creating_signalled a c s s' : creating n j s → b_registered s ≠ 0 → j < n → c ∉ b_dom s →
  signalled a c s s' → b_targs s !! a = Some (Targs KthreadMain 0 (KinfoKtid j) 0) →
  (∃ e, e ≠ 0 ∧ b_targs s' !! a = Some (Targs KthreadMain 0 (KinfoKtid j) e)) ∨
  b_targs s' !! a = Some (Targs KthreadMain 0 (KinfoKtid j) 0) ∧ creating n (j + 1) s'.
Proof.
  intros [Hl Hk Hi Hr Hki Hkt Hsz Hnum Hall Hdom Hu] Hreg Hj Hc (l & e & [[-> ->]|(x & Hx & Hl1 & Hl2 & ->)]) Ha.
  { left. exists EAGAIN. split; [done|]. cbn. by rewrite lookup_insert_eq. }
  right. split; [done|]. destruct (Hki j x Hx) as (Hjn & Hx2 & _). constructor; cbn; rewrite ?lookup_insert_ne by done; try done.
  - intros i e'. rewrite lookup_insert. case_decide.
    + intros [= <-]. subst i. cbn. split_and!; [lia..|done|set_solver].
    + intros He. destruct (Hki i e' He) as (H1 & H2 & H3). split_and!; [lia..|done|].
      intros H4. apply elem_of_union_r, H3. lia.
  - intros i i' e1 e2. rewrite !lookup_insert. repeat case_decide; subst; try done.
    + intros [= <-] H2 _ Hlt He. destruct Hc. cbn in He. rewrite He. apply (Hki i' e2 H2). lia.
    + intros H1 [= <-] Hlt _ He. destruct Hc. cbn in He. rewrite <- He. apply (Hki i e1 H1). lia.
    + intros H1 H2 Hlt Hlt' He. apply (Hkt i i' e1 e2); [done..|lia|lia|done].
  - congruence.
  - intros i Hin. rewrite lookup_insert. case_decide; [done|]. by apply Hall.
  - intros Hn c' [->%elem_of_singleton|Hc']%elem_of_union.
    + exists j, (c, x.2). rewrite lookup_insert_eq. split_and!; [done..|lia].
    + destruct (Hdom Hn c' Hc') as (i & e1 & He1 & Hec & Hij). exists i, e1.
      rewrite lookup_insert_ne by lia. split_and!; [done..|lia].
  - right. split; [done|]. destruct Hu as [[? _]|[_ ?]]; [done|lia].
Qed.
(** A command of the main kernel thread. *)
Ltac mcmd := rewrite pbind_assoc; apply mn_run, bwp_do;
  cbn [brule b_load b_store b_mutex b_ksem b_kinfo b_targs b_tidmap b_dom b_next b_num b_registered
       up_mutex up_ksem up_kinfo up_targs up_tidmap up_dom up_next up_num up_registered].

Lemma creating_ksem i x s : creating n i s → x !! KInited = b_ksem s !! KInited →
  x !! KNotEmpty = b_ksem s !! KNotEmpty → creating n i (up_ksem x s).
Proof. intros [] H1 H2. constructor; cbn; try done; congruence. Qed.
Lemma creating_targs i x s : creating n i s → creating n i (up_targs x s).
Proof. by intros []. Qed.

(** The first call registers the main kernel thread, for which there is room. *)
Lemma creating_registered id l s : creating n j s → b_registered s = 0 →
  registers MAIN_KTID id (b_tidmap s) l → creating n j (up_registered 1 (up_tidmap l s)).
Proof.
  intros [] Hreg [Hlen Hl]. constructor; cbn; try done; [congruence|]. right. split; [done|].
  destruct cr_used0 as [[_ ->]|[? _]]; [|done]. destruct Hl as [[_ ->]|[_ Hl]]; [lia|].
  rewrite (Hl cr_size0), cr_size0. done.
Qed.

(** The end of [kthread_create], called by [or_abort]. *)
Definition checked (K : unit → prog unit) (r : Z) : prog unit :=
  pbind (if r =? 0 then Ret tt else abort) K.

Lemma mnext_failed a r K s : r ≠ 0 → mnext (pbind (FreeArgs a ;; Ret r) (checked K)) s.
Proof.
  intros Hr. rewrite pbind_assoc. apply mn_run, bwp_do. cbn [brule]. cbn [pbind]. unfold checked.
  apply Z.eqb_neq in Hr. rewrite Hr. by apply mn_run.
Qed.

Lemma mnext_created a e K s : b_targs s !! a = Some (Targs KthreadMain 0 (KinfoKtid j) e) →
  (e = 0 → creating n (j + 1) s) → (∀ s', creating n (j + 1) s' → mnext (K tt) s') →
  mnext (pbind (error ← Load (VArgError a);
    if negb (error =? 0) then Store VErrno error ;; FreeArgs a ;; Ret (-1)
    else FreeArgs a ;; Ret 0) (checked K)) s.
Proof.
  intros Ha He HK. mcmd. rewrite Ha. cbn [on ta_error]. destruct (Z.eqb_spec e 0) as [->|Hne]; cbn [negb].
  - mcmd. by apply HK, creating_targs, He.
  - mcmd. by apply mnext_failed.
Qed.

(** [args] as [kthread_create] fills it in. *)
Abbreviation args := (Targs KthreadMain 0 (KinfoKtid j) 0).

(** The rest of it, once [pthread_create] succeeded and the new thread signalled. *)
Lemma mnext_signalled a c s s' K : creating n j s → b_registered s ≠ 0 → j < n → c ∉ b_dom s → b_targs s !! a = Some args →
  signalled a c s s' → (∀ s', creating n (j + 1) s' → mnext (K tt) s') →
  mnext (pbind (SemWait (KArgs a) ;; SemDestroy (KArgs a) ;;
    error ← Load (VArgError a);
    if negb (error =? 0) then Store VErrno error ;; FreeArgs a ;; Ret (-1)
    else FreeArgs a ;; Ret 0) (checked K)) s'.
Proof.
  intros Hs Hreg Hj Hc Ha Hsig HK. assert (Hks : b_ksem s' !! KArgs a = Some 1).
  { destruct Hsig as (l & e & [[_ ->]|(x & _ & _ & _ & ->)]); apply lookup_insert_eq. }
  assert (∃ e, b_targs s' !! a = Some (Targs KthreadMain 0 (KinfoKtid j) e) ∧
    (e = 0 → creating n (j + 1) s')) as (e & Ha' & He).
  { destruct (creating_signalled a c s s' Hs Hreg Hj Hc Hsig Ha) as [(e & He & Ha2)|[Ha2 Hs2]]; [|by exists 0].
    by exists e. }
  mcmd. split; [done|]. split; [done|]. rewrite Hks. intros _.
  mcmd. split; [done|]. split; [done|]. split; (apply (mnext_created a e); [done| |done]); intros ->.
  - apply creating_ksem; [by apply He|by rewrite lookup_insert_ne..].
  - apply (creating_ksem _ (delete _ _) (up_ksem _ s')); [|by rewrite lookup_delete_ne..].
    apply creating_ksem; [by apply He|by rewrite lookup_insert_ne..].
Qed.

Lemma mnext_create K s : j < n → creating n j s → (∀ s', creating n (j + 1) s' → mnext (K tt) s') →
  mnext (pbind (or_abort (kthread_create (KinfoKtid j) KthreadMain 0)) K) s.
Proof.
  intros Hj Hs HK. unfold or_abort. rewrite pbind_assoc. fold (checked K). unfold kthread_create.
  mcmd. rewrite pbind_assoc. apply (mn_seg cl cf F _ (λ _ s', creating n j s' ∧ b_registered s' ≠ 0)).
  { destruct (Z.eqb_spec (b_registered s) 0) as [H0|H1]; [|done].
    apply bwp_bind, bwp_tidmap_add_self; [done|apply (cr_kthreads _ _ _ Hs)|].
    intros id l Hreg. apply bwp_do. split; [|done]. by eapply creating_registered. }
  clear s Hs. intros _ s [Hs Hreg]. mcmd. set (a := fresh_key _).
  mcmd. split; [done|]. split; [done|]. rewrite decide_True by done.
  do 4 (mcmd; unfold b_args; cbn [b_targs up_targs up_ksem up_tidmap];
    rewrite ?insert_insert_eq, lookup_insert_eq; cbn [on]).
  rewrite insert_insert_eq. cbn [ta_start ta_arg ta_ptid ta_error].
  set (s1 := up_targs _ _). assert (Hs1 : creating n j s1).
  { destruct Hs. constructor; cbn; rewrite ?lookup_insert_ne by done; done. }
  assert (Hreg1 : b_registered s1 ≠ 0) by done.
  assert (Ha : b_targs s1 !! a = Some args) by apply lookup_insert_eq.
  assert (Hz : b_ksem s1 !! KArgs a = Some 0) by apply lookup_insert_eq.
  rewrite pbind_assoc. clearbody s1 a.
  apply (mn_create cl cf F (FKthreadTrampoline a) _ a (λ s', ∃ c, c ∉ b_dom s1 ∧ signalled a c s1 s'));
    [by eexists|apply (cr_inited _ _ _ Hs1)|done|..].
  - intros r Hr. cbn beta. destruct (Z.eqb_spec r 0); [done|]. cbn [negb]. mcmd.
    split; [done|]. split; [done|]. split; by apply mnext_failed.
  - intros c Hc H0. apply cnext_trampoline; [apply (cr_kthreads _ _ _ Hs1)|done..|]. eauto.
  - intros s2 (c & Hc & Hsig). by apply (mnext_signalled a c s1).
Qed.
End create.

(** ** uthread_init *)

(** The state when main() starts. *)
Definition boot_state : bst :=
  Bst {[MKthreads := None]} ∅ ∅ ∅ (replicate (Z.to_nat MAX_KTHREADS) (0, 0)) {[MAIN_KTID]} 2 0 0.

Lemma boot_facts main : bfacts boot_state (boot main).
Proof.
  constructor; try done.
  - intros j t Hj. change (({[MAIN_KTID := Kthr (compile main) false false 0 false]} : gmap Z kthr) !! j = Some t) in Hj.
    by apply lookup_singleton_Some in Hj as [_ <-].
  - intros t p Hp. change (znth (replicate (Z.to_nat UTHREAD_MAX_THREADS) None) t = Some (Some p)) in Hp.
    unfold znth in Hp. case_decide; [|done]. by apply lookup_replicate in Hp as [? _].
  - intros p x Hx. change (({[exitall := tcb0]} : gmap loc tcb) !! p = Some x) in Hx.
    by apply lookup_singleton_Some in Hx as [<- <-].
Qed.

(** Every kernel thread has one entry of [kthread_info]. *)
Definition all_registered (n : Z) (s : bst) : Prop :=
  b_num s = n ∧ n ≤ MAX_KTHREADS ∧ (∀ i, 0 ≤ i < n → is_Some (b_kinfo s !! i)) ∧
  (1 ≤ n → ∀ c, c ∈ b_dom s →
     ∃ i, 0 ≤ i < n ∧ ∀ j, 0 ≤ j < n → fst <$> b_kinfo s !! j = Some c ↔ j = i).

Section init.
Context (cl : client) (cf : bool) (F : bst → Prop).
Abbreviation mnext := (Boot.mnext cl cf F).
(** The fields of a state that is known are computed after each command. *)
Ltac norm := cbv beta iota delta [b_mutex b_ksem b_kinfo b_targs b_tidmap b_dom b_next b_num b_registered
  up_mutex up_ksem up_kinfo up_targs up_tidmap up_dom up_next up_num up_registered].
Ltac mcmd := rewrite pbind_assoc; apply mn_run, bwp_do; cbn [brule b_load b_store]; norm.
Ltac mchk := rewrite pbind_assoc; apply mn_run, bwp_or_abort, bwp_do; cbn [brule]; norm.

(** The loop that creates the kernel threads. *)
Lemma mnext_creates n K m j s : creating n j s → (∀ i, i < j + Z.of_nat m → i < n ∨ m = 0%nat) →
  (∀ s', creating n (j + Z.of_nat m) s' → mnext (K tt) s') →
  mnext (pbind (pfor m j (λ i _, or_abort (kthread_create (KinfoKtid i) KthreadMain 0)) tt) K) s.
Proof.
  revert j s. induction m as [|m IH]; intros j s Hs Hj HK.
  - cbn. apply HK. by replace (j + Z.of_nat 0) with j by lia.
  - cbn [pfor]. rewrite pbind_assoc. apply (mnext_create cl cf F n j); [|done|].
    { destruct (Hj j); lia. }
    intros s' Hs'. apply IH; [done|intros i Hi; destruct (Hj i); lia|]. intros s2 Hs2. apply HK.
    by replace (j + Z.of_nat (S m)) with (j + 1 + Z.of_nat m) by lia.
Qed.

Lemma creating_done n j s : creating n j s → n ≤ j → init_done s.
Proof.
  intros [] Hn. constructor; [done|done|intros i e He; by apply (cr_kinfo0 i e)|].
  intros i i' e e' He He' H. destruct (cr_kinfo0 i e He) as [Hi _], (cr_kinfo0 i' e' He') as [Hi' _].
  apply (cr_ktids0 i i' e e'); [done..|lia|lia|done].
Qed.

(** Every kernel thread has an entry of the table of kthread.c. *)
Lemma creating_bound n j s : creating n j s → n ≤ j → 1 < j → n ≤ MAX_KTHREADS.
Proof.
  intros [] Hn Hj. destruct cr_used0 as [[_ ?]|[_ Hu]]; [lia|].
  pose proof (used_le (b_tidmap s)) as Hl. rewrite cr_size0 in Hl. unfold MAX_KTHREADS in *. lia.
Qed.

Lemma creating_registered_all n j s : creating n j s → n ≤ j → n ≤ MAX_KTHREADS → all_registered n s.
Proof.
  intros [] Hn Hmax. split_and!; [done..|]. intros H1 c Hc.
  destruct (cr_dom0 H1 c Hc) as (i & e & He & Hec & Hij). destruct (cr_kinfo0 i e He) as [Hi _].
  exists i. split; [done|]. intros i' Hi'. split.
  - destruct (b_kinfo s !! i') as [e'|] eqn:He'; [|done]. cbn. intros [= Hc'].
    apply (cr_ktids0 i' i e' e); [done..|lia|lia|congruence].
  - intros ->. rewrite He. cbn. congruence.
Qed.

(** The loop that allocates [kthread_info]. *)
Definition fresh_entries (j : Z) (m : gmap Z (Z * bool)) : Prop := ∀ i,
  m !! i = if decide (0 ≤ i < j) then Some (if i =? 0 then MAIN_KTID else -1, true) else None.

Lemma bwp_init_entries n (Q : unit → bst → Prop) s : b_kinfo s = ∅ →
  (∀ m, fresh_entries (Z.max 0 n) m → Q tt (up_kinfo m s)) →
  bwp (pfor (Z.to_nat n) 0 (λ i _, init_kthread_info i) tt) Q MAIN_KTID s.
Proof.
  intros Hs HQ. apply (bwp_pfor (λ j _ s', ∃ m, fresh_entries j m ∧ s' = up_kinfo m s)).
  - exists ∅. split; [intros i; by rewrite decide_False by lia|]. rewrite <- Hs. by destruct s.
  - intros j t s' Hj (m & Hm & ->). apply bwp_init_kthread_info. eexists. split; [|done].
    intros i. cbn [b_kinfo up_kinfo]. rewrite lookup_insert, Hm.
    repeat case_decide; subst; try done; lia.
  - intros [] s' (m & Hm & ->). apply HQ. by replace (Z.max 0 n) with (0 + Z.of_nat (Z.to_nat n)) by lia.
Qed.

Lemma creating_first n m p : fresh_entries (Z.max 0 n) m →
  creating n 1 (Bst (<[MRqueue := None]> (<[MBitvec := None]> (<[MTcbs := None]> {[MKthreads := None]})))
    (<[KNotEmpty := 0]> (<[KExitall := 0]> (<[KInited := 0]> ∅))) m ∅
    (replicate (Z.to_nat MAX_KTHREADS) (0, 0)) {[MAIN_KTID]} p n 0).
Proof.
  intros Hm'. assert (Hm : ∀ i e, m !! i = Some e → 0 ≤ i < n ∧ e = (if i =? 0 then MAIN_KTID else -1, true)).
  { intros i e. rewrite Hm'. case_decide; [|done]. intros [= <-]. split; [lia|done]. }
  constructor; cbn [b_mutex b_ksem b_kinfo b_dom b_tidmap b_registered b_num].
  - by intros [].
  - done.
  - done.
  - done.
  - intros i e He. destruct (Hm i e He) as [Hi ->]. split_and!; [lia..|done|]. intros H1.
    assert (i = 0) as -> by lia. set_solver.
  - intros i i' e e' He He' H H' _. destruct (Hm i e He) as [Hi _], (Hm i' e' He') as [Hi' _]. lia.
  - done.
  - done.
  - intros i Hi. rewrite Hm', decide_True by lia. done.
  - intros Hn c ->%elem_of_singleton. exists 0, (MAIN_KTID, true). rewrite Hm', decide_True by lia. done.
  - by left.
Qed.

Lemma brule_num n k s Φ : b_num s = n → Φ n s → brule (Load VNumKthreads) k s Φ.
Proof. by intros <-. Qed.

(** [uthread_init] once [kthread_info] is allocated. *)
Lemma mnext_init_end n (u : Z → uprog unit) s : (∀ r, behaved cf (u r)) → (∀ s', all_registered n s' → F s') →
  creating n 1 s →
  mnext (pbind (pfor (Z.to_nat (n - (MAIN_KTHREAD_INDEX + 1))) (MAIN_KTHREAD_INDEX + 1)
    (λ i _, or_abort (kthread_create (KinfoKtid i) KthreadMain 0)) tt ;;
    Store VInited 1 ;; init_tail n) (λ r, compile (u r))) s.
Proof.
  intros Hu HF Hs. rewrite pbind_assoc. apply (mnext_creates n); [done| |].
  { intros i Hi. unfold MAIN_KTHREAD_INDEX in *. lia. }
  intros s' Hs'. rewrite pbind_assoc.
  apply (mn_final cl cf F (λ _, pbind (init_tail n) (λ r, compile (u r)))); [apply HF| |by apply initial_init].
  - eapply creating_registered_all; [done|unfold MAIN_KTHREAD_INDEX; lia|].
    destruct (decide (1 < n)); [|unfold MAX_KTHREADS; lia]. eapply creating_bound; [done|unfold MAIN_KTHREAD_INDEX; lia..].
  - eapply creating_done; [done|]. unfold MAIN_KTHREAD_INDEX. lia.
Qed.

Lemma mnext_init kthreads quantum (u : Z → uprog unit) : (∀ r, behaved cf (u r)) →
  (∀ s, all_registered (to_size_t kthreads) s → F s) →
  mnext (pbind (uthread_init kthreads quantum) (λ r, compile (u r))) boot_state.
Proof.
  intros Hu. unfold uthread_init, boot_state. generalize (to_size_t kthreads). intros n HF.
  mcmd. rewrite pbind_assoc. apply mn_run, bwp_passert. intros _. do 4 mcmd.
  rewrite pbind_assoc. apply mn_run, bwp_block.
  mchk. split; [done|]. split; [done|]. intros _.
  mchk. split; [done|]. split; [done|]. intros _. mchk. intros _.
  mcmd. intros ok. rewrite pbind_assoc. apply mn_run, bwp_lift. intros r. mcmd.
  rewrite pbind_assoc. destruct (negb _); [by apply mn_run|]. cbn [pbind].
  mchk. intros _. mchk. intros r' _. mchk. intros _. mchk. split; [done|]. split; [done|]. intros _.
  rewrite pbind_assoc. apply mn_run, bwp_init_main_thread; [done|]. intros p. norm.
  rewrite pbind_assoc. apply mn_run, bwp_init_abort_ctx.
  mcmd. intros ok'. rewrite pbind_assoc. apply mn_run, bwp_passert. intros _.
  rewrite pbind_assoc. apply mn_run, bwp_do, (brule_num n); [done|].
  rewrite pbind_assoc. apply mn_run, bwp_init_entries; [done|]. intros m Hm. norm.
  apply mnext_init_end; [done|done|].
  by apply creating_first.
Qed.
End init.

(** ** The theorems, for the whole program

    The client initialises the library and goes on with [u], which as the functions
    of its threads does not call [uthread_init] or [uthread_teardown] again. *)
Definition program (kthreads quantum : Z) (u : Z → uprog unit) : machine :=
  boot (ubind (UInit kthreads quantum) u).

Section started.
Context (cl : client) (cf : bool) (Hcl : ∀ s a, behaved cf (cl s a)).
Context (kthreads quantum : Z) (u : Z → uprog unit) (Hu : ∀ r, behaved cf (u r)).

Abbreviation n := (to_size_t kthreads).

Lemma program_booting : booting cl cf (all_registered n) (program kthreads quantum u).
Proof.
  apply (boot_main cl cf _ _ boot_state (pbind (uthread_init kthreads quantum) (λ r, compile (u r)))).
  - apply boot_facts.
  - by right.
  - unfold runs, progs, program, boot. cbn [m_threads]. rewrite map_fmap_singleton. apply lookup_singleton_eq.
  - by apply mnext_init.
  - intros j p Hj Hx. exfalso. apply Hx. unfold progs, program, boot in Hj. cbn [m_threads] in Hj.
    rewrite map_fmap_singleton in Hj. apply lookup_singleton_Some in Hj as [<- _]. set_solver.
Qed.

Lemma program_started m : steps (text cl) (program kthreads quantum u) m → m_inited m ≠ 0 →
  ∃ m0, started cf m0 ∧ finished (all_registered n) m0 ∧ steps (text cl) m0 m.
Proof.
  intros Hst Hi. destruct (booting_steps cl cf _ _ m program_booting Hst Hi) as (m0 & Hs & HF & _ & H). eauto.
Qed.

(** The table of the kernel threads is complete when [uthread_init] sets [inited], and
    nothing changes it. *)
Lemma program_registered m k : steps (text cl) (program kthreads quantum u) m → m_inited m ≠ 0 →
  1 ≤ n → k ∈ dom (m_threads m) → ∃ i, registered m k i.
Proof.
  intros Hst Hi H1 Hk.
  destruct (program_started m Hst Hi) as (m0 & Hs & (s & (Hn & _ & Hall & Hreg) & Hnum & Hki & Hd) & H).
  destruct (table_reachable cl cf Hcl m0 Hs m H) as [Tn Tk Td]. rewrite Td, Hd in Hk.
  destruct (Hreg H1 k Hk) as (i & Hii & Hiu). exists i.
  assert (Hkt : ∀ j, ktid_at m j = fst <$> b_kinfo s !! j).
  { intros j. unfold ktid_at. rewrite <- lookup_fmap, Tk, <- Hki, !lookup_fmap. by destruct (m_kinfo m0 !! j). }
  unfold registered. rewrite Tn, Hnum, Hn. split_and!; [lia..| |].
  - intros j Hj. specialize (Hkt j). unfold ktid_at in Hkt. destruct (Hall j Hj) as [e He].
    rewrite He in Hkt. destruct (m_kinfo m !! j); [done|by cbn in Hkt].
  - intros j Hj. rewrite Hkt. by apply Hiu.
Qed.

End started.

(** The theorems about clients that do not call [uthread_init] or [uthread_teardown]. *)
Section theorems.
Context (cl : client) (Hcl : ∀ s a, plain (cl s a)).
Context (kthreads quantum : Z) (u : Z → uprog unit) (Hu : ∀ r, plain (u r)).

Abbreviation n := (to_size_t kthreads).

(** C6. No data race where the code takes a lock: whatever number of kernel threads
    [uthread_init] is asked for, in every interleaving from main() on of a client without
    teardown, once the library is initialised a kernel thread that is about to execute a
    command for which [guard] names a lock owns that lock, and so no other one is about
    to execute one.  These are the operations on the ready queue and on the bit vector;
    of a thread's control block, loads and stores of its state, identifier and return
    value, the operations on its join queue but [queue_destroy], the stores of its stack
    and link, and getcontext, makecontext and swapcontext into its context; and the stores
    of a block into [tcbs].  Not covered, because the code takes no lock there: loads of
    [tcbs], setcontext, and [destroy_thread]. *)
Theorem guarded_accesses {B} (c : cmd B) m k lock :
  steps (text cl) (program kthreads quantum u) m → m_inited m ≠ 0 →
  about_to m k c → guard c = Some lock →
  m_mutex m !! lock = Some (Some k) ∧
  ∀ k' B' (c' : cmd B'), about_to m k' c' → guard c' = Some lock → k' = k.
Proof.
  intros Hst Hi. destruct (program_started cl false kthreads quantum u Hu m Hst Hi) as (m0 & Hs & _ & H). by apply (started_guarded cl false Hcl m0).
Qed.

(** C7. In every interleaving from main() on of a client without teardown, once the
    library is initialised the semaphore of the ready queue counts at most its elements,
    and a kernel thread that takes one, having waited for the semaphore, finds one: the
    assertions of [ready_dequeue] never fail. *)
Theorem ready_queue_never_empty m k :
  steps (text cl) (program kthreads quantum u) m → m_inited m ≠ 0 →
  ∃ l v, m_rqueue m = Some l ∧ m_ksem m !! KNotEmpty = Some v ∧ 0 ≤ v ≤ Z.of_nat (length l) ∧
    (about_to m k (QDequeue QReady) → l ≠ []).
Proof.
  intros Hst Hi. destruct (program_started cl false kthreads quantum u Hu m Hst Hi) as (m0 & Hs & _ & H). by apply (started_ready cl false Hcl m0).
Qed.

(** C9. No kernel thread ever unlocks a lock of the library that it does not hold,
    in any interleaving from main() on of a client without teardown, once the library is
    initialised, although threads are suspended with [tcbs_lock] held and the scheduler,
    another context, releases it. *)
Theorem unlocks_own_lock m k lock ok :
  steps (text cl) (program kthreads quantum u) m → m_inited m ≠ 0 →
  about_to m k (MutexUnlock lock) → lib_lock lock = true →
  m_mutex m !! lock = Some (Some k) ∧ step_thread (text cl) k ok m ≠ Crashed MutexMisuse.
Proof.
  intros Hst Hi. destruct (program_started cl false kthreads quantum u Hu m Hst Hi) as (m0 & Hs & _ & H). by apply (started_unlock cl false Hcl m0).
Qed.

(** C12. Once the library is initialised, in every interleaving from main() on of a
    client without teardown, every kernel thread has one entry of [kthread_info] with its
    identifier, which it stored before [kthread_create] returned: [get_kthread_info] finds
    it, and the assertion there never fails. *)
Theorem kthread_info_found m k : 1 ≤ kthreads < 2 ^ 31 →
  steps (text cl) (program kthreads quantum u) m → m_inited m ≠ 0 → k ∈ dom (m_threads m) →
  ∃ i, registered m k i ∧ eval (get_kthread_info k) k [] m = EDone i [] m.
Proof.
  intros Hr Hst Hi Hk. destruct (program_registered cl false Hcl kthreads quantum u Hu m k Hst Hi) as [i Hreg]; [|done|].
  - unfold to_size_t. rewrite Z.mod_small; lia.
  - exists i. split; [done|]. by apply ev_get_kthread_info.
Qed.

(** C13. [uthread_init] starts at most 64 kernel threads, the main one included, which
    is the size of the table of kthread.c: asked for more it never sets [inited], in
    any interleaving and whatever malloc and pthread_create answer. *)
Theorem too_many_kthreads m : MAX_KTHREADS < kthreads < 2 ^ 31 →
  steps (text cl) (program kthreads quantum u) m → m_inited m = 0.
Proof.
  intros Hr Hst. destruct (decide (m_inited m = 0)) as [|Hi]; [done|].
  destruct (program_started cl false kthreads quantum u Hu m Hst Hi) as (m0 & _ & (s & (_ & Hk & _) & _) & _). exfalso. revert Hk. unfold to_size_t, MAX_KTHREADS in *.
  rewrite Z.mod_small; lia.
Qed.
End theorems.

(** C8. Deadlock on the library's locks, in any interleaving from main() on, once the
    library is initialised, of a client without teardown.  A circle of kernel threads,
    each about to lock a lock of the library that the next one holds, can only be one
    kernel thread about to lock [tcbs_lock] that it holds itself; and if the client is
    careful, that is, does not go on when [uthread_create] fails (which returns with
    [tcbs_lock] held), there is no such circle at all.  A kernel thread that waits for
    the ready queue or ends holds none of these locks. *)
Theorem no_circular_wait cl cf kthreads quantum (u : Z → uprog unit) m k :
  (∀ s a, behaved cf (cl s a)) → (∀ r, behaved cf (u r)) →
  steps (text cl) (program kthreads quantum u) m → m_inited m ≠ 0 →
  (tc (waits m) k k → relocks_tcbs m k) ∧ (cf = true → ¬ tc (waits m) k k) ∧
  (about_to m k (SemWait KNotEmpty) ∨ about_to m k PthreadExit →
   ∀ lock, lib_lock lock = true → m_mutex m !! lock ≠ Some (Some k)).
Proof.
  intros Hcl Hu Hst Hi.
  destruct (program_started cl cf kthreads quantum u Hu m Hst Hi) as (m0 & Hs & _ & H).
  destruct (started_acyclic cl cf Hcl m0 m Hs H k) as [Ht Hh].
  split; [intros Hc; by apply Ht in Hc as [_ ?]|]. split; [|done].
  intros -> Hc. by apply Ht in Hc as [? _].
Qed.

(** ** The theorems on two kernel threads

    The machine some steps of the main kernel thread after [uthread_init] returned to
    the client, which yields. *)
Definition after (kthreads : Z) (ls : list label) : machine :=
  match run (text idler) ls (program kthreads 0 yielder) with
  | Next m => m
  | _ => program kthreads 0 yielder
  end.
Definition two (n : nat) : machine := after 2 (init_turns 2 ++ replicate n (LRun MAIN_KTID true)).

Lemma after_steps kthreads ls : steps (text idler) (program kthreads 0 yielder) (after kthreads ls).
Proof.
  unfold after. destruct (run _ _ _) as [m| |f] eqn:Hr; [by eapply run_steps|apply steps_refl..].
Qed.

(** The command a kernel thread is about to execute. *)
Definition peek (m : machine) (k : Z) : option {B & cmd B} :=
  (t ← m_threads m !! k;
   if k_done t then None
   else match k_prog t with Vis c _ => Some (existT _ c) | Ret _ => None end)%stdpp.

Lemma peek_about m k s : peek m k = Some s → about_to m k (projT2 s).
Proof.
  unfold peek. destruct (m_threads m !! k) as [t|] eqn:Ht; [|done]. cbn.
  destruct (k_done t) eqn:Hd; [done|]. destruct (k_prog t) as [|B c kont] eqn:Hp; [done|].
  intros [= <-]. by eapply About.
Qed.

Lemma idler_plain s a : plain (idler s a).
Proof. done. Qed.

Lemma yielder_plain r : plain (yielder r).
Proof. by repeat split. Qed.

(** The main thread is about to read its state; the scheduler, which it entered, is
    about to unlock [tcbs_lock]; it waits for the ready queue; it takes the head. *)
Lemma two_about n s : peek (two n) MAIN_KTID = Some s → about_to (two n) MAIN_KTID (projT2 s).
Proof. apply peek_about. Qed.

Lemma guarded_accesses_witness : m_mutex (two 15) !! MTcbs = Some (Some MAIN_KTID).
Proof.
  apply (guarded_accesses idler idler_plain 2 0 yielder yielder_plain (Load (VTcbState 2)) (two 15) MAIN_KTID MTcbs);
    [apply after_steps|by vm_compute| |reflexivity].
  apply (two_about 15 (existT _ (Load (VTcbState 2)))). by vm_compute.
Defined.

Lemma ready_queue_never_empty_witness : ∃ l, m_rqueue (two 47) = Some l ∧ l ≠ [].
Proof.
  destruct (ready_queue_never_empty idler idler_plain 2 0 yielder yielder_plain (two 47) MAIN_KTID)
    as (l & v & Hl & _ & _ & H); [apply after_steps|by vm_compute|].
  exists l. split; [exact Hl|]. apply H.
  apply (two_about 47 (existT _ (QDequeue QReady))). by vm_compute.
Defined.

Lemma idler_careful s a : behaved true (idler s a).
Proof. done. Qed.

Lemma yielder_careful r : behaved true (yielder r).
Proof. by repeat split. Qed.

Lemma no_circular_wait_witness : ¬ tc (waits (two 44)) MAIN_KTID MAIN_KTID ∧
  m_mutex (two 44) !! MTcbs ≠ Some (Some MAIN_KTID).
Proof.
  destruct (no_circular_wait idler true 2 0 yielder (two 44) MAIN_KTID idler_careful yielder_careful)
    as (_ & H1 & H2); [apply after_steps|by vm_compute|].
  split; [by apply H1|]. apply H2; [left|reflexivity].
  apply (two_about 44 (existT _ (SemWait KNotEmpty))). by vm_compute.
Defined.

Lemma unlocks_own_lock_witness : m_mutex (two 40) !! MTcbs = Some (Some MAIN_KTID).
Proof.
  apply (unlocks_own_lock idler idler_plain 2 0 yielder yielder_plain (two 40) MAIN_KTID MTcbs true);
    [apply after_steps|by vm_compute| |reflexivity].
  apply (two_about 40 (existT _ (MutexUnlock MTcbs))). by vm_compute.
Defined.

(** 65 kernel threads, some steps into the loop that creates them. *)
Lemma too_many_kthreads_witness : m_inited (after 65 (turns 2 5)) = 0.
Proof.
  apply (too_many_kthreads idler 65 0 yielder yielder_plain); [by unfold MAX_KTHREADS|apply after_steps].
Defined.

(** The second kernel thread, while the first one enters its scheduler. *)
Lemma kthread_info_found_witness :
  ∃ i, eval (get_kthread_info 101) 101 [] (two 40) = EDone i [] (two 40).
Proof.
  destruct (kthread_info_found idler idler_plain 2 0 yielder yielder_plain (two 40) 101) as (i & _ & H);
    [lia|apply after_steps|by vm_compute|apply elem_of_dom; vm_compute; eexists; reflexivity|].
  exists i. exact H.
Defined.

(** A client that is plain but not careful: it goes on although malloc gave
    [uthread_create] no block, and then waits for [tcbs_lock], which it holds. *)
Definition maker : Z → uprog unit := λ _, (UCreate 50 1 0 SNull 0 ;; UYield ;; URet tt)%uprog.

Example waits_for_itself :
  match run (text idler) (init_turns 1 ++ replicate 60 (LRun MAIN_KTID false)) (program 1 0 maker) with
  | Next m => relocks_tcbs m MAIN_KTID
  | _ => False
  end.
Proof. vm_compute. by split. Qed.
