(* ===== verification/Race.v ===== *)
(** * A race the locks do not prevent

    [uthread_join] gives the identifier of the thread it joined back before it
    destroys the thread, and holds no lock in between.  With two kernel threads
    another thread can create a thread in the gap: it gets the same identifier, and
    the joiner destroys the new thread instead of the old one. *)
From S2P Require Import Prelude Bitvec Machine Kthread Uthread Client Logic LogicSound Locks Interleave.

(** The main thread creates threads 1 and 2 and joins thread 1.  Thread 1 returns;
    thread 2 creates a thread and yields. *)
Definition race_main : uprog unit :=
  (UInit 2 0 ;; UCreate 100 1 0 SNull 0 ;; UCreate 101 2 0 SNull 0 ;; UJoin 1 None ;; URet tt)%uprog.
Definition race_client : client := λ f _,
  match f with
  | 1 => URet 0
  | _ => (UCreate 102 1 0 SNull 0 ;; UYield ;; URet 0)%uprog
  end.

(** Kernel threads 100 and 101 start the library; the main thread creates the two
    threads and comes to the call of [uthread_join]; on 101 thread 1 runs to its end and thread 2
    up to the lock of [bitvec_lock] in [get_next_tid]; the main thread gives
    identifier 1 back; thread 2 takes it, and yields; the main thread destroys "1". *)
Definition race_turns : list label :=
  replicate 400 (LRun 100 true) ++ replicate 400 (LRun 101 true) ++
  replicate 112 (LRun 100 true) ++ replicate 137 (LRun 101 true) ++
  replicate 10 (LRun 100 true) ++ replicate 82 (LRun 101 true) ++
  replicate 40 (LRun 100 true).

(** Of the blocks on the ready queue, those that are not live. *)
Definition dangling (m : machine) : list loc :=
  filter (λ p, m_heap m !! p = None) (default [] (m_rqueue m)).

(** C14. With two kernel threads a thread that is created while another one is being
    joined can be destroyed in its place: its block is freed while it is on the ready
    queue, and the kernel thread that takes it from there uses it.  No thread
    breaks a rule of the interface. *)
Theorem join_create_race :
  (∃ m, run (text race_client) race_turns (boot race_main) = Next m ∧ dangling m = [10%positive]) ∧
  run (text race_client) (race_turns ++ replicate 30 (LRun 101 true)) (boot race_main) =
    Crashed UseAfterFree.
Proof.
  split; [|by vm_compute].
  assert (Hd : match run (text race_client) race_turns (boot race_main) with
               | Next m => dangling m | _ => [] end = [10%positive]) by by vm_compute.
  destruct (run _ _ _) as [m| |]; [by exists m|done..].
Qed.
