(* ===== verification/Tests.v ===== *)
(** * The test programs

    test.h and the programs test-*.c as clients of the library.  A function
    pointer is the number under which the client's table holds the function, a
    variable is an address.  A call of [THREAD] gets the address of its local
    [tid] as its first argument.  The messages, [argv] and the registration of a
    stack with Valgrind, which does nothing on a real CPU, are left out. *)
From S2P Require Import Prelude Bitvec Machine Kthread Uthread Client.
Local Open Scope uprog_scope.

(** ** test.h *)

(** The static variables of test.h *)
Definition test_lock : Z := 1.
Definition test_counter : Z := 1.
Definition test_nope : Z := 2.

(** The process ends here. *)
Definition stop {A} (f : fault) : uprog A := UVis (UStop f) (λ e : Empty_set, match e with end).

(** exit(code) *)
Definition exit {A} (code : Z) : uprog A := stop (Exited code).

(** [x++] on an [int]: the old value. *)
Definition post_incr (x : Z) : uprog Z :=
  v ← ULoad x;
  match int_of (v + 1) with
  | Ok v' => UStore x v' ;; URet v
  | Fault f => stop f
  end.

(** [if (c) p] *)
Definition uwhen (c : bool) (p : uprog unit) : uprog unit := if c then p else URet tt.

Definition INIT (nthreads quantum_us : Z) : uprog unit :=
  r ← UInit nthreads quantum_us;
  uwhen (negb (r =? 0)) (exit 1).

Definition CHECKPOINT (n : Z) : uprog unit :=
  UMutexLock test_lock ;;
  c ← post_incr test_counter;
  UMutexUnlock test_lock ;;
  uwhen (negb (c =? n)) (post_incr test_nope ;; URet tt).

Definition CHECKPOINT_UNORDERED (n : Z) : uprog unit :=
  UMutexLock test_lock ;;
  post_incr test_counter ;;
  UMutexUnlock test_lock ;;
  URet tt.

Definition ASSERT (cond : bool) : uprog unit :=
  uwhen (negb cond) (post_incr test_nope ;; URet tt).

Definition VERIFY (n : Z) : uprog unit :=
  UTeardown ;;
  UMutexLock test_lock ;;
  c ← ULoad test_counter;
  UMutexUnlock test_lock ;;
  uwhen (negb (c =? n)) (post_incr test_nope ;; URet tt) ;;
  k ← ULoad test_nope;
  uwhen (k =? 0) (exit 0) ;;
  exit 1.

Definition THREAD_ARG_STACK (tid func arg : Z) (stack : sptr) (stack_sz : Z) : uprog Z :=
  r ← UCreate tid func arg stack stack_sz;
  uwhen (negb (r =? 0)) (exit 1) ;;
  ULoad tid.

Definition THREAD_ARG (tid func arg : Z) : uprog Z := THREAD_ARG_STACK tid func arg SNull 0.

Definition THREAD (tid func : Z) : uprog Z := THREAD_ARG tid func 0.

(** ** Running a test *)

(** A program: its [main] and the functions it makes threads of. *)
Record test : Type := Test { t_main : uprog unit; t_funcs : list (Z → uprog Z) }.

Definition NULL : Z := 0.

(** Function pointer [f] is the [f]-th function, from 1. *)
Definition t_client (t : test) : client := λ f arg,
  match t_funcs t !! Z.to_nat (f - 1) with
  | Some body => body arg
  | None => stop BadContext
  end.

(** The process when [main] starts: [_test_lock] is initialised statically. *)
Definition t_boot (t : test) : machine :=
  let m := boot (t_main t) in set_mutex (<[MUser test_lock := None]> (m_mutex m)) m.

(** One kernel thread, at most [fuel] commands: how the process ends. *)
Definition t_run (fuel : Z) (t : test) : option fault :=
  match run_thread (text (t_client t)) (Z.to_nat fuel) MAIN_KTID (t_boot t) with
  | Crashed f => Some f
  | _ => None
  end.

(** ** test-create.c *)
Definition TEST_STACK_SZ : Z := 16384.
Definition create_parent_first : Z := 10.
Definition create_stack : sptr := SUser 4096.

(** [x_in_stack]: the local [x] lies in [stack], which is the machine's affair. *)
Definition create_subthread_main (x_in_stack : bool) (arg : Z) : uprog Z :=
  let x := arg in
  CHECKPOINT 2 ;;
  ASSERT (x =? 73) ;;
  ASSERT x_in_stack ;;
  CHECKPOINT 3 ;;
  URet NULL.

Definition create_thread_main (arg : Z) : uprog Z :=
  p ← ULoad create_parent_first;
  uwhen (p <? 0) (UStore create_parent_first 0) ;;
  let x := arg in
  CHECKPOINT 1 ;;
  ASSERT (x =? 42) ;;
  THREAD_ARG_STACK 100 2 73 create_stack TEST_STACK_SZ ;;
  p ← ULoad create_parent_first;
  uwhen (negb (p =? 0)) UYield ;;
  ASSERT (x =? 42) ;;
  CHECKPOINT 4 ;;
  URet NULL.

Definition create_main : uprog unit :=
  UStore create_parent_first (-1) ;;
  INIT 1 0 ;;
  CHECKPOINT 0 ;;
  THREAD_ARG 101 1 42 ;;
  p ← ULoad create_parent_first;
  uwhen (p <? 0) (UStore create_parent_first 1 ;; UYield) ;;
  UYield ;;
  VERIFY 5.

Definition test_create : test := Test create_main [create_thread_main; create_subthread_main true].

(** ** test-exit.c *)
Definition exit_thread2_main (arg : Z) : uprog Z :=
  CHECKPOINT 5 ;;
  UExit NULL ;;
  ASSERT false ;;
  URet NULL.

Definition exit_thread_main (arg : Z) : uprog Z :=
  CHECKPOINT 2 ;;
  THREAD 100 2 ;;
  CHECKPOINT 3 ;;
  UExit NULL ;;
  ASSERT false ;;
  URet NULL.

Definition exit_main : uprog unit :=
  INIT 1 0 ;;
  CHECKPOINT 0 ;;
  THREAD 101 1 ;;
  CHECKPOINT 1 ;;
  UYield ;;
  CHECKPOINT 4 ;;
  UYield ;;
  CHECKPOINT 6 ;;
  UYield ;;
  CHECKPOINT 7 ;;
  UYield ;;
  CHECKPOINT 8 ;;
  UYield ;;
  VERIFY 9.

Definition test_exit : test := Test exit_main [exit_thread_main; exit_thread2_main].

(** ** test-fcfs.c *)
Definition fcfs_parent_first : Z := 10.

Definition fcfs_subthread_main (arg : Z) : uprog Z :=
  CHECKPOINT 2 ;;
  URet NULL.

Definition fcfs_thread2_main (arg : Z) : uprog Z :=
  CHECKPOINT 4 ;;
  URet NULL.

Definition fcfs_thread_main (arg : Z) : uprog Z :=
  CHECKPOINT 1 ;;
  THREAD 100 2 ;;
  p ← ULoad fcfs_parent_first;
  uwhen (negb (p =? 0)) (UYield ;; UYield ;; UYield) ;;
  CHECKPOINT 5 ;;
  URet NULL.

Definition fcfs_main : uprog unit :=
  UStore fcfs_parent_first (-1) ;;
  INIT 1 0 ;;
  CHECKPOINT 0 ;;
  THREAD 101 1 ;;
  p ← ULoad fcfs_parent_first;
  uwhen (p <? 0) (UStore fcfs_parent_first 1 ;; UYield ;; UYield) ;;
  CHECKPOINT 3 ;;
  THREAD 102 3 ;;
  p ← ULoad fcfs_parent_first;
  uwhen (negb (p =? 0)) (UYield ;; UYield) ;;
  VERIFY 6.

Definition test_fcfs : test :=
  Test fcfs_main [fcfs_thread_main; fcfs_subthread_main; fcfs_thread2_main].

(** ** test-join.c *)
Definition join_somevar : Z := 10.
Definition join_othervar : Z := 11.
Definition join_ret : Z := 12.

Definition join_thread4_main (arg : Z) : uprog Z :=
  CHECKPOINT 13 ;;
  URet NULL.

Definition join_thread3_main (arg : Z) : uprog Z :=
  CHECKPOINT 11 ;;
  UExit NULL ;;
  ASSERT false ;;
  URet NULL.

Definition join_thread2_main (arg : Z) : uprog Z :=
  CHECKPOINT 7 ;;
  UYield ;;
  CHECKPOINT 9 ;;
  URet join_othervar.

Definition join_thread_main (arg : Z) : uprog Z :=
  CHECKPOINT 1 ;;
  UYield ;;
  CHECKPOINT 3 ;;
  UYield ;;
  CHECKPOINT 4 ;;
  UYield ;;
  UExit join_somevar ;;
  URet NULL.

Definition join_main : uprog unit :=
  INIT 1 0 ;;
  CHECKPOINT 0 ;;
  tid ← THREAD 100 1;
  UYield ;;
  CHECKPOINT 2 ;;
  UStore join_ret NULL ;;
  UJoin tid (Some join_ret) ;;
  CHECKPOINT 5 ;;
  ret ← ULoad join_ret;
  ASSERT (ret =? join_somevar) ;;
  UYield ;;
  CHECKPOINT 6 ;;
  tid ← THREAD 101 2;
  UYield ;;
  CHECKPOINT 8 ;;
  UYield ;;
  CHECKPOINT 10 ;;
  UJoin tid (Some join_ret) ;;
  ret ← ULoad join_ret;
  ASSERT (ret =? join_othervar) ;;
  tid ← THREAD 102 3;
  UYield ;;
  UJoin tid (Some join_ret) ;;
  CHECKPOINT 12 ;;
  tid ← THREAD 103 4;
  UJoin tid (Some join_ret) ;;
  VERIFY 14.

Definition test_join : test :=
  Test join_main [join_thread_main; join_thread2_main; join_thread3_main; join_thread4_main].

(** ** test-self.c *)
Definition self_parent_first : Z := 10.
Definition m_self : Z := 11.
Definition t_self : Z := 12.
Definition st_self : Z := 13.

Definition self_subthread_main (arg : Z) : uprog Z :=
  CHECKPOINT 2 ;;
  t ← USelf;
  UStore st_self t ;;
  CHECKPOINT 3 ;;
  URet NULL.

Definition self_thread_main (arg : Z) : uprog Z :=
  p ← ULoad self_parent_first;
  uwhen (p <? 0) (UStore self_parent_first 0) ;;
  t ← USelf;
  UStore t_self t ;;
  CHECKPOINT 1 ;;
  stid ← THREAD 100 2;
  p ← ULoad self_parent_first;
  uwhen (negb (p =? 0)) UYield ;;
  t ← USelf; ts ← ULoad t_self;
  ASSERT (t =? ts) ;;
  sts ← ULoad st_self;
  ASSERT (stid =? sts) ;;
  sts ← ULoad st_self; ts ← ULoad t_self;
  ASSERT (negb (sts =? ts)) ;;
  sts ← ULoad st_self; ms ← ULoad m_self;
  ASSERT (negb (sts =? ms)) ;;
  CHECKPOINT 4 ;;
  URet NULL.

Definition self_main : uprog unit :=
  UStore self_parent_first (-1) ;;
  INIT 1 0 ;;
  t ← USelf;
  UStore m_self t ;;
  CHECKPOINT 0 ;;
  tid ← THREAD 101 1;
  p ← ULoad self_parent_first;
  uwhen (p <? 0) (UStore self_parent_first 1 ;; UYield) ;;
  ts ← ULoad t_self;
  ASSERT (tid =? ts) ;;
  ts ← ULoad t_self; ms ← ULoad m_self;
  ASSERT (negb (ts =? ms)) ;;
  t ← USelf; ms ← ULoad m_self;
  ASSERT (t =? ms) ;;
  UYield ;;
  VERIFY 5.

Definition test_self : test := Test self_main [self_thread_main; self_subthread_main].

(** ** test-sem.c *)

(** [for (i = from; i < from + n; i++) p] *)
Fixpoint ufor (n : nat) (from : Z) (p : Z → uprog unit) : uprog unit :=
  match n with
  | O => URet tt
  | S n' => p from ;; ufor n' (from + 1) p
  end.

(** [&sems[i]] *)
Definition sems (i : Z) : Z := 1000 + i.

Definition sem_main : uprog unit :=
  INIT 1 0 ;;
  CHECKPOINT 0 ;;
  ufor 50 0 (λ i,
    USemInit (sems 50) 0 ;;
    USemPost (sems 50) ;;
    USemInit (sems i) i ;;
    USemPost (sems i) ;;
    USemWait (sems 50) ;;
    USemDestroy (sems 50)) ;;
  ufor 50 0 (λ i,
    ufor (Z.to_nat (i + 1)) 0 (λ _, USemWait (sems i) ;; URet tt) ;;
    USemDestroy (sems i)) ;;
  VERIFY 1.

Definition test_sem : test := Test sem_main [].

(** ** test-sem2.c *)
Definition sem2_sem : Z := 1000.
Definition sem2_retval : Z := 10.

Definition sem2_thread (arg : Z) : uprog Z :=
  CHECKPOINT 2 ;;
  USemPost sem2_sem ;;
  CHECKPOINT 3 ;;
  UYield ;;
  CHECKPOINT 5 ;;
  UYield ;;
  CHECKPOINT 6 ;;
  USemPost sem2_sem ;;
  CHECKPOINT 7 ;;
  UYield ;;
  CHECKPOINT 9 ;;
  URet NULL.

Definition sem2_main : uprog unit :=
  INIT 1 0 ;;
  USemInit sem2_sem 0 ;;
  CHECKPOINT 0 ;;
  thr ← THREAD 100 1;
  CHECKPOINT 1 ;;
  USemWait sem2_sem ;;
  CHECKPOINT 4 ;;
  USemWait sem2_sem ;;
  CHECKPOINT 8 ;;
  UJoin thr (Some sem2_retval) ;;
  USemDestroy sem2_sem ;;
  VERIFY 10.

Definition test_sem2 : test := Test sem2_main [sem2_thread].

(** ** test-sem3.c *)
Definition sem3_sem : Z := 1000.
Definition sem3_retval : Z := 10.

Definition sem3_thread (arg : Z) : uprog Z :=
  CHECKPOINT 2 ;;
  USemWait sem3_sem ;;
  CHECKPOINT 3 ;;
  USemPost sem3_sem ;;
  CHECKPOINT 4 ;;
  UYield ;;
  CHECKPOINT 6 ;;
  UYield ;;
  CHECKPOINT 7 ;;
  USemPost sem3_sem ;;
  CHECKPOINT 8 ;;
  UYield ;;
  CHECKPOINT 10 ;;
  URet NULL.

Definition sem3_main : uprog unit :=
  INIT 1 0 ;;
  USemInit sem3_sem 1 ;;
  CHECKPOINT 0 ;;
  thr ← THREAD 100 1;
  CHECKPOINT 1 ;;
  UYield ;;
  USemWait sem3_sem ;;
  CHECKPOINT 5 ;;
  USemWait sem3_sem ;;
  CHECKPOINT 9 ;;
  UJoin thr (Some sem3_retval) ;;
  USemDestroy sem3_sem ;;
  VERIFY 11.

Definition test_sem3 : test := Test sem3_main [sem3_thread].

(** ** test-yield.c *)
Definition yield_parent_first : Z := 10.

(** [parent_first ? a : b] *)
Definition yield_if_parent (a b : Z) : uprog Z :=
  p ← ULoad yield_parent_first;
  URet (if negb (p =? 0) then a else b).

Definition yield_thread2_main (arg : Z) : uprog Z :=
  n ← yield_if_parent 4 2; CHECKPOINT n ;;
  UYield ;;
  n ← yield_if_parent 7 5; CHECKPOINT n ;;
  URet NULL.

Definition yield_thread_main (arg : Z) : uprog Z :=
  p ← ULoad yield_parent_first;
  uwhen (p <? 0) (UStore yield_parent_first 0) ;;
  CHECKPOINT 1 ;;
  THREAD 100 2 ;;
  n ← yield_if_parent 2 4; CHECKPOINT n ;;
  UYield ;;
  n ← yield_if_parent 5 7; CHECKPOINT n ;;
  UYield ;;
  n ← yield_if_parent 8 9; CHECKPOINT n ;;
  UYield ;;
  URet NULL.

Definition yield_main : uprog unit :=
  UStore yield_parent_first (-1) ;;
  INIT 1 0 ;;
  CHECKPOINT 0 ;;
  THREAD 101 1 ;;
  p ← ULoad yield_parent_first;
  uwhen (p <? 0) (UStore yield_parent_first 1 ;; UYield) ;;
  CHECKPOINT 3 ;;
  UYield ;;
  CHECKPOINT 6 ;;
  UYield ;;
  n ← yield_if_parent 9 8; CHECKPOINT n ;;
  UYield ;;
  CHECKPOINT 10 ;;
  UYield ;;
  VERIFY 11.

Definition test_yield : test := Test yield_main [yield_thread_main; yield_thread2_main].

(** ** test-yield2.c *)
Definition yield2_thread2_main (arg : Z) : uprog Z :=
  CHECKPOINT 5 ;;
  UYield ;;
  CHECKPOINT 8 ;;
  URet NULL.

Definition yield2_thread_main (arg : Z) : uprog Z :=
  CHECKPOINT 2 ;;
  THREAD 100 2 ;;
  CHECKPOINT 3 ;;
  UYield ;;
  CHECKPOINT 6 ;;
  UYield ;;
  CHECKPOINT 9 ;;
  UYield ;;
  URet NULL.

Definition yield2_main : uprog unit :=
  INIT 1 0 ;;
  CHECKPOINT 0 ;;
  THREAD 101 1 ;;
  CHECKPOINT 1 ;;
  UYield ;;
  CHECKPOINT 4 ;;
  UYield ;;
  CHECKPOINT 7 ;;
  UYield ;;
  CHECKPOINT 10 ;;
  UYield ;;
  VERIFY 11.

Definition test_yield2 : test := Test yield2_main [yield2_thread_main; yield2_thread2_main].

(** ** test-m2m-pc.c

    The endless loops of the producer and the consumer are calls of the function
    itself.  [DONE] is the number of items, 100000 in the program. *)
Definition KTHREADS : Z := 12.
Definition PRODUCERS : Z := 8.
Definition CONSUMERS : Z := 7.
Definition SLOTS : Z := 10.

Definition pc_mutex : Z := 1000.
Definition pc_full : Z := 1001.
Definition pc_empty : Z := 1002.
Definition numlock : Z := 2.
(* &queue[i] *)
Definition pc_queue (i : Z) : Z := 100 + i.
Definition pc_head : Z := 10.
Definition pc_tail : Z := 11.
Definition pc_next : Z := 12.
Definition pc_dummy : Z := 13.
(* &ctid[i], &ptid[i] *)
Definition pc_ctid (i : Z) : Z := 200 + i.
Definition pc_ptid (i : Z) : Z := 220 + i.

(** [queue[i]], inside the array. *)
Definition pc_slot (i : Z) : uprog Z :=
  if (0 <=? i) && (i <? SLOTS) then URet (pc_queue i) else stop OutOfBounds.

Section producer_consumer.
Context (DONE : Z).

Definition produce : uprog Z :=
  UMutexLock numlock ;;
  next ← ULoad pc_next;
  ret ← (if next <? DONE then post_incr pc_next else URet (-1));
  UMutexUnlock numlock ;;
  URet ret.

Definition consume (x : Z) : uprog unit := CHECKPOINT_UNORDERED x.

Definition producer (arg : Z) : uprog Z :=
  item ← produce;
  USemWait pc_empty ;;
  USemWait pc_mutex ;;
  tail ← post_incr pc_tail;
  slot ← pc_slot tail;
  UStore slot item ;;
  tail ← ULoad pc_tail;
  UStore pc_tail (Z.rem tail SLOTS) ;;
  USemPost pc_mutex ;;
  USemPost pc_full ;;
  if item <? 0 then URet NULL
  else
    uwhen (Z.rem item 7 =? 0) UYield ;;
    UCall 1 arg.

Definition consumer (arg : Z) : uprog Z :=
  USemWait pc_full ;;
  USemWait pc_mutex ;;
  head ← post_incr pc_head;
  slot ← pc_slot head;
  item ← ULoad slot;
  head ← ULoad pc_head;
  UStore pc_head (Z.rem head SLOTS) ;;
  USemPost pc_mutex ;;
  USemPost pc_empty ;;
  UYield ;;
  if item <? 0 then URet NULL
  else
    consume item ;;
    uwhen (Z.rem item 5 =? 0) UYield ;;
    UCall 2 arg.

(** [n] kernel threads. *)
Definition pc_main (n : Z) : uprog unit :=
  INIT n 0 ;;
  UMutexInit numlock ;;
  USemInit pc_mutex 1 ;;
  USemInit pc_full 0 ;;
  USemInit pc_empty SLOTS ;;
  ufor (Z.to_nat CONSUMERS) 0 (λ i, t ← THREAD (300 + i) 2; UStore (pc_ctid i) t) ;;
  ufor (Z.to_nat PRODUCERS) 0 (λ i, t ← THREAD (320 + i) 1; UStore (pc_ptid i) t) ;;
  ufor (Z.to_nat CONSUMERS) 0 (λ i, t ← ULoad (pc_ctid i); UJoin t (Some pc_dummy) ;; URet tt) ;;
  ufor (Z.to_nat PRODUCERS) 0 (λ i, t ← ULoad (pc_ptid i); UJoin t (Some pc_dummy) ;; URet tt) ;;
  USemDestroy pc_empty ;;
  USemDestroy pc_full ;;
  USemDestroy pc_mutex ;;
  UMutexDestroy numlock ;;
  VERIFY DONE.

Definition test_m2m_pc (n : Z) : test := Test (pc_main n) [producer; consumer].
End producer_consumer.

(** ** test-m2m.c

    [usleep] and [clock_gettime] are the environment's, [EACH_COUNT] is 1000000 in the
    program.  [count++] is a load and a store: the test expects increments to be
    lost. *)
Definition M2M_KTHREADS : Z := 4.
Definition EACH_SLEEP : Z := 3000.
Definition m2m_count : Z := 10.
Definition m2m_dummy : Z := 11.

Section parallel.
Context (EACH_COUNT : Z) (usleep : Z → uprog unit) (clock_gettime : uprog (Z * Z)).

Definition m2m_thread0 (arg : Z) : uprog Z :=
  ufor (Z.to_nat EACH_COUNT) 0 (λ _, post_incr m2m_count ;; URet tt) ;;
  URet NULL.

Definition m2m_thread1 (arg : Z) : uprog Z :=
  ufor (Z.to_nat EACH_COUNT) 0 (λ _, post_incr m2m_count ;; URet tt) ;;
  URet NULL.

Definition m2m_sleep0 (arg : Z) : uprog Z := usleep EACH_SLEEP ;; URet NULL.
Definition m2m_sleep1 (arg : Z) : uprog Z := usleep EACH_SLEEP ;; URet NULL.

Definition m2m_main : uprog unit :=
  INIT M2M_KTHREADS 0 ;;
  tid0 ← THREAD 100 1;
  tid1 ← THREAD 101 2;
  UJoin tid0 (Some m2m_dummy) ;;
  UJoin tid1 (Some m2m_dummy) ;;
  count ← ULoad m2m_count;
  ASSERT (count <? EACH_COUNT * 2) ;;
  start ← clock_gettime;
  tid0 ← THREAD 102 3;
  tid1 ← THREAD 103 4;
  UJoin tid0 (Some m2m_dummy) ;;
  UJoin tid1 (Some m2m_dummy) ;;
  end_ ← clock_gettime;
  let '(sec, nsec) := if end_.2 <? start.2 then (end_.1 - 1, end_.2 + 1000000000) else end_ in
  let nsec := nsec - start.2 in
  let sec := sec - start.1 in
  ASSERT ((sec <? 1) && (nsec <=? 1500 * EACH_SLEEP)) ;;
  VERIFY 0.

Definition test_m2m : test := Test m2m_main [m2m_thread0; m2m_thread1; m2m_sleep0; m2m_sleep1].
End parallel.

(** All kernel threads in turn, [q] commands each. *)
Section round_robin.
Context (txt : ∀ A, fn A → prog A) (q : nat).

Fixpoint one_round (ks : list Z) (m : machine) : outcome :=
  match ks with
  | [] => Next m
  | k :: ks' => match run_thread txt q k m with
                | Next m' => one_round ks' m'
                | o => o
                end
  end.

Fixpoint round_robin (n : nat) (m : machine) : outcome :=
  match n with
  | O => Next m
  | S n' => match one_round (elements (dom (m_threads m))) m with
            | Next m' => round_robin n' m'
            | o => o
            end
  end.
End round_robin.

Definition t_run_all (q rounds : Z) (t : test) : option fault :=
  match round_robin (text (t_client t)) (Z.to_nat q) (Z.to_nat rounds) (t_boot t) with
  | Crashed f => Some f
  | _ => None
  end.

(** ** Runs of the tests

    Evaluations of the programs, one schedule each; they show nothing of other schedules.
    Where the program's own constants are out of reach they are changed: the producers
    and consumers handle 20 items for the program's 100000, and the parallelism test makes
    300 increments for its 1000000, with [usleep] returning at once and a clock that
    stands still. *)
Definition tests : list test :=
  [test_create; test_exit; test_fcfs; test_join; test_self; test_sem; test_sem2; test_sem3;
   test_yield; test_yield2].

(** Every test program that needs one kernel thread, as it is, ends with exit(0). *)
Example tests_succeed : Forall (λ t, t_run 60000 t = Some (Exited 0)) tests.
Proof. repeat (constructor; [by vm_compute|]). constructor. Qed.

(** With the changed constants: the producers and consumers on two kernel threads, and the
    parallelism test on four, which execute one command each in turn. *)
Example small_tests_succeed :
  t_run_all 1 10000 (test_m2m_pc 20 2) = Some (Exited 0) ∧
  t_run_all 1 10000 (test_m2m 300 (λ _, URet tt) (URet (0, 0))) = Some (Exited 0).
Proof. by vm_compute. Qed.

(** The producers and consumers with 20 items end with exit(1) on one kernel thread, and on
    twelve that take turns. *)
Example m2m_pc_fails :
  t_run 60000 (test_m2m_pc 20 1) = Some (Exited 1) ∧
  t_run_all 1 20000 (test_m2m_pc 20 KTHREADS) = Some (Exited 1).
Proof. by vm_compute. Qed.
