(* ===== verification/Asm.v ===== *)
(** * Straight-line assembly, as inline asm statements contain it

    The instructions the macros of valgrind.h are made of, with a semantics per
    register: one type of instructions for all the processors, a [cpu] for what
    differs between them.  Also GCC's extended asm: an [asm] statement with its
    constraints, and what a register allocation for it may be. *)
From stdpp Require Import functions.
From S2P Require Import Prelude.

(** ** Instructions *)

(** [%%edi], [r12], [$11] in a template is a register, [%0] an operand of the
    asm statement. *)
Inductive opnd : Type := Reg (r : string) | Arg (n : nat).
Coercion Reg : string >-> opnd.

Inductive instr : Type :=
| Rol (n : Z) (d : opnd)            (* x86: rol $n, d *)
| Rlwinm (d s : opnd) (n mb me : Z) (* ppc: d := (s rotated left by n) & mask of bits mb..me *)
| Rotldi (d s : opnd) (n : Z)       (* ppc64 *)
| Ror (d s : opnd) (n : Z)          (* arm: mov d, s, ror #n; arm64: ror d, s, #n *)
| Lr (d s : opnd)                   (* s390: the low 32 bits of s *)
| Srl (d s : opnd) (n : Z)          (* mips *)
| Dsll (d s : opnd) (n : Z)         (* mips64 *)
| Xchg (a b : opnd)
| Or (d a b : opnd)
| Mov (d s : opnd)
| LoadW (off : Z) (b d : opnd)      (* x86: mov off(b), d *)
| Push (off : Z) (b : opnd)         (* x86: push off(b) *)
| SubI (n : Z) (d : opnd)
| AndI (n : Z) (d : opnd)
| Cfi (directive : string)          (* a directive of the assembler, no code *)
| AddI (n : Z) (d : opnd)           (* ppc: addi d, d, n; s390: aghi d, n; mips: addu d, d, n *)
| Rldicr (d s : opnd) (n me : Z)    (* ppc64: d := (s rotated left by n) & mask of bits 0..me *)
| Bic (d s : opnd) (n : Z)          (* arm: d := s & ~n *)
| StoreW (off : Z) (b s : opnd)     (* store of s to off(b): stw, std, str, sw, sd *)
| PushM (l : list string)           (* arm: push {l}, the first register lowest *)
| CopyW (doff : Z) (db : opnd) (off : Z) (b : opnd)   (* s390: mvc doff(8,db), off(b) *)
| Nop.

#[export] Instance opnd_eq_dec : EqDecision opnd.
Proof. solve_decision. Defined.
#[export] Instance instr_eq_dec : EqDecision instr.
Proof. solve_decision. Defined.

(** ** Processors *)

(** Word size in bits; the register that is always 0 (mips), the stack pointer. *)
Record cpu : Type := Cpu { bits : Z; zero_reg : option string; stack_reg : string }.

(** Registers by name, memory by word address. *)
Record state : Type := State { regs : string → Z; mem : Z → Z }.

Definition word (c : cpu) (z : Z) : Z := z mod 2 ^ bits c.
Definition bytes (c : cpu) : Z := bits c / 8.

(** Rotation of a [w]-bit word by [n] to the left. *)
Definition rotl (w n x : Z) : Z :=
  (Z.lor (Z.shiftl x (n mod w)) (Z.shiftr x (w - n mod w))) mod 2 ^ w.

(** The mask of the bits [mb] to [me] of a 32-bit word, bit 0 the highest. *)
Definition mask_be (mb me : Z) : Z := Z.shiftl (Z.ones (me - mb + 1)) (31 - me).
(** The mask of the bits 0 to [me] of a 64-bit word, bit 0 the highest. *)
Definition mask_be64 (me : Z) : Z := Z.shiftl (Z.ones (me + 1)) (63 - me).

Section exec.
Context (c : cpu) (rho : nat → string).

Definition name (o : opnd) : string := match o with Reg r => r | Arg n => rho n end.

Definition rd (o : opnd) (s : state) : Z :=
  if decide (zero_reg c = Some (name o)) then 0 else regs s (name o).
Definition wr (o : opnd) (v : Z) (s : state) : state :=
  if decide (zero_reg c = Some (name o)) then s else State (<[name o := v]> (regs s)) (mem s).

Definition ld (off : Z) (b : opnd) (s : state) : Z := mem s (word c (rd b s + off)).
Definition st (off : Z) (b : opnd) (v : Z) (s : state) : state :=
  State (regs s) (<[word c (rd b s + off) := v]> (mem s)).
(** Words [vs] at [p], [p + bytes], ... *)
Fixpoint st_words (p : Z) (vs : list Z) (m : Z → Z) : Z → Z :=
  match vs with [] => m | v :: vs => st_words (word c (p + bytes c)) vs (<[p := v]> m) end.

Definition exec1 (i : instr) (s : state) : state :=
  match i with
  | Rol n d => wr d (rotl (bits c) n (rd d s)) s
  | Rlwinm d a n mb me => wr d (Z.land (rotl 32 n (rd a s)) (mask_be mb me)) s
  | Rotldi d a n => wr d (rotl 64 n (rd a s)) s
  | Ror d a n => wr d (rotl (bits c) (- n) (rd a s)) s
  | Lr d a => wr d (Z.shiftl (Z.shiftr (rd d s) 32) 32 + rd a s mod 2 ^ 32) s
  | Srl d a n => wr d (Z.shiftr (rd a s) n) s
  | Dsll d a n => wr d (word c (Z.shiftl (rd a s) n)) s
  | Xchg a b => let va := rd a s in let vb := rd b s in wr b va (wr a vb s)
  | Or d a b => wr d (Z.lor (rd a s) (rd b s)) s
  | Mov d a => wr d (rd a s) s
  | LoadW off b d => wr d (ld off b s) s
  | Push off b =>
      let v := mem s (word c (rd b s + off)) in
      let sp := word c (regs s (stack_reg c) - bytes c) in
      State (<[stack_reg c := sp]> (regs s)) (<[sp := v]> (mem s))
  | SubI n d => wr d (word c (rd d s - n)) s
  | AndI n d => wr d (Z.land (rd d s) n) s
  | Cfi _ => s
  | AddI n d => wr d (word c (rd d s + n)) s
  | Rldicr d a n me => wr d (Z.land (rotl 64 n (rd a s)) (mask_be64 me)) s
  | Bic d a n => wr d (Z.ldiff (rd a s) n) s
  | StoreW off b a => st off b (rd a s) s
  | PushM l =>
      let sp := word c (regs s (stack_reg c) - bytes c * Z.of_nat (length l)) in
      State (<[stack_reg c := sp]> (regs s)) (st_words sp ((λ r, rd (Reg r) s) <$> l) (mem s))
  | CopyW doff db off b => st doff db (ld off b s) s
  | Nop => s
  end.

Definition exec (l : list instr) (s : state) : state := fold_left (λ s i, exec1 i s) l s.
End exec.

(** ** Extended asm *)
Inductive constr : Type :=
| AnyReg                  (* r, and the register classes b, d, a of ppc and s390 *)
| TheReg (r : string)     (* a, d of x86: one register *)
| SameAs (n : nat).       (* 0: the register of operand 0 *)

Record asm : Type := Asm {
  template : list instr;
  outputs : list constr;
  inputs : list (constr * Z);
  clobbers : list string
}.

Definition constrs (a : asm) : list constr := outputs a ++ (inputs a).*1.
Definition input_no (a : asm) (j : nat) : nat := (length (outputs a) + j)%nat.

(** What GCC promises of the registers [rho] it chooses for the operands: the
    constraints hold, no operand is in a clobbered register, in the register that
    is always 0, or in the stack pointer; inputs with different values are in
    different registers. *)
Record allocation (c : cpu) (a : asm) (rho : nat → string) : Prop := {
  al_reg : ∀ n r, constrs a !! n = Some (TheReg r) → rho n = r;
  al_same : ∀ n k, constrs a !! n = Some (SameAs k) → rho n = rho k;
  al_clobber : ∀ n, (n < length (constrs a))%nat → rho n ∉ clobbers a;
  al_zero : ∀ n, (n < length (constrs a))%nat → zero_reg c ≠ Some (rho n);
  al_stack : ∀ n, (n < length (constrs a))%nat → stack_reg c ≠ rho n;
  al_inputs : ∀ i j x y, inputs a !! i = Some x → inputs a !! j = Some y → i ≠ j →
    rho (input_no a i) ≠ rho (input_no a j);
}.

(** The state in which the statement starts: every input is in its register, and
    every register holds a word. *)
Record entered (c : cpu) (a : asm) (rho : nat → string) (s : state) : Prop := {
  en_inputs : ∀ j k v, inputs a !! j = Some (k, v) → regs s (rho (input_no a j)) = word c v;
  en_words : ∀ r, 0 ≤ regs s r < 2 ^ bits c;
}.

Definition asm_exec (c : cpu) (rho : nat → string) (a : asm) (s : state) : state :=
  exec c rho (template a) s.

(** What the statement promises the compiler: nothing changes but its outputs and
    the registers it lists as clobbered. *)
Definition keeps (a : asm) (rho : nat → string) (s s' : state) : Prop :=
  ∀ r, r ∉ rho <$> seq 0 (length (outputs a)) → r ∉ clobbers a → regs s' r = regs s r.

(** ** Equality of states, register by register *)
#[export] Instance state_equiv : Equiv state := λ s s',
  (∀ r, regs s r = regs s' r) ∧ (∀ a, mem s a = mem s' a).
#[export] Instance state_equivalence : Equivalence (≡@{state}).
Proof.
  split.
  - by intros s.
  - intros s s' [H1 H2]. split; intros; [by rewrite H1|by rewrite H2].
  - intros s1 s2 s3 [H1 H2] [H3 H4]. split; intros; [by rewrite H1|by rewrite H2].
Qed.

Section facts.
Context (c : cpu) (rho : nat → string).

#[export] Instance rd_proper o : Proper ((≡) ==> (=)) (rd c rho o).
Proof. intros s s' [H _]. unfold rd. by rewrite H. Qed.
#[export] Instance wr_proper o v : Proper ((≡) ==> (≡)) (wr c rho o v).
Proof.
  intros s s' [H1 H2]. unfold wr. case_decide; [by split|]. split; cbn; [|done].
  intros r. destruct (decide (name rho o = r)) as [->|]; [by rewrite !fn_lookup_insert|].
  by rewrite !fn_lookup_insert_ne.
Qed.
Lemma insert_pointwise {A} `{EqDecision A} (f g : A → Z) k v :
  (∀ x, f x = g x) → ∀ x, <[k := v]> f x = <[k := v]> g x.
Proof.
  intros H x. destruct (decide (k = x)) as [->|]; [by rewrite !fn_lookup_insert|].
  by rewrite !fn_lookup_insert_ne.
Qed.
Lemma st_words_pointwise vs p m m' : (∀ x, m x = m' x) → ∀ x, st_words c p vs m x = st_words c p vs m' x.
Proof.
  revert p m m'. induction vs as [|v vs IH]; intros p m m' H x; [apply H|].
  apply IH. by apply insert_pointwise.
Qed.
#[export] Instance ld_proper off b : Proper ((≡) ==> (=)) (ld c rho off b).
Proof. intros s s' H. unfold ld. rewrite (rd_proper b s s' H). apply H. Qed.
#[export] Instance st_proper off b v : Proper ((≡) ==> (≡)) (st c rho off b v).
Proof.
  intros s s' H. unfold st. rewrite (rd_proper b s s' H).
  split; cbn; [apply H|by apply insert_pointwise, H].
Qed.
#[export] Instance exec1_proper i : Proper ((≡) ==> (≡)) (exec1 c rho i).
Proof.
  intros s s' H. destruct i; cbn -[wr ld st st_words];
    repeat match goal with
    | |- context [rd c rho ?o s] => rewrite (rd_proper o s s' H)
    | |- context [ld c rho ?off ?b s] => rewrite (ld_proper off b s s' H)
    end;
    try done; try by repeat apply wr_proper; try by apply st_proper.
  - rewrite (proj2 H), (proj1 H (stack_reg c)).
    split; cbn; apply insert_pointwise; apply H.
  - rewrite (proj1 H (stack_reg c)). replace ((λ r, rd c rho (Reg r) s) <$> l) with ((λ r, rd c rho (Reg r) s') <$> l).
    2: { apply list_fmap_ext. intros _ o _. symmetry. by apply rd_proper. }
    split; cbn; [apply insert_pointwise, H|apply st_words_pointwise, H].
Qed.
#[export] Instance exec_proper l : Proper ((≡) ==> (≡)) (exec c rho l).
Proof.
  unfold exec. induction l as [|i l IH]; intros s s' H; cbn; [done|]. apply IH. by rewrite H.
Qed.

Lemma exec_app l1 l2 s : exec c rho (l1 ++ l2) s = exec c rho l2 (exec c rho l1 s).
Proof. apply fold_left_app. Qed.

(** Writing back what a register holds changes nothing. *)
Lemma wr_same o v s : rd c rho o s = v → wr c rho o v s ≡ s.
Proof.
  unfold rd, wr. case_decide; [done|]. intros <-. split; cbn; [|done]. intros r.
  destruct (decide (name rho o = r)) as [->|]; [by rewrite fn_lookup_insert|].
  by rewrite fn_lookup_insert_ne.
Qed.

Lemma wr_wr o v v' s : wr c rho o v (wr c rho o v' s) ≡ wr c rho o v s.
Proof.
  unfold wr. case_decide; [done|]. split; cbn; [|done]. intros r.
  destruct (decide (name rho o = r)) as [->|]; [by rewrite !fn_lookup_insert|].
  by rewrite !fn_lookup_insert_ne.
Qed.

Lemma rd_wr o v s : zero_reg c ≠ Some (name rho o) → rd c rho o (wr c rho o v s) = v.
Proof. intros. unfold rd, wr. rewrite decide_False by done. cbn. rewrite decide_False by done. apply fn_lookup_insert. Qed.
End facts.

(** ** Rotations *)
Lemma rotl_range w n x : 0 < w → 0 ≤ rotl w n x < 2 ^ w.
Proof. intros. apply Z.mod_pos_bound. by apply Z.pow_pos_nonneg; lia. Qed.

Lemma testbit_range w x i : 0 ≤ x < 2 ^ w → w ≤ i → 0 ≤ w → Z.testbit x i = false.
Proof.
  intros Hx Hi Hw. destruct (decide (x = 0)) as [->|]; [apply Z.testbit_0_l|].
  apply Z.bits_above_log2; [lia|]. apply Z.log2_lt_pow2; [lia|].
  apply Z.lt_le_trans with (2 ^ w); [lia|]. apply Z.pow_le_mono_r; lia.
Qed.

(** Bit [i] of the rotated word is bit [i - n] of the word, modulo the width. *)
Lemma rotl_testbit w n x i : 0 < w → 0 ≤ x < 2 ^ w → 0 ≤ i < w →
  Z.testbit (rotl w n x) i = Z.testbit x ((i - n) mod w).
Proof.
  intros Hw Hx Hi. unfold rotl. pose proof (Z.mod_pos_bound n w Hw) as Hn.
  rewrite Z.mod_pow2_bits_low, Z.lor_spec, Z.shiftl_spec, Z.shiftr_spec by lia.
  rewrite Zminus_mod. rewrite (Z.mod_small i w) by lia.
  destruct (decide (n mod w ≤ i)).
  - rewrite (Z.mod_small (i - n mod w)) by lia.
    rewrite (testbit_range w x (i + (w - n mod w))) by lia. apply orb_false_r.
  - rewrite (Z.testbit_neg_r x (i - n mod w)) by lia. cbn. f_equal.
    apply Z.mod_unique_pos with (-1); lia.
Qed.

Lemma rotl_rotl w a b x : 0 < w → 0 ≤ x < 2 ^ w → rotl w a (rotl w b x) = rotl w (a + b) x.
Proof.
  intros Hw Hx. apply Z.bits_inj'. intros i Hi.
  destruct (decide (i < w)).
  - rewrite !rotl_testbit by (try apply rotl_range; lia || (try apply Z.mod_pos_bound; lia)).
    f_equal. rewrite Zminus_mod_idemp_l. f_equal. lia.
  - rewrite !(testbit_range w); [done|..]; try lia; by apply rotl_range.
Qed.

(** A rotation by a multiple of the width changes nothing. *)
Lemma rotl_full w n x : 0 < w → 0 ≤ x < 2 ^ w → n mod w = 0 → rotl w n x = x.
Proof.
  intros Hw Hx Hn. apply Z.bits_inj'. intros i Hi.
  destruct (decide (i < w)).
  - rewrite rotl_testbit by lia. f_equal. rewrite Zminus_mod, Hn, Z.sub_0_r, Z.mod_mod by lia.
    apply Z.mod_small. lia.
  - rewrite !(testbit_range w); [done|..]; try lia. by apply rotl_range.
Qed.
