(* ===== verification/Valgrind.v ===== *)
(** * valgrind.h: client requests

    uthread.c registers its stacks with Valgrind through a macro of this header.
    The macro is inline assembly that does nothing on a real CPU and that
    Valgrind's translator recognises.  Here: the platform selection, for every
    architecture the macros that make the special instruction sequences, the
    request codes and the macros that issue them. *)
From S2P Require Import Prelude Asm.
Local Open Scope string_scope.
Local Open Scope Z_scope.

(** ** Platform selection *)
Inductive platform : Type :=
| PLAT_x86_darwin | PLAT_amd64_darwin | PLAT_x86_win32 | PLAT_amd64_win64
| PLAT_x86_linux | PLAT_amd64_linux | PLAT_ppc32_linux | PLAT_ppc64be_linux
| PLAT_ppc64le_linux | PLAT_arm_linux | PLAT_arm64_linux | PLAT_s390x_linux
| PLAT_mips32_linux | PLAT_mips64_linux | PLAT_x86_solaris | PLAT_amd64_solaris.
#[export] Instance platform_eq_dec : EqDecision platform.
Proof. solve_decision. Defined.

(** The compiler's predefined macros: a macro has a value or is not defined; an
    undefined name is 0 in an [#if]. *)
Definition macros : Type := gmap string Z.
Definition defined (d : macros) (x : string) : bool := bool_decide (is_Some (d !! x)).
Definition value (d : macros) (x : string) : Z := default 0 (d !! x).

(** The chain of [#if] and [#elif]; [None] is the last branch, which defines
    NVALGRIND. *)
Definition select (d : macros) : option platform :=
  let D := defined d in
  if D "__APPLE__" && D "__i386__" then Some PLAT_x86_darwin
  else if D "__APPLE__" && D "__x86_64__" then Some PLAT_amd64_darwin
  else if (D "__MINGW32__" && negb (D "__MINGW64__")) || D "__CYGWIN32__"
          || (D "_WIN32" && D "_M_IX86") then Some PLAT_x86_win32
  else if D "__MINGW64__" || (D "_WIN64" && D "_M_X64") then Some PLAT_amd64_win64
  else if D "__linux__" && D "__i386__" then Some PLAT_x86_linux
  else if D "__linux__" && D "__x86_64__" && negb (D "__ILP32__") then Some PLAT_amd64_linux
  else if D "__linux__" && D "__powerpc__" && negb (D "__powerpc64__") then
    Some PLAT_ppc32_linux
  else if D "__linux__" && D "__powerpc__" && D "__powerpc64__"
          && negb (value d "_CALL_ELF" =? 2) then Some PLAT_ppc64be_linux
  else if D "__linux__" && D "__powerpc__" && D "__powerpc64__"
          && (value d "_CALL_ELF" =? 2) then Some PLAT_ppc64le_linux
  else if D "__linux__" && D "__arm__" && negb (D "__aarch64__") then Some PLAT_arm_linux
  else if D "__linux__" && D "__aarch64__" && negb (D "__arm__") then Some PLAT_arm64_linux
  else if D "__linux__" && D "__s390__" && D "__s390x__" then Some PLAT_s390x_linux
  else if D "__linux__" && D "__mips__" && (value d "__mips" =? 64) then Some PLAT_mips64_linux
  else if D "__linux__" && D "__mips__" && negb (value d "__mips" =? 64) then
    Some PLAT_mips32_linux
  else if D "__sun" && D "__i386__" then Some PLAT_x86_solaris
  else if D "__sun" && D "__x86_64__" then Some PLAT_amd64_solaris
  else None.

(** ** Special instruction sequences *)

(** [VALGRIND_DO_CLIENT_REQUEST_EXPR]: the array [_zzq_args], which the compiler
    puts at [ptr], and the asm statement, whose operand 0 is [_zzq_result]. *)
Record request : Type := Request { zzq_args : list Z; zzq_asm : asm }.

(** What a special sequence means to Valgrind, with the registers the comments of
    the header name. *)
Inductive magic : Type :=
| ClientRequest (res arg : string)   (* res = client_request ( arg ) *)
| NrContext (res : string)           (* res = guest_NRADDR *)
| NrGpr2 (res : string)              (* res = guest_NRADDR_GPR2 *)
| CallNoredir (target : string)      (* call-noredir *target *)
| InjectIr.

(** The macros of one architecture. *)
Record arch : Type := Arch {
  a_cpu : cpu;
  a_preamble : list instr;           (* __SPECIAL_INSTRUCTION_PREAMBLE *)
  a_request : Z → Z → Z → Z → Z → Z → Z → Z → request;
  a_nr_context : list asm;           (* the asm statements of VALGRIND_GET_NR_CONTEXT *)
  a_noredir : option (list instr);   (* VALGRIND_CALL_NOREDIR_*, ..._BRANCH_AND_LINK_... *)
  a_inject : asm;                    (* VALGRIND_VEX_INJECT_IR *)
  a_marks : list (instr * magic)     (* the instruction after the preamble *)
}.

(** *** x86-{linux,darwin,solaris} *)
Definition x86_cpu : cpu := Cpu 32 None "esp".
Definition x86_PREAMBLE : list instr :=
  [Rol 3 "edi"; Rol 13 "edi"; Rol 29 "edi"; Rol 19 "edi"].

Definition x86_DO_CLIENT_REQUEST_EXPR
    (ptr zzq_default zzq_request a1 a2 a3 a4 a5 : Z) : request :=
  Request
    [word x86_cpu zzq_request; word x86_cpu a1; word x86_cpu a2; word x86_cpu a3;
     word x86_cpu a4; word x86_cpu a5]
    (Asm (x86_PREAMBLE ++ [Xchg "ebx" "ebx"])
      [TheReg "edx"]
      [(TheReg "eax", ptr); (SameAs 0, zzq_default)]
      ["cc"; "memory"]).

Definition x86_GET_NR_CONTEXT : list asm :=
  [Asm (x86_PREAMBLE ++ [Xchg "ecx" "ecx"]) [TheReg "eax"] [] ["cc"; "memory"]].

Definition x86_CALL_NOREDIR_EAX : list instr := x86_PREAMBLE ++ [Xchg "edx" "edx"].

Definition x86_VEX_INJECT_IR : asm := Asm (x86_PREAMBLE ++ [Xchg "edi" "edi"]) [] [] ["cc";
  "memory"].

Definition x86_marks : list (instr * magic) :=
  [(Xchg "ebx" "ebx", ClientRequest "edx" "eax");
   (Xchg "ecx" "ecx", NrContext "eax");
   (Xchg "edx" "edx", CallNoredir "eax"); (Xchg "edi" "edi", InjectIr)].

Definition x86 : arch := Arch x86_cpu x86_PREAMBLE x86_DO_CLIENT_REQUEST_EXPR
  x86_GET_NR_CONTEXT (Some x86_CALL_NOREDIR_EAX) x86_VEX_INJECT_IR x86_marks.

(** *** x86-Win32, for Microsoft's compiler

    Its [__asm] blocks name the local variables of the function: an operand stands for
    such a variable, and the block may change the registers that the compiler does not
    count on after it.  VALGRIND_CALL_NOREDIR_EAX is the word ERROR, so there are no
    hand-made calls. *)
Definition msvc_scratch : list string := ["eax"; "ebx"; "ecx"; "edx"; "esi"; "edi"].
Definition x86_msvc_PREAMBLE : list instr :=
  [Rol 3 "edi"; Rol 13 "edi"; Rol 29 "edi"; Rol 19 "edi"].

Definition valgrind_do_client_request_expr
    (ptr zzq_default zzq_request a1 a2 a3 a4 a5 : Z) : request :=
  Request
    [word x86_cpu zzq_request; word x86_cpu a1; word x86_cpu a2; word x86_cpu a3;
     word x86_cpu a4; word x86_cpu a5]
    (Asm ([Mov "eax" (Arg 1); Mov "edx" (Arg 2)] ++ x86_msvc_PREAMBLE ++
        [Xchg "ebx" "ebx"; Mov (Arg 0) "edx"])
      [AnyReg]
      [(AnyReg, ptr); (AnyReg, zzq_default)]
      msvc_scratch).

Definition x86_msvc_GET_NR_CONTEXT : list asm :=
  [Asm (x86_msvc_PREAMBLE ++ [Xchg "ecx" "ecx"; Mov (Arg 0) "eax"]) [AnyReg] [] msvc_scratch].

Definition x86_msvc_VEX_INJECT_IR : asm :=
  Asm (x86_msvc_PREAMBLE ++ [Xchg "edi" "edi"]) [] [] msvc_scratch.

Definition x86_msvc : arch := Arch x86_cpu x86_msvc_PREAMBLE valgrind_do_client_request_expr
  x86_msvc_GET_NR_CONTEXT None x86_msvc_VEX_INJECT_IR x86_marks.

(** *** amd64-{linux,darwin,solaris} *)
Definition amd64_cpu : cpu := Cpu 64 None "rsp".
Definition amd64_PREAMBLE : list instr :=
  [Rol 3 "rdi"; Rol 13 "rdi"; Rol 61 "rdi"; Rol 51 "rdi"].

Definition amd64_DO_CLIENT_REQUEST_EXPR
    (ptr zzq_default zzq_request a1 a2 a3 a4 a5 : Z) : request :=
  Request
    [word amd64_cpu zzq_request; word amd64_cpu a1; word amd64_cpu a2; word amd64_cpu a3;
     word amd64_cpu a4; word amd64_cpu a5]
    (Asm (amd64_PREAMBLE ++ [Xchg "rbx" "rbx"])
      [TheReg "rdx"]
      [(TheReg "rax", ptr); (SameAs 0, zzq_default)]
      ["cc"; "memory"]).

Definition amd64_GET_NR_CONTEXT : list asm :=
  [Asm (amd64_PREAMBLE ++ [Xchg "rcx" "rcx"]) [TheReg "rax"] [] ["cc"; "memory"]].

Definition amd64_CALL_NOREDIR_RAX : list instr := amd64_PREAMBLE ++ [Xchg "rdx" "rdx"].

Definition amd64_VEX_INJECT_IR : asm :=
  Asm (amd64_PREAMBLE ++ [Xchg "rdi" "rdi"]) [] [] ["cc"; "memory"].

Definition amd64_marks : list (instr * magic) :=
  [(Xchg "rbx" "rbx", ClientRequest "rdx" "rax");
   (Xchg "rcx" "rcx", NrContext "rax");
   (Xchg "rdx" "rdx", CallNoredir "rax"); (Xchg "rdi" "rdi", InjectIr)].

Definition amd64 : arch := Arch amd64_cpu amd64_PREAMBLE amd64_DO_CLIENT_REQUEST_EXPR
  amd64_GET_NR_CONTEXT (Some amd64_CALL_NOREDIR_RAX) amd64_VEX_INJECT_IR amd64_marks.

(** *** ppc32-linux *)
Definition ppc32_cpu : cpu := Cpu 32 None "r1".
Definition ppc32_PREAMBLE : list instr :=
  [Rlwinm "r0" "r0" 3 0 31; Rlwinm "r0" "r0" 13 0 31; Rlwinm "r0" "r0" 29 0 31;
     Rlwinm "r0" "r0" 19 0 31].

Definition ppc32_DO_CLIENT_REQUEST_EXPR
    (ptr zzq_default zzq_request a1 a2 a3 a4 a5 : Z) : request :=
  Request
    [word ppc32_cpu zzq_request; word ppc32_cpu a1; word ppc32_cpu a2; word ppc32_cpu a3;
     word ppc32_cpu a4; word ppc32_cpu a5]
    (Asm ([Mov "r3" (Arg 1); Mov "r4" (Arg 2)] ++ ppc32_PREAMBLE ++
        [Or "r1" "r1" "r1"; Mov (Arg 0) "r3"])
      [AnyReg]
      [(AnyReg, zzq_default); (AnyReg, ptr)]
      ["cc"; "memory"; "r3"; "r4"]).

Definition ppc32_GET_NR_CONTEXT : list asm :=
  [Asm (ppc32_PREAMBLE ++ [Or "r2" "r2" "r2"; Mov (Arg 0) "r3"]) [AnyReg] [] ["cc"; "memory";
     "r3"]].

Definition ppc32_BRANCH_AND_LINK_TO_NOREDIR_R11 : list instr :=
  ppc32_PREAMBLE ++ [Or "r3" "r3" "r3"].

Definition ppc32_VEX_INJECT_IR : asm := Asm (ppc32_PREAMBLE ++ [Or "r5" "r5" "r5"]) [] [] [].

Definition ppc32_marks : list (instr * magic) :=
  [(Or "r1" "r1" "r1", ClientRequest "r3" "r4");
   (Or "r2" "r2" "r2", NrContext "r3");
   (Or "r3" "r3" "r3", CallNoredir "r11"); (Or "r5" "r5" "r5", InjectIr)].

Definition ppc32 : arch := Arch ppc32_cpu ppc32_PREAMBLE ppc32_DO_CLIENT_REQUEST_EXPR
  ppc32_GET_NR_CONTEXT (Some ppc32_BRANCH_AND_LINK_TO_NOREDIR_R11) ppc32_VEX_INJECT_IR ppc32_marks.

(** *** ppc64-linux, big endian *)
Definition ppc64be_cpu : cpu := Cpu 64 None "r1".
Definition ppc64be_PREAMBLE : list instr :=
  [Rotldi "r0" "r0" 3; Rotldi "r0" "r0" 13; Rotldi "r0" "r0" 61; Rotldi "r0" "r0" 51].

Definition ppc64be_DO_CLIENT_REQUEST_EXPR
    (ptr zzq_default zzq_request a1 a2 a3 a4 a5 : Z) : request :=
  Request
    [word ppc64be_cpu zzq_request; word ppc64be_cpu a1; word ppc64be_cpu a2;
     word ppc64be_cpu a3;
     word ppc64be_cpu a4; word ppc64be_cpu a5]
    (Asm ([Mov "r3" (Arg 1); Mov "r4" (Arg 2)] ++ ppc64be_PREAMBLE ++
        [Or "r1" "r1" "r1"; Mov (Arg 0) "r3"])
      [AnyReg]
      [(AnyReg, zzq_default); (AnyReg, ptr)]
      ["cc"; "memory"; "r3"; "r4"]).

Definition ppc64be_GET_NR_CONTEXT : list asm :=
  [Asm (ppc64be_PREAMBLE ++ [Or "r2" "r2" "r2"; Mov (Arg 0) "r3"]) [AnyReg] [] ["cc";
     "memory"; "r3"];
   Asm (ppc64be_PREAMBLE ++ [Or "r4" "r4" "r4"; Mov (Arg 0) "r3"]) [AnyReg] [] ["cc";
     "memory"; "r3"]].

Definition ppc64be_BRANCH_AND_LINK_TO_NOREDIR_R11 : list instr :=
  ppc64be_PREAMBLE ++ [Or "r3" "r3" "r3"].

Definition ppc64be_VEX_INJECT_IR : asm :=
  Asm (ppc64be_PREAMBLE ++ [Or "r5" "r5" "r5"]) [] [] [].

Definition ppc64be_marks : list (instr * magic) :=
  [(Or "r1" "r1" "r1", ClientRequest "r3" "r4");
   (Or "r2" "r2" "r2", NrContext "r3");
   (Or "r4" "r4" "r4", NrGpr2 "r3");
   (Or "r3" "r3" "r3", CallNoredir "r11"); (Or "r5" "r5" "r5", InjectIr)].

Definition ppc64be : arch := Arch ppc64be_cpu ppc64be_PREAMBLE ppc64be_DO_CLIENT_REQUEST_EXPR
  ppc64be_GET_NR_CONTEXT (Some ppc64be_BRANCH_AND_LINK_TO_NOREDIR_R11)
  ppc64be_VEX_INJECT_IR ppc64be_marks.

(** *** ppc64-linux, little endian *)
Definition ppc64le_cpu : cpu := Cpu 64 None "r1".
Definition ppc64le_PREAMBLE : list instr :=
  [Rotldi "r0" "r0" 3; Rotldi "r0" "r0" 13; Rotldi "r0" "r0" 61; Rotldi "r0" "r0" 51].

Definition ppc64le_DO_CLIENT_REQUEST_EXPR
    (ptr zzq_default zzq_request a1 a2 a3 a4 a5 : Z) : request :=
  Request
    [word ppc64le_cpu zzq_request; word ppc64le_cpu a1; word ppc64le_cpu a2;
     word ppc64le_cpu a3;
     word ppc64le_cpu a4; word ppc64le_cpu a5]
    (Asm ([Mov "r3" (Arg 1); Mov "r4" (Arg 2)] ++ ppc64le_PREAMBLE ++
        [Or "r1" "r1" "r1"; Mov (Arg 0) "r3"])
      [AnyReg]
      [(AnyReg, zzq_default); (AnyReg, ptr)]
      ["cc"; "memory"; "r3"; "r4"]).

Definition ppc64le_GET_NR_CONTEXT : list asm :=
  [Asm (ppc64le_PREAMBLE ++ [Or "r2" "r2" "r2"; Mov (Arg 0) "r3"]) [AnyReg] [] ["cc";
     "memory"; "r3"];
   Asm (ppc64le_PREAMBLE ++ [Or "r4" "r4" "r4"; Mov (Arg 0) "r3"]) [AnyReg] [] ["cc";
     "memory"; "r3"]].

Definition ppc64le_BRANCH_AND_LINK_TO_NOREDIR_R12 : list instr :=
  ppc64le_PREAMBLE ++ [Or "r3" "r3" "r3"].

Definition ppc64le_VEX_INJECT_IR : asm :=
  Asm (ppc64le_PREAMBLE ++ [Or "r5" "r5" "r5"]) [] [] [].

Definition ppc64le_marks : list (instr * magic) :=
  [(Or "r1" "r1" "r1", ClientRequest "r3" "r4");
   (Or "r2" "r2" "r2", NrContext "r3");
   (Or "r4" "r4" "r4", NrGpr2 "r3");
   (Or "r3" "r3" "r3", CallNoredir "r12"); (Or "r5" "r5" "r5", InjectIr)].

Definition ppc64le : arch := Arch ppc64le_cpu ppc64le_PREAMBLE ppc64le_DO_CLIENT_REQUEST_EXPR
  ppc64le_GET_NR_CONTEXT (Some ppc64le_BRANCH_AND_LINK_TO_NOREDIR_R12)
  ppc64le_VEX_INJECT_IR ppc64le_marks.

(** *** arm-linux *)
Definition arm_cpu : cpu := Cpu 32 None "sp".
Definition arm_PREAMBLE : list instr :=
  [Ror "r12" "r12" 3; Ror "r12" "r12" 13; Ror "r12" "r12" 29; Ror "r12" "r12" 19].

Definition arm_DO_CLIENT_REQUEST_EXPR
    (ptr zzq_default zzq_request a1 a2 a3 a4 a5 : Z) : request :=
  Request
    [word arm_cpu zzq_request; word arm_cpu a1; word arm_cpu a2; word arm_cpu a3;
     word arm_cpu a4; word arm_cpu a5]
    (Asm ([Mov "r3" (Arg 1); Mov "r4" (Arg 2)] ++ arm_PREAMBLE ++
        [Or "r10" "r10" "r10"; Mov (Arg 0) "r3"])
      [AnyReg]
      [(AnyReg, zzq_default); (AnyReg, ptr)]
      ["cc"; "memory"; "r3"; "r4"]).

Definition arm_GET_NR_CONTEXT : list asm :=
  [Asm (arm_PREAMBLE ++ [Or "r11" "r11" "r11"; Mov (Arg 0) "r3"]) [AnyReg] [] ["cc"; "memory";
     "r3"]].

Definition arm_BRANCH_AND_LINK_TO_NOREDIR_R4 : list instr :=
  arm_PREAMBLE ++ [Or "r12" "r12" "r12"].

Definition arm_VEX_INJECT_IR : asm := Asm (arm_PREAMBLE ++ [Or "r9" "r9" "r9"]) [] [] ["cc";
  "memory"].

Definition arm_marks : list (instr * magic) :=
  [(Or "r10" "r10" "r10", ClientRequest "r3" "r4");
   (Or "r11" "r11" "r11", NrContext "r3");
   (Or "r12" "r12" "r12", CallNoredir "r4"); (Or "r9" "r9" "r9", InjectIr)].

Definition arm : arch := Arch arm_cpu arm_PREAMBLE arm_DO_CLIENT_REQUEST_EXPR
  arm_GET_NR_CONTEXT (Some arm_BRANCH_AND_LINK_TO_NOREDIR_R4) arm_VEX_INJECT_IR arm_marks.

(** *** arm64-linux *)
Definition arm64_cpu : cpu := Cpu 64 None "sp".
Definition arm64_PREAMBLE : list instr :=
  [Ror "x12" "x12" 3; Ror "x12" "x12" 13; Ror "x12" "x12" 51; Ror "x12" "x12" 61].

Definition arm64_DO_CLIENT_REQUEST_EXPR
    (ptr zzq_default zzq_request a1 a2 a3 a4 a5 : Z) : request :=
  Request
    [word arm64_cpu zzq_request; word arm64_cpu a1; word arm64_cpu a2; word arm64_cpu a3;
     word arm64_cpu a4; word arm64_cpu a5]
    (Asm ([Mov "x3" (Arg 1); Mov "x4" (Arg 2)] ++ arm64_PREAMBLE ++
        [Or "x10" "x10" "x10"; Mov (Arg 0) "x3"])
      [AnyReg]
      [(AnyReg, zzq_default); (AnyReg, ptr)]
      ["cc"; "memory"; "x3"; "x4"]).

Definition arm64_GET_NR_CONTEXT : list asm :=
  [Asm (arm64_PREAMBLE ++ [Or "x11" "x11" "x11"; Mov (Arg 0) "x3"]) [AnyReg] [] ["cc";
     "memory"; "x3"]].

Definition arm64_BRANCH_AND_LINK_TO_NOREDIR_X8 : list instr :=
  arm64_PREAMBLE ++ [Or "x12" "x12" "x12"].

Definition arm64_VEX_INJECT_IR : asm :=
  Asm (arm64_PREAMBLE ++ [Or "x9" "x9" "x9"]) [] [] ["cc"; "memory"].

Definition arm64_marks : list (instr * magic) :=
  [(Or "x10" "x10" "x10", ClientRequest "x3" "x4");
   (Or "x11" "x11" "x11", NrContext "x3");
   (Or "x12" "x12" "x12", CallNoredir "x8"); (Or "x9" "x9" "x9", InjectIr)].

Definition arm64 : arch := Arch arm64_cpu arm64_PREAMBLE arm64_DO_CLIENT_REQUEST_EXPR
  arm64_GET_NR_CONTEXT (Some arm64_BRANCH_AND_LINK_TO_NOREDIR_X8) arm64_VEX_INJECT_IR arm64_marks.

(** *** s390x-linux *)
Definition s390x_cpu : cpu := Cpu 64 None "15".
Definition s390x_PREAMBLE : list instr :=
  [Lr "15" "15"; Lr "1" "1"; Lr "2" "2"; Lr "3" "3"].

Definition s390x_DO_CLIENT_REQUEST_EXPR
    (ptr zzq_default zzq_request a1 a2 a3 a4 a5 : Z) : request :=
  Request
    [word s390x_cpu zzq_request; word s390x_cpu a1; word s390x_cpu a2; word s390x_cpu a3;
     word s390x_cpu a4; word s390x_cpu a5]
    (Asm ([Mov "2" (Arg 1); Mov "3" (Arg 2)] ++ s390x_PREAMBLE ++
        [Lr "2" "2"; Mov (Arg 0) "3"])
      [AnyReg]
      [(AnyReg, ptr); (SameAs 0, zzq_default)]
      ["cc"; "2"; "3"; "memory"]).

Definition s390x_GET_NR_CONTEXT : list asm :=
  [Asm (s390x_PREAMBLE ++ [Lr "3" "3"; Mov (Arg 0) "3"]) [AnyReg] [] ["cc"; "3"; "memory"]].

Definition s390x_CALL_NOREDIR_R1 : list instr := s390x_PREAMBLE ++ [Lr "4" "4"].

Definition s390x_VEX_INJECT_IR : asm := Asm (s390x_PREAMBLE ++ [Lr "5" "5"]) [] [] [].

Definition s390x_marks : list (instr * magic) :=
  [(Lr "2" "2", ClientRequest "3" "2");
   (Lr "3" "3", NrContext "3");
   (Lr "4" "4", CallNoredir "1"); (Lr "5" "5", InjectIr)].

Definition s390x : arch := Arch s390x_cpu s390x_PREAMBLE s390x_DO_CLIENT_REQUEST_EXPR
  s390x_GET_NR_CONTEXT (Some s390x_CALL_NOREDIR_R1) s390x_VEX_INJECT_IR s390x_marks.

(** *** mips32-linux *)
Definition mips32_cpu : cpu := Cpu 32 (Some "$0") "$29".
Definition mips32_PREAMBLE : list instr :=
  [Srl "$0" "$0" 13; Srl "$0" "$0" 29; Srl "$0" "$0" 3; Srl "$0" "$0" 19].

Definition mips32_DO_CLIENT_REQUEST_EXPR
    (ptr zzq_default zzq_request a1 a2 a3 a4 a5 : Z) : request :=
  Request
    [word mips32_cpu zzq_request; word mips32_cpu a1; word mips32_cpu a2; word mips32_cpu a3;
     word mips32_cpu a4; word mips32_cpu a5]
    (Asm ([Mov "$11" (Arg 1); Mov "$12" (Arg 2)] ++ mips32_PREAMBLE ++
        [Or "$13" "$13" "$13"; Mov (Arg 0) "$11"])
      [AnyReg]
      [(AnyReg, zzq_default); (AnyReg, ptr)]
      ["$11"; "$12"; "memory"]).

Definition mips32_GET_NR_CONTEXT : list asm :=
  [Asm (mips32_PREAMBLE ++ [Or "$14" "$14" "$14"; Mov (Arg 0) "$11"]) [AnyReg] [] ["$11"]].

Definition mips32_CALL_NOREDIR_T9 : list instr := mips32_PREAMBLE ++ [Or "$15" "$15" "$15"].

Definition mips32_VEX_INJECT_IR : asm :=
  Asm (mips32_PREAMBLE ++ [Or "$11" "$11" "$11"]) [] [] [].

Definition mips32_marks : list (instr * magic) :=
  [(Or "$13" "$13" "$13", ClientRequest "$11" "$12");
   (Or "$14" "$14" "$14", NrContext "$11");
   (Or "$15" "$15" "$15", CallNoredir "$25"); (Or "$11" "$11" "$11", InjectIr)].

Definition mips32 : arch := Arch mips32_cpu mips32_PREAMBLE mips32_DO_CLIENT_REQUEST_EXPR
  mips32_GET_NR_CONTEXT (Some mips32_CALL_NOREDIR_T9) mips32_VEX_INJECT_IR mips32_marks.

(** *** mips64-linux *)
Definition mips64_cpu : cpu := Cpu 64 (Some "$0") "$29".
Definition mips64_PREAMBLE : list instr :=
  [Dsll "$0" "$0" 3; Dsll "$0" "$0" 13; Dsll "$0" "$0" 29; Dsll "$0" "$0" 19].

Definition mips64_DO_CLIENT_REQUEST_EXPR
    (ptr zzq_default zzq_request a1 a2 a3 a4 a5 : Z) : request :=
  Request
    [word mips64_cpu zzq_request; word mips64_cpu a1; word mips64_cpu a2; word mips64_cpu a3;
     word mips64_cpu a4; word mips64_cpu a5]
    (Asm ([Mov "$11" (Arg 1); Mov "$12" (Arg 2)] ++ mips64_PREAMBLE ++
        [Or "$13" "$13" "$13"; Mov (Arg 0) "$11"])
      [AnyReg]
      [(AnyReg, zzq_default); (AnyReg, ptr)]
      ["$11"; "$12"; "memory"]).

Definition mips64_GET_NR_CONTEXT : list asm :=
  [Asm (mips64_PREAMBLE ++ [Or "$14" "$14" "$14"; Mov (Arg 0) "$11"]) [AnyReg] [] ["$11"]].

Definition mips64_CALL_NOREDIR_T9 : list instr := mips64_PREAMBLE ++ [Or "$15" "$15" "$15"].

Definition mips64_VEX_INJECT_IR : asm :=
  Asm (mips64_PREAMBLE ++ [Or "$11" "$11" "$11"]) [] [] [].

Definition mips64_marks : list (instr * magic) :=
  [(Or "$13" "$13" "$13", ClientRequest "$11" "$12");
   (Or "$14" "$14" "$14", NrContext "$11");
   (Or "$15" "$15" "$15", CallNoredir "$25"); (Or "$11" "$11" "$11", InjectIr)].

Definition mips64 : arch := Arch mips64_cpu mips64_PREAMBLE mips64_DO_CLIENT_REQUEST_EXPR
  mips64_GET_NR_CONTEXT (Some mips64_CALL_NOREDIR_T9) mips64_VEX_INJECT_IR mips64_marks.

(** ** The macros of a platform

    The x86 and amd64 sections also serve Windows when the compiler is GCC; for
    another one than Microsoft's on x86 it is an [#error]. *)
Inductive expansion : Type :=
| Sequences (a : arch)   (* the special sequences of an architecture *)
| NoValgrind             (* NVALGRIND is defined: a request is its default *)
| Unsupported.            (* #error Unsupported compiler *)

Definition special (d : macros) : expansion :=
  if defined d "NVALGRIND" then NoValgrind
  else match select d with
  | Some (PLAT_x86_linux | PLAT_x86_darwin | PLAT_x86_solaris) => Sequences x86
  | Some PLAT_x86_win32 => if defined d "__GNUC__" then Sequences x86
      else if defined d "_MSC_VER" then Sequences x86_msvc else Unsupported
  | Some (PLAT_amd64_linux | PLAT_amd64_darwin | PLAT_amd64_solaris) => Sequences amd64
  | Some PLAT_amd64_win64 => if defined d "__GNUC__" then Sequences amd64 else Unsupported
  | Some PLAT_ppc32_linux => Sequences ppc32
  | Some PLAT_ppc64be_linux => Sequences ppc64be
  | Some PLAT_ppc64le_linux => Sequences ppc64le
  | Some PLAT_arm_linux => Sequences arm
  | Some PLAT_arm64_linux => Sequences arm64
  | Some PLAT_s390x_linux => Sequences s390x
  | Some PLAT_mips32_linux => Sequences mips32
  | Some PLAT_mips64_linux => Sequences mips64
  | None => NoValgrind
  end.

Definition archs : list arch :=
  [x86; x86_msvc; amd64; ppc32; ppc64be; ppc64le; arm; arm64; s390x; mips32; mips64].

(** ** Request codes *)
Inductive Vg_ClientRequest : Type :=
| VG_USERREQ__RUNNING_ON_VALGRIND
| VG_USERREQ__DISCARD_TRANSLATIONS
| VG_USERREQ__CLIENT_CALL0
| VG_USERREQ__CLIENT_CALL1
| VG_USERREQ__CLIENT_CALL2
| VG_USERREQ__CLIENT_CALL3
| VG_USERREQ__COUNT_ERRORS
| VG_USERREQ__GDB_MONITOR_COMMAND
| VG_USERREQ__MALLOCLIKE_BLOCK
| VG_USERREQ__RESIZEINPLACE_BLOCK
| VG_USERREQ__FREELIKE_BLOCK
| VG_USERREQ__CREATE_MEMPOOL
| VG_USERREQ__DESTROY_MEMPOOL
| VG_USERREQ__MEMPOOL_ALLOC
| VG_USERREQ__MEMPOOL_FREE
| VG_USERREQ__MEMPOOL_TRIM
| VG_USERREQ__MOVE_MEMPOOL
| VG_USERREQ__MEMPOOL_CHANGE
| VG_USERREQ__MEMPOOL_EXISTS
| VG_USERREQ__PRINTF
| VG_USERREQ__PRINTF_BACKTRACE
| VG_USERREQ__PRINTF_VALIST_BY_REF
| VG_USERREQ__PRINTF_BACKTRACE_VALIST_BY_REF
| VG_USERREQ__STACK_REGISTER
| VG_USERREQ__STACK_DEREGISTER
| VG_USERREQ__STACK_CHANGE
| VG_USERREQ__LOAD_PDB_DEBUGINFO
| VG_USERREQ__MAP_IP_TO_SRCLOC
| VG_USERREQ__CHANGE_ERR_DISABLEMENT
| VG_USERREQ__VEX_INIT_FOR_IRI
| VG_USERREQ__INNER_THREADS.
#[export] Instance Vg_ClientRequest_eq_dec : EqDecision Vg_ClientRequest.
Proof. solve_decision. Defined.

(** The values of the enum, an ABI between programs and Valgrind. *)
Definition code (r : Vg_ClientRequest) : Z :=
  match r with
  | VG_USERREQ__RUNNING_ON_VALGRIND => 0x1001
  | VG_USERREQ__DISCARD_TRANSLATIONS => 0x1002
  | VG_USERREQ__CLIENT_CALL0 => 0x1101
  | VG_USERREQ__CLIENT_CALL1 => 0x1102
  | VG_USERREQ__CLIENT_CALL2 => 0x1103
  | VG_USERREQ__CLIENT_CALL3 => 0x1104
  | VG_USERREQ__COUNT_ERRORS => 0x1201
  | VG_USERREQ__GDB_MONITOR_COMMAND => 0x1202
  | VG_USERREQ__MALLOCLIKE_BLOCK => 0x1301
  | VG_USERREQ__RESIZEINPLACE_BLOCK => 0x130b
  | VG_USERREQ__FREELIKE_BLOCK => 0x1302
  | VG_USERREQ__CREATE_MEMPOOL => 0x1303
  | VG_USERREQ__DESTROY_MEMPOOL => 0x1304
  | VG_USERREQ__MEMPOOL_ALLOC => 0x1305
  | VG_USERREQ__MEMPOOL_FREE => 0x1306
  | VG_USERREQ__MEMPOOL_TRIM => 0x1307
  | VG_USERREQ__MOVE_MEMPOOL => 0x1308
  | VG_USERREQ__MEMPOOL_CHANGE => 0x1309
  | VG_USERREQ__MEMPOOL_EXISTS => 0x130a
  | VG_USERREQ__PRINTF => 0x1401
  | VG_USERREQ__PRINTF_BACKTRACE => 0x1402
  | VG_USERREQ__PRINTF_VALIST_BY_REF => 0x1403
  | VG_USERREQ__PRINTF_BACKTRACE_VALIST_BY_REF => 0x1404
  | VG_USERREQ__STACK_REGISTER => 0x1501
  | VG_USERREQ__STACK_DEREGISTER => 0x1502
  | VG_USERREQ__STACK_CHANGE => 0x1503
  | VG_USERREQ__LOAD_PDB_DEBUGINFO => 0x1601
  | VG_USERREQ__MAP_IP_TO_SRCLOC => 0x1701
  | VG_USERREQ__CHANGE_ERR_DISABLEMENT => 0x1801
  | VG_USERREQ__VEX_INIT_FOR_IRI => 0x1901
  | VG_USERREQ__INNER_THREADS => 0x1902
  end.

Definition all_requests : list Vg_ClientRequest :=
  [VG_USERREQ__RUNNING_ON_VALGRIND; VG_USERREQ__DISCARD_TRANSLATIONS;
   VG_USERREQ__CLIENT_CALL0; VG_USERREQ__CLIENT_CALL1; VG_USERREQ__CLIENT_CALL2;
   VG_USERREQ__CLIENT_CALL3; VG_USERREQ__COUNT_ERRORS; VG_USERREQ__GDB_MONITOR_COMMAND;
   VG_USERREQ__MALLOCLIKE_BLOCK; VG_USERREQ__RESIZEINPLACE_BLOCK;
   VG_USERREQ__FREELIKE_BLOCK; VG_USERREQ__CREATE_MEMPOOL; VG_USERREQ__DESTROY_MEMPOOL;
   VG_USERREQ__MEMPOOL_ALLOC; VG_USERREQ__MEMPOOL_FREE; VG_USERREQ__MEMPOOL_TRIM;
   VG_USERREQ__MOVE_MEMPOOL; VG_USERREQ__MEMPOOL_CHANGE; VG_USERREQ__MEMPOOL_EXISTS;
   VG_USERREQ__PRINTF; VG_USERREQ__PRINTF_BACKTRACE; VG_USERREQ__PRINTF_VALIST_BY_REF;
   VG_USERREQ__PRINTF_BACKTRACE_VALIST_BY_REF; VG_USERREQ__STACK_REGISTER;
   VG_USERREQ__STACK_DEREGISTER; VG_USERREQ__STACK_CHANGE; VG_USERREQ__LOAD_PDB_DEBUGINFO;
   VG_USERREQ__MAP_IP_TO_SRCLOC; VG_USERREQ__CHANGE_ERR_DISABLEMENT;
   VG_USERREQ__VEX_INIT_FOR_IRI; VG_USERREQ__INNER_THREADS].

(** ** The macros that issue requests

    A use of [VALGRIND_DO_CLIENT_REQUEST_EXPR]: the default result, the code and
    the five arguments.  The statement form has default 0. *)
Record creq : Type := Creq {
  cr_default : Z; cr_code : Vg_ClientRequest;
  cr_1 : Z; cr_2 : Z; cr_3 : Z; cr_4 : Z; cr_5 : Z
}.
Definition VALGRIND_DO_CLIENT_REQUEST_STMT (r : Vg_ClientRequest) (a1 a2 a3 a4 a5 : Z) : creq :=
  Creq 0 r a1 a2 a3 a4 a5.

Definition RUNNING_ON_VALGRIND : creq :=
  Creq 0 VG_USERREQ__RUNNING_ON_VALGRIND 0 0 0 0 0.
Definition VALGRIND_DISCARD_TRANSLATIONS (qzz_addr qzz_len : Z) : creq :=
  VALGRIND_DO_CLIENT_REQUEST_STMT VG_USERREQ__DISCARD_TRANSLATIONS qzz_addr qzz_len 0 0 0.
Definition VALGRIND_INNER_THREADS (qzz_addr : Z) : creq :=
  VALGRIND_DO_CLIENT_REQUEST_STMT VG_USERREQ__INNER_THREADS qzz_addr 0 0 0 0.
Definition VALGRIND_PRINTF (format vargs : Z) : creq :=
  Creq 0 VG_USERREQ__PRINTF_VALIST_BY_REF format vargs 0 0 0.
Definition VALGRIND_PRINTF_BACKTRACE (format vargs : Z) : creq :=
  Creq 0 VG_USERREQ__PRINTF_BACKTRACE_VALIST_BY_REF format vargs 0 0 0.
Definition VALGRIND_NON_SIMD_CALL0 (fn : Z) : creq :=
  Creq 0 VG_USERREQ__CLIENT_CALL0 fn 0 0 0 0.
Definition VALGRIND_NON_SIMD_CALL1 (fn arg1 : Z) : creq :=
  Creq 0 VG_USERREQ__CLIENT_CALL1 fn arg1 0 0 0.
Definition VALGRIND_NON_SIMD_CALL2 (fn arg1 arg2 : Z) : creq :=
  Creq 0 VG_USERREQ__CLIENT_CALL2 fn arg1 arg2 0 0.
Definition VALGRIND_NON_SIMD_CALL3 (fn arg1 arg2 arg3 : Z) : creq :=
  Creq 0 VG_USERREQ__CLIENT_CALL3 fn arg1 arg2 arg3 0.
Definition VALGRIND_COUNT_ERRORS : creq :=
  Creq 0 VG_USERREQ__COUNT_ERRORS 0 0 0 0 0.
Definition VALGRIND_MALLOCLIKE_BLOCK (addr sizeB rzB is_zeroed : Z) : creq :=
  VALGRIND_DO_CLIENT_REQUEST_STMT VG_USERREQ__MALLOCLIKE_BLOCK addr sizeB rzB is_zeroed 0.
Definition VALGRIND_RESIZEINPLACE_BLOCK (addr oldSizeB newSizeB rzB : Z) : creq :=
  VALGRIND_DO_CLIENT_REQUEST_STMT VG_USERREQ__RESIZEINPLACE_BLOCK addr oldSizeB newSizeB rzB 0.
Definition VALGRIND_FREELIKE_BLOCK (addr rzB : Z) : creq :=
  VALGRIND_DO_CLIENT_REQUEST_STMT VG_USERREQ__FREELIKE_BLOCK addr rzB 0 0 0.
Definition VALGRIND_CREATE_MEMPOOL (pool rzB is_zeroed : Z) : creq :=
  VALGRIND_DO_CLIENT_REQUEST_STMT VG_USERREQ__CREATE_MEMPOOL pool rzB is_zeroed 0 0.
Definition VALGRIND_MEMPOOL_AUTO_FREE : Z := 1.
Definition VALGRIND_MEMPOOL_METAPOOL : Z := 2.
Definition VALGRIND_CREATE_MEMPOOL_EXT (pool rzB is_zeroed flags : Z) : creq :=
  VALGRIND_DO_CLIENT_REQUEST_STMT VG_USERREQ__CREATE_MEMPOOL pool rzB is_zeroed flags 0.
Definition VALGRIND_DESTROY_MEMPOOL (pool : Z) : creq :=
  VALGRIND_DO_CLIENT_REQUEST_STMT VG_USERREQ__DESTROY_MEMPOOL pool 0 0 0 0.
Definition VALGRIND_MEMPOOL_ALLOC (pool addr size : Z) : creq :=
  VALGRIND_DO_CLIENT_REQUEST_STMT VG_USERREQ__MEMPOOL_ALLOC pool addr size 0 0.
Definition VALGRIND_MEMPOOL_FREE (pool addr : Z) : creq :=
  VALGRIND_DO_CLIENT_REQUEST_STMT VG_USERREQ__MEMPOOL_FREE pool addr 0 0 0.
Definition VALGRIND_MEMPOOL_TRIM (pool addr size : Z) : creq :=
  VALGRIND_DO_CLIENT_REQUEST_STMT VG_USERREQ__MEMPOOL_TRIM pool addr size 0 0.
Definition VALGRIND_MOVE_MEMPOOL (poolA poolB : Z) : creq :=
  VALGRIND_DO_CLIENT_REQUEST_STMT VG_USERREQ__MOVE_MEMPOOL poolA poolB 0 0 0.
Definition VALGRIND_MEMPOOL_CHANGE (pool addrA addrB size : Z) : creq :=
  VALGRIND_DO_CLIENT_REQUEST_STMT VG_USERREQ__MEMPOOL_CHANGE pool addrA addrB size 0.
Definition VALGRIND_MEMPOOL_EXISTS (pool : Z) : creq :=
  Creq 0 VG_USERREQ__MEMPOOL_EXISTS pool 0 0 0 0.
Definition VALGRIND_STACK_REGISTER (start end_ : Z) : creq :=
  Creq 0 VG_USERREQ__STACK_REGISTER start end_ 0 0 0.
Definition VALGRIND_STACK_DEREGISTER (id : Z) : creq :=
  VALGRIND_DO_CLIENT_REQUEST_STMT VG_USERREQ__STACK_DEREGISTER id 0 0 0 0.
Definition VALGRIND_STACK_CHANGE (id start end_ : Z) : creq :=
  VALGRIND_DO_CLIENT_REQUEST_STMT VG_USERREQ__STACK_CHANGE id start end_ 0 0.
Definition VALGRIND_LOAD_PDB_DEBUGINFO (fd ptr total_size delta : Z) : creq :=
  VALGRIND_DO_CLIENT_REQUEST_STMT VG_USERREQ__LOAD_PDB_DEBUGINFO fd ptr total_size delta 0.
Definition VALGRIND_MAP_IP_TO_SRCLOC (addr buf64 : Z) : creq :=
  Creq 0 VG_USERREQ__MAP_IP_TO_SRCLOC addr buf64 0 0 0.
Definition VALGRIND_DISABLE_ERROR_REPORTING : creq :=
  VALGRIND_DO_CLIENT_REQUEST_STMT VG_USERREQ__CHANGE_ERR_DISABLEMENT 1 0 0 0 0.
Definition VALGRIND_ENABLE_ERROR_REPORTING : creq :=
  VALGRIND_DO_CLIENT_REQUEST_STMT VG_USERREQ__CHANGE_ERR_DISABLEMENT (-1) 0 0 0 0.
Definition VALGRIND_MONITOR_COMMAND (command : Z) : creq :=
  Creq 0 VG_USERREQ__GDB_MONITOR_COMMAND command 0 0 0 0.

(** The expansion of a request for an architecture; without one it is its default,
    and no code at all. *)
Definition expand (a : arch) (ptr : Z) (r : creq) : request :=
  a_request a ptr (cr_default r) (code (cr_code r)) (cr_1 r) (cr_2 r) (cr_3 r) (cr_4 r) (cr_5 r).

Definition VALGRIND_DO_CLIENT_REQUEST_EXPR (e : expansion) (ptr : Z) (r : creq)
    : option (request + Z) :=
  match e with
  | Sequences a => Some (inl (expand a ptr r))
  | NoValgrind => Some (inr (cr_default r))
  | Unsupported => None
  end.

(** ** Names of wrappers and replacements

    The preprocessor pastes them together. *)
Definition VG_CONCAT4 (aa bb cc dd : string) : string := (aa ++ bb ++ cc ++ dd)%string.
Definition I_WRAP_SONAME_FNNAME_ZU (soname fnname : string) : string :=
  VG_CONCAT4 "_vgw00000ZU_" soname "_" fnname.
Definition I_WRAP_SONAME_FNNAME_ZZ (soname fnname : string) : string :=
  VG_CONCAT4 "_vgw00000ZZ_" soname "_" fnname.
Definition I_REPLACE_SONAME_FNNAME_ZU (soname fnname : string) : string :=
  VG_CONCAT4 "_vgr00000ZU_" soname "_" fnname.
Definition I_REPLACE_SONAME_FNNAME_ZZ (soname fnname : string) : string :=
  VG_CONCAT4 "_vgr00000ZZ_" soname "_" fnname.

Definition VALGRIND_GET_ORIG_FN (a : arch) : list asm := a_nr_context a.
