(* ===== verification/ValgrindProps.v ===== *)
(** * What the special sequences do

    On a real CPU nothing, whatever registers the compiler chooses; under Valgrind
    the request.  How Valgrind recognises a sequence is written down in the header
    as the meaning of each one; what it answers is a parameter. *)
From stdpp Require Import functions.
From S2P Require Import Prelude Asm Valgrind.
Local Open Scope string_scope.
Local Open Scope Z_scope.

(** Every register holds a word. *)
Definition words (c : cpu) (s : state) : Prop := ∀ r, 0 ≤ regs s r < 2 ^ bits c.

Lemma rd_words c rho o s : 0 ≤ bits c → words c s → 0 ≤ rd c rho o s < 2 ^ bits c.
Proof. intros Hb Hs. unfold rd. case_decide; [|apply Hs]. split; [done|]. apply Z.pow_pos_nonneg; lia. Qed.

Lemma wr_words c rho o v s : words c s → 0 ≤ v < 2 ^ bits c → words c (wr c rho o v s).
Proof.
  intros Hs Hv r. unfold wr. case_decide; [apply Hs|]. cbn.
  destruct (decide (name rho o = r)) as [->|]; [by rewrite fn_lookup_insert|].
  rewrite fn_lookup_insert_ne by done. apply Hs.
Qed.

Lemma mov_words c rho l s : 0 ≤ bits c → Forall (λ i, ∃ d a, i = Mov d a) l → words c s →
  words c (exec c rho l s).
Proof.
  intros Hb Hl. revert s. induction Hl as [|i l (d & a & ->) _ IH]; intros s Hs; [done|].
  apply IH. apply wr_words; [done|]. by apply rd_words.
Qed.

(** ** Instructions that change nothing *)

(** By their form: a register with itself, a write of the register that is 0. *)
Definition idle (c : cpu) (i : instr) : bool :=
  match i with
  | Xchg a b => bool_decide (a = b)
  | Or d a b => bool_decide (d = a) && bool_decide (d = b)
  | Lr d a => bool_decide (d = a)
  | Srl (Reg r) _ _ | Dsll (Reg r) _ _ => bool_decide (zero_reg c = Some r)
  | Cfi _ | Nop => true
  | _ => false
  end.

Lemma wr_zero c rho r v s : zero_reg c = Some r → wr c rho (Reg r) v s = s.
Proof. intros H. unfold wr. by rewrite decide_True. Qed.

Lemma exec1_idle c rho i s : idle c i = true → exec1 c rho i s ≡ s.
Proof.
  destruct i as [| | | |d a|[r|] a n|[r|] a n|a b|d a b| | | | | | | | | | | | |]; cbn [idle exec1]; try done.
  - intros ->%bool_decide_eq_true. apply wr_same.
    rewrite (Z_div_mod_eq_full (rd c rho a s) (2 ^ 32)) at 1.
    rewrite Z.shiftr_div_pow2, Z.shiftl_mul_pow2 by done. lia.
  - intros H%bool_decide_eq_true. by rewrite wr_zero.
  - intros H%bool_decide_eq_true. by rewrite wr_zero.
  - intros ->%bool_decide_eq_true. rewrite !wr_wr. by apply wr_same.
  - intros [->%bool_decide_eq_true ->%bool_decide_eq_true]%andb_true_iff.
    apply wr_same. by rewrite Z.lor_diag.
Qed.

(** By their sum: rotations of one register. *)
Definition rot_by (c : cpu) (r : string) (i : instr) : option Z :=
  match i with
  | Rol n d => if bool_decide (d = Reg r) then Some n else None
  | Rlwinm d a n mb me =>
      if bool_decide (d = Reg r ∧ a = Reg r ∧ mb = 0 ∧ me = 31 ∧ bits c = 32) then Some n else None
  | Rotldi d a n => if bool_decide (d = Reg r ∧ a = Reg r ∧ bits c = 64) then Some n else None
  | Ror d a n => if bool_decide (d = Reg r ∧ a = Reg r) then Some (- n) else None
  | _ => None
  end.

Lemma exec1_rot c rho r i n s : 0 < bits c → words c s → rot_by c r i = Some n →
  exec1 c rho i s = wr c rho r (rotl (bits c) n (rd c rho r s)) s.
Proof.
  intros Hb Hs Hi. destruct i; cbn in Hi; try done; case_bool_decide as H; try done;
    injection Hi as <-; destruct_and?; subst; cbn [exec1]; try done.
  - replace (mask_be 0 31) with (Z.ones 32) by done. replace (bits c) with 32 by done.
    pose proof (rotl_range 32 n0 (rd c rho r s)). rewrite Z.land_ones, Z.mod_small by lia. done.
  - by replace (bits c) with 64 by done.
Qed.

Lemma exec_rots c rho r l ns s : 0 < bits c → words c s → zero_reg c ≠ Some r →
  mapM (rot_by c r) l = Some ns →
  exec c rho l s ≡ wr c rho r (rotl (bits c) (foldr Z.add 0 ns) (rd c rho r s)) s.
Proof.
  intros Hb Hs Hz. revert ns s Hs. induction l as [|i l IH]; intros ns s Hs Hm.
  - injection Hm as <-. symmetry. apply wr_same. cbn. symmetry. apply rotl_full; [done| |].
    + apply rd_words; [lia|done].
    + apply Zmod_0_l.
  - cbn in Hm. apply bind_Some in Hm as (n & Hi & Hm). apply bind_Some in Hm as (ns' & Hl & Hm).
    injection Hm as <-. change (exec c rho (i :: l) s) with (exec c rho l (exec1 c rho i s)).
    rewrite (exec1_rot c rho r i n s) by done.
    assert (Hw : words c (wr c rho r (rotl (bits c) n (rd c rho r s)) s)).
    { apply wr_words; [done|]. by apply rotl_range. }
    rewrite (IH _ _ Hw Hl), rd_wr, wr_wr by done.
    rewrite rotl_rotl; [|done|by apply rd_words; [lia|]]. cbn. by rewrite (Z.add_comm n).
Qed.

Definition dest (i : instr) : string :=
  match i with
  | Rol _ (Reg r) | Rlwinm (Reg r) _ _ _ _ | Rotldi (Reg r) _ _ | Ror (Reg r) _ _ => r
  | _ => ""
  end.

(** A decidable sign that a list of instructions changes nothing. *)
Definition still (c : cpu) (l : list instr) : bool :=
  forallb (idle c) l ||
  match l with
  | i :: _ => bool_decide (zero_reg c ≠ Some (dest i)) &&
      match mapM (rot_by c (dest i)) l with
      | Some ns => foldr Z.add 0 ns mod bits c =? 0
      | None => false
      end
  | [] => true
  end.

Lemma exec_idle c rho l s : forallb (idle c) l = true → exec c rho l s ≡ s.
Proof.
  revert s. induction l as [|i l IH]; intros s H; [done|].
  apply andb_true_iff in H as [Hi Hl].
  change (exec c rho (i :: l) s) with (exec c rho l (exec1 c rho i s)).
  by rewrite exec1_idle, IH.
Qed.

Lemma exec_still c rho l s : 0 < bits c → words c s → still c l = true → exec c rho l s ≡ s.
Proof.
  intros Hb Hs [H|H]%orb_true_iff; [by apply exec_idle|].
  destruct l as [|i l]; [done|]. apply andb_true_iff in H as [Hz%bool_decide_eq_true H].
  destruct (mapM _ _) as [ns|] eqn:Hm; [|done]. apply Z.eqb_eq in H.
  rewrite (exec_rots c rho (dest i) (i :: l) ns s) by done. apply wr_same. symmetry. apply rotl_full; [done| |done].
  apply rd_words; [lia|done].
Qed.

(** ** Sequences on a real CPU *)
Definition arch_ok (a : arch) : bool :=
  (0 <? bits (a_cpu a)) && still (a_cpu a) (a_preamble a) &&
  forallb (λ x, idle (a_cpu a) x.1) (a_marks a) &&
  bool_decide (NoDup (a_marks a).*1) &&
  bool_decide (head (a_preamble a) ≠ None).

Lemma archs_ok : forallb arch_ok archs = true.
Proof. vm_compute. reflexivity. Qed.

Record arch_facts (a : arch) : Prop := {
  af_bits : 0 < bits (a_cpu a);
  af_still : still (a_cpu a) (a_preamble a) = true;
  af_idle : ∀ i m, (i, m) ∈ a_marks a → idle (a_cpu a) i = true;
  af_nodup : NoDup (a_marks a).*1;
  af_head : head (a_preamble a) ≠ None;
}.

Lemma archs_facts a : a ∈ archs → arch_facts a.
Proof.
  intros Ha. pose proof archs_ok as H. rewrite forallb_forall in H.
  specialize (H a (proj1 (list_elem_of_In _ _) Ha)). unfold arch_ok in H.
  rewrite !andb_true_iff, !bool_decide_eq_true in H. destruct H as [[[[H1 H2] H3] H4] H5].
  split; [by apply Z.ltb_lt|done| |done|done].
  intros i m Hi. rewrite forallb_forall in H3. apply (H3 (i, m)). by apply list_elem_of_In.
Qed.

Lemma special_idle a rho i m s : a ∈ archs → (i, m) ∈ a_marks a → words (a_cpu a) s →
  exec (a_cpu a) rho (a_preamble a ++ [i]) s ≡ s.
Proof.
  intros [Hb Hst Hid _ _]%archs_facts Hi Hs. rewrite exec_app, (exec_still _ _ (a_preamble a)) by done.
  by apply exec1_idle, (Hid i m).
Qed.

(** ** Under Valgrind

    The translator looks for the preamble and does what the instruction after it
    says; [answer] is what it answers to a request, given the six words of the
    block, [callee] the function a no-redirection call runs. *)
Section valgrind.
Context (a : arch) (rho : nat → string).
Context (answer : list Z → Z) (nraddr gpr2 : Z) (callee : Z → state → state).
Let c : cpu := a_cpu a.

Definition read_words (n : nat) (ptr : Z) (s : state) : list Z :=
  (λ k, mem s (word c (ptr + bytes c * Z.of_nat k))) <$> seq 0 n.

Definition vg_special (m : magic) (s : state) : state :=
  match m with
  | ClientRequest res arg => wr c rho res (word c (answer (read_words 6 (regs s arg) s))) s
  | NrContext res => wr c rho res (word c nraddr) s
  | NrGpr2 res => wr c rho res (word c gpr2) s
  | CallNoredir target => callee (regs s target) s
  | InjectIr => s
  end.

Definition mark_of (i : instr) : option magic :=
  x ← list_find (λ x : instr * magic, x.1 = i) (a_marks a); Some x.2.2.

Definition match_special (l : list instr) : option (magic * list instr) :=
  let n := length (a_preamble a) in
  if bool_decide (take n l = a_preamble a) then
    match drop n l with
    | i :: l' => m ← mark_of i; Some (m, l')
    | [] => None
    end
  else None.

Fixpoint vg_exec (fuel : nat) (l : list instr) (s : state) : state :=
  match fuel with
  | O => s
  | S n =>
      match match_special l with
      | Some (m, l') => vg_exec n l' (vg_special m s)
      | None => match l with
                | [] => s
                | i :: l' => vg_exec n l' (exec1 c rho i s)
                end
      end
  end.

(** Every step takes an instruction or more away. *)
Definition vg_run (l : list instr) (s : state) : state := vg_exec (length l) l s.
End valgrind.

Section vg_facts.
Context (a : arch) (Ha : a ∈ archs) (rho : nat → string).
Context (answer : list Z → Z) (nraddr gpr2 : Z) (callee : Z → state → state).
Abbreviation vgx := (vg_exec a rho answer nraddr gpr2 callee).
Abbreviation c := (a_cpu a).

Lemma mark_of_elem i m : (i, m) ∈ a_marks a → mark_of a i = Some m.
Proof.
  intros Hi. destruct (archs_facts a Ha) as [_ _ _ Hnd _]. unfold mark_of.
  destruct (list_find _ _) as [[n [i' m']]|] eqn:Hf.
  - apply list_find_Some in Hf as (Hn & Hi' & _). cbn in *. subst i'.
    apply list_elem_of_lookup in Hi as [n' Hn']. f_equal.
    assert (n = n') as <-; [|congruence].
    eapply NoDup_lookup; [exact Hnd|..]; by rewrite list_lookup_fmap, ?Hn, ?Hn'.
  - exfalso. rewrite list_find_None in Hf. rewrite Forall_forall in Hf. by apply (Hf (i, m)).
Qed.

Definition plain (i : instr) : Prop := head (a_preamble a) ≠ Some i.

Lemma match_plain i l : plain i → match_special a (i :: l) = None.
Proof.
  intros Hi. unfold match_special, plain in *. destruct (archs_facts a Ha) as [_ _ _ _ Hh].
  destruct (a_preamble a) as [|j p]; [done|]. rewrite bool_decide_false; [done|].
  cbn. intros [= -> _]. done.
Qed.

Lemma match_preamble i m l : (i, m) ∈ a_marks a →
  match_special a (a_preamble a ++ i :: l) = Some (m, l).
Proof.
  intros Hi. unfold match_special. rewrite take_app_length, bool_decide_true by done.
  rewrite drop_app_length. cbn. by rewrite (mark_of_elem i m).
Qed.

Lemma vg_exec_plain l n l' s : Forall plain l →
  vgx (length l + n) (l ++ l') s = vgx n l' (exec c rho l s).
Proof.
  intros Hl. revert s. induction Hl as [|i l Hi _ IH]; intros s; [done|]. cbn [length app plus vg_exec].
  rewrite match_plain by done. apply IH.
Qed.

Lemma vg_exec_special i m n l s : (i, m) ∈ a_marks a →
  vgx (S n) (a_preamble a ++ i :: l) s = vgx n l (vg_special a rho answer nraddr gpr2 callee m s).
Proof. intros Hi. cbn [vg_exec]. by rewrite (match_preamble i m). Qed.

Lemma vg_exec_more n l s : (length l ≤ n)%nat → Forall plain l → vgx n l s = exec c rho l s.
Proof.
  intros Hn Hl. rewrite <- (app_nil_r l) at 1.
  replace n with (length l + (n - length l))%nat by lia. rewrite vg_exec_plain by done.
  destruct (n - length l)%nat; [done|]. cbn. unfold match_special. rewrite drop_nil.
  by case_bool_decide.
Qed.

(** A template with one special sequence *)
Lemma vg_run_special pre i m post s : (i, m) ∈ a_marks a → Forall plain pre → Forall plain post →
  vg_run a rho answer nraddr gpr2 callee (pre ++ a_preamble a ++ i :: post) s =
  exec c rho post (vg_special a rho answer nraddr gpr2 callee m (exec c rho pre s)).
Proof.
  intros Hi Hpre Hpost. unfold vg_run. rewrite !length_app. cbn [length].
  rewrite (vg_exec_plain pre) by done.
  replace (length (a_preamble a) + S (length post))%nat
    with (S (length (a_preamble a) + length post))%nat by lia.
  rewrite (vg_exec_special i m) by done. apply vg_exec_more; [lia|done].
Qed.
End vg_facts.

(** ** The shape of a request

    The default and the block's address get into the registers of the sequence
    either as inputs or by moves; the result leaves as an output or by a move. *)
Definition no_regs (l : list string) : Prop := Forall (λ x, x = "cc" ∨ x = "memory") l.

Inductive request_shape (a : arch) (d ptr : Z) : asm → Prop :=
| ShapeFixed i res arg :
    (i, ClientRequest res arg) ∈ a_marks a → res ≠ arg →
    request_shape a d ptr (Asm (a_preamble a ++ [i]) [TheReg res]
      [(TheReg arg, ptr); (SameAs 0, d)] ["cc"; "memory"])
| ShapeMoved i res arg cl :
    (i, ClientRequest res arg) ∈ a_marks a → res ≠ arg → res ∈ cl → arg ∈ cl →
    request_shape a d ptr
      (Asm ([Mov res (Arg 1); Mov arg (Arg 2)] ++ a_preamble a ++ [i; Mov (Arg 0) res])
         [AnyReg] [(AnyReg, d); (AnyReg, ptr)] cl)
| ShapeTurned i res arg k cl :
    (i, ClientRequest res arg) ∈ a_marks a → res ≠ arg → res ∈ cl → arg ∈ cl →
    request_shape a d ptr
      (Asm ([Mov arg (Arg 1); Mov res (Arg 2)] ++ a_preamble a ++ [i; Mov (Arg 0) res])
         [AnyReg] [(AnyReg, ptr); (k, d)] cl).

(** The registers of a sequence are neither always 0 nor the stack pointer, and a
    move does not start a preamble. *)
Definition request_ok (a : arch) : bool :=
  forallb (λ x, match x.2 with
    | ClientRequest res arg => bool_decide (zero_reg (a_cpu a) ≠ Some res) &&
                               bool_decide (zero_reg (a_cpu a) ≠ Some arg)
    | _ => true
    end) (a_marks a) &&
  match a_preamble a with Mov _ _ :: _ => false | _ => true end.

Lemma requests_ok : forallb request_ok archs = true.
Proof. vm_compute. reflexivity. Qed.

Lemma archs_request a ptr d q a1 a2 a3 a4 a5 : a ∈ archs →
  request_shape a d ptr (zzq_asm (a_request a ptr d q a1 a2 a3 a4 a5)).
Proof.
  intros Ha. repeat (apply elem_of_cons in Ha as [->|Ha]); [..|by apply elem_of_nil in Ha].
  1,3: eapply ShapeFixed; [left|done].
  1,7: eapply ShapeTurned; [left|done|set_solver..].
  all: eapply ShapeMoved; [left|done|set_solver..].
Qed.

Lemma archs_args a ptr d q a1 a2 a3 a4 a5 : a ∈ archs →
  zzq_args (a_request a ptr d q a1 a2 a3 a4 a5) = word (a_cpu a) <$> [q; a1; a2; a3; a4; a5].
Proof. intros Ha. by repeat (apply elem_of_cons in Ha as [->|Ha]); [..|apply elem_of_nil in Ha]. Qed.

Lemma expand_args a ptr r : a ∈ archs → zzq_args (expand a ptr r) =
  word (a_cpu a) <$> [code (cr_code r); cr_1 r; cr_2 r; cr_3 r; cr_4 r; cr_5 r].
Proof. intros Ha. by apply archs_args. Qed.

Lemma mov_reg c rho d o s r : zero_reg c ≠ Some (name rho d) → zero_reg c ≠ Some (name rho o) →
  regs (exec1 c rho (Mov d o) s) r = if decide (name rho d = r) then regs s (name rho o) else regs s r.
Proof.
  intros Hd Ho. cbn. unfold rd, wr. rewrite !decide_False by done. cbn.
  case_decide as H; [subst; apply fn_lookup_insert|by apply fn_lookup_insert_ne].
Qed.

Lemma mov_mem c rho d o s : mem (exec1 c rho (Mov d o) s) = mem s.
Proof. cbn. unfold wr. by case_decide. Qed.

(** A request statement around its sequence: [pre] brings the default and the
    address of the block to the registers [res] and [arg]; whatever the sequence
    then leaves in [res], [post] brings to the result. *)
Record wrapped (a : arch) (d ptr : Z) (q : asm) (rho : nat → string) (s : state)
    (pre post : list instr) (i : instr) (res arg : string) : Prop := {
  wp_template : template q = (pre ++ a_preamble a ++ i :: post)%list;
  wp_mark : (i, ClientRequest res arg) ∈ a_marks a;
  wp_pre : Forall (plain a) pre;
  wp_post : Forall (plain a) post;
  wp_words : words (a_cpu a) (exec (a_cpu a) rho pre s);
  wp_mem : mem (exec (a_cpu a) rho pre s) = mem s;
  wp_res : regs (exec (a_cpu a) rho pre s) res = word (a_cpu a) d;
  wp_arg : regs (exec (a_cpu a) rho pre s) arg = word (a_cpu a) ptr;
  wp_zero : zero_reg (a_cpu a) ≠ Some res;
  wp_after : ∀ s', (∀ r, r ≠ res → regs s' r = regs (exec (a_cpu a) rho pre s) r) →
    regs (exec (a_cpu a) rho post s') (rho 0%nat) = regs s' res ∧
    mem (exec (a_cpu a) rho post s') = mem s' ∧
    ∀ r, r ≠ rho 0%nat → r ∉ clobbers q → regs (exec (a_cpu a) rho post s') r = regs s r;
}.

(** The moves before and after a sequence *)
Lemma moved_pre c rho r1 r2 s r : zero_reg c ≠ Some r1 → zero_reg c ≠ Some r2 →
  zero_reg c ≠ Some (rho 1%nat) → zero_reg c ≠ Some (rho 2%nat) → r1 ≠ rho 2%nat →
  regs (exec c rho [Mov r1 (Arg 1); Mov r2 (Arg 2)] s) r =
  if decide (r2 = r) then regs s (rho 2%nat) else
  if decide (r1 = r) then regs s (rho 1%nat) else regs s r.
Proof.
  intros. change (exec c rho [Mov r1 (Arg 1); Mov r2 (Arg 2)] s)
    with (exec1 c rho (Mov r2 (Arg 2)) (exec1 c rho (Mov r1 (Arg 1)) s)).
  rewrite !mov_reg by done. cbn [name]. by rewrite (decide_False (P := r1 = rho 2%nat)).
Qed.

Lemma moved_mem c rho r1 r2 s : mem (exec c rho [Mov r1 (Arg 1); Mov r2 (Arg 2)] s) = mem s.
Proof.
  change (exec c rho [Mov r1 (Arg 1); Mov r2 (Arg 2)] s)
    with (exec1 c rho (Mov r2 (Arg 2)) (exec1 c rho (Mov r1 (Arg 1)) s)).
  by rewrite !mov_mem.
Qed.

Lemma mov_plain a x y : request_ok a = true → plain a (Mov x y).
Proof.
  intros [_ H]%andb_true_iff. unfold plain. intros Hx.
  by destruct (a_preamble a) as [|[] ?]; cbn in Hx; simplify_eq.
Qed.

Lemma archs_request_ok a : a ∈ archs → request_ok a = true.
Proof.
  intros Ha. pose proof requests_ok as H. rewrite forallb_forall in H.
  by apply H, list_elem_of_In.
Qed.

Lemma request_zero a i res arg : request_ok a = true → (i, ClientRequest res arg) ∈ a_marks a →
  zero_reg (a_cpu a) ≠ Some res ∧ zero_reg (a_cpu a) ≠ Some arg.
Proof.
  intros [H _]%andb_true_iff Hi. rewrite forallb_forall in H.
  specialize (H _ (proj1 (list_elem_of_In _ _) Hi)). cbn in H.
  by rewrite andb_true_iff, !bool_decide_eq_true in H.
Qed.

Lemma moved_wrapped a d ptr q rho s i res arg r1 r2 k2 v1 v2 :
  a ∈ archs → (i, ClientRequest res arg) ∈ a_marks a → r1 ≠ r2 →
  (r1 = res ∧ r2 = arg ∧ v1 = d ∧ v2 = ptr ∨ r1 = arg ∧ r2 = res ∧ v1 = ptr ∧ v2 = d) →
  template q = ([Mov r1 (Arg 1); Mov r2 (Arg 2)] ++ a_preamble a ++ [i; Mov (Arg 0) res])%list →
  outputs q = [AnyReg] → inputs q = [(AnyReg, v1); (k2, v2)] →
  res ∈ clobbers q → arg ∈ clobbers q →
  allocation (a_cpu a) q rho → entered (a_cpu a) q rho s →
  wrapped a d ptr q rho s [Mov r1 (Arg 1); Mov r2 (Arg 2)] [Mov (Arg 0) res] i res arg.
Proof.
  intros Ha Hi Hne Hr Ht Ho Hq Hcr Hca [Hreg Hsame Hcl Hzr _ _] [Hin Hws].
  pose proof (archs_request_ok a Ha) as Hok. destruct (request_zero a i res arg Hok Hi) as [Zr Za].
  unfold constrs, input_no in *. rewrite Ho, Hq in *. cbn [length app fmap list_fmap fst plus] in *.
  assert (Hn : ∀ n, (n < 3)%nat → rho n ∉ clobbers q ∧ zero_reg (a_cpu a) ≠ Some (rho n)) by auto.
  destruct (Hn 0%nat), (Hn 1%nat), (Hn 2%nat); try lia.
  assert (E1 : regs s (rho 1%nat) = word (a_cpu a) v1) by apply (Hin 0%nat _ _ eq_refl).
  assert (E2 : regs s (rho 2%nat) = word (a_cpu a) v2) by apply (Hin 1%nat _ _ eq_refl).
  assert (Z1 : zero_reg (a_cpu a) ≠ Some r1) by naive_solver.
  assert (Z2 : zero_reg (a_cpu a) ≠ Some r2) by naive_solver.
  assert (H12 : r1 ≠ rho 2%nat) by naive_solver.
  assert (Hpre := λ r, moved_pre (a_cpu a) rho r1 r2 s r Z1 Z2 ltac:(done) ltac:(done) H12).
  split; try done.
  - repeat constructor; by apply mov_plain.
  - repeat constructor; by apply mov_plain.
  - apply mov_words; [|repeat constructor; eauto|done]. destruct (archs_facts a Ha); lia.
  - apply moved_mem.
  - rewrite Hpre. destruct Hr as [(-> & -> & -> & ->)|(-> & -> & -> & ->)].
    + by rewrite decide_False, decide_True.
    + by rewrite decide_True.
  - rewrite Hpre. destruct Hr as [(-> & -> & -> & ->)|(-> & -> & -> & ->)].
    + by rewrite decide_True.
    + by rewrite decide_False, decide_True.
  - intros s' Hs'. change (exec (a_cpu a) rho [Mov (Arg 0) res] s')
      with (exec1 (a_cpu a) rho (Mov (Arg 0) res) s').
    split; [by rewrite mov_reg, decide_True|]. split; [apply mov_mem|].
    intros r Hr0 Hrc. rewrite mov_reg, decide_False by done.
    assert (r ≠ res ∧ r ≠ arg) as [??] by (split; intros ->; done).
    rewrite Hs', Hpre, !decide_False; naive_solver.
Qed.

Lemma shape_wrapped a d ptr q rho s : a ∈ archs → request_shape a d ptr q →
  allocation (a_cpu a) q rho → entered (a_cpu a) q rho s →
  ∃ pre post i res arg, wrapped a d ptr q rho s pre post i res arg.
Proof.
  intros Ha Hq Hal Hen.
  destruct Hq as [i res arg Hi Hne|i res arg cl Hi Hne Hres Harg|i res arg k cl Hi Hne Hres Harg].
  - destruct Hal as [Hreg Hsame _ _ _ _], Hen as [Hin Hws].
    assert (rho 0%nat = res) as E0 by by apply Hreg.
    assert (rho 1%nat = arg) as E1 by by apply Hreg.
    assert (rho 2%nat = rho 0%nat) as E2 by by apply Hsame.
    exists [], [], i, res, arg. split; try done.
    + rewrite <- E0, <- E2. apply (Hin 1%nat _ _ eq_refl).
    + rewrite <- E1. apply (Hin 0%nat _ _ eq_refl).
    + by apply (request_zero a i res arg); [apply archs_request_ok|].
    + intros s' Hs'. rewrite E0. split; [done|]. split; [done|]. intros r Hr _. by apply Hs'.
  - exists [Mov res (Arg 1); Mov arg (Arg 2)], [Mov (Arg 0) res], i, res, arg.
    eapply moved_wrapped; try done. by left.
  - exists [Mov arg (Arg 1); Mov res (Arg 2)], [Mov (Arg 0) res], i, res, arg.
    eapply moved_wrapped; try done. by right.
Qed.

Lemma exec_marked a rho pre i m post s : a ∈ archs → (i, m) ∈ a_marks a →
  words (a_cpu a) (exec (a_cpu a) rho pre s) →
  exec (a_cpu a) rho (pre ++ a_preamble a ++ i :: post) s ≡
  exec (a_cpu a) rho post (exec (a_cpu a) rho pre s).
Proof.
  intros Ha Hi Hw. rewrite (exec_app _ _ pre), (cons_middle i), (app_assoc (a_preamble a)).
  by rewrite exec_app, (special_idle a rho i m).
Qed.

Lemma request_keeps a d ptr q rho s s' : request_shape a d ptr q →
  (∀ r, r ≠ rho 0%nat → r ∉ clobbers q → regs s' r = regs s r) → keeps q rho s s'.
Proof.
  intros Hq Hs r Hr. apply Hs. intros ->. apply Hr. by destruct Hq; left.
Qed.

Lemma read_block a ptr s l : 
  (∀ k w, l !! k = Some w → mem s (word (a_cpu a) (ptr + bytes (a_cpu a) * Z.of_nat k)) = w) →
  ∀ s' n p, mem s' = mem s → p = word (a_cpu a) ptr → n = length l → read_words a n p s' = l.
Proof.
  intros Hl s' n p Hm -> ->. apply list_eq. intros k. unfold read_words. rewrite list_lookup_fmap.
  destruct (l !! k) as [w|] eqn:Hk.
  - assert (Hlt : (k < length l)%nat) by by eapply lookup_lt_Some.
    rewrite lookup_seq_lt by done. cbn. f_equal. rewrite Hm, <- (Hl k w Hk). f_equal.
    unfold word. by rewrite Zplus_mod_idemp_l.
  - by rewrite lookup_seq_ge by by apply lookup_ge_None.
Qed.

(** C34. On a real CPU a client request of any architecture is its default: whatever
    registers the compiler chose for the operands, the result is the default, every
    register that is neither the output nor clobbered is as before, and so is
    memory. *)
Theorem client_request_native a ptr r rho s : a ∈ archs →
  allocation (a_cpu a) (zzq_asm (expand a ptr r)) rho →
  entered (a_cpu a) (zzq_asm (expand a ptr r)) rho s →
  let s' := asm_exec (a_cpu a) rho (zzq_asm (expand a ptr r)) s in
  regs s' (rho 0%nat) = word (a_cpu a) (cr_default r) ∧
  keeps (zzq_asm (expand a ptr r)) rho s s' ∧ ∀ p, mem s' p = mem s p.
Proof.
  intros Ha Hal Hen. pose proof (archs_request a ptr (cr_default r) (code (cr_code r))
    (cr_1 r) (cr_2 r) (cr_3 r) (cr_4 r) (cr_5 r) Ha) as Hq.
  fold (expand a ptr r) in Hq.
  destruct (shape_wrapped a _ _ _ rho s Ha Hq Hal Hen) as (pre & post & i & res & arg & W).
  destruct W as [Ht Hi _ _ Hw Hm Hres _ _ Haft].
  destruct (Haft (exec (a_cpu a) rho pre s)) as (H1 & H2 & H3); [done|].
  unfold asm_exec. rewrite Ht.
  destruct (exec_marked a rho pre i _ post s Ha Hi Hw) as [Er Em]. split; [|split].
  - by rewrite Er, H1.
  - eapply request_keeps; [exact Hq|]. intros x Hx Hx'. rewrite Er. by apply H3.
  - intros p. by rewrite Em, H2, Hm.
Qed.

(** C35. Under Valgrind the same statement gives what Valgrind answers to the block of
    six words: the request code and the five arguments, whatever registers the
    compiler chose; nothing else changes. *)
Theorem client_request_valgrind a ptr r rho answer nraddr gpr2 callee s : a ∈ archs →
  allocation (a_cpu a) (zzq_asm (expand a ptr r)) rho →
  entered (a_cpu a) (zzq_asm (expand a ptr r)) rho s →
  (∀ k w, zzq_args (expand a ptr r) !! k = Some w →
    mem s (word (a_cpu a) (ptr + bytes (a_cpu a) * Z.of_nat k)) = w) →
  let s' := vg_run a rho answer nraddr gpr2 callee (template (zzq_asm (expand a ptr r))) s in
  regs s' (rho 0%nat) = word (a_cpu a) (answer (word (a_cpu a) <$>
    [code (cr_code r); cr_1 r; cr_2 r; cr_3 r; cr_4 r; cr_5 r])) ∧
  keeps (zzq_asm (expand a ptr r)) rho s s' ∧ mem s' = mem s.
Proof.
  intros Ha Hal Hen Hblock. pose proof (archs_request a ptr (cr_default r) (code (cr_code r))
    (cr_1 r) (cr_2 r) (cr_3 r) (cr_4 r) (cr_5 r) Ha) as Hq.
  fold (expand a ptr r) in Hq.
  destruct (shape_wrapped a _ _ _ rho s Ha Hq Hal Hen) as (pre & post & i & res & arg & W).
  destruct W as [Ht Hi Hpre Hpost Hw Hm Hres Harg Hz Haft].
  rewrite Ht. cbn zeta. rewrite (vg_run_special a Ha rho _ _ _ _ pre i _ post s Hi Hpre Hpost).
  rewrite expand_args in Hblock by done.
  cbn [vg_special]. rewrite (read_block a ptr s _ Hblock _ 6%nat _ Hm Harg) by done.
  match goal with |- context [wr _ _ _ ?x _] => set (v := x) end.
  destruct (Haft (wr (a_cpu a) rho res v (exec (a_cpu a) rho pre s))) as (H1 & H2 & H3).
  { intros x Hx. unfold wr. rewrite decide_False by done. cbn. by rewrite fn_lookup_insert_ne. }
  split; [|split].
  - rewrite H1. unfold wr. rewrite decide_False by done. apply fn_lookup_insert.
  - by eapply request_keeps.
  - rewrite H2, <- Hm. unfold wr. by case_decide.
Qed.

(** The sequences of the no-redirection call, where there is one, and of the IR
    injection are marked as such for Valgrind, and on a real CPU they change nothing
    at all. *)
Theorem special_sequences_still a rho s : a ∈ archs → words (a_cpu a) s →
  (∀ l, a_noredir a = Some l → exec (a_cpu a) rho l s ≡ s ∧
    ∃ t, match_special a l = Some (CallNoredir t, [])) ∧
  asm_exec (a_cpu a) rho (a_inject a) s ≡ s ∧
  match_special a (template (a_inject a)) = Some (InjectIr, []).
Proof.
  intros Ha Hs.
  assert (∃ j, template (a_inject a) = (a_preamble a ++ [j])%list ∧ (j, InjectIr) ∈ a_marks a ∧
    ∀ l, a_noredir a = Some l → ∃ i t, l = (a_preamble a ++ [i])%list ∧
      (i, CallNoredir t) ∈ a_marks a) as (j & Hj & Hji & Hn).
  { clear Hs. repeat (apply elem_of_cons in Ha as [->|Ha]); [..|by apply elem_of_nil in Ha].
    all: eexists; split; [reflexivity|split; [repeat first [left; reflexivity | right]|]].
    all: intros l Hl; first [discriminate Hl|injection Hl as <-; eexists _, _; split; [reflexivity|]].
    all: repeat first [left; reflexivity | right]. }
  unfold asm_exec. rewrite Hj. split; [|split; [by eapply special_idle|by apply match_preamble]].
  intros l (i & t & -> & Hi)%Hn. split; [by eapply special_idle|].
  exists t. by apply match_preamble.
Qed.

(** The request codes are pairwise different, so a block names one request. *)
Theorem request_codes_distinct r r' : code r = code r' → r = r'.
Proof. by destruct r, r'. Qed.

(** ** The theorems on a registration of a stack

    The expansion on amd64: the block at address 4096, the result in rdx; and on
    ppc64, with the registers r9, r10 and r9 for the operands. *)
Definition stack_request : creq := VALGRIND_STACK_REGISTER 8192 1056768.
Definition amd64_rho (n : nat) : string := match n with 1%nat => "rax" | _ => "rdx" end.
Definition amd64_state : state :=
  State (λ r, if decide (r = "rax") then 4096 else 0)
        (λ p, if decide (p = 4096) then 0x1501 else if decide (p = 4104) then 8192
              else if decide (p = 4112) then 1056768 else 0).
Definition ppc_rho (n : nat) : string := match n with 2%nat => "r10" | _ => "r9" end.
Definition ppc_state : state := State (λ r, if decide (r = "r10") then 4096 else 0) (λ _, 0).

Lemma amd64_allocation :
  allocation amd64_cpu (zzq_asm (expand amd64 4096 stack_request)) amd64_rho.
Proof.
  split; try (intros [|[|[|n]]]; cbn; try lia; try done; set_solver).
  intros [|[|i]] [|[|j]] x y; cbn; intros; by simplify_eq.
Qed.

Lemma amd64_entered :
  entered amd64_cpu (zzq_asm (expand amd64 4096 stack_request)) amd64_rho amd64_state.
Proof.
  split.
  - intros [|[|j]] k v; cbn; intros; by simplify_eq.
  - intros r. cbn. case_decide; lia.
Qed.

Lemma ppc_allocation :
  allocation ppc64be_cpu (zzq_asm (expand ppc64be 4096 stack_request)) ppc_rho.
Proof.
  split; try (intros [|[|[|n]]]; cbn; try lia; try done; set_solver).
  intros [|[|i]] [|[|j]] x y; cbn; intros; by simplify_eq.
Qed.

Lemma ppc_entered :
  entered ppc64be_cpu (zzq_asm (expand ppc64be 4096 stack_request)) ppc_rho ppc_state.
Proof.
  split.
  - intros [|[|j]] k v; cbn; intros; by simplify_eq.
  - intros r. cbn. case_decide; lia.
Qed.

Lemma client_request_native_witness :
  regs (asm_exec amd64_cpu amd64_rho (zzq_asm (expand amd64 4096 stack_request)) amd64_state)
    "rdx" = 0 ∧
  regs (asm_exec ppc64be_cpu ppc_rho (zzq_asm (expand ppc64be 4096 stack_request)) ppc_state)
    "r9" = 0.
Proof.
  split.
  - refine (proj1 (client_request_native amd64 4096 stack_request amd64_rho amd64_state _
      amd64_allocation amd64_entered)). set_solver.
  - refine (proj1 (client_request_native ppc64be 4096 stack_request ppc_rho ppc_state _
      ppc_allocation ppc_entered)). set_solver.
Defined.

Lemma client_request_valgrind_witness :
  regs (vg_run amd64 amd64_rho (foldr Z.add 0) 0 0 (λ _ s, s)
    (template (zzq_asm (expand amd64 4096 stack_request))) amd64_state) "rdx" = 1070337.
Proof.
  refine (proj1 (client_request_valgrind amd64 4096 stack_request amd64_rho (foldr Z.add 0) 0 0
    (λ _ s, s) amd64_state _ amd64_allocation amd64_entered _)); [set_solver|].
  intros [|[|[|[|[|[|k]]]]]] w; cbn; intros; by simplify_eq.
Defined.

Lemma special_sequences_still_witness :
  exec amd64_cpu amd64_rho amd64_CALL_NOREDIR_RAX amd64_state ≡ amd64_state.
Proof.
  refine (proj1 (proj1 (special_sequences_still amd64 amd64_rho amd64_state _ _) _ eq_refl));
    [set_solver|]. intros r. apply amd64_entered.
Defined.

Lemma request_codes_distinct_witness : VG_USERREQ__STACK_REGISTER = VG_USERREQ__STACK_REGISTER.
Proof. by apply request_codes_distinct. Defined.
