(* ===== verification/CallFn.v ===== *)
(** * valgrind.h: calling the function a wrapper wraps

    [CALL_FN_W_*] builds a C call by hand, around the no-redirection call, and there
    is a macro per number of arguments, 0 to 12.  Here: the macros for x86 and
    amd64. *)
From S2P Require Import Prelude Asm Valgrind.
Local Open Scope string_scope.
Local Open Scope Z_scope.
Local Open Scope list_scope.

(** ** x86 *)
Definition x86_CALLER_SAVED_REGS : list string := ["ecx"; "edx"].
Definition x86_ALIGN_STACK : list instr := [Mov "edi" "esp"; AndI 0xfffffff0 "esp"].
Definition x86_RESTORE_STACK : list instr := [Mov "esp" "edi"].

(** What the macros have in common: the array [_argvec], at [ptr], and the frame of
    the asm statement around the instructions [l] of the macro. *)
Definition x86_call (ptr : Z) (argvec : list Z) (l : list instr) : request :=
  Request (word x86_cpu <$> argvec)
    (Asm (x86_ALIGN_STACK ++ l ++ x86_CALL_NOREDIR_EAX ++ x86_RESTORE_STACK)
      [TheReg "eax"] [(TheReg "eax", ptr)]
      (["cc"; "memory"] ++ x86_CALLER_SAVED_REGS ++ ["edi"])).

Definition x86_CALL_FN_W_v (ptr orig : Z) : request :=
  x86_call ptr
    [orig]
    [LoadW 0 "eax" "eax"].

Definition x86_CALL_FN_W_W (ptr orig a1 : Z) : request :=
  x86_call ptr
    [orig; a1]
    [SubI 12 "esp"; Push 4 "eax"; LoadW 0 "eax" "eax"].

Definition x86_CALL_FN_W_WW (ptr orig a1 a2 : Z) : request :=
  x86_call ptr
    [orig; a1; a2]
    [SubI 8 "esp"; Push 8 "eax"; Push 4 "eax"; LoadW 0 "eax" "eax"].

Definition x86_CALL_FN_W_WWW (ptr orig a1 a2 a3 : Z) : request :=
  x86_call ptr
    [orig; a1; a2; a3]
    [SubI 4 "esp"; Push 12 "eax"; Push 8 "eax"; Push 4 "eax"; LoadW 0 "eax" "eax"].

Definition x86_CALL_FN_W_WWWW (ptr orig a1 a2 a3 a4 : Z) : request :=
  x86_call ptr
    [orig; a1; a2; a3; a4]
    [Push 16 "eax"; Push 12 "eax"; Push 8 "eax"; Push 4 "eax"; LoadW 0 "eax" "eax"].

Definition x86_CALL_FN_W_5W (ptr orig a1 a2 a3 a4 a5 : Z) : request :=
  x86_call ptr
    [orig; a1; a2; a3; a4; a5]
    [SubI 12 "esp"; Push 20 "eax"; Push 16 "eax"; Push 12 "eax"; Push 8 "eax";
     Push 4 "eax"; LoadW 0 "eax" "eax"].

Definition x86_CALL_FN_W_6W (ptr orig a1 a2 a3 a4 a5 a6 : Z) : request :=
  x86_call ptr
    [orig; a1; a2; a3; a4; a5; a6]
    [SubI 8 "esp"; Push 24 "eax"; Push 20 "eax"; Push 16 "eax"; Push 12 "eax";
     Push 8 "eax"; Push 4 "eax"; LoadW 0 "eax" "eax"].

Definition x86_CALL_FN_W_7W (ptr orig a1 a2 a3 a4 a5 a6 a7 : Z) : request :=
  x86_call ptr
    [orig; a1; a2; a3; a4; a5; a6; a7]
    [SubI 4 "esp"; Push 28 "eax"; Push 24 "eax"; Push 20 "eax"; Push 16 "eax";
     Push 12 "eax"; Push 8 "eax"; Push 4 "eax"; LoadW 0 "eax" "eax"].

Definition x86_CALL_FN_W_8W (ptr orig a1 a2 a3 a4 a5 a6 a7 a8 : Z) : request :=
  x86_call ptr
    [orig; a1; a2; a3; a4; a5; a6; a7; a8]
    [Push 32 "eax"; Push 28 "eax"; Push 24 "eax"; Push 20 "eax"; Push 16 "eax";
     Push 12 "eax"; Push 8 "eax"; Push 4 "eax"; LoadW 0 "eax" "eax"].

Definition x86_CALL_FN_W_9W (ptr orig a1 a2 a3 a4 a5 a6 a7 a8 a9 : Z) : request :=
  x86_call ptr
    [orig; a1; a2; a3; a4; a5; a6; a7; a8; a9]
    [SubI 12 "esp"; Push 36 "eax"; Push 32 "eax"; Push 28 "eax"; Push 24 "eax";
     Push 20 "eax"; Push 16 "eax"; Push 12 "eax"; Push 8 "eax"; Push 4 "eax";
     LoadW 0 "eax" "eax"].

Definition x86_CALL_FN_W_10W (ptr orig a1 a2 a3 a4 a5 a6 a7 a8 a9 a10 : Z) : request :=
  x86_call ptr
    [orig; a1; a2; a3; a4; a5; a6; a7; a8; a9; a10]
    [SubI 8 "esp"; Push 40 "eax"; Push 36 "eax"; Push 32 "eax"; Push 28 "eax";
     Push 24 "eax"; Push 20 "eax"; Push 16 "eax"; Push 12 "eax"; Push 8 "eax";
     Push 4 "eax"; LoadW 0 "eax" "eax"].

Definition x86_CALL_FN_W_11W (ptr orig a1 a2 a3 a4 a5 a6 a7 a8 a9 a10 a11 : Z) : request :=
  x86_call ptr
    [orig; a1; a2; a3; a4; a5; a6; a7; a8; a9; a10; a11]
    [SubI 4 "esp"; Push 44 "eax"; Push 40 "eax"; Push 36 "eax"; Push 32 "eax";
     Push 28 "eax"; Push 24 "eax"; Push 20 "eax"; Push 16 "eax"; Push 12 "eax";
     Push 8 "eax"; Push 4 "eax"; LoadW 0 "eax" "eax"].

Definition x86_CALL_FN_W_12W (ptr orig a1 a2 a3 a4 a5 a6 a7 a8 a9 a10 a11 a12 : Z) : request :=
  x86_call ptr
    [orig; a1; a2; a3; a4; a5; a6; a7; a8; a9; a10; a11; a12]
    [Push 48 "eax"; Push 44 "eax"; Push 40 "eax"; Push 36 "eax"; Push 32 "eax";
     Push 28 "eax"; Push 24 "eax"; Push 20 "eax"; Push 16 "eax"; Push 12 "eax";
     Push 8 "eax"; Push 4 "eax"; LoadW 0 "eax" "eax"].

(** The macro for a number of arguments *)
Definition x86_CALL_FN (ptr orig : Z) (args : list Z) : option request :=
  match args with
  | [] => Some (x86_CALL_FN_W_v ptr orig)
  | [a1] => Some (x86_CALL_FN_W_W ptr orig a1)
  | [a1; a2] => Some (x86_CALL_FN_W_WW ptr orig a1 a2)
  | [a1; a2; a3] => Some (x86_CALL_FN_W_WWW ptr orig a1 a2 a3)
  | [a1; a2; a3; a4] => Some (x86_CALL_FN_W_WWWW ptr orig a1 a2 a3 a4)
  | [a1; a2; a3; a4; a5] => Some (x86_CALL_FN_W_5W ptr orig a1 a2 a3 a4 a5)
  | [a1; a2; a3; a4; a5; a6] => Some (x86_CALL_FN_W_6W ptr orig a1 a2 a3 a4 a5 a6)
  | [a1; a2; a3; a4; a5; a6; a7] => Some (x86_CALL_FN_W_7W ptr orig a1 a2 a3 a4 a5 a6 a7)
  | [a1; a2; a3; a4; a5; a6; a7; a8] => Some (x86_CALL_FN_W_8W ptr orig a1 a2 a3 a4 a5 a6 a7 a8)
  | [a1; a2; a3; a4; a5; a6; a7; a8; a9] =>
      Some (x86_CALL_FN_W_9W ptr orig a1 a2 a3 a4 a5 a6 a7 a8 a9)
  | [a1; a2; a3; a4; a5; a6; a7; a8; a9; a10] =>
      Some (x86_CALL_FN_W_10W ptr orig a1 a2 a3 a4 a5 a6 a7 a8 a9 a10)
  | [a1; a2; a3; a4; a5; a6; a7; a8; a9; a10; a11] =>
      Some (x86_CALL_FN_W_11W ptr orig a1 a2 a3 a4 a5 a6 a7 a8 a9 a10 a11)
  | [a1; a2; a3; a4; a5; a6; a7; a8; a9; a10; a11; a12] =>
      Some (x86_CALL_FN_W_12W ptr orig a1 a2 a3 a4 a5 a6 a7 a8 a9 a10 a11 a12)
  | _ => None
  end.

(** ** amd64 *)
Definition amd64_CALLER_SAVED_REGS : list string :=
  ["rcx"; "rdx"; "rsi"; "rdi"; "r8"; "r9"; "r10"; "r11"].
Definition amd64_ALIGN_STACK : list instr := [Mov "r14" "rsp"; AndI 0xfffffffffffffff0 "rsp"].
Definition amd64_RESTORE_STACK : list instr := [Mov "rsp" "r14"].

(** With the call frame information of GCC ([fp] is [__builtin_dwarf_cfa()], operand
    2) the frame address is in rbp during the call; without it there is nothing. *)
Definition amd64_FRAME_POINTER (fp : option Z) : list (constr * Z) :=
  match fp with Some cfa => [(AnyReg, cfa)] | None => [] end.
Definition amd64_CFI_PROLOGUE (fp : option Z) : list instr :=
  match fp with
  | Some _ => [Mov "r15" "rbp"; Mov "rbp" (Arg 2);
       Cfi ".cfi_remember_state"; Cfi ".cfi_def_cfa rbp, 0"]
  | None => []
  end.
Definition amd64_CFI_EPILOGUE (fp : option Z) : list instr :=
  match fp with
  | Some _ => [Mov "rbp" "r15"; Cfi ".cfi_restore_state"]
  | None => []
  end.

Definition amd64_call (fp : option Z) (ptr : Z) (argvec : list Z) (l : list instr) : request :=
  Request (word amd64_cpu <$> argvec)
    (Asm (amd64_CFI_PROLOGUE fp ++ amd64_ALIGN_STACK ++ l ++ amd64_CALL_NOREDIR_RAX ++
          amd64_RESTORE_STACK ++ amd64_CFI_EPILOGUE fp)
      [TheReg "rax"] ((TheReg "rax", ptr) :: amd64_FRAME_POINTER fp)
      (["cc"; "memory"] ++ amd64_CALLER_SAVED_REGS ++ ["r14"; "r15"])).

Definition amd64_CALL_FN_W_v (fp : option Z) (ptr orig : Z) : request :=
  amd64_call fp ptr
    [orig]
    [SubI 128 "rsp"; LoadW 0 "rax" "rax"].

Definition amd64_CALL_FN_W_W (fp : option Z) (ptr orig a1 : Z) : request :=
  amd64_call fp ptr
    [orig; a1]
    [SubI 128 "rsp"; LoadW 8 "rax" "rdi"; LoadW 0 "rax" "rax"].

Definition amd64_CALL_FN_W_WW (fp : option Z) (ptr orig a1 a2 : Z) : request :=
  amd64_call fp ptr
    [orig; a1; a2]
    [SubI 128 "rsp"; LoadW 16 "rax" "rsi"; LoadW 8 "rax" "rdi"; LoadW 0 "rax" "rax"].

Definition amd64_CALL_FN_W_WWW (fp : option Z) (ptr orig a1 a2 a3 : Z) : request :=
  amd64_call fp ptr
    [orig; a1; a2; a3]
    [SubI 128 "rsp"; LoadW 24 "rax" "rdx"; LoadW 16 "rax" "rsi"; LoadW 8 "rax" "rdi";
     LoadW 0 "rax" "rax"].

Definition amd64_CALL_FN_W_WWWW (fp : option Z) (ptr orig a1 a2 a3 a4 : Z) : request :=
  amd64_call fp ptr
    [orig; a1; a2; a3; a4]
    [SubI 128 "rsp"; LoadW 32 "rax" "rcx"; LoadW 24 "rax" "rdx"; LoadW 16 "rax" "rsi";
     LoadW 8 "rax" "rdi"; LoadW 0 "rax" "rax"].

Definition amd64_CALL_FN_W_5W (fp : option Z) (ptr orig a1 a2 a3 a4 a5 : Z) : request :=
  amd64_call fp ptr
    [orig; a1; a2; a3; a4; a5]
    [SubI 128 "rsp"; LoadW 40 "rax" "r8"; LoadW 32 "rax" "rcx"; LoadW 24 "rax" "rdx";
     LoadW 16 "rax" "rsi"; LoadW 8 "rax" "rdi"; LoadW 0 "rax" "rax"].

Definition amd64_CALL_FN_W_6W (fp : option Z) (ptr orig a1 a2 a3 a4 a5 a6 : Z) : request :=
  amd64_call fp ptr
    [orig; a1; a2; a3; a4; a5; a6]
    [SubI 128 "rsp"; LoadW 48 "rax" "r9"; LoadW 40 "rax" "r8"; LoadW 32 "rax" "rcx";
     LoadW 24 "rax" "rdx"; LoadW 16 "rax" "rsi"; LoadW 8 "rax" "rdi";
     LoadW 0 "rax" "rax"].

Definition amd64_CALL_FN_W_7W (fp : option Z) (ptr orig a1 a2 a3 a4 a5 a6 a7 : Z) : request :=
  amd64_call fp ptr
    [orig; a1; a2; a3; a4; a5; a6; a7]
    [SubI 136 "rsp"; Push 56 "rax"; LoadW 48 "rax" "r9"; LoadW 40 "rax" "r8";
     LoadW 32 "rax" "rcx"; LoadW 24 "rax" "rdx"; LoadW 16 "rax" "rsi";
     LoadW 8 "rax" "rdi"; LoadW 0 "rax" "rax"].

Definition amd64_CALL_FN_W_8W (fp : option Z) (ptr orig a1 a2 a3 a4 a5 a6 a7 a8 : Z) : request :=
  amd64_call fp ptr
    [orig; a1; a2; a3; a4; a5; a6; a7; a8]
    [SubI 128 "rsp"; Push 64 "rax"; Push 56 "rax"; LoadW 48 "rax" "r9";
     LoadW 40 "rax" "r8"; LoadW 32 "rax" "rcx"; LoadW 24 "rax" "rdx";
     LoadW 16 "rax" "rsi"; LoadW 8 "rax" "rdi"; LoadW 0 "rax" "rax"].

Definition amd64_CALL_FN_W_9W (fp : option Z) (ptr orig a1 a2 a3 a4 a5 a6 a7 a8 a9 : Z)
    : request :=
  amd64_call fp ptr
    [orig; a1; a2; a3; a4; a5; a6; a7; a8; a9]
    [SubI 136 "rsp"; Push 72 "rax"; Push 64 "rax"; Push 56 "rax"; LoadW 48 "rax" "r9";
     LoadW 40 "rax" "r8"; LoadW 32 "rax" "rcx"; LoadW 24 "rax" "rdx";
     LoadW 16 "rax" "rsi"; LoadW 8 "rax" "rdi"; LoadW 0 "rax" "rax"].

Definition amd64_CALL_FN_W_10W (fp : option Z) (ptr orig a1 a2 a3 a4 a5 a6 a7 a8 a9 a10 : Z)
    : request :=
  amd64_call fp ptr
    [orig; a1; a2; a3; a4; a5; a6; a7; a8; a9; a10]
    [SubI 128 "rsp"; Push 80 "rax"; Push 72 "rax"; Push 64 "rax"; Push 56 "rax";
     LoadW 48 "rax" "r9"; LoadW 40 "rax" "r8"; LoadW 32 "rax" "rcx";
     LoadW 24 "rax" "rdx"; LoadW 16 "rax" "rsi"; LoadW 8 "rax" "rdi";
     LoadW 0 "rax" "rax"].

Definition amd64_CALL_FN_W_11W (fp : option Z) (ptr orig a1 a2 a3 a4 a5 a6 a7 a8 a9 a10 a11 : Z)
    : request :=
  amd64_call fp ptr
    [orig; a1; a2; a3; a4; a5; a6; a7; a8; a9; a10; a11]
    [SubI 136 "rsp"; Push 88 "rax"; Push 80 "rax"; Push 72 "rax"; Push 64 "rax";
     Push 56 "rax"; LoadW 48 "rax" "r9"; LoadW 40 "rax" "r8"; LoadW 32 "rax" "rcx";
     LoadW 24 "rax" "rdx"; LoadW 16 "rax" "rsi"; LoadW 8 "rax" "rdi";
     LoadW 0 "rax" "rax"].

Definition amd64_CALL_FN_W_12W (fp : option Z) (ptr orig a1 a2 a3 a4 a5 a6 a7 a8 a9 a10 a11 a12 : Z)
    : request :=
  amd64_call fp ptr
    [orig; a1; a2; a3; a4; a5; a6; a7; a8; a9; a10; a11; a12]
    [SubI 128 "rsp"; Push 96 "rax"; Push 88 "rax"; Push 80 "rax"; Push 72 "rax";
     Push 64 "rax"; Push 56 "rax"; LoadW 48 "rax" "r9"; LoadW 40 "rax" "r8";
     LoadW 32 "rax" "rcx"; LoadW 24 "rax" "rdx"; LoadW 16 "rax" "rsi";
     LoadW 8 "rax" "rdi"; LoadW 0 "rax" "rax"].

Definition amd64_CALL_FN (fp : option Z) (ptr orig : Z) (args : list Z) : option request :=
  match args with
  | [] => Some (amd64_CALL_FN_W_v fp ptr orig)
  | [a1] => Some (amd64_CALL_FN_W_W fp ptr orig a1)
  | [a1; a2] => Some (amd64_CALL_FN_W_WW fp ptr orig a1 a2)
  | [a1; a2; a3] => Some (amd64_CALL_FN_W_WWW fp ptr orig a1 a2 a3)
  | [a1; a2; a3; a4] => Some (amd64_CALL_FN_W_WWWW fp ptr orig a1 a2 a3 a4)
  | [a1; a2; a3; a4; a5] => Some (amd64_CALL_FN_W_5W fp ptr orig a1 a2 a3 a4 a5)
  | [a1; a2; a3; a4; a5; a6] => Some (amd64_CALL_FN_W_6W fp ptr orig a1 a2 a3 a4 a5 a6)
  | [a1; a2; a3; a4; a5; a6; a7] => Some (amd64_CALL_FN_W_7W fp ptr orig a1 a2 a3 a4 a5 a6 a7)
  | [a1; a2; a3; a4; a5; a6; a7; a8] =>
      Some (amd64_CALL_FN_W_8W fp ptr orig a1 a2 a3 a4 a5 a6 a7 a8)
  | [a1; a2; a3; a4; a5; a6; a7; a8; a9] =>
      Some (amd64_CALL_FN_W_9W fp ptr orig a1 a2 a3 a4 a5 a6 a7 a8 a9)
  | [a1; a2; a3; a4; a5; a6; a7; a8; a9; a10] =>
      Some (amd64_CALL_FN_W_10W fp ptr orig a1 a2 a3 a4 a5 a6 a7 a8 a9 a10)
  | [a1; a2; a3; a4; a5; a6; a7; a8; a9; a10; a11] =>
      Some (amd64_CALL_FN_W_11W fp ptr orig a1 a2 a3 a4 a5 a6 a7 a8 a9 a10 a11)
  | [a1; a2; a3; a4; a5; a6; a7; a8; a9; a10; a11; a12] =>
      Some (amd64_CALL_FN_W_12W fp ptr orig a1 a2 a3 a4 a5 a6 a7 a8 a9 a10 a11 a12)
  | _ => None
  end.
