(* ===== verification/CallFnProps.v ===== *)
(** * The hand-made calls follow the calling conventions

    Under Valgrind, where the no-redirection call runs the function: the arguments
    are where the convention of the processor has them, the stack is aligned, the
    red zone is not touched, and afterwards every register the compiler counts on
    is as before. *)
From stdpp Require Import functions.
From S2P Require Import Prelude Asm Valgrind ValgrindProps CallFn.
Local Open Scope string_scope.
Local Open Scope Z_scope.
Local Open Scope list_scope.

(** ** Aligning the stack *)
Lemma land_align w x : 4 ≤ w → 0 ≤ x < 2 ^ w → Z.land x (2 ^ w - 16) = x - x mod 16.
Proof.
  intros Hw Hx.
  assert (E : 2 ^ w - 16 = Z.shiftl (Z.ones (w - 4)) 4).
  { rewrite Z.shiftl_mul_pow2, Z.ones_equiv by lia. replace (2 ^ w) with (2 ^ (w - 4) * 2 ^ 4); [lia|].
    rewrite <- Z.pow_add_r by lia. f_equal. lia. }
  replace (x - x mod 16) with (Z.shiftl (Z.shiftr x 4) 4).
  2: { rewrite Z.shiftr_div_pow2, Z.shiftl_mul_pow2 by lia. change (2 ^ 4) with 16.
       pose proof (Z.div_mod x 16). lia. }
  rewrite E. apply Z.bits_inj'. intros i Hi. rewrite Z.land_spec, !Z.shiftl_spec by done.
  destruct (decide (i < 4)).
  - rewrite !(Z.testbit_neg_r _ (i - 4)) by lia. apply andb_false_r.
  - rewrite Z.shiftr_spec by lia. replace (i - 4 + 4) with i by lia.
    destruct (decide (i < w)).
    + rewrite Z.ones_spec_low by lia. apply andb_true_r.
    + rewrite Z.ones_spec_high by lia. rewrite (testbit_range w x i) by lia. done.
Qed.

Section frame.
Context (c : cpu) (rho : nat → string) (base saved : string).
Abbreviation sp := (stack_reg c).
Context (Hzero : zero_reg c = None) (Hbits : 8 ≤ bits c).
Context (Hbs : base ≠ sp) (Hvs : saved ≠ sp) (Hvb : saved ≠ base).

Lemma rd_reg r s : rd c rho (Reg r) s = regs s r.
Proof using Hzero. unfold rd. by rewrite Hzero. Qed.
Lemma rd_arg k s : rd c rho (Arg k) s = regs s (rho k).
Proof using Hzero. unfold rd. by rewrite Hzero. Qed.
Lemma regs_wr r v s x : regs (wr c rho (Reg r) v s) x = if decide (r = x) then v else regs s x.
Proof using Hzero.
  unfold wr. rewrite Hzero, decide_False by done. cbn.
  case_decide as H; [subst; apply fn_lookup_insert|by apply fn_lookup_insert_ne].
Qed.
Lemma mem_wr o v s : mem (wr c rho o v s) = mem s.
Proof. unfold wr. by case_decide. Qed.

Lemma exec_cons i l s : exec c rho (i :: l) s = exec c rho l (exec1 c rho i s).
Proof. done. Qed.

Lemma bytes_pos : 0 < bytes c.
Proof using Hbits. unfold bytes. apply Z.div_str_pos. lia. Qed.

(** [lo] is a bound under the words the pushes read. *)
Lemma exec_pushes offs s S lo :
  regs s sp = S → S ≤ lo → bytes c * Z.of_nat (length offs) ≤ S < 2 ^ bits c →
  Forall (λ o, lo ≤ regs s base + o < 2 ^ bits c) offs →
  let s' := exec c rho ((λ o, Push o (Reg base)) <$> offs) s in
  regs s' sp = S - bytes c * Z.of_nat (length offs) ∧
  (∀ r, r ≠ sp → regs s' r = regs s r) ∧
  (∀ i o, offs !! i = Some o → mem s' (S - bytes c * (Z.of_nat i + 1)) = mem s (regs s base + o)) ∧
  (∀ p, S ≤ p → mem s' p = mem s p).
Proof using Hbits Hbs Hzero.
  pose proof bytes_pos as Hby. intros HS Hlo. revert s S HS Hlo.
  induction offs as [|o offs IH]; intros s S HS Hlo Hlen Hoff.
  { cbn. rewrite HS. split; [lia|]. by split_and!. }
  apply Forall_cons in Hoff as [Ho Hoff]. cbn [length] in Hlen. rewrite Nat2Z.inj_succ, Z.mul_succ_r in Hlen.
  assert (Hnn : 0 ≤ bytes c * Z.of_nat (length offs)) by nia.
  assert (HS' : word c (S - bytes c) = S - bytes c) by (unfold word; apply Z.mod_small; lia).
  set (s1 := exec1 c rho (Push o (Reg base)) s).
  assert (R1 : ∀ r, r ≠ sp → regs s1 r = regs s r).
  { intros r Hr. cbn. by rewrite fn_lookup_insert_ne. }
  assert (R2 : regs s1 sp = S - bytes c).
  { cbn. by rewrite fn_lookup_insert, HS, HS'. }
  assert (M : ∀ p, mem s1 p = if decide (S - bytes c = p) then mem s (regs s base + o) else mem s p).
  { intros p. cbn. rewrite HS, HS', rd_reg. case_decide as Hp.
    - subst p. rewrite fn_lookup_insert. unfold word. rewrite Z.mod_small by lia. done.
    - by rewrite fn_lookup_insert_ne. }
  destruct (IH s1 (S - bytes c)) as (H1 & H2 & H3 & H4); [done|lia|nia| |].
  { by rewrite R1. }
  rewrite fmap_cons, exec_cons. fold s1. split; [|split; [|split]].
  - rewrite H1. cbn [length]. rewrite Nat2Z.inj_succ, Z.mul_succ_r. lia.
  - intros r Hr. by rewrite H2, R1.
  - intros [|i] x Hx.
    + injection Hx as <-. rewrite H4 by lia. rewrite M, decide_True by lia. done.
    + replace (S - bytes c * (Z.of_nat (Datatypes.S i) + 1))
        with (S - bytes c - bytes c * (Z.of_nat i + 1)) by lia.
      rewrite (H3 i x Hx), R1 by done. rewrite M, decide_False; [done|].
      apply (Forall_lookup_1 _ _ _ _ Hoff) in Hx. lia.
  - intros p Hp. rewrite H4 by lia. rewrite M, decide_False by lia. done.
Qed.

Lemma exec_loads (loads : list (Z * string)) s :
  base ∉ loads.*2 → NoDup loads.*2 →
  Forall (λ x, 0 ≤ regs s base + x.1 < 2 ^ bits c) loads →
  let s' := exec c rho ((λ x : Z * string, LoadW x.1 (Reg base) (Reg x.2)) <$> loads) s in
  mem s' = mem s ∧ (∀ r, r ∉ loads.*2 → regs s' r = regs s r) ∧
  (∀ i o r, loads !! i = Some (o, r) → regs s' r = mem s (regs s base + o)).
Proof using Hzero.
  revert s. induction loads as [|[o r] loads IH]; intros s Hb Hnd Hoff; [by split_and!|].
  apply Forall_cons in Hoff as [Ho Hoff]. cbn in Hb, Hnd, Ho.
  apply NoDup_cons in Hnd as [Hr Hnd]. apply not_elem_of_cons in Hb as [Hbr Hb].
  set (s1 := exec1 c rho (LoadW o (Reg base) (Reg r)) s).
  assert (R : ∀ x, regs s1 x = if decide (r = x) then mem s (regs s base + o) else regs s x).
  { intros x. cbn. unfold ld. rewrite regs_wr, rd_reg. unfold word. by rewrite Z.mod_small. }
  assert (M : mem s1 = mem s) by apply mem_wr.
  assert (B : regs s1 base = regs s base) by by rewrite R, decide_False.
  destruct (IH s1) as (H1 & H2 & H3); [done|done|by rewrite B|].
  rewrite fmap_cons, exec_cons. cbn [fst snd]. fold s1. cbn zeta in *. split; [congruence|]. split.
  - intros x [Hx Hx']%not_elem_of_cons. by rewrite H2, R, decide_False.
  - intros [|i] o' r' Hi.
    + injection Hi as <- <-. by rewrite H2, R, decide_True.
    + by rewrite (H3 i o' r' Hi), M, B.
Qed.

(** The instructions from the alignment of the stack to the call. *)
Definition frame (mask pad : Z) (offs : list Z) (loads : list (Z * string)) : list instr :=
  [Mov (Reg saved) (Reg sp); AndI mask (Reg sp)] ++
  (if pad =? 0 then [] else [SubI pad (Reg sp)]) ++
  ((λ o, Push o (Reg base)) <$> offs) ++
  ((λ x : Z * string, LoadW x.1 (Reg base) (Reg x.2)) <$> loads) ++
  [LoadW 0 (Reg base) (Reg base)].

Definition frame_top (pad : Z) (s : state) : Z := regs s sp - regs s sp mod 16 - pad.

Lemma exec_frame mask pad offs loads s :
  mask = 2 ^ bits c - 16 → words c s → 0 ≤ pad →
  base ∉ loads.*2 → sp ∉ loads.*2 → saved ∉ loads.*2 → NoDup loads.*2 →
  pad + bytes c * Z.of_nat (length offs) + 16 ≤ regs s sp →
  (∀ o, o ∈ 0 :: offs ++ loads.*1 → regs s sp - pad ≤ regs s base + o < 2 ^ bits c) →
  let s' := exec c rho (frame mask pad offs loads) s in let A := frame_top pad s in
  regs s' sp = A - bytes c * Z.of_nat (length offs) ∧ regs s' saved = regs s sp ∧
  regs s' base = mem s (regs s base) ∧
  (∀ i o, offs !! i = Some o → mem s' (A - bytes c * (Z.of_nat i + 1)) = mem s (regs s base + o)) ∧
  (∀ i o r, loads !! i = Some (o, r) → regs s' r = mem s (regs s base + o)) ∧
  (∀ r, r ∉ sp :: base :: saved :: loads.*2 → regs s' r = regs s r) ∧
  (∀ p, A ≤ p → mem s' p = mem s p).
Proof using Hbits Hbs Hvb Hvs Hzero.
  intros -> Hw Hpad Hlb Hls Hlv Hnd Hroom Hoff. pose proof (Hw sp) as Hsp. pose proof bytes_pos as Hby.
  pose proof (Z.mod_pos_bound (regs s sp) 16 ltac:(lia)) as Hmod.
  unfold frame. rewrite exec_app.
  set (s1 := exec c rho [Mov (Reg saved) (Reg sp); AndI (2 ^ bits c - 16) (Reg sp)] s).
  assert (R1 : ∀ r, regs s1 r = if decide (sp = r) then regs s sp - regs s sp mod 16 else
    if decide (saved = r) then regs s sp else regs s r).
  { intros r. unfold s1. cbn -[wr rd]. rewrite !regs_wr, !rd_reg, !regs_wr.
    rewrite (decide_False (P := saved = sp)) by done. rewrite land_align by lia. done. }
  assert (M1 : mem s1 = mem s) by (unfold s1; cbn -[wr rd]; by rewrite !mem_wr).
  clearbody s1. rewrite exec_app.
  set (s2 := exec c rho (if pad =? 0 then [] else [SubI pad (Reg sp)]) s1).
  assert (R2 : ∀ r, regs s2 r = if decide (sp = r) then frame_top pad s else
    if decide (saved = r) then regs s sp else regs s r).
  { intros r. unfold s2, frame_top. destruct (Z.eqb_spec pad 0) as [->|Hp].
    - cbn. by rewrite R1, Z.sub_0_r.
    - cbn -[wr rd]. rewrite regs_wr, rd_reg, !R1, (decide_True (P := sp = sp)) by done.
      case_decide; [|done]. unfold word. rewrite Z.mod_small; [done|]. nia. }
  assert (M2 : mem s2 = mem s).
  { unfold s2. destruct (pad =? 0); [done|]. cbn -[wr rd]. by rewrite mem_wr. }
  clearbody s2. clear R1 M1 s1. rewrite exec_app.
  assert (B2 : regs s2 base = regs s base) by by rewrite R2, !decide_False.
  assert (T2 : regs s2 sp = frame_top pad s) by by rewrite R2, decide_True.
  unfold frame_top in T2.
  destruct (exec_pushes offs s2 _ (regs s sp - pad) T2) as (P1 & P2 & P3 & P4); [lia|nia| |].
  { rewrite B2. apply Forall_forall. intros o Ho. apply Hoff. set_solver. }
  set (s3 := exec c rho _ s2) in *. clearbody s3. rewrite exec_app.
  assert (B3 : regs s3 base = regs s base) by by rewrite P2.
  destruct (exec_loads loads s3) as (L1 & L2 & L3); [done|done| |].
  { rewrite B3. apply Forall_forall. intros x Hx.
    assert (regs s sp - pad ≤ regs s base + x.1 < 2 ^ bits c); [|nia].
    apply Hoff. right. apply elem_of_app. right. by apply list_elem_of_fmap_2. }
  set (s4 := exec c rho _ s3) in *. clearbody s4.
  assert (B4 : regs s4 base = regs s base) by by rewrite L2.
  assert (O0 : regs s sp - pad ≤ regs s base + 0 < 2 ^ bits c) by (apply Hoff; by left).
  assert (Hkeep : ∀ p, frame_top pad s ≤ p → mem s4 p = mem s p).
  { intros p Hp. unfold frame_top in Hp. by rewrite L1, P4, M2 by lia. }
  assert (R5 : ∀ r, regs (exec c rho [LoadW 0 (Reg base) (Reg base)] s4) r =
    if decide (base = r) then mem s (regs s base) else regs s4 r).
  { intros r. cbn -[wr rd]. unfold ld. rewrite regs_wr, rd_reg, B4. unfold word.
    rewrite Z.mod_small by nia. rewrite Z.add_0_r. case_decide; [|done].
    apply Hkeep. unfold frame_top. lia. }
  assert (M5 : mem (exec c rho [LoadW 0 (Reg base) (Reg base)] s4) = mem s4) by apply mem_wr.
  cbn zeta. rewrite M5. split_and!.
  - rewrite R5, decide_False, L2, P1 by done. done.
  - rewrite R5, decide_False, L2, P2, R2, decide_False, decide_True by done. done.
  - by rewrite R5, decide_True.
  - intros i o Hi. unfold frame_top. rewrite L1, (P3 i o Hi), M2, B2. done.
  - intros i o r Hi.
    assert (Hr : r ∈ loads.*2) by (apply list_elem_of_fmap; exists (o, r); split; [done|by eapply list_elem_of_lookup_2]).
    rewrite R5, decide_False by (intros <-; done). rewrite (L3 i o r Hi), B3.
    assert (regs s sp - pad ≤ regs s base + o < 2 ^ bits c).
    { apply Hoff. right. apply elem_of_app. right. apply list_elem_of_fmap.
      exists (o, r). split; [done|by eapply list_elem_of_lookup_2]. }
    by rewrite P4, M2 by lia.
  - intros r Hr. rewrite !not_elem_of_cons in Hr. destruct Hr as (Hr1 & Hr2 & Hr3 & Hr4).
    by rewrite R5, decide_False, L2, P2, R2, !decide_False by done.
  - exact Hkeep.
Qed.
End frame.

(** ** One definition for all the numbers of arguments *)
Definition x86_pad (n : nat) : Z := (- (4 * Z.of_nat n)) mod 16.
Definition x86_offs (n : nat) : list Z := (λ k, 4 * Z.of_nat k) <$> reverse (seq 1 n).
Definition x86_body (n : nat) : list instr :=
  (if x86_pad n =? 0 then [] else [SubI (x86_pad n) "esp"]) ++
  ((λ o, Push o "eax") <$> x86_offs n) ++ [LoadW 0 "eax" "eax"].

Definition amd64_argregs : list string := ["rdi"; "rsi"; "rdx"; "rcx"; "r8"; "r9"].
(** The red zone, and a word more for an odd number of pushes. *)
Definition amd64_pad (n : nat) : Z := 128 + (- (8 * Z.of_nat (n - 6))) mod 16.
Definition amd64_offs (n : nat) : list Z := (λ k, 8 * Z.of_nat k) <$> reverse (seq 7 (n - 6)).
Definition amd64_loads (n : nat) : list (Z * string) :=
  reverse (zip ((λ k, 8 * Z.of_nat k) <$> seq 1 (n `min` 6)) amd64_argregs).
Definition amd64_body (n : nat) : list instr :=
  [SubI (amd64_pad n) "rsp"] ++ ((λ o, Push o "rax") <$> amd64_offs n) ++
  ((λ x : Z * string, LoadW x.1 "rax" x.2) <$> amd64_loads n) ++ [LoadW 0 "rax" "rax"].

Lemma x86_shape ptr orig args q : x86_CALL_FN ptr orig args = Some q →
  q = x86_call ptr (orig :: args) (x86_body (length args)) ∧ (length args ≤ 12)%nat.
Proof.
  do 13 (destruct args as [|? args];
    [intros [= <-]; split; [reflexivity|cbn; lia]|]). discriminate.
Qed.

Lemma amd64_shape fp ptr orig args q : amd64_CALL_FN fp ptr orig args = Some q →
  q = amd64_call fp ptr (orig :: args) (amd64_body (length args)) ∧ (length args ≤ 12)%nat.
Proof.
  do 13 (destruct args as [|? args];
    [intros [= <-]; split; [reflexivity|cbn; lia]|]). discriminate.
Qed.

(** A register is not in a list of other ones. *)
Ltac not_in :=
  unfold x86_CALLER_SAVED_REGS, amd64_CALLER_SAVED_REGS, amd64_argregs;
  rewrite ?not_elem_of_cons; repeat split;
  first [done | congruence | apply not_elem_of_nil | exact (not_elem_of_nil _)].

Lemma lookup_rev_seq a n i : (i < n)%nat → reverse (seq a n) !! i = Some (a + n - 1 - i)%nat.
Proof.
  intros Hi. rewrite reverse_lookup by (rewrite length_seq; lia). rewrite length_seq, lookup_seq_lt by lia.
  f_equal. lia.
Qed.

(** What is subtracted before [k] bytes of arguments keeps the stack aligned. *)
Lemma pad_aligned x k : (x - x mod 16 - (- k) mod 16 - k) mod 16 = 0.
Proof.
  pose proof (Z.div_mod x 16). pose proof (Z.div_mod (- k) 16).
  replace (x - x mod 16 - (- k) mod 16 - k) with ((x / 16 + (- k) / 16) * 16) by lia.
  by apply Z.mod_mul.
Qed.

(** The words of the array [_argvec] *)
Lemma argvec_word c ptr orig args (s : state) n w :
  (∀ k w, (word c <$> orig :: args) !! k = Some w → mem s (ptr + bytes c * Z.of_nat k) = w) →
  (orig :: args) !! n = Some w → mem s (ptr + bytes c * Z.of_nat n) = word c w.
Proof. intros H Hn. apply H. by rewrite list_lookup_fmap, Hn. Qed.

Lemma x86_body_plain n : Forall (plain x86) ([Mov "edi" "esp"; AndI 0xfffffff0 "esp"] ++ x86_body n).
Proof.
  unfold x86_body. rewrite !Forall_app. split_and!; [by repeat constructor| | |by repeat constructor].
  - by destruct (_ =? _); repeat constructor.
  - by apply Forall_fmap, Forall_true.
Qed.

Lemma x86_in_archs : x86 ∈ archs. Proof. set_solver. Qed.
Lemma amd64_in_archs : amd64 ∈ archs. Proof. set_solver. Qed.

(** C36. The hand-made call on x86, for every number of arguments: at the call the
    arguments are on the stack in order, which is aligned to 16 bytes, and nothing of
    the caller's frame has changed; afterwards the result is the function's, and
    every register but the clobbered ones, the stack pointer included, is as
    before, for any function that keeps the callee-saved registers. *)
Theorem x86_call_fn ptr orig args q rho answer nraddr gpr2 callee s :
  x86_CALL_FN ptr orig args = Some q →
  allocation x86_cpu (zzq_asm q) rho → entered x86_cpu (zzq_asm q) rho s →
  (∀ k w, zzq_args q !! k = Some w → mem s (ptr + 4 * Z.of_nat k) = w) →
  128 ≤ regs s "esp" ≤ ptr → ptr + 52 ≤ 2 ^ 32 →
  (∀ t s r, r ≠ "eax" → r ∉ x86_CALLER_SAVED_REGS → regs (callee t s) r = regs s r) →
  ∃ sc, regs sc "esp" mod 16 = 0 ∧
    (∀ k v, args !! k = Some v → mem sc (regs sc "esp" + 4 * Z.of_nat k) = word x86_cpu v) ∧
    (∀ p, regs s "esp" ≤ p → mem sc p = mem s p) ∧
    let s' := vg_run x86 rho answer nraddr gpr2 callee (template (zzq_asm q)) s in
    let sr := callee (word x86_cpu orig) sc in
    regs s' (rho 0%nat) = regs sr "eax" ∧ keeps (zzq_asm q) rho s s' ∧ mem s' = mem sr.
Proof.
  intros Hq [Hreg _ _ _ _ _] [Hin Hw] Hblock Hsp Hptr Hcallee.
  destruct (x86_shape _ _ _ _ Hq) as [-> Hlen]. clear Hq. set (n := length args) in *.
  assert (E0 : rho 0%nat = "eax") by by apply Hreg.
  assert (E1 : rho 1%nat = "eax") by by apply Hreg.
  assert (Hb : regs s "eax" = ptr).
  { pose proof (Hin 0%nat _ _ eq_refl) as H. change (input_no _ 0) with 1%nat in H.
    rewrite E1 in H. rewrite H. unfold word. apply Z.mod_small. cbn. lia. }
  set (pre := [Mov "edi" "esp"; AndI 0xfffffff0 "esp"] ++ x86_body n).
  assert (Hpre : pre = frame x86_cpu "eax" "edi" 0xfffffff0 (x86_pad n) (x86_offs n) []) by done.
  assert (Hpad : 0 ≤ x86_pad n < 16) by (apply Z.mod_pos_bound; lia).
  assert (Hno : length (x86_offs n) = n) by by unfold x86_offs; rewrite length_fmap, length_reverse, length_seq.
  destruct (exec_frame x86_cpu rho "eax" "edi" eq_refl ltac:(done) ltac:(done) ltac:(done) ltac:(done)
    0xfffffff0 (x86_pad n) (x86_offs n) [] s eq_refl Hw) as (F1 & F2 & F3 & F4 & _ & F6 & F7);
    [lia|set_solver..|constructor| | |].
  { rewrite Hno. change (stack_reg x86_cpu) with "esp". change (bytes x86_cpu) with 4. lia. }
  { intros o Ho. rewrite Hb. change (stack_reg x86_cpu) with "esp". change (bits x86_cpu) with 32.
    assert (0 ≤ o ≤ 48); [|lia]. rewrite app_nil_r in Ho.
    apply elem_of_cons in Ho as [->|Ho]; [lia|]. unfold x86_offs in Ho.
    apply list_elem_of_fmap in Ho as (k & -> & Hk). apply elem_of_reverse, elem_of_seq in Hk. lia. }
  rewrite <- Hpre in *. set (sc := exec x86_cpu rho pre s) in *.
  change (stack_reg x86_cpu) with "esp" in *. change (bytes x86_cpu) with 4 in *.
  rewrite Hno in F1. rewrite Hb in F3, F4.
  pose proof (Z.div_mod (regs s "esp") 16) as Hdm. pose proof (Z.mod_pos_bound (regs s "esp") 16) as Hmb.
  assert (Hword : ∀ k w, (orig :: args) !! k = Some w → mem s (ptr + 4 * Z.of_nat k) = word x86_cpu w).
  { intros k w. by apply (argvec_word x86_cpu). }
  exists sc. split; [|split; [|split]].
  - rewrite F1. unfold frame_top, x86_pad. change (stack_reg x86_cpu) with "esp".
    by apply pad_aligned.
  - intros k v Hk. assert (k < n)%nat by by eapply lookup_lt_Some.
    rewrite <- (Hword (S k) v Hk), <- (F4 (n - 1 - k)%nat (4 * Z.of_nat (S k))).
    + rewrite F1. f_equal. lia.
    + unfold x86_offs. rewrite list_lookup_fmap, lookup_rev_seq by lia. cbn. f_equal. lia.
  - intros p Hp. apply F7. unfold frame_top. change (stack_reg x86_cpu) with "esp". lia.
  - assert (Hcall : vg_run x86 rho answer nraddr gpr2 callee
      (template (zzq_asm (x86_call ptr (orig :: args) (x86_body n)))) s =
      exec x86_cpu rho x86_RESTORE_STACK (callee (word x86_cpu orig) sc)).
    { transitivity (exec x86_cpu rho x86_RESTORE_STACK (callee (regs sc "eax") sc)).
      - apply (vg_run_special x86 x86_in_archs rho answer nraddr gpr2 callee pre
          (Xchg "edx" "edx") (CallNoredir "eax") x86_RESTORE_STACK s).
        + set_solver.
        + apply x86_body_plain.
        + by repeat constructor.
      - do 3 f_equal. rewrite F3. specialize (Hword 0%nat orig eq_refl). by rewrite Z.add_0_r in Hword. }
    cbn zeta. rewrite Hcall. set (sr := callee _ sc) in *.
    assert (Hr : ∀ r, regs (exec x86_cpu rho x86_RESTORE_STACK sr) r =
      if decide ("esp" = r) then regs s "esp" else regs sr r).
    { intros r. unfold x86_RESTORE_STACK. cbn -[wr rd]. rewrite regs_wr, rd_reg by done.
      case_decide; [|done]. unfold sr. rewrite Hcallee by not_in. exact F2. }
    rewrite E0, Hr, decide_False by done. split; [done|]. split; [|apply mem_wr].
    intros r Hro Hrc. rewrite Hr. case_decide as Hesp; [by subst|].
    cbn in Hro, Hrc. rewrite E0 in Hro. rewrite !not_elem_of_cons in Hro. rewrite !not_elem_of_cons in Hrc. destruct_and?.
    unfold sr. rewrite Hcallee by not_in. apply F6. not_in.
Qed.

Lemma amd64_pre_plain fp n : Forall (plain amd64)
  (amd64_CFI_PROLOGUE fp ++ amd64_ALIGN_STACK ++ amd64_body n).
Proof.
  unfold amd64_body. rewrite !Forall_app. split_and!; try by repeat constructor.
  - by destruct fp; repeat constructor.
  - by apply Forall_fmap, Forall_true.
  - by apply Forall_fmap, Forall_true.
Qed.

Lemma amd64_loads_lookup n k r : (k < n `min` 6)%nat → amd64_argregs !! k = Some r →
  ∃ i, amd64_loads n !! i = Some (8 * Z.of_nat (S k), r).
Proof.
  intros Hk Hr. apply list_elem_of_lookup. unfold amd64_loads. apply elem_of_reverse.
  apply list_elem_of_lookup. exists k. apply lookup_zip_Some. split; [|done].
  rewrite list_lookup_fmap, lookup_seq_lt by done. done.
Qed.

Lemma amd64_loads_regs n : ∃ l, (amd64_loads n).*2 ++ l ≡ₚ amd64_argregs.
Proof.
  exists (drop (n `min` 6) amd64_argregs). unfold amd64_loads.
  rewrite fmap_reverse, reverse_Permutation. assert (n `min` 6 ≤ 6)%nat by lia.
  generalize dependent (n `min` 6)%nat. intros j Hj. do 7 (destruct j as [|j]; [reflexivity|]). lia.
Qed.

Lemma amd64_loads_offs n : Forall (λ o, 0 ≤ o ≤ 48) (amd64_loads n).*1.
Proof.
  apply Forall_forall. intros o Ho. unfold amd64_loads in Ho. rewrite fmap_reverse in Ho.
  rewrite elem_of_reverse in Ho. apply list_elem_of_fmap in Ho as ([o' r] & -> & Ho).
  apply elem_of_zip_l in Ho. apply list_elem_of_fmap in Ho as (k & -> & Hk).
  rewrite elem_of_seq in Hk. cbn. lia.
Qed.

(** The registers after the prologue: the frame's address in rbp, rbp in r15. *)
Lemma cfi_prologue fp rho s : let s0 := exec amd64_cpu rho (amd64_CFI_PROLOGUE fp) s in
  mem s0 = mem s ∧
  (∀ r, regs s0 r = match fp with
    | Some _ => if decide ("rbp" = r) then (if decide ("r15" = rho 2%nat) then regs s "rbp" else regs s (rho 2%nat))
                else if decide ("r15" = r) then regs s "rbp" else regs s r
    | None => regs s r
    end).
Proof.
  destruct fp; [|done]. cbn -[wr rd]. rewrite !mem_wr. split; [done|]. intros r.
  by rewrite !regs_wr, !rd_reg, rd_arg, regs_wr by done.
Qed.

Lemma cfi_epilogue fp rho s : let s' := exec amd64_cpu rho (amd64_RESTORE_STACK ++ amd64_CFI_EPILOGUE fp) s in
  mem s' = mem s ∧
  (∀ r, regs s' r = if decide ("rbp" = r) then (match fp with Some _ => regs s "r15" | None => regs s r end)
                    else if decide ("rsp" = r) then regs s "r14" else regs s r).
Proof.
  destruct fp; cbn -[wr rd]; rewrite !mem_wr; (split; [done|]); intros r.
  - rewrite !regs_wr, !rd_reg, regs_wr by done. case_decide; [|done]. by rewrite decide_False.
  - rewrite !regs_wr, rd_reg by done. repeat case_decide; subst; done.
Qed.

Lemma amd64_frame_eq fp n : amd64_CFI_PROLOGUE fp ++ amd64_ALIGN_STACK ++ amd64_body n =
  amd64_CFI_PROLOGUE fp ++
  frame amd64_cpu "rax" "r14" 0xfffffffffffffff0 (amd64_pad n) (amd64_offs n) (amd64_loads n).
Proof.
  unfold amd64_body, frame. rewrite (proj2 (Z.eqb_neq (amd64_pad n) 0)); [done|].
  unfold amd64_pad. pose proof (Z.mod_pos_bound (- (8 * Z.of_nat (n - 6))) 16). lia.
Qed.

(** C37. The hand-made call on amd64, for every number of arguments, with and without
    call frame information: at the call the first six arguments are in their
    registers and the others on the stack in order, which is aligned to 16 bytes; the
    red zone and the caller's frame have not changed; with frame information rbp
    holds the frame's address.  Afterwards the result is the function's, and every
    register but the clobbered ones, rsp and rbp included, is as before, for any
    function that keeps the callee-saved registers. *)
Theorem amd64_call_fn fp ptr orig args q rho answer nraddr gpr2 callee s :
  amd64_CALL_FN fp ptr orig args = Some q →
  allocation amd64_cpu (zzq_asm q) rho → entered amd64_cpu (zzq_asm q) rho s →
  (∀ k w, zzq_args q !! k = Some w → mem s (ptr + 8 * Z.of_nat k) = w) →
  256 ≤ regs s "rsp" ≤ ptr + 128 → ptr + 104 ≤ 2 ^ 64 →
  (∀ t s r, r ≠ "rax" → r ∉ amd64_CALLER_SAVED_REGS → regs (callee t s) r = regs s r) →
  ∃ sc, regs sc "rsp" mod 16 = 0 ∧
    (∀ k v, args !! k = Some v →
      match amd64_argregs !! k with
      | Some r => regs sc r = word amd64_cpu v
      | None => mem sc (regs sc "rsp" + 8 * Z.of_nat (k - 6)) = word amd64_cpu v
      end) ∧
    (∀ p, regs s "rsp" - 128 ≤ p → mem sc p = mem s p) ∧
    (∀ cfa, fp = Some cfa → regs sc "rbp" = word amd64_cpu cfa) ∧
    let s' := vg_run amd64 rho answer nraddr gpr2 callee (template (zzq_asm q)) s in
    let sr := callee (word amd64_cpu orig) sc in
    regs s' (rho 0%nat) = regs sr "rax" ∧ keeps (zzq_asm q) rho s s' ∧ mem s' = mem sr.
Proof.
  intros Hq [Hreg _ Hcl _ Hst _] [Hin Hw] Hblock Hsp Hptr Hcallee.
  destruct (amd64_shape _ _ _ _ _ Hq) as [-> Hlen]. clear Hq. set (n := length args) in *.
  assert (E0 : rho 0%nat = "rax") by by apply Hreg.
  assert (E1 : rho 1%nat = "rax") by by apply Hreg.
  assert (Hb : regs s "rax" = ptr).
  { pose proof (Hin 0%nat _ _ eq_refl) as H. change (input_no _ 0) with 1%nat in H.
    rewrite E1 in H. rewrite H. unfold word. apply Z.mod_small. cbn. lia. }
  destruct (cfi_prologue fp rho s) as [M0 R0].
  set (s0 := exec amd64_cpu rho (amd64_CFI_PROLOGUE fp) s) in *.
  assert (R0' : ∀ r, r ≠ "rbp" → r ≠ "r15" → regs s0 r = regs s r).
  { intros r H1 H2. rewrite R0. destruct fp; [|done]. by rewrite !decide_False by done. }
  assert (Hw0 : words amd64_cpu s0).
  { intros r. rewrite R0. destruct fp; repeat case_decide; apply Hw. }
  assert (Hpad : 128 ≤ amd64_pad n < 144).
  { unfold amd64_pad. pose proof (Z.mod_pos_bound (- (8 * Z.of_nat (n - 6))) 16). lia. }
  assert (Hno : length (amd64_offs n) = (n - 6)%nat)
    by by unfold amd64_offs; rewrite length_fmap, length_reverse, length_seq.
  destruct (amd64_loads_regs n) as [rest Hregs].
  assert (Hnotin : ∀ r, r ∉ amd64_argregs → r ∉ (amd64_loads n).*2).
  { intros r Hr Hin'. apply Hr. rewrite <- Hregs. set_solver. }
  destruct (exec_frame amd64_cpu rho "rax" "r14" eq_refl ltac:(done) ltac:(done) ltac:(done) ltac:(done)
    0xfffffffffffffff0 (amd64_pad n) (amd64_offs n) (amd64_loads n) s0 eq_refl Hw0)
    as (F1 & F2 & F3 & F4 & F5 & F6 & F7);
    [lia|apply Hnotin; cbn; set_solver..| | | |].
  { assert (Hnd : NoDup ((amd64_loads n).*2 ++ rest)).
    { rewrite Hregs. apply (bool_decide_unpack _). vm_compute. exact I. }
    by apply NoDup_app in Hnd as [? _]. }
  { rewrite Hno, R0' by done. change (stack_reg amd64_cpu) with "rsp".
    change (bytes amd64_cpu) with 8. lia. }
  { intros o Ho. change (stack_reg amd64_cpu) with "rsp". rewrite !R0', Hb by done.
    change (bits amd64_cpu) with 64.
    assert (0 ≤ o ≤ 96); [|lia].
    apply elem_of_cons in Ho as [->|[Ho|Ho]%elem_of_app]; [lia| |].
    - unfold amd64_offs in Ho. apply list_elem_of_fmap in Ho as (k & -> & Hk).
      rewrite elem_of_reverse, elem_of_seq in Hk. lia.
    - pose proof (amd64_loads_offs n) as Hl. rewrite Forall_forall in Hl. apply Hl in Ho. lia. }
  change (stack_reg amd64_cpu) with "rsp" in *. change (bytes amd64_cpu) with 8 in *.
  set (sc := exec amd64_cpu rho (frame _ _ _ _ _ _ _) s0) in *.
  unfold frame_top in *. change (stack_reg amd64_cpu) with "rsp" in *.
  assert (Esp : regs s0 "rsp" = regs s "rsp") by by apply R0'.
  assert (Eax : regs s0 "rax" = ptr) by by rewrite R0'.
  rewrite Esp in F1, F2, F4, F7. rewrite Eax in F3, F4, F5. rewrite M0 in F3, F4, F5, F7.
  rewrite Hno in F1.
  pose proof (Z.div_mod (regs s "rsp") 16) as Hdm.
  pose proof (Z.mod_pos_bound (regs s "rsp") 16) as Hmb.
  assert (Hword : ∀ k w, (orig :: args) !! k = Some w →
    mem s (ptr + 8 * Z.of_nat k) = word amd64_cpu w).
  { intros k w. by apply (argvec_word amd64_cpu). }
  exists sc. split; [|split; [|split; [|split]]].
  - rewrite F1. unfold amd64_pad.
    replace (regs s "rsp" - regs s "rsp" mod 16 - (128 + (- (8 * Z.of_nat (n - 6))) mod 16) -
      8 * Z.of_nat (n - 6)) with
      (regs s "rsp" - regs s "rsp" mod 16 - (- (8 * Z.of_nat (n - 6))) mod 16 -
        8 * Z.of_nat (n - 6) + (-8) * 16) by lia.
    rewrite Z.mod_add by done. apply pad_aligned.
  - intros k v Hk. assert (k < n)%nat by by eapply lookup_lt_Some.
    rewrite <- (Hword (S k) v Hk). destruct (amd64_argregs !! k) as [r|] eqn:Hr.
    + assert (k < 6)%nat by by apply lookup_lt_Some in Hr.
      destruct (amd64_loads_lookup n k r) as [i Hi]; [lia|done|]. by apply (F5 i).
    + assert (6 ≤ k)%nat by by apply lookup_ge_None in Hr.
      rewrite <- (F4 (n - 1 - k)%nat (8 * Z.of_nat (S k))).
      * rewrite F1. f_equal. lia.
      * unfold amd64_offs. rewrite list_lookup_fmap, lookup_rev_seq by lia. cbn. f_equal. lia.
  - intros p Hp. apply F7. lia.
  - intros cfa ->. rewrite F6, R0.
    + assert (H2 : rho 2%nat ∉ clobbers (zzq_asm (amd64_call (Some cfa) ptr (orig :: args) (amd64_body n))))
        by (apply Hcl; cbn; lia).
      cbn in H2. rewrite !not_elem_of_cons in H2. destruct_and?.
      rewrite decide_True, decide_False by congruence.
      apply (Hin 1%nat _ _ eq_refl).
    + rewrite !not_elem_of_cons. split_and!; try done. apply Hnotin. cbn. set_solver.
  - set (pre := amd64_CFI_PROLOGUE fp ++ amd64_ALIGN_STACK ++ amd64_body n).
    assert (Hsc : exec amd64_cpu rho pre s = sc).
    { unfold pre. by rewrite amd64_frame_eq, exec_app. }
    assert (Hcall : vg_run amd64 rho answer nraddr gpr2 callee
      (template (zzq_asm (amd64_call fp ptr (orig :: args) (amd64_body n)))) s =
      exec amd64_cpu rho (amd64_RESTORE_STACK ++ amd64_CFI_EPILOGUE fp) (callee (word amd64_cpu orig) sc)).
    { transitivity (exec amd64_cpu rho (amd64_RESTORE_STACK ++ amd64_CFI_EPILOGUE fp)
        (callee (regs sc "rax") sc)).
      - rewrite <- Hsc.
        replace (template (zzq_asm (amd64_call fp ptr (orig :: args) (amd64_body n)))) with
          (pre ++ amd64_PREAMBLE ++ Xchg "rdx" "rdx" :: amd64_RESTORE_STACK ++ amd64_CFI_EPILOGUE fp)
          by (unfold pre; by rewrite <- !app_assoc).
        apply (vg_run_special amd64 amd64_in_archs rho answer nraddr gpr2 callee pre
          (Xchg "rdx" "rdx") (CallNoredir "rax") _ s).
        + set_solver.
        + apply amd64_pre_plain.
        + by destruct fp; repeat constructor.
      - do 3 f_equal. rewrite F3. specialize (Hword 0%nat orig eq_refl). by rewrite Z.add_0_r in Hword. }
    cbn zeta. rewrite Hcall. set (sr := callee _ sc) in *.
    destruct (cfi_epilogue fp rho sr) as [M1 R1].
    set (s1 := exec amd64_cpu rho _ sr) in *.
    assert (Hsr : ∀ r, r ≠ "rax" → r ∉ amd64_CALLER_SAVED_REGS → regs sr r = regs sc r)
      by (intros; by apply Hcallee).
    rewrite E0, R1, !decide_False by done. split; [done|]. split; [|done].
    intros r Hro Hrc. cbn in Hro, Hrc. rewrite E0 in Hro. rewrite R1.
    rewrite !not_elem_of_cons in Hro. rewrite !not_elem_of_cons in Hrc. destruct_and?.
    assert (Hr4 : r ∉ amd64_CALLER_SAVED_REGS) by not_in.
    assert (Hr5 : r ∉ (amd64_loads n).*2) by (apply Hnotin; not_in).
    assert (Hr15 : "r15" ∉ (amd64_loads n).*2) by (apply Hnotin; not_in).
    destruct (decide ("rbp" = r)) as [<-|Hrbp]; [|destruct (decide ("rsp" = r)) as [<-|Hrsp]].
    + destruct fp as [cfa|].
      * rewrite Hsr, F6, R0 by (done || not_in). done.
      * rewrite Hsr, F6, R0 by (done || not_in). done.
    + by rewrite Hsr, F2 by (done || not_in).
    + by rewrite Hsr, F6, R0' by (done || not_in).
Qed.

(** ** The theorems on two calls

    A function that adds its arguments on x86; on amd64 one that adds its first and
    its seventh.  The words of [_argvec] are 1000, 1001, ... *)
Definition sum_regs (base : string) (v : Z) (r : string) : Z :=
  if decide (r = base) then 8192 else if decide (r = "rbx") then v
  else if decide (r = "rsp" ∨ r = "esp") then 4096 else 0.
Definition sum_mem (step p : Z) : Z := 1000 + (p - 8192) / step.

Definition x86_rho (n : nat) : string := "eax".
Definition x86_state : state := State (sum_regs "eax" 0) (sum_mem 4).
Definition x86_add (t : Z) (s : state) : state :=
  State (<["eax" := mem s (regs s "esp") + mem s (regs s "esp" + 4)]> (regs s)) (mem s).

Definition amd64_call_rho (n : nat) : string := match n with 2%nat => "rbx" | _ => "rax" end.
Definition amd64_call_state : state := State (sum_regs "rax" 77) (sum_mem 8).
Definition amd64_add (t : Z) (s : state) : state :=
  State (<["rax" := regs s "rdi" + mem s (regs s "rsp")]> (regs s)) (mem s).

Definition x86_sum : request := x86_CALL_FN_W_WW 8192 1000 1001 1002.
Definition amd64_sum : request :=
  amd64_CALL_FN_W_7W (Some 77) 8192 1000 1001 1002 1003 1004 1005 1006 1007.

Lemma sum_words base v r w : 64 ≤ w * 2 → 0 ≤ v < 2 ^ 32 → 0 ≤ sum_regs base v r < 2 ^ w.
Proof.
  intros Hw Hv. assert (2 ^ 32 ≤ 2 ^ w) by (apply Z.pow_le_mono_r; lia).
  unfold sum_regs. repeat case_decide; lia.
Qed.

Lemma x86_sum_allocation : allocation x86_cpu (zzq_asm x86_sum) x86_rho.
Proof.
  split.
  - intros [|[|n]] r; cbn; intros; by simplify_eq.
  - intros [|[|n]] k; cbn; intros; by simplify_eq.
  - intros n _. cbn. set_solver.
  - done.
  - done.
  - intros [|i] [|j] x y; cbn; intros; by simplify_eq.
Qed.

Lemma amd64_sum_allocation : allocation amd64_cpu (zzq_asm amd64_sum) amd64_call_rho.
Proof.
  split.
  - intros [|[|[|n]]] r; cbn; intros; by simplify_eq.
  - intros [|[|[|n]]] k; cbn; intros; by simplify_eq.
  - intros [|[|[|n]]]; cbn; try lia; not_in.
  - done.
  - intros [|[|[|n]]]; cbn; try lia; done.
  - intros [|[|i]] [|[|j]] x y; cbn; intros; by simplify_eq.
Qed.

Lemma x86_call_fn_witness :
  regs (vg_run x86 x86_rho (λ _, 0) 0 0 x86_add (template (zzq_asm x86_sum)) x86_state) "eax" = 2003.
Proof.
  destruct (x86_call_fn 8192 1000 [1001; 1002] x86_sum x86_rho (λ _, 0) 0 0 x86_add x86_state
    eq_refl x86_sum_allocation) as (sc & _ & Hargs & _ & Hres & _).
  - split; [|intros r; by apply sum_words]. intros [|j] k v; cbn; intros; by simplify_eq.
  - intros [|[|[|k]]] w; cbn; intros; by simplify_eq.
  - vm_compute. by split.
  - by vm_compute.
  - intros t s r Hr _. cbn. by rewrite fn_lookup_insert_ne.
  - cbn zeta in Hres. change (x86_rho 0) with "eax" in Hres. rewrite Hres. cbn.
    rewrite fn_lookup_insert. pose proof (Hargs 0%nat _ eq_refl) as H0. pose proof (Hargs 1%nat _ eq_refl) as H1.
    change (4 * Z.of_nat 0) with 0 in H0. change (4 * Z.of_nat 1) with 4 in H1.
    rewrite Z.add_0_r in H0. by rewrite H0, H1.
Defined.

Lemma amd64_call_fn_witness :
  regs (vg_run amd64 amd64_call_rho (λ _, 0) 0 0 amd64_add (template (zzq_asm amd64_sum))
    amd64_call_state) "rax" = 2008.
Proof.
  destruct (amd64_call_fn (Some 77) 8192 1000 [1001; 1002; 1003; 1004; 1005; 1006; 1007] amd64_sum
    amd64_call_rho (λ _, 0) 0 0 amd64_add amd64_call_state eq_refl amd64_sum_allocation)
    as (sc & _ & Hargs & _ & _ & Hres & _).
  - split; [|intros r; by apply sum_words]. intros [|[|j]] k v; cbn; intros; by simplify_eq.
  - intros [|[|[|[|[|[|[|[|k]]]]]]]] w; cbn; intros; by simplify_eq.
  - vm_compute. by split.
  - by vm_compute.
  - intros t s r Hr _. cbn. by rewrite fn_lookup_insert_ne.
  - cbn zeta in Hres. change (amd64_call_rho 0) with "rax" in Hres. rewrite Hres. cbn.
    rewrite fn_lookup_insert. pose proof (Hargs 0%nat _ eq_refl) as H0. pose proof (Hargs 6%nat _ eq_refl) as H6.
    cbn in H0, H6. rewrite Z.add_0_r in H6. by rewrite H0, H6.
Defined.
