(* ===== verification/CallPpc.v ===== *)
(** * valgrind.h: hand-made calls on the PowerPC

    [CALL_FN_W_*] for ppc32, ppc64be and ppc64le.  [_argvec] is at [ptr]; what the
    macros of an architecture have in common around the instructions [l] of one is a
    definition of its own. *)
From S2P Require Import Prelude Asm Valgrind.
Local Open Scope string_scope.
Local Open Scope Z_scope.
Local Open Scope list_scope.

(** ** ppc32 *)
Definition ppc32_CALLER_SAVED_REGS : list string :=
  ["lr"; "ctr"; "xer"; "cr0"; "cr1"; "cr2"; "cr3"; "cr4"; "cr5"; "cr6"; "cr7";
   "r0"; "r2"; "r3"; "r4"; "r5"; "r6"; "r7"; "r8"; "r9"; "r10"; "r11"; "r12"; "r13"].
Definition ppc32_ALIGN_STACK : list instr := [Mov "r28" "r1"; Rlwinm "r1" "r1" 0 0 27].
Definition ppc32_RESTORE_STACK : list instr := [Mov "r1" "r28"].

Definition ppc32_call (ptr : Z) (argvec : list Z) (l : list instr) : request :=
  Request (word ppc32_cpu <$> argvec)
    (Asm (ppc32_ALIGN_STACK ++ [Mov "r11" (Arg 1)] ++ l ++
          ppc32_BRANCH_AND_LINK_TO_NOREDIR_R11 ++ ppc32_RESTORE_STACK ++ [Mov (Arg 0) "r3"])
      [AnyReg] [(AnyReg, ptr)]
      (["cc"; "memory"] ++ ppc32_CALLER_SAVED_REGS ++ ["r28"])).

Definition ppc32_CALL_FN_W_v (ptr orig : Z) : request :=
  ppc32_call ptr [orig]
    [LoadW 0 "r11" "r11"].

Definition ppc32_CALL_FN_W_W (ptr orig a1 : Z) : request :=
  ppc32_call ptr [orig; a1]
    [LoadW 4 "r11" "r3"; LoadW 0 "r11" "r11"].

Definition ppc32_CALL_FN_W_WW (ptr orig a1 a2 : Z) : request :=
  ppc32_call ptr [orig; a1; a2]
    [LoadW 4 "r11" "r3"; LoadW 8 "r11" "r4"; LoadW 0 "r11" "r11"].

Definition ppc32_CALL_FN_W_WWW (ptr orig a1 a2 a3 : Z) : request :=
  ppc32_call ptr [orig; a1; a2; a3]
    [LoadW 4 "r11" "r3"; LoadW 8 "r11" "r4"; LoadW 12 "r11" "r5"; LoadW 0 "r11" "r11"].

Definition ppc32_CALL_FN_W_WWWW (ptr orig a1 a2 a3 a4 : Z) : request :=
  ppc32_call ptr [orig; a1; a2; a3; a4]
    [LoadW 4 "r11" "r3"; LoadW 8 "r11" "r4"; LoadW 12 "r11" "r5"; LoadW 16 "r11" "r6";
     LoadW 0 "r11" "r11"].

Definition ppc32_CALL_FN_W_5W (ptr orig a1 a2 a3 a4 a5 : Z) : request :=
  ppc32_call ptr [orig; a1; a2; a3; a4; a5]
    [LoadW 4 "r11" "r3"; LoadW 8 "r11" "r4"; LoadW 12 "r11" "r5"; LoadW 16 "r11" "r6";
     LoadW 20 "r11" "r7"; LoadW 0 "r11" "r11"].

Definition ppc32_CALL_FN_W_6W (ptr orig a1 a2 a3 a4 a5 a6 : Z) : request :=
  ppc32_call ptr [orig; a1; a2; a3; a4; a5; a6]
    [LoadW 4 "r11" "r3"; LoadW 8 "r11" "r4"; LoadW 12 "r11" "r5"; LoadW 16 "r11" "r6";
     LoadW 20 "r11" "r7"; LoadW 24 "r11" "r8"; LoadW 0 "r11" "r11"].

Definition ppc32_CALL_FN_W_7W (ptr orig a1 a2 a3 a4 a5 a6 a7 : Z) : request :=
  ppc32_call ptr [orig; a1; a2; a3; a4; a5; a6; a7]
    [LoadW 4 "r11" "r3"; LoadW 8 "r11" "r4"; LoadW 12 "r11" "r5"; LoadW 16 "r11" "r6";
     LoadW 20 "r11" "r7"; LoadW 24 "r11" "r8"; LoadW 28 "r11" "r9"; LoadW 0 "r11" "r11"].

Definition ppc32_CALL_FN_W_8W (ptr orig a1 a2 a3 a4 a5 a6 a7 a8 : Z) : request :=
  ppc32_call ptr [orig; a1; a2; a3; a4; a5; a6; a7; a8]
    [LoadW 4 "r11" "r3"; LoadW 8 "r11" "r4"; LoadW 12 "r11" "r5"; LoadW 16 "r11" "r6";
     LoadW 20 "r11" "r7"; LoadW 24 "r11" "r8"; LoadW 28 "r11" "r9"; LoadW 32 "r11" "r10";
     LoadW 0 "r11" "r11"].

Definition ppc32_CALL_FN_W_9W (ptr orig a1 a2 a3 a4 a5 a6 a7 a8 a9 : Z) : request :=
  ppc32_call ptr [orig; a1; a2; a3; a4; a5; a6; a7; a8; a9]
    [AddI (-16) "r1"; LoadW 36 "r11" "r3"; StoreW 8 "r1" "r3"; LoadW 4 "r11" "r3";
     LoadW 8 "r11" "r4"; LoadW 12 "r11" "r5"; LoadW 16 "r11" "r6"; LoadW 20 "r11" "r7";
     LoadW 24 "r11" "r8"; LoadW 28 "r11" "r9"; LoadW 32 "r11" "r10"; LoadW 0 "r11" "r11"].

Definition ppc32_CALL_FN_W_10W (ptr orig a1 a2 a3 a4 a5 a6 a7 a8 a9 a10 : Z) : request :=
  ppc32_call ptr [orig; a1; a2; a3; a4; a5; a6; a7; a8; a9; a10]
    [AddI (-16) "r1"; LoadW 40 "r11" "r3"; StoreW 12 "r1" "r3"; LoadW 36 "r11" "r3";
     StoreW 8 "r1" "r3"; LoadW 4 "r11" "r3"; LoadW 8 "r11" "r4"; LoadW 12 "r11" "r5";
     LoadW 16 "r11" "r6"; LoadW 20 "r11" "r7"; LoadW 24 "r11" "r8"; LoadW 28 "r11" "r9";
     LoadW 32 "r11" "r10"; LoadW 0 "r11" "r11"].

Definition ppc32_CALL_FN_W_11W (ptr orig a1 a2 a3 a4 a5 a6 a7 a8 a9 a10 a11 : Z) : request :=
  ppc32_call ptr [orig; a1; a2; a3; a4; a5; a6; a7; a8; a9; a10; a11]
    [AddI (-32) "r1"; LoadW 44 "r11" "r3"; StoreW 16 "r1" "r3"; LoadW 40 "r11" "r3";
     StoreW 12 "r1" "r3"; LoadW 36 "r11" "r3"; StoreW 8 "r1" "r3"; LoadW 4 "r11" "r3";
     LoadW 8 "r11" "r4"; LoadW 12 "r11" "r5"; LoadW 16 "r11" "r6"; LoadW 20 "r11" "r7";
     LoadW 24 "r11" "r8"; LoadW 28 "r11" "r9"; LoadW 32 "r11" "r10"; LoadW 0 "r11" "r11"].

Definition ppc32_CALL_FN_W_12W (ptr orig a1 a2 a3 a4 a5 a6 a7 a8 a9 a10 a11 a12 : Z) : request :=
  ppc32_call ptr [orig; a1; a2; a3; a4; a5; a6; a7; a8; a9; a10; a11; a12]
    [AddI (-32) "r1"; LoadW 48 "r11" "r3"; StoreW 20 "r1" "r3"; LoadW 44 "r11" "r3";
     StoreW 16 "r1" "r3"; LoadW 40 "r11" "r3"; StoreW 12 "r1" "r3"; LoadW 36 "r11" "r3";
     StoreW 8 "r1" "r3"; LoadW 4 "r11" "r3"; LoadW 8 "r11" "r4"; LoadW 12 "r11" "r5";
     LoadW 16 "r11" "r6"; LoadW 20 "r11" "r7"; LoadW 24 "r11" "r8"; LoadW 28 "r11" "r9";
     LoadW 32 "r11" "r10"; LoadW 0 "r11" "r11"].

(** The macro for a number of arguments *)
Definition ppc32_CALL_FN (ptr orig : Z) (args : list Z) : option request :=
  match args with
  | [] => Some (ppc32_CALL_FN_W_v ptr orig)
  | [a1] => Some (ppc32_CALL_FN_W_W ptr orig a1)
  | [a1; a2] => Some (ppc32_CALL_FN_W_WW ptr orig a1 a2)
  | [a1; a2; a3] => Some (ppc32_CALL_FN_W_WWW ptr orig a1 a2 a3)
  | [a1; a2; a3; a4] => Some (ppc32_CALL_FN_W_WWWW ptr orig a1 a2 a3 a4)
  | [a1; a2; a3; a4; a5] => Some (ppc32_CALL_FN_W_5W ptr orig a1 a2 a3 a4 a5)
  | [a1; a2; a3; a4; a5; a6] => Some (ppc32_CALL_FN_W_6W ptr orig a1 a2 a3 a4 a5 a6)
  | [a1; a2; a3; a4; a5; a6; a7] => Some (ppc32_CALL_FN_W_7W ptr orig a1 a2 a3 a4 a5 a6 a7)
  | [a1; a2; a3; a4; a5; a6; a7; a8] => Some (ppc32_CALL_FN_W_8W ptr orig a1 a2 a3 a4 a5 a6 a7 a8)
  | [a1; a2; a3; a4; a5; a6; a7; a8; a9] =>
      Some (ppc32_CALL_FN_W_9W ptr orig a1 a2 a3 a4 a5 a6 a7 a8 a9)
  | [a1; a2; a3; a4; a5; a6; a7; a8; a9; a10] =>
      Some (ppc32_CALL_FN_W_10W ptr orig a1 a2 a3 a4 a5 a6 a7 a8 a9 a10)
  | [a1; a2; a3; a4; a5; a6; a7; a8; a9; a10; a11] =>
      Some (ppc32_CALL_FN_W_11W ptr orig a1 a2 a3 a4 a5 a6 a7 a8 a9 a10 a11)
  | [a1; a2; a3; a4; a5; a6; a7; a8; a9; a10; a11; a12] =>
      Some (ppc32_CALL_FN_W_12W ptr orig a1 a2 a3 a4 a5 a6 a7 a8 a9 a10 a11 a12)
  | _ => None
  end.

(** ** ppc64, big endian

    The array starts with a word for the TOC pointer r2 of the caller ([u] is what is
    in it before) and the one of the function; the asm statement gets the address of
    the word after them. *)
Definition ppc64be_CALLER_SAVED_REGS : list string :=
  ["lr"; "ctr"; "xer"; "cr0"; "cr1"; "cr2"; "cr3"; "cr4"; "cr5"; "cr6"; "cr7";
   "r0"; "r3"; "r4"; "r5"; "r6"; "r7"; "r8"; "r9"; "r10"; "r11"; "r12"; "r13"].
Definition ppc64be_ALIGN_STACK : list instr := [Mov "r28" "r1"; Rldicr "r1" "r1" 0 59].
Definition ppc64be_RESTORE_STACK : list instr := [Mov "r1" "r28"].

Definition ppc64be_call (ptr : Z) (argvec : list Z) (l : list instr) : request :=
  Request (word ppc64be_cpu <$> argvec)
    (Asm (ppc64be_ALIGN_STACK ++
          [Mov "r11" (Arg 1); StoreW (-16) "r11" "r2"; LoadW (-8) "r11" "r2"] ++ l ++
          ppc64be_BRANCH_AND_LINK_TO_NOREDIR_R11 ++
          [Mov "r11" (Arg 1); Mov (Arg 0) "r3"; LoadW (-16) "r11" "r2"] ++
          ppc64be_RESTORE_STACK)
      [AnyReg] [(AnyReg, ptr + 16)]
      (["cc"; "memory"] ++ ppc64be_CALLER_SAVED_REGS ++ ["r28"])).

Definition ppc64be_CALL_FN_W_v (u r2 ptr orig : Z) : request :=
  ppc64be_call ptr [u; r2; orig]
    [LoadW 0 "r11" "r11"].

Definition ppc64be_CALL_FN_W_W (u r2 ptr orig a1 : Z) : request :=
  ppc64be_call ptr [u; r2; orig; a1]
    [LoadW 8 "r11" "r3"; LoadW 0 "r11" "r11"].

Definition ppc64be_CALL_FN_W_WW (u r2 ptr orig a1 a2 : Z) : request :=
  ppc64be_call ptr [u; r2; orig; a1; a2]
    [LoadW 8 "r11" "r3"; LoadW 16 "r11" "r4"; LoadW 0 "r11" "r11"].

Definition ppc64be_CALL_FN_W_WWW (u r2 ptr orig a1 a2 a3 : Z) : request :=
  ppc64be_call ptr [u; r2; orig; a1; a2; a3]
    [LoadW 8 "r11" "r3"; LoadW 16 "r11" "r4"; LoadW 24 "r11" "r5"; LoadW 0 "r11" "r11"].

Definition ppc64be_CALL_FN_W_WWWW (u r2 ptr orig a1 a2 a3 a4 : Z) : request :=
  ppc64be_call ptr [u; r2; orig; a1; a2; a3; a4]
    [LoadW 8 "r11" "r3"; LoadW 16 "r11" "r4"; LoadW 24 "r11" "r5"; LoadW 32 "r11" "r6";
     LoadW 0 "r11" "r11"].

Definition ppc64be_CALL_FN_W_5W (u r2 ptr orig a1 a2 a3 a4 a5 : Z) : request :=
  ppc64be_call ptr [u; r2; orig; a1; a2; a3; a4; a5]
    [LoadW 8 "r11" "r3"; LoadW 16 "r11" "r4"; LoadW 24 "r11" "r5"; LoadW 32 "r11" "r6";
     LoadW 40 "r11" "r7"; LoadW 0 "r11" "r11"].

Definition ppc64be_CALL_FN_W_6W (u r2 ptr orig a1 a2 a3 a4 a5 a6 : Z) : request :=
  ppc64be_call ptr [u; r2; orig; a1; a2; a3; a4; a5; a6]
    [LoadW 8 "r11" "r3"; LoadW 16 "r11" "r4"; LoadW 24 "r11" "r5"; LoadW 32 "r11" "r6";
     LoadW 40 "r11" "r7"; LoadW 48 "r11" "r8"; LoadW 0 "r11" "r11"].

Definition ppc64be_CALL_FN_W_7W (u r2 ptr orig a1 a2 a3 a4 a5 a6 a7 : Z) : request :=
  ppc64be_call ptr [u; r2; orig; a1; a2; a3; a4; a5; a6; a7]
    [LoadW 8 "r11" "r3"; LoadW 16 "r11" "r4"; LoadW 24 "r11" "r5"; LoadW 32 "r11" "r6";
     LoadW 40 "r11" "r7"; LoadW 48 "r11" "r8"; LoadW 56 "r11" "r9"; LoadW 0 "r11" "r11"].

Definition ppc64be_CALL_FN_W_8W (u r2 ptr orig a1 a2 a3 a4 a5 a6 a7 a8 : Z) : request :=
  ppc64be_call ptr [u; r2; orig; a1; a2; a3; a4; a5; a6; a7; a8]
    [LoadW 8 "r11" "r3"; LoadW 16 "r11" "r4"; LoadW 24 "r11" "r5"; LoadW 32 "r11" "r6";
     LoadW 40 "r11" "r7"; LoadW 48 "r11" "r8"; LoadW 56 "r11" "r9"; LoadW 64 "r11" "r10";
     LoadW 0 "r11" "r11"].

Definition ppc64be_CALL_FN_W_9W (u r2 ptr orig a1 a2 a3 a4 a5 a6 a7 a8 a9 : Z) : request :=
  ppc64be_call ptr [u; r2; orig; a1; a2; a3; a4; a5; a6; a7; a8; a9]
    [AddI (-128) "r1"; LoadW 72 "r11" "r3"; StoreW 112 "r1" "r3"; LoadW 8 "r11" "r3";
     LoadW 16 "r11" "r4"; LoadW 24 "r11" "r5"; LoadW 32 "r11" "r6"; LoadW 40 "r11" "r7";
     LoadW 48 "r11" "r8"; LoadW 56 "r11" "r9"; LoadW 64 "r11" "r10"; LoadW 0 "r11" "r11"].

Definition ppc64be_CALL_FN_W_10W (u r2 ptr orig a1 a2 a3 a4 a5 a6 a7 a8 a9 a10 : Z) : request :=
  ppc64be_call ptr [u; r2; orig; a1; a2; a3; a4; a5; a6; a7; a8; a9; a10]
    [AddI (-128) "r1"; LoadW 80 "r11" "r3"; StoreW 120 "r1" "r3"; LoadW 72 "r11" "r3";
     StoreW 112 "r1" "r3"; LoadW 8 "r11" "r3"; LoadW 16 "r11" "r4"; LoadW 24 "r11" "r5";
     LoadW 32 "r11" "r6"; LoadW 40 "r11" "r7"; LoadW 48 "r11" "r8"; LoadW 56 "r11" "r9";
     LoadW 64 "r11" "r10"; LoadW 0 "r11" "r11"].

Definition ppc64be_CALL_FN_W_11W (u r2 ptr orig a1 a2 a3 a4 a5 a6 a7 a8 a9 a10 a11 : Z) :
    request :=
  ppc64be_call ptr [u; r2; orig; a1; a2; a3; a4; a5; a6; a7; a8; a9; a10; a11]
    [AddI (-144) "r1"; LoadW 88 "r11" "r3"; StoreW 128 "r1" "r3"; LoadW 80 "r11" "r3";
     StoreW 120 "r1" "r3"; LoadW 72 "r11" "r3"; StoreW 112 "r1" "r3"; LoadW 8 "r11" "r3";
     LoadW 16 "r11" "r4"; LoadW 24 "r11" "r5"; LoadW 32 "r11" "r6"; LoadW 40 "r11" "r7";
     LoadW 48 "r11" "r8"; LoadW 56 "r11" "r9"; LoadW 64 "r11" "r10"; LoadW 0 "r11" "r11"].

Definition ppc64be_CALL_FN_W_12W (u r2 ptr orig a1 a2 a3 a4 a5 a6 a7 a8 a9 a10 a11 a12 : Z) :
    request :=
  ppc64be_call ptr [u; r2; orig; a1; a2; a3; a4; a5; a6; a7; a8; a9; a10; a11; a12]
    [AddI (-144) "r1"; LoadW 96 "r11" "r3"; StoreW 136 "r1" "r3"; LoadW 88 "r11" "r3";
     StoreW 128 "r1" "r3"; LoadW 80 "r11" "r3"; StoreW 120 "r1" "r3"; LoadW 72 "r11" "r3";
     StoreW 112 "r1" "r3"; LoadW 8 "r11" "r3"; LoadW 16 "r11" "r4"; LoadW 24 "r11" "r5";
     LoadW 32 "r11" "r6"; LoadW 40 "r11" "r7"; LoadW 48 "r11" "r8"; LoadW 56 "r11" "r9";
     LoadW 64 "r11" "r10"; LoadW 0 "r11" "r11"].

(** The macro for a number of arguments *)
Definition ppc64be_CALL_FN (u r2 ptr orig : Z) (args : list Z) : option request :=
  match args with
  | [] => Some (ppc64be_CALL_FN_W_v u r2 ptr orig)
  | [a1] => Some (ppc64be_CALL_FN_W_W u r2 ptr orig a1)
  | [a1; a2] => Some (ppc64be_CALL_FN_W_WW u r2 ptr orig a1 a2)
  | [a1; a2; a3] => Some (ppc64be_CALL_FN_W_WWW u r2 ptr orig a1 a2 a3)
  | [a1; a2; a3; a4] => Some (ppc64be_CALL_FN_W_WWWW u r2 ptr orig a1 a2 a3 a4)
  | [a1; a2; a3; a4; a5] => Some (ppc64be_CALL_FN_W_5W u r2 ptr orig a1 a2 a3 a4 a5)
  | [a1; a2; a3; a4; a5; a6] => Some (ppc64be_CALL_FN_W_6W u r2 ptr orig a1 a2 a3 a4 a5 a6)
  | [a1; a2; a3; a4; a5; a6; a7] => Some (ppc64be_CALL_FN_W_7W u r2 ptr orig a1 a2 a3 a4 a5 a6 a7)
  | [a1; a2; a3; a4; a5; a6; a7; a8] =>
      Some (ppc64be_CALL_FN_W_8W u r2 ptr orig a1 a2 a3 a4 a5 a6 a7 a8)
  | [a1; a2; a3; a4; a5; a6; a7; a8; a9] =>
      Some (ppc64be_CALL_FN_W_9W u r2 ptr orig a1 a2 a3 a4 a5 a6 a7 a8 a9)
  | [a1; a2; a3; a4; a5; a6; a7; a8; a9; a10] =>
      Some (ppc64be_CALL_FN_W_10W u r2 ptr orig a1 a2 a3 a4 a5 a6 a7 a8 a9 a10)
  | [a1; a2; a3; a4; a5; a6; a7; a8; a9; a10; a11] =>
      Some (ppc64be_CALL_FN_W_11W u r2 ptr orig a1 a2 a3 a4 a5 a6 a7 a8 a9 a10 a11)
  | [a1; a2; a3; a4; a5; a6; a7; a8; a9; a10; a11; a12] =>
      Some (ppc64be_CALL_FN_W_12W u r2 ptr orig a1 a2 a3 a4 a5 a6 a7 a8 a9 a10 a11 a12)
  | _ => None
  end.

(** ** ppc64, little endian

    The array starts with a word for the TOC pointer r2 of the caller ([u] is what is
    in it before) and the one of the function; the asm statement gets the address of
    the word after them. *)
Definition ppc64le_CALLER_SAVED_REGS : list string :=
  ["lr"; "ctr"; "xer"; "cr0"; "cr1"; "cr2"; "cr3"; "cr4"; "cr5"; "cr6"; "cr7";
   "r0"; "r3"; "r4"; "r5"; "r6"; "r7"; "r8"; "r9"; "r10"; "r11"; "r12"; "r13"].
Definition ppc64le_ALIGN_STACK : list instr := [Mov "r28" "r1"; Rldicr "r1" "r1" 0 59].
Definition ppc64le_RESTORE_STACK : list instr := [Mov "r1" "r28"].

Definition ppc64le_call (ptr : Z) (argvec : list Z) (l : list instr) : request :=
  Request (word ppc64le_cpu <$> argvec)
    (Asm (ppc64le_ALIGN_STACK ++
          [Mov "r12" (Arg 1); StoreW (-16) "r12" "r2"; LoadW (-8) "r12" "r2"] ++ l ++
          ppc64le_BRANCH_AND_LINK_TO_NOREDIR_R12 ++
          [Mov "r12" (Arg 1); Mov (Arg 0) "r3"; LoadW (-16) "r12" "r2"] ++
          ppc64le_RESTORE_STACK)
      [AnyReg] [(AnyReg, ptr + 16)]
      (["cc"; "memory"] ++ ppc64le_CALLER_SAVED_REGS ++ ["r28"])).

Definition ppc64le_CALL_FN_W_v (u r2 ptr orig : Z) : request :=
  ppc64le_call ptr [u; r2; orig]
    [LoadW 0 "r12" "r12"].

Definition ppc64le_CALL_FN_W_W (u r2 ptr orig a1 : Z) : request :=
  ppc64le_call ptr [u; r2; orig; a1]
    [LoadW 8 "r12" "r3"; LoadW 0 "r12" "r12"].

Definition ppc64le_CALL_FN_W_WW (u r2 ptr orig a1 a2 : Z) : request :=
  ppc64le_call ptr [u; r2; orig; a1; a2]
    [LoadW 8 "r12" "r3"; LoadW 16 "r12" "r4"; LoadW 0 "r12" "r12"].

Definition ppc64le_CALL_FN_W_WWW (u r2 ptr orig a1 a2 a3 : Z) : request :=
  ppc64le_call ptr [u; r2; orig; a1; a2; a3]
    [LoadW 8 "r12" "r3"; LoadW 16 "r12" "r4"; LoadW 24 "r12" "r5"; LoadW 0 "r12" "r12"].

Definition ppc64le_CALL_FN_W_WWWW (u r2 ptr orig a1 a2 a3 a4 : Z) : request :=
  ppc64le_call ptr [u; r2; orig; a1; a2; a3; a4]
    [LoadW 8 "r12" "r3"; LoadW 16 "r12" "r4"; LoadW 24 "r12" "r5"; LoadW 32 "r12" "r6";
     LoadW 0 "r12" "r12"].

Definition ppc64le_CALL_FN_W_5W (u r2 ptr orig a1 a2 a3 a4 a5 : Z) : request :=
  ppc64le_call ptr [u; r2; orig; a1; a2; a3; a4; a5]
    [LoadW 8 "r12" "r3"; LoadW 16 "r12" "r4"; LoadW 24 "r12" "r5"; LoadW 32 "r12" "r6";
     LoadW 40 "r12" "r7"; LoadW 0 "r12" "r12"].

Definition ppc64le_CALL_FN_W_6W (u r2 ptr orig a1 a2 a3 a4 a5 a6 : Z) : request :=
  ppc64le_call ptr [u; r2; orig; a1; a2; a3; a4; a5; a6]
    [LoadW 8 "r12" "r3"; LoadW 16 "r12" "r4"; LoadW 24 "r12" "r5"; LoadW 32 "r12" "r6";
     LoadW 40 "r12" "r7"; LoadW 48 "r12" "r8"; LoadW 0 "r12" "r12"].

Definition ppc64le_CALL_FN_W_7W (u r2 ptr orig a1 a2 a3 a4 a5 a6 a7 : Z) : request :=
  ppc64le_call ptr [u; r2; orig; a1; a2; a3; a4; a5; a6; a7]
    [LoadW 8 "r12" "r3"; LoadW 16 "r12" "r4"; LoadW 24 "r12" "r5"; LoadW 32 "r12" "r6";
     LoadW 40 "r12" "r7"; LoadW 48 "r12" "r8"; LoadW 56 "r12" "r9"; LoadW 0 "r12" "r12"].

Definition ppc64le_CALL_FN_W_8W (u r2 ptr orig a1 a2 a3 a4 a5 a6 a7 a8 : Z) : request :=
  ppc64le_call ptr [u; r2; orig; a1; a2; a3; a4; a5; a6; a7; a8]
    [LoadW 8 "r12" "r3"; LoadW 16 "r12" "r4"; LoadW 24 "r12" "r5"; LoadW 32 "r12" "r6";
     LoadW 40 "r12" "r7"; LoadW 48 "r12" "r8"; LoadW 56 "r12" "r9"; LoadW 64 "r12" "r10";
     LoadW 0 "r12" "r12"].

Definition ppc64le_CALL_FN_W_9W (u r2 ptr orig a1 a2 a3 a4 a5 a6 a7 a8 a9 : Z) : request :=
  ppc64le_call ptr [u; r2; orig; a1; a2; a3; a4; a5; a6; a7; a8; a9]
    [AddI (-128) "r1"; LoadW 72 "r12" "r3"; StoreW 96 "r1" "r3"; LoadW 8 "r12" "r3";
     LoadW 16 "r12" "r4"; LoadW 24 "r12" "r5"; LoadW 32 "r12" "r6"; LoadW 40 "r12" "r7";
     LoadW 48 "r12" "r8"; LoadW 56 "r12" "r9"; LoadW 64 "r12" "r10"; LoadW 0 "r12" "r12"].

Definition ppc64le_CALL_FN_W_10W (u r2 ptr orig a1 a2 a3 a4 a5 a6 a7 a8 a9 a10 : Z) : request :=
  ppc64le_call ptr [u; r2; orig; a1; a2; a3; a4; a5; a6; a7; a8; a9; a10]
    [AddI (-128) "r1"; LoadW 80 "r12" "r3"; StoreW 104 "r1" "r3"; LoadW 72 "r12" "r3";
     StoreW 96 "r1" "r3"; LoadW 8 "r12" "r3"; LoadW 16 "r12" "r4"; LoadW 24 "r12" "r5";
     LoadW 32 "r12" "r6"; LoadW 40 "r12" "r7"; LoadW 48 "r12" "r8"; LoadW 56 "r12" "r9";
     LoadW 64 "r12" "r10"; LoadW 0 "r12" "r12"].

Definition ppc64le_CALL_FN_W_11W (u r2 ptr orig a1 a2 a3 a4 a5 a6 a7 a8 a9 a10 a11 : Z) :
    request :=
  ppc64le_call ptr [u; r2; orig; a1; a2; a3; a4; a5; a6; a7; a8; a9; a10; a11]
    [AddI (-144) "r1"; LoadW 88 "r12" "r3"; StoreW 112 "r1" "r3"; LoadW 80 "r12" "r3";
     StoreW 104 "r1" "r3"; LoadW 72 "r12" "r3"; StoreW 96 "r1" "r3"; LoadW 8 "r12" "r3";
     LoadW 16 "r12" "r4"; LoadW 24 "r12" "r5"; LoadW 32 "r12" "r6"; LoadW 40 "r12" "r7";
     LoadW 48 "r12" "r8"; LoadW 56 "r12" "r9"; LoadW 64 "r12" "r10"; LoadW 0 "r12" "r12"].

Definition ppc64le_CALL_FN_W_12W (u r2 ptr orig a1 a2 a3 a4 a5 a6 a7 a8 a9 a10 a11 a12 : Z) :
    request :=
  ppc64le_call ptr [u; r2; orig; a1; a2; a3; a4; a5; a6; a7; a8; a9; a10; a11; a12]
    [AddI (-144) "r1"; LoadW 96 "r12" "r3"; StoreW 120 "r1" "r3"; LoadW 88 "r12" "r3";
     StoreW 112 "r1" "r3"; LoadW 80 "r12" "r3"; StoreW 104 "r1" "r3"; LoadW 72 "r12" "r3";
     StoreW 96 "r1" "r3"; LoadW 8 "r12" "r3"; LoadW 16 "r12" "r4"; LoadW 24 "r12" "r5";
     LoadW 32 "r12" "r6"; LoadW 40 "r12" "r7"; LoadW 48 "r12" "r8"; LoadW 56 "r12" "r9";
     LoadW 64 "r12" "r10"; LoadW 0 "r12" "r12"].

(** The macro for a number of arguments *)
Definition ppc64le_CALL_FN (u r2 ptr orig : Z) (args : list Z) : option request :=
  match args with
  | [] => Some (ppc64le_CALL_FN_W_v u r2 ptr orig)
  | [a1] => Some (ppc64le_CALL_FN_W_W u r2 ptr orig a1)
  | [a1; a2] => Some (ppc64le_CALL_FN_W_WW u r2 ptr orig a1 a2)
  | [a1; a2; a3] => Some (ppc64le_CALL_FN_W_WWW u r2 ptr orig a1 a2 a3)
  | [a1; a2; a3; a4] => Some (ppc64le_CALL_FN_W_WWWW u r2 ptr orig a1 a2 a3 a4)
  | [a1; a2; a3; a4; a5] => Some (ppc64le_CALL_FN_W_5W u r2 ptr orig a1 a2 a3 a4 a5)
  | [a1; a2; a3; a4; a5; a6] => Some (ppc64le_CALL_FN_W_6W u r2 ptr orig a1 a2 a3 a4 a5 a6)
  | [a1; a2; a3; a4; a5; a6; a7] => Some (ppc64le_CALL_FN_W_7W u r2 ptr orig a1 a2 a3 a4 a5 a6 a7)
  | [a1; a2; a3; a4; a5; a6; a7; a8] =>
      Some (ppc64le_CALL_FN_W_8W u r2 ptr orig a1 a2 a3 a4 a5 a6 a7 a8)
  | [a1; a2; a3; a4; a5; a6; a7; a8; a9] =>
      Some (ppc64le_CALL_FN_W_9W u r2 ptr orig a1 a2 a3 a4 a5 a6 a7 a8 a9)
  | [a1; a2; a3; a4; a5; a6; a7; a8; a9; a10] =>
      Some (ppc64le_CALL_FN_W_10W u r2 ptr orig a1 a2 a3 a4 a5 a6 a7 a8 a9 a10)
  | [a1; a2; a3; a4; a5; a6; a7; a8; a9; a10; a11] =>
      Some (ppc64le_CALL_FN_W_11W u r2 ptr orig a1 a2 a3 a4 a5 a6 a7 a8 a9 a10 a11)
  | [a1; a2; a3; a4; a5; a6; a7; a8; a9; a10; a11; a12] =>
      Some (ppc64le_CALL_FN_W_12W u r2 ptr orig a1 a2 a3 a4 a5 a6 a7 a8 a9 a10 a11 a12)
  | _ => None
  end.
