(* ===== verification/CallArm.v ===== *)
(** * valgrind.h: hand-made calls on ARM and s390x

    [CALL_FN_W_*] for arm, arm64 and s390x.  [_argvec] is at [ptr]. *)
From S2P Require Import Prelude Asm Valgrind.
Local Open Scope string_scope.
Local Open Scope Z_scope.
Local Open Scope list_scope.

(** ** arm *)
Definition arm_CALLER_SAVED_REGS : list string := ["r0"; "r1"; "r2"; "r3"; "r4"; "r12"; "r14"].
Definition arm_ALIGN_STACK : list instr :=
  [Mov "r10" "sp"; Mov "r4" "sp"; Bic "r4" "r4" 7; Mov "sp" "r4"].
Definition arm_RESTORE_STACK : list instr := [Mov "sp" "r10"].

Definition arm_call (ptr : Z) (argvec : list Z) (l : list instr) : request :=
  Request (word arm_cpu <$> argvec)
    (Asm (arm_ALIGN_STACK ++ l ++ arm_BRANCH_AND_LINK_TO_NOREDIR_R4 ++ arm_RESTORE_STACK ++
          [Mov (Arg 0) "r0"])
      [AnyReg] [(SameAs 0, ptr)]
      (["cc"; "memory"] ++ arm_CALLER_SAVED_REGS ++ ["r10"])).

Definition arm_CALL_FN_W_v (ptr orig : Z) : request :=
  arm_call ptr [orig]
    [LoadW 0 (Arg 1) "r4"].

Definition arm_CALL_FN_W_W (ptr orig a1 : Z) : request :=
  arm_call ptr [orig; a1]
    [LoadW 4 (Arg 1) "r0"; LoadW 0 (Arg 1) "r4"].

Definition arm_CALL_FN_W_WW (ptr orig a1 a2 : Z) : request :=
  arm_call ptr [orig; a1; a2]
    [LoadW 4 (Arg 1) "r0"; LoadW 8 (Arg 1) "r1"; LoadW 0 (Arg 1) "r4"].

Definition arm_CALL_FN_W_WWW (ptr orig a1 a2 a3 : Z) : request :=
  arm_call ptr [orig; a1; a2; a3]
    [LoadW 4 (Arg 1) "r0"; LoadW 8 (Arg 1) "r1"; LoadW 12 (Arg 1) "r2";
     LoadW 0 (Arg 1) "r4"].

Definition arm_CALL_FN_W_WWWW (ptr orig a1 a2 a3 a4 : Z) : request :=
  arm_call ptr [orig; a1; a2; a3; a4]
    [LoadW 4 (Arg 1) "r0"; LoadW 8 (Arg 1) "r1"; LoadW 12 (Arg 1) "r2";
     LoadW 16 (Arg 1) "r3"; LoadW 0 (Arg 1) "r4"].

Definition arm_CALL_FN_W_5W (ptr orig a1 a2 a3 a4 a5 : Z) : request :=
  arm_call ptr [orig; a1; a2; a3; a4; a5]
    [SubI 4 "sp"; LoadW 20 (Arg 1) "r0"; PushM ["r0"]; LoadW 4 (Arg 1) "r0";
     LoadW 8 (Arg 1) "r1"; LoadW 12 (Arg 1) "r2"; LoadW 16 (Arg 1) "r3";
     LoadW 0 (Arg 1) "r4"].

Definition arm_CALL_FN_W_6W (ptr orig a1 a2 a3 a4 a5 a6 : Z) : request :=
  arm_call ptr [orig; a1; a2; a3; a4; a5; a6]
    [LoadW 20 (Arg 1) "r0"; LoadW 24 (Arg 1) "r1"; PushM ["r0"; "r1"];
     LoadW 4 (Arg 1) "r0"; LoadW 8 (Arg 1) "r1"; LoadW 12 (Arg 1) "r2";
     LoadW 16 (Arg 1) "r3"; LoadW 0 (Arg 1) "r4"].

Definition arm_CALL_FN_W_7W (ptr orig a1 a2 a3 a4 a5 a6 a7 : Z) : request :=
  arm_call ptr [orig; a1; a2; a3; a4; a5; a6; a7]
    [SubI 4 "sp"; LoadW 20 (Arg 1) "r0"; LoadW 24 (Arg 1) "r1"; LoadW 28 (Arg 1) "r2";
     PushM ["r0"; "r1"; "r2"]; LoadW 4 (Arg 1) "r0"; LoadW 8 (Arg 1) "r1";
     LoadW 12 (Arg 1) "r2"; LoadW 16 (Arg 1) "r3"; LoadW 0 (Arg 1) "r4"].

Definition arm_CALL_FN_W_8W (ptr orig a1 a2 a3 a4 a5 a6 a7 a8 : Z) : request :=
  arm_call ptr [orig; a1; a2; a3; a4; a5; a6; a7; a8]
    [LoadW 20 (Arg 1) "r0"; LoadW 24 (Arg 1) "r1"; LoadW 28 (Arg 1) "r2";
     LoadW 32 (Arg 1) "r3"; PushM ["r0"; "r1"; "r2"; "r3"]; LoadW 4 (Arg 1) "r0";
     LoadW 8 (Arg 1) "r1"; LoadW 12 (Arg 1) "r2"; LoadW 16 (Arg 1) "r3";
     LoadW 0 (Arg 1) "r4"].

Definition arm_CALL_FN_W_9W (ptr orig a1 a2 a3 a4 a5 a6 a7 a8 a9 : Z) : request :=
  arm_call ptr [orig; a1; a2; a3; a4; a5; a6; a7; a8; a9]
    [SubI 4 "sp"; LoadW 20 (Arg 1) "r0"; LoadW 24 (Arg 1) "r1"; LoadW 28 (Arg 1) "r2";
     LoadW 32 (Arg 1) "r3"; LoadW 36 (Arg 1) "r4"; PushM ["r0"; "r1"; "r2"; "r3"; "r4"];
     LoadW 4 (Arg 1) "r0"; LoadW 8 (Arg 1) "r1"; LoadW 12 (Arg 1) "r2";
     LoadW 16 (Arg 1) "r3"; LoadW 0 (Arg 1) "r4"].

Definition arm_CALL_FN_W_10W (ptr orig a1 a2 a3 a4 a5 a6 a7 a8 a9 a10 : Z) : request :=
  arm_call ptr [orig; a1; a2; a3; a4; a5; a6; a7; a8; a9; a10]
    [LoadW 40 (Arg 1) "r0"; PushM ["r0"]; LoadW 20 (Arg 1) "r0"; LoadW 24 (Arg 1) "r1";
     LoadW 28 (Arg 1) "r2"; LoadW 32 (Arg 1) "r3"; LoadW 36 (Arg 1) "r4";
     PushM ["r0"; "r1"; "r2"; "r3"; "r4"]; LoadW 4 (Arg 1) "r0"; LoadW 8 (Arg 1) "r1";
     LoadW 12 (Arg 1) "r2"; LoadW 16 (Arg 1) "r3"; LoadW 0 (Arg 1) "r4"].

Definition arm_CALL_FN_W_11W (ptr orig a1 a2 a3 a4 a5 a6 a7 a8 a9 a10 a11 : Z) : request :=
  arm_call ptr [orig; a1; a2; a3; a4; a5; a6; a7; a8; a9; a10; a11]
    [SubI 4 "sp"; LoadW 40 (Arg 1) "r0"; LoadW 44 (Arg 1) "r1"; PushM ["r0"; "r1"];
     LoadW 20 (Arg 1) "r0"; LoadW 24 (Arg 1) "r1"; LoadW 28 (Arg 1) "r2";
     LoadW 32 (Arg 1) "r3"; LoadW 36 (Arg 1) "r4"; PushM ["r0"; "r1"; "r2"; "r3"; "r4"];
     LoadW 4 (Arg 1) "r0"; LoadW 8 (Arg 1) "r1"; LoadW 12 (Arg 1) "r2";
     LoadW 16 (Arg 1) "r3"; LoadW 0 (Arg 1) "r4"].

Definition arm_CALL_FN_W_12W (ptr orig a1 a2 a3 a4 a5 a6 a7 a8 a9 a10 a11 a12 : Z) : request :=
  arm_call ptr [orig; a1; a2; a3; a4; a5; a6; a7; a8; a9; a10; a11; a12]
    [LoadW 40 (Arg 1) "r0"; LoadW 44 (Arg 1) "r1"; LoadW 48 (Arg 1) "r2";
     PushM ["r0"; "r1"; "r2"]; LoadW 20 (Arg 1) "r0"; LoadW 24 (Arg 1) "r1";
     LoadW 28 (Arg 1) "r2"; LoadW 32 (Arg 1) "r3"; LoadW 36 (Arg 1) "r4";
     PushM ["r0"; "r1"; "r2"; "r3"; "r4"]; LoadW 4 (Arg 1) "r0"; LoadW 8 (Arg 1) "r1";
     LoadW 12 (Arg 1) "r2"; LoadW 16 (Arg 1) "r3"; LoadW 0 (Arg 1) "r4"].

(** The macro for a number of arguments *)
Definition arm_CALL_FN (ptr orig : Z) (args : list Z) : option request :=
  match args with
  | [] => Some (arm_CALL_FN_W_v ptr orig)
  | [a1] => Some (arm_CALL_FN_W_W ptr orig a1)
  | [a1; a2] => Some (arm_CALL_FN_W_WW ptr orig a1 a2)
  | [a1; a2; a3] => Some (arm_CALL_FN_W_WWW ptr orig a1 a2 a3)
  | [a1; a2; a3; a4] => Some (arm_CALL_FN_W_WWWW ptr orig a1 a2 a3 a4)
  | [a1; a2; a3; a4; a5] => Some (arm_CALL_FN_W_5W ptr orig a1 a2 a3 a4 a5)
  | [a1; a2; a3; a4; a5; a6] => Some (arm_CALL_FN_W_6W ptr orig a1 a2 a3 a4 a5 a6)
  | [a1; a2; a3; a4; a5; a6; a7] => Some (arm_CALL_FN_W_7W ptr orig a1 a2 a3 a4 a5 a6 a7)
  | [a1; a2; a3; a4; a5; a6; a7; a8] => Some (arm_CALL_FN_W_8W ptr orig a1 a2 a3 a4 a5 a6 a7 a8)
  | [a1; a2; a3; a4; a5; a6; a7; a8; a9] =>
      Some (arm_CALL_FN_W_9W ptr orig a1 a2 a3 a4 a5 a6 a7 a8 a9)
  | [a1; a2; a3; a4; a5; a6; a7; a8; a9; a10] =>
      Some (arm_CALL_FN_W_10W ptr orig a1 a2 a3 a4 a5 a6 a7 a8 a9 a10)
  | [a1; a2; a3; a4; a5; a6; a7; a8; a9; a10; a11] =>
      Some (arm_CALL_FN_W_11W ptr orig a1 a2 a3 a4 a5 a6 a7 a8 a9 a10 a11)
  | [a1; a2; a3; a4; a5; a6; a7; a8; a9; a10; a11; a12] =>
      Some (arm_CALL_FN_W_12W ptr orig a1 a2 a3 a4 a5 a6 a7 a8 a9 a10 a11 a12)
  | _ => None
  end.

(** ** arm64 *)
Definition arm64_CALLER_SAVED_REGS : list string :=
  ["x0"; "x1"; "x2"; "x3"; "x4"; "x5"; "x6"; "x7"; "x8"; "x9"; "x10"; "x11"; "x12"; "x13";
   "x14"; "x15"; "x16"; "x17"; "x18"; "x19"; "x20"; "x30"; "v0"; "v1"; "v2"; "v3"; "v4"; "v5";
   "v6"; "v7"; "v8"; "v9"; "v10"; "v11"; "v12"; "v13"; "v14"; "v15"; "v16"; "v17"; "v18";
   "v19"; "v20"; "v21"; "v22"; "v23"; "v24"; "v25"; "v26"; "v27"; "v28"; "v29"; "v30"; "v31"].
Definition arm64_ALIGN_STACK : list instr := [Mov "x21" "sp"; Bic "sp" "x21" 15].
Definition arm64_RESTORE_STACK : list instr := [Mov "sp" "x21"].

Definition arm64_call (ptr : Z) (argvec : list Z) (l : list instr) : request :=
  Request (word arm64_cpu <$> argvec)
    (Asm (arm64_ALIGN_STACK ++ l ++ arm64_BRANCH_AND_LINK_TO_NOREDIR_X8 ++
          arm64_RESTORE_STACK ++ [Mov (Arg 0) "x0"])
      [AnyReg] [(SameAs 0, ptr)]
      (["cc"; "memory"] ++ arm64_CALLER_SAVED_REGS ++ ["x21"])).

Definition arm64_CALL_FN_W_v (ptr orig : Z) : request :=
  arm64_call ptr [orig]
    [LoadW 0 (Arg 1) "x8"].

Definition arm64_CALL_FN_W_W (ptr orig a1 : Z) : request :=
  arm64_call ptr [orig; a1]
    [LoadW 8 (Arg 1) "x0"; LoadW 0 (Arg 1) "x8"].

Definition arm64_CALL_FN_W_WW (ptr orig a1 a2 : Z) : request :=
  arm64_call ptr [orig; a1; a2]
    [LoadW 8 (Arg 1) "x0"; LoadW 16 (Arg 1) "x1"; LoadW 0 (Arg 1) "x8"].

Definition arm64_CALL_FN_W_WWW (ptr orig a1 a2 a3 : Z) : request :=
  arm64_call ptr [orig; a1; a2; a3]
    [LoadW 8 (Arg 1) "x0"; LoadW 16 (Arg 1) "x1"; LoadW 24 (Arg 1) "x2";
     LoadW 0 (Arg 1) "x8"].

Definition arm64_CALL_FN_W_WWWW (ptr orig a1 a2 a3 a4 : Z) : request :=
  arm64_call ptr [orig; a1; a2; a3; a4]
    [LoadW 8 (Arg 1) "x0"; LoadW 16 (Arg 1) "x1"; LoadW 24 (Arg 1) "x2";
     LoadW 32 (Arg 1) "x3"; LoadW 0 (Arg 1) "x8"].

Definition arm64_CALL_FN_W_5W (ptr orig a1 a2 a3 a4 a5 : Z) : request :=
  arm64_call ptr [orig; a1; a2; a3; a4; a5]
    [LoadW 8 (Arg 1) "x0"; LoadW 16 (Arg 1) "x1"; LoadW 24 (Arg 1) "x2";
     LoadW 32 (Arg 1) "x3"; LoadW 40 (Arg 1) "x4"; LoadW 0 (Arg 1) "x8"].

Definition arm64_CALL_FN_W_6W (ptr orig a1 a2 a3 a4 a5 a6 : Z) : request :=
  arm64_call ptr [orig; a1; a2; a3; a4; a5; a6]
    [LoadW 8 (Arg 1) "x0"; LoadW 16 (Arg 1) "x1"; LoadW 24 (Arg 1) "x2";
     LoadW 32 (Arg 1) "x3"; LoadW 40 (Arg 1) "x4"; LoadW 48 (Arg 1) "x5";
     LoadW 0 (Arg 1) "x8"].

Definition arm64_CALL_FN_W_7W (ptr orig a1 a2 a3 a4 a5 a6 a7 : Z) : request :=
  arm64_call ptr [orig; a1; a2; a3; a4; a5; a6; a7]
    [LoadW 8 (Arg 1) "x0"; LoadW 16 (Arg 1) "x1"; LoadW 24 (Arg 1) "x2";
     LoadW 32 (Arg 1) "x3"; LoadW 40 (Arg 1) "x4"; LoadW 48 (Arg 1) "x5";
     LoadW 56 (Arg 1) "x6"; LoadW 0 (Arg 1) "x8"].

Definition arm64_CALL_FN_W_8W (ptr orig a1 a2 a3 a4 a5 a6 a7 a8 : Z) : request :=
  arm64_call ptr [orig; a1; a2; a3; a4; a5; a6; a7; a8]
    [LoadW 8 (Arg 1) "x0"; LoadW 16 (Arg 1) "x1"; LoadW 24 (Arg 1) "x2";
     LoadW 32 (Arg 1) "x3"; LoadW 40 (Arg 1) "x4"; LoadW 48 (Arg 1) "x5";
     LoadW 56 (Arg 1) "x6"; LoadW 64 (Arg 1) "x7"; LoadW 0 (Arg 1) "x8"].

Definition arm64_CALL_FN_W_9W (ptr orig a1 a2 a3 a4 a5 a6 a7 a8 a9 : Z) : request :=
  arm64_call ptr [orig; a1; a2; a3; a4; a5; a6; a7; a8; a9]
    [SubI 32 "sp"; LoadW 8 (Arg 1) "x0"; LoadW 16 (Arg 1) "x1"; LoadW 24 (Arg 1) "x2";
     LoadW 32 (Arg 1) "x3"; LoadW 40 (Arg 1) "x4"; LoadW 48 (Arg 1) "x5";
     LoadW 56 (Arg 1) "x6"; LoadW 64 (Arg 1) "x7"; LoadW 72 (Arg 1) "x8";
     StoreW 0 "sp" "x8"; LoadW 0 (Arg 1) "x8"].

Definition arm64_CALL_FN_W_10W (ptr orig a1 a2 a3 a4 a5 a6 a7 a8 a9 a10 : Z) : request :=
  arm64_call ptr [orig; a1; a2; a3; a4; a5; a6; a7; a8; a9; a10]
    [SubI 32 "sp"; LoadW 8 (Arg 1) "x0"; LoadW 16 (Arg 1) "x1"; LoadW 24 (Arg 1) "x2";
     LoadW 32 (Arg 1) "x3"; LoadW 40 (Arg 1) "x4"; LoadW 48 (Arg 1) "x5";
     LoadW 56 (Arg 1) "x6"; LoadW 64 (Arg 1) "x7"; LoadW 72 (Arg 1) "x8";
     StoreW 0 "sp" "x8"; LoadW 80 (Arg 1) "x8"; StoreW 8 "sp" "x8"; LoadW 0 (Arg 1) "x8"].

Definition arm64_CALL_FN_W_11W (ptr orig a1 a2 a3 a4 a5 a6 a7 a8 a9 a10 a11 : Z) : request :=
  arm64_call ptr [orig; a1; a2; a3; a4; a5; a6; a7; a8; a9; a10; a11]
    [SubI 48 "sp"; LoadW 8 (Arg 1) "x0"; LoadW 16 (Arg 1) "x1"; LoadW 24 (Arg 1) "x2";
     LoadW 32 (Arg 1) "x3"; LoadW 40 (Arg 1) "x4"; LoadW 48 (Arg 1) "x5";
     LoadW 56 (Arg 1) "x6"; LoadW 64 (Arg 1) "x7"; LoadW 72 (Arg 1) "x8";
     StoreW 0 "sp" "x8"; LoadW 80 (Arg 1) "x8"; StoreW 8 "sp" "x8"; LoadW 88 (Arg 1) "x8";
     StoreW 16 "sp" "x8"; LoadW 0 (Arg 1) "x8"].

Definition arm64_CALL_FN_W_12W (ptr orig a1 a2 a3 a4 a5 a6 a7 a8 a9 a10 a11 a12 : Z) : request :=
  arm64_call ptr [orig; a1; a2; a3; a4; a5; a6; a7; a8; a9; a10; a11; a12]
    [SubI 48 "sp"; LoadW 8 (Arg 1) "x0"; LoadW 16 (Arg 1) "x1"; LoadW 24 (Arg 1) "x2";
     LoadW 32 (Arg 1) "x3"; LoadW 40 (Arg 1) "x4"; LoadW 48 (Arg 1) "x5";
     LoadW 56 (Arg 1) "x6"; LoadW 64 (Arg 1) "x7"; LoadW 72 (Arg 1) "x8";
     StoreW 0 "sp" "x8"; LoadW 80 (Arg 1) "x8"; StoreW 8 "sp" "x8"; LoadW 88 (Arg 1) "x8";
     StoreW 16 "sp" "x8"; LoadW 96 (Arg 1) "x8"; StoreW 24 "sp" "x8";
     LoadW 0 (Arg 1) "x8"].

(** The macro for a number of arguments *)
Definition arm64_CALL_FN (ptr orig : Z) (args : list Z) : option request :=
  match args with
  | [] => Some (arm64_CALL_FN_W_v ptr orig)
  | [a1] => Some (arm64_CALL_FN_W_W ptr orig a1)
  | [a1; a2] => Some (arm64_CALL_FN_W_WW ptr orig a1 a2)
  | [a1; a2; a3] => Some (arm64_CALL_FN_W_WWW ptr orig a1 a2 a3)
  | [a1; a2; a3; a4] => Some (arm64_CALL_FN_W_WWWW ptr orig a1 a2 a3 a4)
  | [a1; a2; a3; a4; a5] => Some (arm64_CALL_FN_W_5W ptr orig a1 a2 a3 a4 a5)
  | [a1; a2; a3; a4; a5; a6] => Some (arm64_CALL_FN_W_6W ptr orig a1 a2 a3 a4 a5 a6)
  | [a1; a2; a3; a4; a5; a6; a7] => Some (arm64_CALL_FN_W_7W ptr orig a1 a2 a3 a4 a5 a6 a7)
  | [a1; a2; a3; a4; a5; a6; a7; a8] => Some (arm64_CALL_FN_W_8W ptr orig a1 a2 a3 a4 a5 a6 a7 a8)
  | [a1; a2; a3; a4; a5; a6; a7; a8; a9] =>
      Some (arm64_CALL_FN_W_9W ptr orig a1 a2 a3 a4 a5 a6 a7 a8 a9)
  | [a1; a2; a3; a4; a5; a6; a7; a8; a9; a10] =>
      Some (arm64_CALL_FN_W_10W ptr orig a1 a2 a3 a4 a5 a6 a7 a8 a9 a10)
  | [a1; a2; a3; a4; a5; a6; a7; a8; a9; a10; a11] =>
      Some (arm64_CALL_FN_W_11W ptr orig a1 a2 a3 a4 a5 a6 a7 a8 a9 a10 a11)
  | [a1; a2; a3; a4; a5; a6; a7; a8; a9; a10; a11; a12] =>
      Some (arm64_CALL_FN_W_12W ptr orig a1 a2 a3 a4 a5 a6 a7 a8 a9 a10 a11 a12)
  | _ => None
  end.

(** ** s390x

    With the call frame information of GCC ([fp] is [__builtin_dwarf_cfa()], operand 2)
    the frame address is in r11 during the call, and r11 in r7. *)
Definition s390x_CALLER_SAVED_REGS : list string :=
  ["0"; "1"; "2"; "3"; "4"; "5"; "14"; "f0"; "f1"; "f2"; "f3"; "f4"; "f5"; "f6"; "f7"].
Definition s390x_FRAME_POINTER (fp : option Z) : list (constr * Z) :=
  match fp with Some cfa => [(AnyReg, cfa)] | None => [] end.
Definition s390x_CFI_PROLOGUE (fp : option Z) : list instr :=
  match fp with
  | Some _ => [Cfi ".cfi_remember_state"; Mov "1" (Arg 1); Mov "7" "11"; Mov "11" (Arg 2);
               Cfi ".cfi_def_cfa r11, 0"]
  | None => [Mov "1" (Arg 1)]
  end.
Definition s390x_CFI_EPILOGUE (fp : option Z) : list instr :=
  match fp with
  | Some _ => [Mov "11" "7"; Cfi ".cfi_restore_state"]
  | None => []
  end.

(** [trash]: the registers a macro clobbers besides [__CALLER_SAVED_REGS]; [pre] and
    [post]: its instructions before and after the call. *)
Definition s390x_call (fp : option Z) (trash : list string) (ptr : Z) (argvec : list Z)
    (pre post : list instr) : request :=
  Request (word s390x_cpu <$> argvec)
    (Asm (s390x_CFI_PROLOGUE fp ++ pre ++ s390x_CALL_NOREDIR_R1 ++ post ++
          s390x_CFI_EPILOGUE fp)
      [AnyReg] ((AnyReg, ptr) :: s390x_FRAME_POINTER fp)
      (["cc"; "memory"] ++ s390x_CALLER_SAVED_REGS ++ trash)).

Definition s390x_CALL_FN_W_v (fp : option Z) (ptr orig : Z) : request :=
  s390x_call fp ["7"] ptr [orig]
    [AddI (-160) "15"; LoadW 0 "1" "1"]
    [Mov (Arg 0) "2"; AddI 160 "15"].

Definition s390x_CALL_FN_W_W (fp : option Z) (ptr orig a1 : Z) : request :=
  s390x_call fp ["7"] ptr [orig; a1]
    [AddI (-160) "15"; LoadW 8 "1" "2"; LoadW 0 "1" "1"]
    [Mov (Arg 0) "2"; AddI 160 "15"].

Definition s390x_CALL_FN_W_WW (fp : option Z) (ptr orig a1 a2 : Z) : request :=
  s390x_call fp ["7"] ptr [orig; a1; a2]
    [AddI (-160) "15"; LoadW 8 "1" "2"; LoadW 16 "1" "3"; LoadW 0 "1" "1"]
    [Mov (Arg 0) "2"; AddI 160 "15"].

Definition s390x_CALL_FN_W_WWW (fp : option Z) (ptr orig a1 a2 a3 : Z) : request :=
  s390x_call fp ["7"] ptr [orig; a1; a2; a3]
    [AddI (-160) "15"; LoadW 8 "1" "2"; LoadW 16 "1" "3"; LoadW 24 "1" "4";
     LoadW 0 "1" "1"]
    [Mov (Arg 0) "2"; AddI 160 "15"].

Definition s390x_CALL_FN_W_WWWW (fp : option Z) (ptr orig a1 a2 a3 a4 : Z) : request :=
  s390x_call fp ["7"] ptr [orig; a1; a2; a3; a4]
    [AddI (-160) "15"; LoadW 8 "1" "2"; LoadW 16 "1" "3"; LoadW 24 "1" "4";
     LoadW 32 "1" "5"; LoadW 0 "1" "1"]
    [Mov (Arg 0) "2"; AddI 160 "15"].

Definition s390x_CALL_FN_W_5W (fp : option Z) (ptr orig a1 a2 a3 a4 a5 : Z) : request :=
  s390x_call fp ["6"; "7"] ptr [orig; a1; a2; a3; a4; a5]
    [AddI (-160) "15"; LoadW 8 "1" "2"; LoadW 16 "1" "3"; LoadW 24 "1" "4";
     LoadW 32 "1" "5"; LoadW 40 "1" "6"; LoadW 0 "1" "1"]
    [Mov (Arg 0) "2"; AddI 160 "15"].

Definition s390x_CALL_FN_W_6W (fp : option Z) (ptr orig a1 a2 a3 a4 a5 a6 : Z) : request :=
  s390x_call fp ["6"; "7"] ptr [orig; a1; a2; a3; a4; a5; a6]
    [AddI (-168) "15"; LoadW 8 "1" "2"; LoadW 16 "1" "3"; LoadW 24 "1" "4";
     LoadW 32 "1" "5"; LoadW 40 "1" "6"; CopyW 160 "15" 48 "1"; LoadW 0 "1" "1"]
    [Mov (Arg 0) "2"; AddI 168 "15"].

Definition s390x_CALL_FN_W_7W (fp : option Z) (ptr orig a1 a2 a3 a4 a5 a6 a7 : Z) : request :=
  s390x_call fp ["6"; "7"] ptr [orig; a1; a2; a3; a4; a5; a6; a7]
    [AddI (-176) "15"; LoadW 8 "1" "2"; LoadW 16 "1" "3"; LoadW 24 "1" "4";
     LoadW 32 "1" "5"; LoadW 40 "1" "6"; CopyW 160 "15" 48 "1"; CopyW 168 "15" 56 "1";
     LoadW 0 "1" "1"]
    [Mov (Arg 0) "2"; AddI 176 "15"].

Definition s390x_CALL_FN_W_8W (fp : option Z) (ptr orig a1 a2 a3 a4 a5 a6 a7 a8 : Z) : request :=
  s390x_call fp ["6"; "7"] ptr [orig; a1; a2; a3; a4; a5; a6; a7; a8]
    [AddI (-184) "15"; LoadW 8 "1" "2"; LoadW 16 "1" "3"; LoadW 24 "1" "4";
     LoadW 32 "1" "5"; LoadW 40 "1" "6"; CopyW 160 "15" 48 "1"; CopyW 168 "15" 56 "1";
     CopyW 176 "15" 64 "1"; LoadW 0 "1" "1"]
    [Mov (Arg 0) "2"; AddI 184 "15"].

Definition s390x_CALL_FN_W_9W (fp : option Z) (ptr orig a1 a2 a3 a4 a5 a6 a7 a8 a9 : Z) :
    request :=
  s390x_call fp ["6"; "7"] ptr [orig; a1; a2; a3; a4; a5; a6; a7; a8; a9]
    [AddI (-192) "15"; LoadW 8 "1" "2"; LoadW 16 "1" "3"; LoadW 24 "1" "4";
     LoadW 32 "1" "5"; LoadW 40 "1" "6"; CopyW 160 "15" 48 "1"; CopyW 168 "15" 56 "1";
     CopyW 176 "15" 64 "1"; CopyW 184 "15" 72 "1"; LoadW 0 "1" "1"]
    [Mov (Arg 0) "2"; AddI 192 "15"].

Definition s390x_CALL_FN_W_10W (fp : option Z) (ptr orig a1 a2 a3 a4 a5 a6 a7 a8 a9 a10 : Z) :
    request :=
  s390x_call fp ["6"; "7"] ptr [orig; a1; a2; a3; a4; a5; a6; a7; a8; a9; a10]
    [AddI (-200) "15"; LoadW 8 "1" "2"; LoadW 16 "1" "3"; LoadW 24 "1" "4";
     LoadW 32 "1" "5"; LoadW 40 "1" "6"; CopyW 160 "15" 48 "1"; CopyW 168 "15" 56 "1";
     CopyW 176 "15" 64 "1"; CopyW 184 "15" 72 "1"; CopyW 192 "15" 80 "1"; LoadW 0 "1" "1"]
    [Mov (Arg 0) "2"; AddI 200 "15"].

Definition s390x_CALL_FN_W_11W (fp : option Z) (ptr orig a1 a2 a3 a4 a5 a6 a7 a8 a9 a10 a11 :
    Z) : request :=
  s390x_call fp ["6"; "7"] ptr [orig; a1; a2; a3; a4; a5; a6; a7; a8; a9; a10; a11]
    [AddI (-208) "15"; LoadW 8 "1" "2"; LoadW 16 "1" "3"; LoadW 24 "1" "4";
     LoadW 32 "1" "5"; LoadW 40 "1" "6"; CopyW 160 "15" 48 "1"; CopyW 168 "15" 56 "1";
     CopyW 176 "15" 64 "1"; CopyW 184 "15" 72 "1"; CopyW 192 "15" 80 "1";
     CopyW 200 "15" 88 "1"; LoadW 0 "1" "1"]
    [Mov (Arg 0) "2"; AddI 208 "15"].

Definition s390x_CALL_FN_W_12W (fp : option Z) (ptr orig a1 a2 a3 a4 a5 a6 a7 a8 a9 a10 a11 a12
    : Z) : request :=
  s390x_call fp ["6"; "7"] ptr [orig; a1; a2; a3; a4; a5; a6; a7; a8; a9; a10; a11; a12]
    [AddI (-216) "15"; LoadW 8 "1" "2"; LoadW 16 "1" "3"; LoadW 24 "1" "4";
     LoadW 32 "1" "5"; LoadW 40 "1" "6"; CopyW 160 "15" 48 "1"; CopyW 168 "15" 56 "1";
     CopyW 176 "15" 64 "1"; CopyW 184 "15" 72 "1"; CopyW 192 "15" 80 "1";
     CopyW 200 "15" 88 "1"; CopyW 208 "15" 96 "1"; LoadW 0 "1" "1"]
    [Mov (Arg 0) "2"; AddI 216 "15"].

(** The macro for a number of arguments *)
Definition s390x_CALL_FN (fp : option Z) (ptr orig : Z) (args : list Z) : option request :=
  match args with
  | [] => Some (s390x_CALL_FN_W_v fp ptr orig)
  | [a1] => Some (s390x_CALL_FN_W_W fp ptr orig a1)
  | [a1; a2] => Some (s390x_CALL_FN_W_WW fp ptr orig a1 a2)
  | [a1; a2; a3] => Some (s390x_CALL_FN_W_WWW fp ptr orig a1 a2 a3)
  | [a1; a2; a3; a4] => Some (s390x_CALL_FN_W_WWWW fp ptr orig a1 a2 a3 a4)
  | [a1; a2; a3; a4; a5] => Some (s390x_CALL_FN_W_5W fp ptr orig a1 a2 a3 a4 a5)
  | [a1; a2; a3; a4; a5; a6] => Some (s390x_CALL_FN_W_6W fp ptr orig a1 a2 a3 a4 a5 a6)
  | [a1; a2; a3; a4; a5; a6; a7] => Some (s390x_CALL_FN_W_7W fp ptr orig a1 a2 a3 a4 a5 a6 a7)
  | [a1; a2; a3; a4; a5; a6; a7; a8] =>
      Some (s390x_CALL_FN_W_8W fp ptr orig a1 a2 a3 a4 a5 a6 a7 a8)
  | [a1; a2; a3; a4; a5; a6; a7; a8; a9] =>
      Some (s390x_CALL_FN_W_9W fp ptr orig a1 a2 a3 a4 a5 a6 a7 a8 a9)
  | [a1; a2; a3; a4; a5; a6; a7; a8; a9; a10] =>
      Some (s390x_CALL_FN_W_10W fp ptr orig a1 a2 a3 a4 a5 a6 a7 a8 a9 a10)
  | [a1; a2; a3; a4; a5; a6; a7; a8; a9; a10; a11] =>
      Some (s390x_CALL_FN_W_11W fp ptr orig a1 a2 a3 a4 a5 a6 a7 a8 a9 a10 a11)
  | [a1; a2; a3; a4; a5; a6; a7; a8; a9; a10; a11; a12] =>
      Some (s390x_CALL_FN_W_12W fp ptr orig a1 a2 a3 a4 a5 a6 a7 a8 a9 a10 a11 a12)
  | _ => None
  end.
