(* ===== verification/CallMips.v ===== *)
(** * valgrind.h: hand-made calls on MIPS

    [CALL_FN_W_*] for mips32 and mips64.  [_argvec] is at [ptr]; [k] is the constraint
    of its address, [pre] and [post] the instructions before and after the call. *)
From S2P Require Import Prelude Asm Valgrind.
Local Open Scope string_scope.
Local Open Scope Z_scope.
Local Open Scope list_scope.

(** ** mips32 *)
Definition mips32_CALLER_SAVED_REGS : list string :=
  ["$2"; "$3"; "$4"; "$5"; "$6"; "$7"; "$8"; "$9"; "$10"; "$11"; "$12"; "$13"; "$14"; "$15";
   "$24"; "$25"; "$31"].

Definition mips32_call (k : constr) (ptr : Z) (argvec : list Z) (pre post : list instr) : request :=
  Request (word mips32_cpu <$> argvec)
    (Asm (pre ++ mips32_CALL_NOREDIR_T9 ++ post) [AnyReg] [(k, ptr)]
      (["memory"] ++ mips32_CALLER_SAVED_REGS)).

Definition mips32_CALL_FN_W_v (ptr orig : Z) : request :=
  mips32_call (SameAs 0) ptr [orig]
    [SubI 8 "$29"; StoreW 0 "$29" "$28"; StoreW 4 "$29" "$31"; SubI 16 "$29";
     LoadW 0 (Arg 1) "$25"]
    [AddI 16 "$29"; LoadW 0 "$29" "$28"; LoadW 4 "$29" "$31"; AddI 8 "$29";
     Mov (Arg 0) "$2"].

Definition mips32_CALL_FN_W_W (ptr orig a1 : Z) : request :=
  mips32_call (SameAs 0) ptr [orig; a1]
    [SubI 8 "$29"; StoreW 0 "$29" "$28"; StoreW 4 "$29" "$31"; SubI 16 "$29";
     LoadW 4 (Arg 1) "$4"; LoadW 0 (Arg 1) "$25"]
    [AddI 16 "$29"; LoadW 0 "$29" "$28"; LoadW 4 "$29" "$31"; AddI 8 "$29";
     Mov (Arg 0) "$2"].

Definition mips32_CALL_FN_W_WW (ptr orig a1 a2 : Z) : request :=
  mips32_call (SameAs 0) ptr [orig; a1; a2]
    [SubI 8 "$29"; StoreW 0 "$29" "$28"; StoreW 4 "$29" "$31"; SubI 16 "$29";
     LoadW 4 (Arg 1) "$4"; LoadW 8 (Arg 1) "$5"; LoadW 0 (Arg 1) "$25"]
    [AddI 16 "$29"; LoadW 0 "$29" "$28"; LoadW 4 "$29" "$31"; AddI 8 "$29";
     Mov (Arg 0) "$2"].

Definition mips32_CALL_FN_W_WWW (ptr orig a1 a2 a3 : Z) : request :=
  mips32_call (SameAs 0) ptr [orig; a1; a2; a3]
    [SubI 8 "$29"; StoreW 0 "$29" "$28"; StoreW 4 "$29" "$31"; SubI 16 "$29";
     LoadW 4 (Arg 1) "$4"; LoadW 8 (Arg 1) "$5"; LoadW 12 (Arg 1) "$6";
     LoadW 0 (Arg 1) "$25"]
    [AddI 16 "$29"; LoadW 0 "$29" "$28"; LoadW 4 "$29" "$31"; AddI 8 "$29";
     Mov (Arg 0) "$2"].

Definition mips32_CALL_FN_W_WWWW (ptr orig a1 a2 a3 a4 : Z) : request :=
  mips32_call (SameAs 0) ptr [orig; a1; a2; a3; a4]
    [SubI 8 "$29"; StoreW 0 "$29" "$28"; StoreW 4 "$29" "$31"; SubI 16 "$29";
     LoadW 4 (Arg 1) "$4"; LoadW 8 (Arg 1) "$5"; LoadW 12 (Arg 1) "$6";
     LoadW 16 (Arg 1) "$7"; LoadW 0 (Arg 1) "$25"]
    [AddI 16 "$29"; LoadW 0 "$29" "$28"; LoadW 4 "$29" "$31"; AddI 8 "$29";
     Mov (Arg 0) "$2"].

Definition mips32_CALL_FN_W_5W (ptr orig a1 a2 a3 a4 a5 : Z) : request :=
  mips32_call (SameAs 0) ptr [orig; a1; a2; a3; a4; a5]
    [SubI 8 "$29"; StoreW 0 "$29" "$28"; StoreW 4 "$29" "$31"; LoadW 20 (Arg 1) "$4";
     SubI 24 "$29"; StoreW 16 "$29" "$4"; LoadW 4 (Arg 1) "$4"; LoadW 8 (Arg 1) "$5";
     LoadW 12 (Arg 1) "$6"; LoadW 16 (Arg 1) "$7"; LoadW 0 (Arg 1) "$25"]
    [AddI 24 "$29"; LoadW 0 "$29" "$28"; LoadW 4 "$29" "$31"; AddI 8 "$29";
     Mov (Arg 0) "$2"].

Definition mips32_CALL_FN_W_6W (ptr orig a1 a2 a3 a4 a5 a6 : Z) : request :=
  mips32_call (SameAs 0) ptr [orig; a1; a2; a3; a4; a5; a6]
    [SubI 8 "$29"; StoreW 0 "$29" "$28"; StoreW 4 "$29" "$31"; LoadW 20 (Arg 1) "$4";
     SubI 32 "$29"; StoreW 16 "$29" "$4"; LoadW 24 (Arg 1) "$4"; Nop;
     StoreW 20 "$29" "$4"; LoadW 4 (Arg 1) "$4"; LoadW 8 (Arg 1) "$5";
     LoadW 12 (Arg 1) "$6"; LoadW 16 (Arg 1) "$7"; LoadW 0 (Arg 1) "$25"]
    [AddI 32 "$29"; LoadW 0 "$29" "$28"; LoadW 4 "$29" "$31"; AddI 8 "$29";
     Mov (Arg 0) "$2"].

Definition mips32_CALL_FN_W_7W (ptr orig a1 a2 a3 a4 a5 a6 a7 : Z) : request :=
  mips32_call (SameAs 0) ptr [orig; a1; a2; a3; a4; a5; a6; a7]
    [SubI 8 "$29"; StoreW 0 "$29" "$28"; StoreW 4 "$29" "$31"; LoadW 20 (Arg 1) "$4";
     SubI 32 "$29"; StoreW 16 "$29" "$4"; LoadW 24 (Arg 1) "$4"; StoreW 20 "$29" "$4";
     LoadW 28 (Arg 1) "$4"; StoreW 24 "$29" "$4"; LoadW 4 (Arg 1) "$4";
     LoadW 8 (Arg 1) "$5"; LoadW 12 (Arg 1) "$6"; LoadW 16 (Arg 1) "$7";
     LoadW 0 (Arg 1) "$25"]
    [AddI 32 "$29"; LoadW 0 "$29" "$28"; LoadW 4 "$29" "$31"; AddI 8 "$29";
     Mov (Arg 0) "$2"].

Definition mips32_CALL_FN_W_8W (ptr orig a1 a2 a3 a4 a5 a6 a7 a8 : Z) : request :=
  mips32_call (SameAs 0) ptr [orig; a1; a2; a3; a4; a5; a6; a7; a8]
    [SubI 8 "$29"; StoreW 0 "$29" "$28"; StoreW 4 "$29" "$31"; LoadW 20 (Arg 1) "$4";
     SubI 40 "$29"; StoreW 16 "$29" "$4"; LoadW 24 (Arg 1) "$4"; StoreW 20 "$29" "$4";
     LoadW 28 (Arg 1) "$4"; StoreW 24 "$29" "$4"; LoadW 32 (Arg 1) "$4";
     StoreW 28 "$29" "$4"; LoadW 4 (Arg 1) "$4"; LoadW 8 (Arg 1) "$5";
     LoadW 12 (Arg 1) "$6"; LoadW 16 (Arg 1) "$7"; LoadW 0 (Arg 1) "$25"]
    [AddI 40 "$29"; LoadW 0 "$29" "$28"; LoadW 4 "$29" "$31"; AddI 8 "$29";
     Mov (Arg 0) "$2"].

Definition mips32_CALL_FN_W_9W (ptr orig a1 a2 a3 a4 a5 a6 a7 a8 a9 : Z) : request :=
  mips32_call (SameAs 0) ptr [orig; a1; a2; a3; a4; a5; a6; a7; a8; a9]
    [SubI 8 "$29"; StoreW 0 "$29" "$28"; StoreW 4 "$29" "$31"; LoadW 20 (Arg 1) "$4";
     SubI 40 "$29"; StoreW 16 "$29" "$4"; LoadW 24 (Arg 1) "$4"; StoreW 20 "$29" "$4";
     LoadW 28 (Arg 1) "$4"; StoreW 24 "$29" "$4"; LoadW 32 (Arg 1) "$4";
     StoreW 28 "$29" "$4"; LoadW 36 (Arg 1) "$4"; StoreW 32 "$29" "$4";
     LoadW 4 (Arg 1) "$4"; LoadW 8 (Arg 1) "$5"; LoadW 12 (Arg 1) "$6";
     LoadW 16 (Arg 1) "$7"; LoadW 0 (Arg 1) "$25"]
    [AddI 40 "$29"; LoadW 0 "$29" "$28"; LoadW 4 "$29" "$31"; AddI 8 "$29";
     Mov (Arg 0) "$2"].

Definition mips32_CALL_FN_W_10W (ptr orig a1 a2 a3 a4 a5 a6 a7 a8 a9 a10 : Z) : request :=
  mips32_call (SameAs 0) ptr [orig; a1; a2; a3; a4; a5; a6; a7; a8; a9; a10]
    [SubI 8 "$29"; StoreW 0 "$29" "$28"; StoreW 4 "$29" "$31"; LoadW 20 (Arg 1) "$4";
     SubI 48 "$29"; StoreW 16 "$29" "$4"; LoadW 24 (Arg 1) "$4"; StoreW 20 "$29" "$4";
     LoadW 28 (Arg 1) "$4"; StoreW 24 "$29" "$4"; LoadW 32 (Arg 1) "$4";
     StoreW 28 "$29" "$4"; LoadW 36 (Arg 1) "$4"; StoreW 32 "$29" "$4";
     LoadW 40 (Arg 1) "$4"; StoreW 36 "$29" "$4"; LoadW 4 (Arg 1) "$4";
     LoadW 8 (Arg 1) "$5"; LoadW 12 (Arg 1) "$6"; LoadW 16 (Arg 1) "$7";
     LoadW 0 (Arg 1) "$25"]
    [AddI 48 "$29"; LoadW 0 "$29" "$28"; LoadW 4 "$29" "$31"; AddI 8 "$29";
     Mov (Arg 0) "$2"].

Definition mips32_CALL_FN_W_11W (ptr orig a1 a2 a3 a4 a5 a6 a7 a8 a9 a10 a11 : Z) : request :=
  mips32_call (SameAs 0) ptr [orig; a1; a2; a3; a4; a5; a6; a7; a8; a9; a10; a11]
    [SubI 8 "$29"; StoreW 0 "$29" "$28"; StoreW 4 "$29" "$31"; LoadW 20 (Arg 1) "$4";
     SubI 48 "$29"; StoreW 16 "$29" "$4"; LoadW 24 (Arg 1) "$4"; StoreW 20 "$29" "$4";
     LoadW 28 (Arg 1) "$4"; StoreW 24 "$29" "$4"; LoadW 32 (Arg 1) "$4";
     StoreW 28 "$29" "$4"; LoadW 36 (Arg 1) "$4"; StoreW 32 "$29" "$4";
     LoadW 40 (Arg 1) "$4"; StoreW 36 "$29" "$4"; LoadW 44 (Arg 1) "$4";
     StoreW 40 "$29" "$4"; LoadW 4 (Arg 1) "$4"; LoadW 8 (Arg 1) "$5";
     LoadW 12 (Arg 1) "$6"; LoadW 16 (Arg 1) "$7"; LoadW 0 (Arg 1) "$25"]
    [AddI 48 "$29"; LoadW 0 "$29" "$28"; LoadW 4 "$29" "$31"; AddI 8 "$29";
     Mov (Arg 0) "$2"].

Definition mips32_CALL_FN_W_12W (ptr orig a1 a2 a3 a4 a5 a6 a7 a8 a9 a10 a11 a12 : Z) : request :=
  mips32_call AnyReg ptr [orig; a1; a2; a3; a4; a5; a6; a7; a8; a9; a10; a11; a12]
    [SubI 8 "$29"; StoreW 0 "$29" "$28"; StoreW 4 "$29" "$31"; LoadW 20 (Arg 1) "$4";
     SubI 56 "$29"; StoreW 16 "$29" "$4"; LoadW 24 (Arg 1) "$4"; StoreW 20 "$29" "$4";
     LoadW 28 (Arg 1) "$4"; StoreW 24 "$29" "$4"; LoadW 32 (Arg 1) "$4";
     StoreW 28 "$29" "$4"; LoadW 36 (Arg 1) "$4"; StoreW 32 "$29" "$4";
     LoadW 40 (Arg 1) "$4"; StoreW 36 "$29" "$4"; LoadW 44 (Arg 1) "$4";
     StoreW 40 "$29" "$4"; LoadW 48 (Arg 1) "$4"; StoreW 44 "$29" "$4";
     LoadW 4 (Arg 1) "$4"; LoadW 8 (Arg 1) "$5"; LoadW 12 (Arg 1) "$6";
     LoadW 16 (Arg 1) "$7"; LoadW 0 (Arg 1) "$25"]
    [AddI 56 "$29"; LoadW 0 "$29" "$28"; LoadW 4 "$29" "$31"; AddI 8 "$29";
     Mov (Arg 0) "$2"].

(** The macro for a number of arguments *)
Definition mips32_CALL_FN (ptr orig : Z) (args : list Z) : option request :=
  match args with
  | [] => Some (mips32_CALL_FN_W_v ptr orig)
  | [a1] => Some (mips32_CALL_FN_W_W ptr orig a1)
  | [a1; a2] => Some (mips32_CALL_FN_W_WW ptr orig a1 a2)
  | [a1; a2; a3] => Some (mips32_CALL_FN_W_WWW ptr orig a1 a2 a3)
  | [a1; a2; a3; a4] => Some (mips32_CALL_FN_W_WWWW ptr orig a1 a2 a3 a4)
  | [a1; a2; a3; a4; a5] => Some (mips32_CALL_FN_W_5W ptr orig a1 a2 a3 a4 a5)
  | [a1; a2; a3; a4; a5; a6] => Some (mips32_CALL_FN_W_6W ptr orig a1 a2 a3 a4 a5 a6)
  | [a1; a2; a3; a4; a5; a6; a7] => Some (mips32_CALL_FN_W_7W ptr orig a1 a2 a3 a4 a5 a6 a7)
  | [a1; a2; a3; a4; a5; a6; a7; a8] =>
      Some (mips32_CALL_FN_W_8W ptr orig a1 a2 a3 a4 a5 a6 a7 a8)
  | [a1; a2; a3; a4; a5; a6; a7; a8; a9] =>
      Some (mips32_CALL_FN_W_9W ptr orig a1 a2 a3 a4 a5 a6 a7 a8 a9)
  | [a1; a2; a3; a4; a5; a6; a7; a8; a9; a10] =>
      Some (mips32_CALL_FN_W_10W ptr orig a1 a2 a3 a4 a5 a6 a7 a8 a9 a10)
  | [a1; a2; a3; a4; a5; a6; a7; a8; a9; a10; a11] =>
      Some (mips32_CALL_FN_W_11W ptr orig a1 a2 a3 a4 a5 a6 a7 a8 a9 a10 a11)
  | [a1; a2; a3; a4; a5; a6; a7; a8; a9; a10; a11; a12] =>
      Some (mips32_CALL_FN_W_12W ptr orig a1 a2 a3 a4 a5 a6 a7 a8 a9 a10 a11 a12)
  | _ => None
  end.

(** ** mips64

    The words of the array are [long long]; a [long] has [long_bits] bits, 64 or, with
    the n32 ABI, 32. *)
Definition mips64_CALLER_SAVED_REGS : list string :=
  ["$2"; "$3"; "$4"; "$5"; "$6"; "$7"; "$8"; "$9"; "$10"; "$11"; "$12"; "$13"; "$14"; "$15";
   "$24"; "$25"; "$31"].

(** [((long long)(long)x)] *)
Definition MIPS64_LONG2REG_CAST (long_bits x : Z) : Z :=
  (x + 2 ^ (long_bits - 1)) mod 2 ^ long_bits - 2 ^ (long_bits - 1).

Definition mips64_call (k : constr) (ptr : Z) (argvec : list Z) (pre post : list instr) : request :=
  Request (word mips64_cpu <$> argvec)
    (Asm (pre ++ mips64_CALL_NOREDIR_T9 ++ post) [AnyReg] [(k, ptr)]
      (["memory"] ++ mips64_CALLER_SAVED_REGS)).

Definition mips64_CALL_FN_W_v (long_bits ptr orig : Z) : request :=
  mips64_call (SameAs 0) ptr
    (MIPS64_LONG2REG_CAST long_bits <$> [orig])
    [LoadW 0 (Arg 1) "$25"]
    [Mov (Arg 0) "$2"].

Definition mips64_CALL_FN_W_W (long_bits ptr orig a1 : Z) : request :=
  mips64_call AnyReg ptr
    (MIPS64_LONG2REG_CAST long_bits <$> [orig; a1])
    [LoadW 8 (Arg 1) "$4"; LoadW 0 (Arg 1) "$25"]
    [Mov (Arg 0) "$2"].

Definition mips64_CALL_FN_W_WW (long_bits ptr orig a1 a2 : Z) : request :=
  mips64_call AnyReg ptr
    (orig mod 2 ^ long_bits :: (MIPS64_LONG2REG_CAST long_bits <$> [a1; a2]))
    [LoadW 8 (Arg 1) "$4"; LoadW 16 (Arg 1) "$5"; LoadW 0 (Arg 1) "$25"]
    [Mov (Arg 0) "$2"].

Definition mips64_CALL_FN_W_WWW (long_bits ptr orig a1 a2 a3 : Z) : request :=
  mips64_call AnyReg ptr
    (orig mod 2 ^ long_bits :: (MIPS64_LONG2REG_CAST long_bits <$> [a1; a2; a3]))
    [LoadW 8 (Arg 1) "$4"; LoadW 16 (Arg 1) "$5"; LoadW 24 (Arg 1) "$6";
     LoadW 0 (Arg 1) "$25"]
    [Mov (Arg 0) "$2"].

Definition mips64_CALL_FN_W_WWWW (long_bits ptr orig a1 a2 a3 a4 : Z) : request :=
  mips64_call AnyReg ptr
    (MIPS64_LONG2REG_CAST long_bits <$> [orig; a1; a2; a3; a4])
    [LoadW 8 (Arg 1) "$4"; LoadW 16 (Arg 1) "$5"; LoadW 24 (Arg 1) "$6";
     LoadW 32 (Arg 1) "$7"; LoadW 0 (Arg 1) "$25"]
    [Mov (Arg 0) "$2"].

Definition mips64_CALL_FN_W_5W (long_bits ptr orig a1 a2 a3 a4 a5 : Z) : request :=
  mips64_call AnyReg ptr
    (MIPS64_LONG2REG_CAST long_bits <$> [orig; a1; a2; a3; a4; a5])
    [LoadW 8 (Arg 1) "$4"; LoadW 16 (Arg 1) "$5"; LoadW 24 (Arg 1) "$6";
     LoadW 32 (Arg 1) "$7"; LoadW 40 (Arg 1) "$8"; LoadW 0 (Arg 1) "$25"]
    [Mov (Arg 0) "$2"].

Definition mips64_CALL_FN_W_6W (long_bits ptr orig a1 a2 a3 a4 a5 a6 : Z) : request :=
  mips64_call AnyReg ptr
    (MIPS64_LONG2REG_CAST long_bits <$> [orig; a1; a2; a3; a4; a5; a6])
    [LoadW 8 (Arg 1) "$4"; LoadW 16 (Arg 1) "$5"; LoadW 24 (Arg 1) "$6";
     LoadW 32 (Arg 1) "$7"; LoadW 40 (Arg 1) "$8"; LoadW 48 (Arg 1) "$9";
     LoadW 0 (Arg 1) "$25"]
    [Mov (Arg 0) "$2"].

Definition mips64_CALL_FN_W_7W (long_bits ptr orig a1 a2 a3 a4 a5 a6 a7 : Z) : request :=
  mips64_call AnyReg ptr
    (MIPS64_LONG2REG_CAST long_bits <$> [orig; a1; a2; a3; a4; a5; a6; a7])
    [LoadW 8 (Arg 1) "$4"; LoadW 16 (Arg 1) "$5"; LoadW 24 (Arg 1) "$6";
     LoadW 32 (Arg 1) "$7"; LoadW 40 (Arg 1) "$8"; LoadW 48 (Arg 1) "$9";
     LoadW 56 (Arg 1) "$10"; LoadW 0 (Arg 1) "$25"]
    [Mov (Arg 0) "$2"].

Definition mips64_CALL_FN_W_8W (long_bits ptr orig a1 a2 a3 a4 a5 a6 a7 a8 : Z) : request :=
  mips64_call AnyReg ptr
    (MIPS64_LONG2REG_CAST long_bits <$> [orig; a1; a2; a3; a4; a5; a6; a7; a8])
    [LoadW 8 (Arg 1) "$4"; LoadW 16 (Arg 1) "$5"; LoadW 24 (Arg 1) "$6";
     LoadW 32 (Arg 1) "$7"; LoadW 40 (Arg 1) "$8"; LoadW 48 (Arg 1) "$9";
     LoadW 56 (Arg 1) "$10"; LoadW 64 (Arg 1) "$11"; LoadW 0 (Arg 1) "$25"]
    [Mov (Arg 0) "$2"].

Definition mips64_CALL_FN_W_9W (long_bits ptr orig a1 a2 a3 a4 a5 a6 a7 a8 a9 : Z) : request :=
  mips64_call AnyReg ptr
    (MIPS64_LONG2REG_CAST long_bits <$> [orig; a1; a2; a3; a4; a5; a6; a7; a8; a9])
    [SubI 8 "$29"; LoadW 72 (Arg 1) "$4"; StoreW 0 "$29" "$4"; LoadW 8 (Arg 1) "$4";
     LoadW 16 (Arg 1) "$5"; LoadW 24 (Arg 1) "$6"; LoadW 32 (Arg 1) "$7";
     LoadW 40 (Arg 1) "$8"; LoadW 48 (Arg 1) "$9"; LoadW 56 (Arg 1) "$10";
     LoadW 64 (Arg 1) "$11"; LoadW 0 (Arg 1) "$25"]
    [AddI 8 "$29"; Mov (Arg 0) "$2"].

Definition mips64_CALL_FN_W_10W (long_bits ptr orig a1 a2 a3 a4 a5 a6 a7 a8 a9 a10 : Z) :
    request :=
  mips64_call AnyReg ptr
    (MIPS64_LONG2REG_CAST long_bits <$> [orig; a1; a2; a3; a4; a5; a6; a7; a8; a9; a10])
    [SubI 16 "$29"; LoadW 72 (Arg 1) "$4"; StoreW 0 "$29" "$4"; LoadW 80 (Arg 1) "$4";
     StoreW 8 "$29" "$4"; LoadW 8 (Arg 1) "$4"; LoadW 16 (Arg 1) "$5";
     LoadW 24 (Arg 1) "$6"; LoadW 32 (Arg 1) "$7"; LoadW 40 (Arg 1) "$8";
     LoadW 48 (Arg 1) "$9"; LoadW 56 (Arg 1) "$10"; LoadW 64 (Arg 1) "$11";
     LoadW 0 (Arg 1) "$25"]
    [AddI 16 "$29"; Mov (Arg 0) "$2"].

Definition mips64_CALL_FN_W_11W (long_bits ptr orig a1 a2 a3 a4 a5 a6 a7 a8 a9 a10 a11 : Z) :
    request :=
  mips64_call AnyReg ptr
    (MIPS64_LONG2REG_CAST long_bits <$> [orig; a1; a2; a3; a4; a5; a6; a7; a8; a9; a10; a11])
    [SubI 24 "$29"; LoadW 72 (Arg 1) "$4"; StoreW 0 "$29" "$4"; LoadW 80 (Arg 1) "$4";
     StoreW 8 "$29" "$4"; LoadW 88 (Arg 1) "$4"; StoreW 16 "$29" "$4";
     LoadW 8 (Arg 1) "$4"; LoadW 16 (Arg 1) "$5"; LoadW 24 (Arg 1) "$6";
     LoadW 32 (Arg 1) "$7"; LoadW 40 (Arg 1) "$8"; LoadW 48 (Arg 1) "$9";
     LoadW 56 (Arg 1) "$10"; LoadW 64 (Arg 1) "$11"; LoadW 0 (Arg 1) "$25"]
    [AddI 24 "$29"; Mov (Arg 0) "$2"].

Definition mips64_CALL_FN_W_12W (long_bits ptr orig a1 a2 a3 a4 a5 a6 a7 a8 a9 a10 a11 a12 : Z)
    : request :=
  mips64_call AnyReg ptr
    (MIPS64_LONG2REG_CAST long_bits <$> [orig; a1; a2; a3; a4; a5; a6; a7; a8; a9; a10; a11; a12])
    [SubI 32 "$29"; LoadW 72 (Arg 1) "$4"; StoreW 0 "$29" "$4"; LoadW 80 (Arg 1) "$4";
     StoreW 8 "$29" "$4"; LoadW 88 (Arg 1) "$4"; StoreW 16 "$29" "$4";
     LoadW 96 (Arg 1) "$4"; StoreW 24 "$29" "$4"; LoadW 8 (Arg 1) "$4";
     LoadW 16 (Arg 1) "$5"; LoadW 24 (Arg 1) "$6"; LoadW 32 (Arg 1) "$7";
     LoadW 40 (Arg 1) "$8"; LoadW 48 (Arg 1) "$9"; LoadW 56 (Arg 1) "$10";
     LoadW 64 (Arg 1) "$11"; LoadW 0 (Arg 1) "$25"]
    [AddI 32 "$29"; Mov (Arg 0) "$2"].

(** The macro for a number of arguments *)
Definition mips64_CALL_FN (long_bits ptr orig : Z) (args : list Z) : option request :=
  match args with
  | [] => Some (mips64_CALL_FN_W_v long_bits ptr orig)
  | [a1] => Some (mips64_CALL_FN_W_W long_bits ptr orig a1)
  | [a1; a2] => Some (mips64_CALL_FN_W_WW long_bits ptr orig a1 a2)
  | [a1; a2; a3] => Some (mips64_CALL_FN_W_WWW long_bits ptr orig a1 a2 a3)
  | [a1; a2; a3; a4] => Some (mips64_CALL_FN_W_WWWW long_bits ptr orig a1 a2 a3 a4)
  | [a1; a2; a3; a4; a5] => Some (mips64_CALL_FN_W_5W long_bits ptr orig a1 a2 a3 a4 a5)
  | [a1; a2; a3; a4; a5; a6] => Some (mips64_CALL_FN_W_6W long_bits ptr orig a1 a2 a3 a4 a5 a6)
  | [a1; a2; a3; a4; a5; a6; a7] =>
      Some (mips64_CALL_FN_W_7W long_bits ptr orig a1 a2 a3 a4 a5 a6 a7)
  | [a1; a2; a3; a4; a5; a6; a7; a8] =>
      Some (mips64_CALL_FN_W_8W long_bits ptr orig a1 a2 a3 a4 a5 a6 a7 a8)
  | [a1; a2; a3; a4; a5; a6; a7; a8; a9] =>
      Some (mips64_CALL_FN_W_9W long_bits ptr orig a1 a2 a3 a4 a5 a6 a7 a8 a9)
  | [a1; a2; a3; a4; a5; a6; a7; a8; a9; a10] =>
      Some (mips64_CALL_FN_W_10W long_bits ptr orig a1 a2 a3 a4 a5 a6 a7 a8 a9 a10)
  | [a1; a2; a3; a4; a5; a6; a7; a8; a9; a10; a11] =>
      Some (mips64_CALL_FN_W_11W long_bits ptr orig a1 a2 a3 a4 a5 a6 a7 a8 a9 a10 a11)
  | [a1; a2; a3; a4; a5; a6; a7; a8; a9; a10; a11; a12] =>
      Some (mips64_CALL_FN_W_12W long_bits ptr orig a1 a2 a3 a4 a5 a6 a7 a8 a9 a10 a11 a12)
  | _ => None
  end.
