(* ===== verification/Calls.v ===== *)
(** * The calling conventions behind the hand-made calls

    For the platforms of CallPpc, CallArm and CallMips: which macro is used, what it
    puts in [_argvec], and what the convention of the platform says of the registers,
    the stack and the memory at a call. *)
From S2P Require Import Prelude Asm Valgrind CallPpc CallArm CallMips.
Local Open Scope string_scope.
Local Open Scope Z_scope.
Local Open Scope list_scope.

(** ** Places of the call *)

(** A word of the array [_argvec], by its offset, or one below the stack pointer that
    the macro starts with once it is aligned. *)
Inductive slot : Type := Block (d : Z) | Frame (d : Z).
#[export] Instance slot_eq_dec : EqDecision slot.
Proof. solve_decision. Defined.

Definition slot_addr (ptr top : Z) (p : slot) : Z :=
  match p with Block d => ptr + d | Frame d => top + d end.

(** What a register that is not an argument register has to hold: a word of [_argvec],
    or an input of the asm statement. *)
Inductive given : Type := GWord (k : nat) | GInput (j : nat).

Definition given_value (c : cpu) (q : request) (g : given) : Z :=
  match g with
  | GWord k => default 0 (zzq_args q !! k)
  | GInput j => word c (default 0 ((inputs (zzq_asm q)).*2 !! j))
  end.

(** ** Conventions *)

(** What the convention of a platform says, whoever calls. *)
Record convention : Type := Convention {
  co_arch : arch;
  co_ret : string;                 (* the result *)
  co_args : list string;           (* the registers of the first arguments *)
  co_stack : Z;                    (* the first argument on the stack, from the stack pointer *)
  co_align : Z;                    (* the stack is aligned to 2 ^ co_align bytes *)
  co_volatile : list string;       (* what a function may change *)
  co_fixed : list string           (* registers the compiler does not allocate *)
}.

(** How the macros of a platform make the call. *)
Record setup : Type := Setup {
  su_conv :> convention;
  su_realigns : bool;              (* they align the stack themselves *)
  su_first : nat;                  (* the index of the function's address in _argvec *)
  su_also : list (string * given); (* registers they set besides *)
  su_keeps : list slot;            (* where they have saved something *)
  su_result_not : list string      (* where they lose the result, if it is to go there *)
}.

Definition ppc_args : list string := ["r3"; "r4"; "r5"; "r6"; "r7"; "r8"; "r9"; "r10"].

Definition ppc32_conv : convention :=
  Convention ppc32 "r3" ppc_args 8 4 ppc32_CALLER_SAVED_REGS [].
(** r2 is the TOC pointer. *)
Definition ppc64be_conv : convention :=
  Convention ppc64be "r3" ppc_args 112 4 ("r2" :: ppc64be_CALLER_SAVED_REGS) ["r2"].
Definition ppc64le_conv : convention :=
  Convention ppc64le "r3" ppc_args 96 4 ("r2" :: ppc64le_CALLER_SAVED_REGS) ["r2"].
Definition arm_conv : convention :=
  Convention arm "r0" ["r0"; "r1"; "r2"; "r3"] 0 3 arm_CALLER_SAVED_REGS [].
Definition arm64_conv : convention :=
  Convention arm64 "x0" ["x0"; "x1"; "x2"; "x3"; "x4"; "x5"; "x6"; "x7"] 0 4
    arm64_CALLER_SAVED_REGS [].
Definition s390x_conv : convention :=
  Convention s390x "2" ["2"; "3"; "4"; "5"; "6"] 160 3 s390x_CALLER_SAVED_REGS [].
(** $28 is the global pointer, which a function may change. *)
Definition mips32_conv : convention :=
  Convention mips32 "$2" ["$4"; "$5"; "$6"; "$7"] 16 3 ("$28" :: mips32_CALLER_SAVED_REGS) ["$28"].
(** The n64 convention: the stack is aligned to 16 bytes. *)
Definition mips64_conv : convention :=
  Convention mips64 "$2" ["$4"; "$5"; "$6"; "$7"; "$8"; "$9"; "$10"; "$11"] 0 4
    mips64_CALLER_SAVED_REGS [].

Definition co_cpu (cv : convention) : cpu := a_cpu (co_arch cv).

(** The stack pointer of the state in which a macro starts, once it is aligned *)
Definition aligned_sp (cv : setup) (s : state) : Z :=
  let sp := regs s (stack_reg (co_cpu cv)) in
  if su_realigns cv then sp - sp mod 2 ^ co_align cv else sp.

(** Where the convention has argument [k] in the state of a call *)
Definition arg_place (cv : convention) (sc : state) (k : nat) : Z :=
  match co_args cv !! k with
  | Some r => regs sc r
  | None => mem sc (regs sc (stack_reg (co_cpu cv)) + co_stack cv +
                    bytes (co_cpu cv) * Z.of_nat (k - length (co_args cv)))
  end.

(** ** Which macro *)

(** A platform, with what its macros need besides the function and its arguments. *)
Inductive site : Type :=
| Ppc32
| Ppc64be (u r2 : Z)
| Ppc64le (u r2 : Z)
| Arm
| Arm64
| S390x (fp : option Z)
| Mips32
| Mips64 (long_bits : Z).

Definition conv (w : site) : convention :=
  match w with
  | Ppc32 => ppc32_conv
  | Ppc64be _ _ => ppc64be_conv
  | Ppc64le _ _ => ppc64le_conv
  | Arm => arm_conv
  | Arm64 => arm64_conv
  | S390x _ => s390x_conv
  | Mips32 => mips32_conv
  | Mips64 _ => mips64_conv
  end.

(** The macros for ppc64 save r2 in the first word of the array, those for mips32 the
    global pointer and the return address below the stack pointer.  "On s390 the stack
    pointer is properly aligned at all times"; where the frame's address is an input,
    the macros put it in r11 and give r11 its value back after they took the result. *)
Definition setup_of (w : site) : setup :=
  match w with
  | Ppc32 | Arm | Arm64 => Setup (conv w) true 0 [] [] []
  | Ppc64be _ _ | Ppc64le _ _ => Setup (conv w) true 2 [("r2", GWord 1)] [Block 0] []
  | S390x (Some _) => Setup (conv w) false 0 [("11", GInput 1)] [] ["11"]
  | S390x None | Mips64 _ => Setup (conv w) false 0 [] [] []
  | Mips32 => Setup (conv w) false 0 [] [Frame (-8); Frame (-4)] []
  end.

Definition CALL_FN_W (w : site) (ptr orig : Z) (args : list Z) : option request :=
  match w with
  | Ppc32 => ppc32_CALL_FN ptr orig args
  | Ppc64be u r2 => ppc64be_CALL_FN u r2 ptr orig args
  | Ppc64le u r2 => ppc64le_CALL_FN u r2 ptr orig args
  | Arm => arm_CALL_FN ptr orig args
  | Arm64 => arm64_CALL_FN ptr orig args
  | S390x fp => s390x_CALL_FN fp ptr orig args
  | Mips32 => mips32_CALL_FN ptr orig args
  | Mips64 long_bits => mips64_CALL_FN long_bits ptr orig args
  end.

(** [CALL_FN_v_*], for up to seven arguments: the result goes to [_junk]. *)
Definition CALL_FN_v (w : site) (ptr orig : Z) (args : list Z) : option request :=
  if (length args <=? 7)%nat then CALL_FN_W w ptr orig args else None.

(** *** What the macros put in [_argvec] *)
Definition header (w : site) : list Z :=
  match w with Ppc64be u r2 | Ppc64le u r2 => [u; r2] | _ => [] end.
(** An address, or an argument, as a register has to hold it. *)
Definition as_register (w : site) (v : Z) : Z :=
  match w with Mips64 long_bits => MIPS64_LONG2REG_CAST long_bits v | _ => v end.

(** The calls that keep to the convention.  The others are on mips64: with nine or eleven
    arguments the macros do not keep the stack aligned to 16 bytes, and with two or three
    they do not extend the sign of the address, which matters if a [long] is shorter than
    a register. *)
Definition sound_call (w : site) (n : nat) : Prop :=
  match w with
  | Mips64 long_bits => n ∉ [9; 11]%nat ∧ (n ∈ [2; 3]%nat → long_bits = 64)
  | _ => True
  end.
