(* ===== verification/CallCheck.v ===== *)
(** * Checking a hand-made call by symbolic execution

    [check_call] runs the template of an asm statement with symbols for what the
    registers hold, and decides that the statement follows a convention.  It is
    executable, so that [vm_compute] answers for a macro; what it says is proved once,
    for all states and all choices of registers the compiler may make. *)
From stdpp Require Import functions.
From S2P Require Import Prelude Asm Valgrind ValgrindProps Calls.
Local Open Scope string_scope.
Local Open Scope Z_scope.
Local Open Scope list_scope.

(** ** Association lists; the first entry counts *)
Section assoc.
Context {K V : Type} `{EqDecision K}.

Fixpoint assoc (l : list (K * V)) (k : K) : option V :=
  match l with
  | [] => None
  | (k', v) :: l => if decide (k = k') then Some v else assoc l k
  end.

Lemma assoc_app l1 l2 k :
  assoc (l1 ++ l2) k = match assoc l1 k with Some v => Some v | None => assoc l2 k end.
Proof. induction l1 as [|[k' v] l1 IH]; cbn; [done|]. by case_decide. Qed.

Lemma assoc_filter (P : K → bool) l k :
  assoc (filter (λ x : K * V, P x.1 = true) l) k = if P k then assoc l k else None.
Proof.
  induction l as [|[k' v] l IH]; [by destruct (P k)|].
  rewrite filter_cons. cbn [fst]. case_decide as HP; cbn; rewrite IH.
  - case_decide; [|done]. subst. by rewrite HP.
  - destruct (P k) eqn:E; [|done]. rewrite decide_False; [done|]. intros ->. done.
Qed.

Lemma assoc_fmap {A} (f : A → K) (g : A → V) (l : list A) k v :
  assoc ((λ x, (f x, g x)) <$> l) k = Some v → ∃ x, x ∈ l ∧ k = f x ∧ v = g x.
Proof.
  induction l as [|x l IH]; cbn; [done|]. case_decide.
  - intros [= <-]. exists x. split; [left|done].
  - intros (y & ? & ?)%IH. exists y. split; [by right|done].
Qed.

Lemma assoc_fmap_None {A} (f : A → K) (g : A → V) (l : list A) k :
  assoc ((λ x, (f x, g x)) <$> l) k = None → ∀ x, x ∈ l → k ≠ f x.
Proof.
  induction l as [|x l IH]; cbn; [by intros _ x ?%elem_of_nil|]. case_decide; [done|].
  intros Hl y [->|Hy]%elem_of_cons; [done|]. by apply IH.
Qed.

Lemma assoc_elem l k v : assoc l k = Some v → (k, v) ∈ l.
Proof.
  induction l as [|[k' v'] l IH]; cbn; [done|]. case_decide; [|by right; apply IH].
  intros [= <-]. subst. left.
Qed.
End assoc.

(** ** Symbols *)

(** An address; what a register held when the statement started; an input; a word of
    [_argvec]; what a register holds when the function has returned. *)
Inductive sval : Type :=
| Addr (p : slot) | Init (r : string) | Input (j : nat) | Word (k : nat) | After (r : string).
#[export] Instance sval_eq_dec : EqDecision sval.
Proof. solve_decision. Defined.

Record sym : Type := Sym {
  sy_regs : list (opnd * sval);
  sy_out : bool;                   (* the result has been written *)
  sy_mem : list (slot * sval);     (* what has been stored *)
  sy_words : nat                   (* how many words of the array can still be read *)
}.

Definition shift (p : slot) (off : Z) : slot :=
  match p with Block d => Block (d + off) | Frame d => Frame (d + off) end.
Definition is_input (o : opnd) : bool := match o with Arg (S _) => true | _ => false end.

(** How far below the stack pointer a macro may go. *)
Definition depth : Z := 512.

Section check.
Context (cv : setup) (a : asm) (n : nat).
Abbreviation c := (co_cpu cv).
Abbreviation W := (bytes c).
Abbreviation sp := (stack_reg c).

(** No input is in one of these registers, and no result in one of [guard_out]. *)
Definition guard_in : list string := clobbers a ++ sp :: co_fixed cv.
Definition guard_out : list string := guard_in ++ su_result_not cv.

Definition sym_get (y : sym) (o : opnd) : option sval :=
  match assoc (sy_regs y) o with
  | Some v => Some v
  | None => match o with
            | Reg r => if bool_decide (r ∈ guard_out) then Some (Init r) else None
            | Arg _ => None
            end
  end.

Definition drop_inputs (l : list (opnd * sval)) : list (opnd * sval) :=
  filter (λ x, negb (is_input x.1) = true) l.

Definition sym_set (y : sym) (o : opnd) (v : sval) : option sym :=
  match o with
  | Reg r =>
      if bool_decide (r ∈ guard_out) then
        let l := if bool_decide (r ∈ guard_in) then sy_regs y else drop_inputs (sy_regs y) in
        Some (Sym ((o, v) :: l) (sy_out y) (sy_mem y) (sy_words y))
      else None
  | Arg O => Some (Sym ((o, v) :: drop_inputs (sy_regs y)) true (sy_mem y) (sy_words y))
  | Arg (S _) => None
  end.

Definition slot_ok (p : slot) : bool :=
  match p with
  | Frame d => (- depth <=? d) && (d <? 0)
  | Block d => (0 <=? d) && (d <? W * Z.of_nat n)
  end.

Definition sym_load (y : sym) (p : slot) : option sval :=
  if slot_ok p then
    match assoc (sy_mem y) p with
    | Some v => Some v
    | None => match p with
              | Block d => if (d mod W =? 0) && (d / W <? Z.of_nat (sy_words y))
                           then Some (Word (Z.to_nat (d / W))) else None
              | Frame _ => None
              end
    end
  else None.

Definition sym_store (y : sym) (p : slot) (v : sval) : option sym :=
  if slot_ok p then Some (Sym (sy_regs y) (sy_out y) ((p, v) :: sy_mem y) (sy_words y)) else None.

Fixpoint sym_push (y : sym) (d : Z) (vs : list sval) : option sym :=
  match vs with
  | [] => Some y
  | v :: vs => y ← sym_store y (Frame d) v; sym_push y (d + W) vs
  end.

Definition sym_addr (y : sym) (o : opnd) : option slot :=
  match sym_get y o with Some (Addr p) => Some p | _ => None end.
Definition sym_frame (y : sym) (o : opnd) : option Z :=
  match sym_get y o with Some (Addr (Frame d)) => Some d | _ => None end.

(** The stack pointer with its last bits cleared *)
Definition sym_align (y : sym) (d s : opnd) (ok : bool) : option sym :=
  if su_realigns cv && ok && bool_decide (sym_get y s = Some (Init sp))
  then sym_set y d (Addr (Frame 0)) else None.

Definition sym_add (y : sym) (d : opnd) (m : Z) : option sym :=
  x ← sym_frame y d;
  if (- depth <=? x + m) && (x + m <=? 0) then sym_set y d (Addr (Frame (x + m))) else None.

Definition sym_step (y : sym) (i : instr) : option sym :=
  match i with
  | Mov d s => v ← sym_get y s; sym_set y d v
  | Rlwinm d s m mb me =>
      sym_align y d s ((m =? 0) && (bits c =? 32) && (mask_be mb me =? 2 ^ bits c - 2 ^ co_align cv))
  | Rldicr d s m me =>
      sym_align y d s ((m =? 0) && (bits c =? 64) && (mask_be64 me =? 2 ^ bits c - 2 ^ co_align cv))
  | Bic d s m => sym_align y d s (m =? Z.ones (co_align cv))
  | LoadW off b d => p ← sym_addr y b; v ← sym_load y (shift p off); sym_set y d v
  | StoreW off b s => p ← sym_addr y b; v ← sym_get y s; sym_store y (shift p off) v
  | PushM l =>
      x ← sym_frame y sp;
      vs ← mapM (λ r, sym_get y (Reg r)) l;
      let d := x - W * Z.of_nat (length l) in
      if (- depth <=? d) && (x <=? 0) then y ← sym_push y d vs; sym_set y sp (Addr (Frame d)) else None
  | CopyW doff db off b =>
      p ← sym_addr y b; v ← sym_load y (shift p off);
      q ← sym_addr y db; sym_store y (shift q doff) v
  | AddI m d => sym_add y d m
  | SubI m d => sym_add y d (- m)
  | Cfi _ | Nop => Some y
  | _ => None
  end.

Fixpoint sym_exec (y : sym) (l : list instr) : option sym :=
  match l with [] => Some y | i :: l => y ← sym_step y i; sym_exec y l end.

(** At the start *)
Definition sym_start : sym :=
  Sym ((Arg 1, Addr (Block (W * Z.of_nat (su_first cv)))) ::
       ((λ j, (Arg (S (S j)), Input (S j))) <$> seq 0 (length (inputs a) - 1)) ++
       (if su_realigns cv then [] else [(Reg sp, Addr (Frame 0))]))
    false [] n.

(** The function has run. *)
Definition is_volatile (o : opnd) : bool :=
  match o with Reg r => bool_decide (r ∈ co_volatile cv) | Arg _ => false end.
Definition sym_call (y : sym) : sym :=
  Sym (((λ r, (Reg r, After r)) <$> co_volatile cv) ++
       filter (λ x : opnd * sval, negb (is_volatile x.1) = true) (sy_regs y))
    false (filter (λ x : slot * sval, bool_decide (x.1 ∈ su_keeps cv) = true) (sy_mem y)) 0.

(** *** What is decided *)

(** At the call: the address, the stack, the [m] arguments, what else the convention
    wants, the memory. *)
Definition arg_ok (y : sym) (d : Z) (k : nat) : bool :=
  let w := Some (Word (S (su_first cv + k))) in
  match co_args cv !! k with
  | Some r => bool_decide (sym_get y (Reg r) = w)
  | None => bool_decide (assoc (sy_mem y)
      (Frame (d + co_stack cv + W * Z.of_nat (k - length (co_args cv)))) = w)
  end.
Definition also_ok (y : sym) (x : string * given) : bool :=
  bool_decide (sym_get y (Reg x.1) =
    Some (match x.2 with GWord k => Word k | GInput j => Input j end)).
Definition stored_ok (x : slot * sval) : bool :=
  match x.1 with Frame _ => true | Block _ => bool_decide (x.1 ∈ su_keeps cv) end.
Definition at_call (m : nat) (target : string) (y : sym) : bool :=
  bool_decide (sym_get y (Reg target) = Some (Word (su_first cv))) &&
  match sym_frame y sp with
  | Some d => (d mod 2 ^ co_align cv =? 0) && forallb (arg_ok y d) (seq 0 m)
  | None => false
  end &&
  forallb (also_ok y) (su_also cv) && forallb stored_ok (sy_mem y) && negb (sy_out y).

(** At the end: the result, and every register that was written and that the compiler
    does not know of. *)
Definition restored (y : sym) (o : opnd) : bool :=
  match o with
  | Reg r => bool_decide (r ∈ clobbers a) || bool_decide (sym_get y o = Some (Init r)) ||
             (bool_decide (r = sp) && negb (su_realigns cv) &&
              bool_decide (sym_get y o = Some (Addr (Frame 0))))
  | Arg _ => true
  end.
Definition at_end (y : sym) : bool :=
  sy_out y && bool_decide (sym_get y (Arg 0) = Some (After (co_ret cv))) &&
  forallb (λ x, restored y x.1) (sy_regs y).

Definition no_store (i : instr) : bool :=
  match i with Push _ _ | StoreW _ _ _ | PushM _ | CopyW _ _ _ _ => false | _ => true end.
Definition plain_b (i : instr) : bool := bool_decide (head (a_preamble (co_arch cv)) ≠ Some i).

(** The instructions before the call, the register with the address, and the
    instructions after it. *)
Fixpoint split_call (l : list instr) : option (list instr * string * list instr) :=
  match l with
  | [] => None
  | i :: l' =>
      match match_special (co_arch cv) (i :: l') with
      | Some (CallNoredir t, post) => Some ([], t, post)
      | Some _ => None
      | None => match split_call l' with
                | Some (pre, t, post) => Some (i :: pre, t, post)
                | None => None
                end
      end
  end.

Definition volatile_ok : bool :=
  forallb (λ r, bool_decide (r ∈ guard_in)) (co_volatile cv) &&
  match zero_reg c with Some z => bool_decide (z ∉ guard_out) | None => true end.
Definition shape_ok : bool :=
  bool_decide (length (outputs a) = 1%nat) && (1 <=? length (inputs a))%nat &&
  (0 <? W) && (0 <? bits c) && (0 <=? co_align cv) && (co_align cv <=? 8) && (8 <=? bits c).

Definition check_call (m : nat) : bool :=
  match split_call (template a) with
  | Some (pre, t, post) =>
      shape_ok && volatile_ok && forallb plain_b post && forallb no_store post &&
      match sym_exec sym_start pre with
      | Some y =>
          at_call m t y &&
          match sym_exec (sym_call y) post with Some y' => at_end y' | None => false end
      | None => false
      end
  | None => false
  end.
End check.
