(* ===== verification/CallSound.v ===== *)
(** * The check of a hand-made call is sound

    A symbolic state describes the states of all runs; a symbolic step is a step of
    each of them.  [check_call_sound] is what the convention means. *)
From stdpp Require Import functions.
From S2P Require Import Prelude Asm Valgrind ValgrindProps Calls CallCheck.
Local Open Scope string_scope.
Local Open Scope Z_scope.
Local Open Scope list_scope.

(** ** Clearing the last bits of a word *)
Lemma land_high w k x : 0 ≤ k ≤ w → 0 ≤ x < 2 ^ w → Z.land x (2 ^ w - 2 ^ k) = x - x mod 2 ^ k.
Proof.
  intros Hk Hx.
  assert (E : 2 ^ w - 2 ^ k = Z.shiftl (Z.ones (w - k)) k).
  { rewrite Z.shiftl_mul_pow2, Z.ones_equiv by lia. replace (2 ^ w) with (2 ^ (w - k) * 2 ^ k); [lia|].
    rewrite <- Z.pow_add_r by lia. f_equal. lia. }
  replace (x - x mod 2 ^ k) with (Z.shiftl (Z.shiftr x k) k).
  2: { rewrite Z.shiftr_div_pow2, Z.shiftl_mul_pow2 by lia.
       pose proof (Z.div_mod x (2 ^ k)). assert (0 < 2 ^ k) by (apply Z.pow_pos_nonneg; lia). lia. }
  rewrite E. apply Z.bits_inj'. intros i Hi. rewrite Z.land_spec, !Z.shiftl_spec by done.
  destruct (decide (i < k)).
  - rewrite !(Z.testbit_neg_r _ (i - k)) by lia. apply andb_false_r.
  - rewrite Z.shiftr_spec by lia. replace (i - k + k) with i by lia.
    destruct (decide (i < w)).
    + rewrite Z.ones_spec_low by lia. apply andb_true_r.
    + rewrite Z.ones_spec_high by lia. rewrite (testbit_range w x i) by lia. done.
Qed.

Lemma ldiff_low k x : 0 ≤ k → Z.ldiff x (Z.ones k) = x - x mod 2 ^ k.
Proof.
  intros Hk. rewrite Z.ldiff_ones_r, Z.shiftr_div_pow2, Z.shiftl_mul_pow2 by done.
  pose proof (Z.div_mod x (2 ^ k)). assert (0 < 2 ^ k) by (apply Z.pow_pos_nonneg; lia). lia.
Qed.

Section sound.
Context (cv : setup) (a : asm) (n : nat).
Context (rho : nat → string) (s0 : state) (sr : string → Z) (ptr : Z) (words0 : list Z).
Abbreviation c := (co_cpu cv).
Abbreviation W := (bytes c).
Abbreviation sp := (stack_reg c).
Abbreviation name := (name rho).

Abbreviation top := (aligned_sp cv s0).

Definition denote (v : sval) : Z :=
  match v with
  | Addr p => slot_addr ptr top p
  | Init r => regs s0 r
  | Input j => word c (default 0 ((inputs a).*2 !! j))
  | Word k => default 0 (words0 !! k)
  | After r => sr r
  end.

(** What the macros count on. *)
Record setting : Prop := {
  se_shape : shape_ok cv a = true;
  se_zero : match zero_reg c with Some z => z ∉ guard_out cv a | None => True end;
  se_in : ∀ k, (k < length (constrs a))%nat → rho k ∉ guard_in cv a;
  se_out : rho 0%nat ∉ guard_out cv a;
  se_nz : ∀ k, (k < length (constrs a))%nat → zero_reg c ≠ Some (rho k);
  se_sp : 2 * depth ≤ regs s0 sp ≤ ptr;
  se_ptr : ptr + W * Z.of_nat n ≤ 2 ^ bits c;
  se_range : regs s0 sp < 2 ^ bits c;
}.
Context (Hset : setting).

Lemma shape_facts : length (outputs a) = 1%nat ∧ (1 ≤ length (inputs a))%nat ∧ 0 < W ∧
  8 ≤ bits c ∧ 0 ≤ co_align cv ≤ 8.
Proof using Hset.
  destruct Hset as [H _ _ _ _ _ _ _]. unfold shape_ok in H.
  rewrite !andb_true_iff, bool_decide_eq_true, Nat.leb_le, !Z.leb_le, !Z.ltb_lt in H.
  destruct_and?. split_and!; done.
Qed.

Lemma constrs_pos : (0 < length (constrs a))%nat.
Proof using Hset. destruct shape_facts as (H & _). unfold constrs. rewrite length_app. lia. Qed.

Lemma top_range : regs s0 sp - depth ≤ top ≤ regs s0 sp.
Proof using Hset.
  destruct shape_facts as (_ & _ & _ & _ & Ha). unfold aligned_sp. destruct (su_realigns cv); [|unfold depth; lia].
  assert (0 < 2 ^ co_align cv ≤ 2 ^ 8).
  { split; [apply Z.pow_pos_nonneg; lia|apply Z.pow_le_mono_r; lia]. }
  pose proof (Z.mod_pos_bound (regs s0 sp) (2 ^ co_align cv)). unfold depth. lia.
Qed.

Lemma slot_range p : slot_ok cv n p = true → 0 ≤ slot_addr ptr top p < 2 ^ bits c.
Proof using Hset.
  pose proof top_range as Ht. destruct Hset as [_ _ _ _ _ Hsp Hp Hr]. unfold depth in *.
  destruct p as [d|d]; cbn; rewrite andb_true_iff, Z.leb_le, Z.ltb_lt; unfold depth; lia.
Qed.

Lemma slot_word p : slot_ok cv n p = true → word c (slot_addr ptr top p) = slot_addr ptr top p.
Proof using Hset. intros H. apply Z.mod_small. by apply slot_range. Qed.

Lemma slot_inj p q : slot_ok cv n p = true → slot_ok cv n q = true →
  slot_addr ptr top p = slot_addr ptr top q → p = q.
Proof using Hset.
  pose proof top_range as Ht. destruct Hset as [_ _ _ _ _ Hsp _ _].
  destruct p as [d|d], q as [e|e]; cbn; rewrite !andb_true_iff, !Z.leb_le, !Z.ltb_lt; intros;
    try lia; f_equal; lia.
Qed.

(** ** Which states a symbolic state describes *)
Record models (base : Z → Z) (y : sym) (s : state) : Prop := {
  mo_regs : ∀ o v, assoc (sy_regs y) o = Some v → regs s (name o) = denote v;
  mo_rest : ∀ r, assoc (sy_regs y) (Reg r) = None → (sy_out y = true → r ≠ rho 0%nat) →
    regs s r = regs s0 r;
  mo_args : ∀ k v, assoc (sy_regs y) (Arg k) = Some v → (k < length (constrs a))%nat;
  mo_regs_ok : ∀ r v, assoc (sy_regs y) (Reg r) = Some v → r ∈ guard_out cv a;
  mo_mem : ∀ p v, assoc (sy_mem y) p = Some v → mem s (slot_addr ptr top p) = denote v;
  mo_mem_ok : ∀ p v, assoc (sy_mem y) p = Some v → slot_ok cv n p = true;
  mo_base : ∀ x, (∀ p v, assoc (sy_mem y) p = Some v → slot_addr ptr top p ≠ x) → mem s x = base x;
  mo_words : ∀ k, (k < sy_words y)%nat → base (ptr + W * Z.of_nat k) = default 0 (words0 !! k);
}.

(** An operand the symbolic execution can speak of is not the register that is 0. *)
Lemma rd_reg_out r s : r ∈ guard_out cv a → rd c rho (Reg r) s = regs s r.
Proof using Hset.
  intros Hr. pose proof (se_zero Hset) as Hz. unfold rd. cbn.
  destruct (zero_reg c) as [z|]; [|done]. rewrite decide_False; [done|congruence].
Qed.
Lemma wr_reg_out r v s : r ∈ guard_out cv a → wr c rho (Reg r) v s = State (<[r := v]> (regs s)) (mem s).
Proof using Hset.
  intros Hr. pose proof (se_zero Hset) as Hz. unfold wr. cbn.
  destruct (zero_reg c) as [z|]; [|done]. rewrite decide_False; [done|congruence].
Qed.

Lemma sym_get_sound base y o v s : sym_get cv a y o = Some v → models base y s →
  rd c rho o s = denote v.
Proof using Hset.
  unfold sym_get. intros Hg Hm. destruct (assoc (sy_regs y) o) as [v'|] eqn:E.
  - injection Hg as <-. rewrite <- (mo_regs _ _ _ Hm _ _ E). destruct o as [r|k].
    + apply rd_reg_out. by eapply mo_regs_ok.
    + unfold rd. cbn. rewrite decide_False; [done|]. apply (se_nz Hset). by eapply mo_args.
  - destruct o as [r|]; [|done]. case_bool_decide as Hr; [|done]. injection Hg as <-.
    rewrite rd_reg_out by done. apply (mo_rest _ _ _ Hm); [done|]. intros _ ->.
    by apply (se_out Hset).
Qed.

Lemma drop_inputs_assoc l o : assoc (drop_inputs l) o = if negb (is_input o) then assoc l o else None.
Proof. apply (assoc_filter (λ o, negb (is_input o))). Qed.

Lemma sym_set_sound base y o v y' s : sym_set cv a y o v = Some y' → models base y s →
  models base y' (wr c rho o (denote v) s).
Proof using Hset.
  intros Hs Hm. destruct o as [r|[|k]]; cbn in Hs; [|injection Hs as <-|done].
  - case_bool_decide as Hr; [|done]. injection Hs as <-. rewrite wr_reg_out by done.
    set (l := if bool_decide _ then _ else _).
    assert (Hl : ∀ o x, assoc l o = Some x → assoc (sy_regs y) o = Some x ∧ (o ≠ Reg r → name o ≠ r)).
    { intros o x. unfold l. case_bool_decide as Hi.
      - intros Ho. split; [done|]. destruct o as [r'|k]; cbn; [congruence|]. intros _ <-.
        apply (se_in Hset k); [by eapply mo_args|done].
      - rewrite drop_inputs_assoc. destruct o as [r'|[|k]]; cbn; [|..|done]; intros Ho; (split; [done|]).
        + congruence.
        + intros _ <-. by apply (se_out Hset). }
    assert (Hl' : ∀ r', assoc l (Reg r') = None → assoc (sy_regs y) (Reg r') = None).
    { intros r'. unfold l. case_bool_decide; [done|]. by rewrite drop_inputs_assoc. }
    split; cbn [sy_regs sy_out sy_mem sy_words regs mem assoc].
    + intros o x. case_decide as Ho; intros Hx.
      * simplify_eq. by rewrite fn_lookup_insert.
      * apply Hl in Hx as [Hx Hn]. rewrite fn_lookup_insert_ne; [by eapply mo_regs|].
        intros ->. by apply Hn.
    + intros r'. case_decide as Ho; [done|]. intros Hx Hout.
      rewrite fn_lookup_insert_ne by congruence. apply (mo_rest _ _ _ Hm); auto.
    + intros k x. case_decide; [done|]. intros [Hx _]%Hl. by eapply mo_args.
    + intros r' x. case_decide; [congruence|]. intros [Hx _]%Hl. by eapply mo_regs_ok.
    + apply (mo_mem _ _ _ Hm).
    + apply (mo_mem_ok _ _ _ Hm).
    + apply (mo_base _ _ _ Hm).
    + apply (mo_words _ _ _ Hm).
  - assert (Hw : wr c rho (Arg 0) (denote v) s = State (<[rho 0%nat := denote v]> (regs s)) (mem s)).
    { unfold wr. cbn. rewrite decide_False; [done|]. apply (se_nz Hset), constrs_pos. }
    rewrite Hw. split; cbn [sy_regs sy_out sy_mem sy_words regs mem assoc].
    + intros o x. case_decide as Ho; intros Hx.
      * simplify_eq. cbn. by rewrite fn_lookup_insert.
      * rewrite drop_inputs_assoc in Hx. destruct o as [r|[|k]]; cbn in Hx; [|done|done].
        rewrite fn_lookup_insert_ne; [by apply (mo_regs _ _ _ Hm (Reg r))|]. cbn. intros <-.
        apply (se_out Hset). by eapply mo_regs_ok.
    + intros r. case_decide; [done|]. rewrite drop_inputs_assoc. cbn. intros Hx Hr.
      rewrite fn_lookup_insert_ne by (intros <-; by apply Hr).
      apply (mo_rest _ _ _ Hm); auto.
    + intros k x. case_decide as Hk; [injection Hk as ->; intros _; apply constrs_pos|].
      rewrite drop_inputs_assoc. destruct k; cbn; [done|done].
    + intros r x. case_decide; [done|]. rewrite drop_inputs_assoc. cbn. by eapply mo_regs_ok.
    + apply (mo_mem _ _ _ Hm).
    + apply (mo_mem_ok _ _ _ Hm).
    + apply (mo_base _ _ _ Hm).
    + apply (mo_words _ _ _ Hm).
Qed.

(** ** Memory *)
Lemma sym_load_sound base y p v s : sym_load cv n y p = Some v → models base y s →
  mem s (slot_addr ptr top p) = denote v ∧ word c (slot_addr ptr top p) = slot_addr ptr top p.
Proof using Hset.
  unfold sym_load. destruct (slot_ok cv n p) eqn:Hok; [|done]. intros Hl Hm.
  split; [|by apply slot_word]. destruct (assoc (sy_mem y) p) as [v'|] eqn:E.
  - injection Hl as <-. by apply (mo_mem _ _ _ Hm).
  - destruct p as [d|d]; [|done]. destruct shape_facts as (_ & _ & HW & _).
    destruct ((d mod W =? 0) && (d / W <? Z.of_nat (sy_words y))) eqn:Hd; [|done].
    injection Hl as <-. rewrite andb_true_iff, Z.eqb_eq, Z.ltb_lt in Hd. destruct Hd as [Hd Hk].
    rewrite (mo_base _ _ _ Hm).
    + assert (0 ≤ d) by (cbn in Hok; rewrite andb_true_iff, Z.leb_le in Hok; lia).
      assert (0 ≤ d / W) by (apply Z.div_pos; lia).
      cbn [denote]. rewrite <- (mo_words _ _ _ Hm) by lia. cbn. f_equal.
      rewrite Z2Nat.id by done. pose proof (Z.div_mod d W). lia.
    + intros q w Hq Heq. apply slot_inj in Heq; [congruence|by eapply mo_mem_ok|done].
Qed.

Lemma sym_store_sound base y p v y' s : sym_store cv n y p v = Some y' → models base y s →
  models base y' (State (regs s) (<[slot_addr ptr top p := denote v]> (mem s))) ∧
  word c (slot_addr ptr top p) = slot_addr ptr top p.
Proof using Hset.
  unfold sym_store. destruct (slot_ok cv n p) eqn:Hok; [|done]. intros [= <-] Hm.
  split; [|by apply slot_word]. split; cbn [sy_regs sy_out sy_mem sy_words regs mem assoc].
  - apply (mo_regs _ _ _ Hm).
  - apply (mo_rest _ _ _ Hm).
  - apply (mo_args _ _ _ Hm).
  - apply (mo_regs_ok _ _ _ Hm).
  - intros q w. case_decide as Hq; intros Hw.
    + simplify_eq. by rewrite fn_lookup_insert.
    + rewrite fn_lookup_insert_ne; [by apply (mo_mem _ _ _ Hm)|]. intros Heq.
      apply Hq. symmetry. apply slot_inj; [done|by eapply mo_mem_ok|done].
  - intros q w. case_decide; [congruence|]. by apply (mo_mem_ok _ _ _ Hm).
  - intros x Hx. rewrite fn_lookup_insert_ne.
    + apply (mo_base _ _ _ Hm). intros q w Hq. destruct (decide (q = p)) as [->|Hne].
      * apply (Hx p v). by rewrite decide_True.
      * apply (Hx q w). by rewrite decide_False.
    + apply (Hx p v). by rewrite decide_True.
  - apply (mo_words _ _ _ Hm).
Qed.

Lemma sym_addr_sound base y o p s : sym_addr cv a y o = Some p → models base y s →
  rd c rho o s = slot_addr ptr top p.
Proof using Hset.
  unfold sym_addr. intros Ha Hm. destruct (sym_get cv a y o) as [[q| | | |]|] eqn:E; simplify_eq.
  by apply (sym_get_sound base y o (Addr p)).
Qed.

Lemma sym_frame_sound base y o d s : sym_frame cv a y o = Some d → models base y s →
  rd c rho o s = top + d.
Proof using Hset.
  unfold sym_frame. intros Ha Hm.
  destruct (sym_get cv a y o) as [[[]| | | |]|] eqn:E; simplify_eq.
  by apply (sym_get_sound base y o (Addr (Frame d))).
Qed.

Lemma shift_addr p off : slot_addr ptr top p + off = slot_addr ptr top (shift p off).
Proof. destruct p; cbn; lia. Qed.

(** ** Instructions *)
Lemma sym_align_sound base y d o ok y' v s : sym_align cv a y d o ok = Some y' → models base y s →
  (ok = true → rd c rho o s = regs s0 sp → v = regs s0 sp - regs s0 sp mod 2 ^ co_align cv) →
  models base y' (wr c rho d v s).
Proof using Hset.
  unfold sym_align. destruct (su_realigns cv) eqn:Hr; [|done]. destruct ok; [|done]. cbn.
  case_bool_decide as Hg; [|done]. intros Hs Hm Hv.
  assert (v = denote (Addr (Frame 0))) as ->; [|by eapply sym_set_sound].
  cbn. unfold aligned_sp. rewrite Hr, Z.add_0_r. apply Hv; [done|].
  by apply (sym_get_sound base y o (Init sp)).
Qed.

Lemma sym_add_sound base y d m y' s : sym_add cv a y d m = Some y' → models base y s →
  models base y' (wr c rho d (word c (rd c rho d s + m)) s).
Proof using Hset.
  unfold sym_add. intros Hs Hm. apply bind_Some in Hs as (x & Hx & Hs).
  destruct ((- depth <=? x + m) && (x + m <=? 0)) eqn:Hb; [|done].
  rewrite andb_true_iff, !Z.leb_le in Hb.
  rewrite (sym_frame_sound base y d x s Hx Hm).
  replace (word c (top + x + m)) with (denote (Addr (Frame (x + m)))); [by eapply sym_set_sound|].
  cbn. unfold word. rewrite Z.mod_small; [lia|].
  pose proof top_range as Ht. destruct Hset as [_ _ _ _ _ Hsp _ Hr]. unfold depth in *. lia.
Qed.

Lemma sym_push_sound base y d vs y' s : sym_push cv n y d vs = Some y' → models base y s →
  models base y' (State (regs s) (st_words c (top + d) (denote <$> vs) (mem s))).
Proof using Hset.
  revert y d s. induction vs as [|v vs IH]; intros y d s Hp Hm; cbn in Hp.
  - injection Hp as <-. cbn. by destruct s.
  - apply bind_Some in Hp as (y1 & Hs & Hp).
    assert (Hd : slot_ok cv n (Frame d) = true).
    { unfold sym_store in Hs. by destruct (slot_ok cv n (Frame d)). }
    destruct (sym_store_sound base y (Frame d) v y1 s Hs Hm) as [Hm1 _].
    apply (IH _ _ _ Hp) in Hm1. cbn in Hm1 |- *.
    destruct vs as [|v' vs]; [done|]. replace (word c (top + d + W)) with (top + (d + W)); [done|].
    assert (Hd' : slot_ok cv n (Frame (d + W)) = true).
    { cbn in Hp. apply bind_Some in Hp as (y2 & Hs' & _). unfold sym_store in Hs'.
      by destruct (slot_ok cv n (Frame (d + W))). }
    apply slot_word in Hd'. cbn in Hd'. rewrite <- Hd'. f_equal. lia.
Qed.

Lemma sym_mapM_get_sound base y l vs s : mapM (λ r, sym_get cv a y (Reg r)) l = Some vs →
  models base y s → (λ r, rd c rho (Reg r) s) <$> l = denote <$> vs.
Proof using Hset.
  intros Hl Hm. apply mapM_Some in Hl. induction Hl as [|r v l vs Hr _ IH]; [done|].
  cbn. f_equal; [|done]. by apply (sym_get_sound base y).
Qed.

Lemma sym_step_sound base y i y' s : sym_step cv a n y i = Some y' → models base y s →
  models base y' (exec1 c rho i s).
Proof using Hset.
  destruct shape_facts as (_ & _ & HW & Hb & Ha).
  assert (Hrange : 0 ≤ regs s0 sp < 2 ^ bits c).
  { destruct Hset as [_ _ _ _ _ Hsp _ Hr]. unfold depth in *. lia. }
  intros Hs Hm. destruct i; cbn [sym_step] in Hs; try done; cbn [exec1].
  - (* Rlwinm *)
    eapply sym_align_sound; [done|done|]. rewrite !andb_true_iff, !Z.eqb_eq. intros [[-> Hw] Hmask] Hrd.
    rewrite Hmask, <- Hw, Hrd, rotl_full; [by apply land_high; [lia|]|lia|done|by apply Zmod_0_l].
  - (* Mov *)
    apply bind_Some in Hs as (v & Hv & Hs). rewrite (sym_get_sound base y _ v s Hv Hm). by eapply sym_set_sound.
  - (* LoadW *)
    apply bind_Some in Hs as (p & Hp & Hs). apply bind_Some in Hs as (v & Hv & Hs).
    destruct (sym_load_sound base y _ v s Hv Hm) as [Hl Hw]. unfold ld.
    rewrite (sym_addr_sound base y b p s Hp Hm), shift_addr, Hw, Hl. by eapply sym_set_sound.
  - (* SubI *)
    replace (rd c rho d s - n0) with (rd c rho d s + - n0) by lia. by eapply sym_add_sound.
  - (* Cfi *) by injection Hs as <-.
  - (* AddI *) by eapply sym_add_sound.
  - (* Rldicr *)
    eapply sym_align_sound; [done|done|]. rewrite !andb_true_iff, !Z.eqb_eq. intros [[-> Hw] Hmask] Hrd.
    rewrite Hmask, <- Hw, Hrd, rotl_full; [by apply land_high; [lia|]|lia|done|by apply Zmod_0_l].
  - (* Bic *)
    eapply sym_align_sound; [done|done|]. rewrite Z.eqb_eq. intros -> Hrd.
    rewrite Hrd. apply ldiff_low. lia.
  - (* StoreW *)
    apply bind_Some in Hs as (p & Hp & Hs). apply bind_Some in Hs as (v & Hv & Hs).
    destruct (sym_store_sound base y _ v y' s Hs Hm) as [Hm' Hw]. unfold st.
    by rewrite (sym_addr_sound base y b p s Hp Hm), shift_addr, Hw, (sym_get_sound base y _ v s Hv Hm).
  - (* PushM *)
    apply bind_Some in Hs as (x & Hx & Hs). apply bind_Some in Hs as (vs & Hvs & Hs).
    set (d := x - W * Z.of_nat (length l)) in *.
    destruct ((- depth <=? d) && (x <=? 0)) eqn:Hd; [|done].
    rewrite andb_true_iff, !Z.leb_le in Hd. destruct Hd as [Hd Hx0].
    apply bind_Some in Hs as (y1 & Hp & Hs).
    pose proof (sym_push_sound base y d vs y1 s Hp Hm) as Hm1.
    apply (sym_set_sound base y1 sp (Addr (Frame d)) y' _ Hs) in Hm1.
    assert (Hsp : sp ∈ guard_out cv a).
    { unfold guard_out, guard_in. apply elem_of_app. left. apply elem_of_app. right. by left. }
    rewrite wr_reg_out in Hm1 by done. cbn [regs mem denote slot_addr] in Hm1.
    rewrite (sym_mapM_get_sound base y l vs s Hvs Hm).
    assert (Hrs : regs s sp = top + x) by (rewrite <- (rd_reg_out sp s) by done; by eapply sym_frame_sound).
    replace (word c (regs s sp - W * Z.of_nat (length l))) with (top + d); [done|].
    rewrite Hrs. unfold word. rewrite Z.mod_small; [lia|].
    pose proof top_range as Ht. pose proof (se_sp Hset) as Hs0. pose proof (se_range Hset).
    unfold depth in *. lia.
  - (* CopyW *)
    apply bind_Some in Hs as (p & Hp & Hs). apply bind_Some in Hs as (v & Hv & Hs).
    apply bind_Some in Hs as (q & Hq & Hs).
    destruct (sym_load_sound base y _ v s Hv Hm) as [Hl Hw].
    destruct (sym_store_sound base y _ v y' s Hs Hm) as [Hm' Hw']. unfold st, ld.
    rewrite (sym_addr_sound base y b p s Hp Hm), shift_addr, Hw, Hl.
    by rewrite (sym_addr_sound base y db q s Hq Hm), shift_addr, Hw'.
  - (* Nop *) by injection Hs as <-.
Qed.

Lemma sym_exec_sound base l y y' s : sym_exec cv a n y l = Some y' → models base y s →
  models base y' (exec c rho l s).
Proof using Hset.
  revert y s. induction l as [|i l IH]; intros y s Hl Hm; cbn in Hl; [by injection Hl as <-|].
  apply bind_Some in Hl as (y1 & Hi & Hl). apply (IH y1); [done|]. by eapply sym_step_sound.
Qed.

(** ** The start, the call and the end *)
Lemma sym_start_sound k : inputs a !! 0%nat = Some (k, ptr + W * Z.of_nat (su_first cv)) →
  (su_first cv < n)%nat → entered c a rho s0 →
  (∀ k w, words0 !! k = Some w → mem s0 (ptr + W * Z.of_nat k) = w) → n = length words0 →
  models (mem s0) (sym_start cv a n) s0.
Proof using Hset.
  destruct shape_facts as (Hout & Hin & HW & _). intros Hk Hf [Hi _] Hw Hn.
  assert (E : ∀ j x, inputs a !! j = Some x → regs s0 (rho (S j)) = word c x.2).
  { intros j [k' v] Hj. specialize (Hi j k' v Hj). unfold input_no in Hi. by rewrite Hout in Hi. }
  assert (Hlen : length (constrs a) = S (length (inputs a))).
  { unfold constrs. by rewrite length_app, length_fmap, Hout. }
  assert (Hsp : assoc (if su_realigns cv then [] else [(Reg sp, Addr (Frame 0))]) (Reg sp) =
    if su_realigns cv then None else Some (Addr (Frame 0))).
  { destruct (su_realigns cv); cbn; [done|]. by rewrite decide_True. }
  assert (Hregs : ∀ o v, assoc (sy_regs (sym_start cv a n)) o = Some v →
    o = Arg 1 ∧ v = Addr (Block (W * Z.of_nat (su_first cv))) ∨
    (∃ j, (S j < length (inputs a))%nat ∧ o = Arg (S (S j)) ∧ v = Input (S j)) ∨
    su_realigns cv = false ∧ o = Reg sp ∧ v = Addr (Frame 0)).
  { intros o v. cbn [sym_start sy_regs assoc]. case_decide; [intros [= <-]; by left|].
    rewrite assoc_app. destruct (assoc (_ <$> _) o) as [v'|] eqn:E1.
    - intros [= <-]. apply assoc_fmap in E1 as (j & Hj & -> & ->). apply elem_of_seq in Hj.
      right; left. exists j. split; [lia|done].
    - destruct (su_realigns cv); cbn; [done|]. case_decide; [|done]. intros [= <-]. by right; right. }
  split; cbn [sym_start sy_out sy_mem sy_words assoc]; try done.
  - intros o v Ho. apply Hregs in Ho as [[-> ->]|[(j & Hj & -> & ->)|(Hr & -> & ->)]]; cbn.
    + rewrite (E 0%nat _ Hk). apply Z.mod_small. cbn.
      destruct Hset as [_ _ _ _ _ Hs Hp _]. unfold depth in *. nia.
    + destruct (lookup_lt_is_Some_2 _ _ Hj) as [[k' v] Hx]. rewrite (E _ _ Hx).
      by rewrite list_lookup_fmap, Hx.
    + unfold aligned_sp. rewrite Hr. lia.
  - intros j v Ho. apply Hregs in Ho as [[[= ->] _]|[(j' & Hj & [= ->] & _)|(_ & ? & _)]]; [lia|lia|done].
  - intros r v Ho. apply Hregs in Ho as [[? _]|[(j' & _ & ? & _)|(_ & [= ->] & _)]]; [done|done|].
    unfold guard_out, guard_in. apply elem_of_app. left. apply elem_of_app. right. by left.
  - intros j Hj. destruct (lookup_lt_is_Some_2 words0 j) as [w Hw']; [lia|].
    rewrite (Hw j w Hw'). by rewrite Hw'.
Qed.

Lemma sym_call_sound base y s s' : models base y s → sy_out y = false → volatile_ok cv a = true →
  (∀ r, r ∉ co_volatile cv → regs s' r = regs s r) → (∀ r, regs s' r = sr r) →
  (∀ p, p ∈ su_keeps cv → mem s' (slot_addr ptr top p) = mem s (slot_addr ptr top p)) →
  models (mem s') (sym_call cv y) s'.
Proof using Hset.
  intros Hm Hout Hv Hreg Hsr Hkeep. unfold volatile_ok in Hv. rewrite andb_true_iff, forallb_forall in Hv.
  destruct Hv as [Hv _].
  assert (Hg : ∀ r, r ∈ co_volatile cv → r ∈ guard_in cv a).
  { intros r Hr%list_elem_of_In%Hv. by apply bool_decide_eq_true in Hr. }
  assert (Hf : ∀ o, assoc (filter (λ x : opnd * sval, negb (is_volatile cv x.1) = true) (sy_regs y)) o =
    if negb (is_volatile cv o) then assoc (sy_regs y) o else None)
    by exact (assoc_filter (λ o, negb (is_volatile cv o)) (sy_regs y)).
  assert (Hregs : ∀ o v, assoc (sy_regs (sym_call cv y)) o = Some v →
    (∃ r, r ∈ co_volatile cv ∧ o = Reg r ∧ v = After r) ∨
    is_volatile cv o = false ∧ assoc (sy_regs y) o = Some v).
  { intros o v. cbn [sym_call sy_regs]. rewrite assoc_app, Hf.
    destruct (assoc (_ <$> _) o) as [v'|] eqn:E1.
    - intros [= <-]. apply assoc_fmap in E1 as (r & Hr & -> & ->). left. by exists r.
    - destruct (is_volatile cv o); cbn; [done|]. by right. }
  assert (Hmem : ∀ p v, assoc (sy_mem (sym_call cv y)) p = Some v →
    p ∈ su_keeps cv ∧ assoc (sy_mem y) p = Some v).
  { intros p v Hp. assert (E : assoc (sy_mem (sym_call cv y)) p =
        if bool_decide (p ∈ su_keeps cv) then assoc (sy_mem y) p else None)
      by exact (assoc_filter (λ p, bool_decide (p ∈ su_keeps cv)) (sy_mem y) p).
    rewrite E in Hp. by case_bool_decide. }
  split.
  - intros o v Ho. apply Hregs in Ho as [(r & Hr & -> & ->)|[Hn Ho]]; [apply Hsr|].
    rewrite <- (mo_regs _ _ _ Hm o v Ho). apply Hreg. destruct o as [r|k]; cbn in *.
    + by apply bool_decide_eq_false in Hn.
    + intros Hr%Hg. apply (se_in Hset k); [by eapply mo_args|done].
  - cbn [sym_call sy_regs]. intros r Hr _. rewrite assoc_app, Hf in Hr.
    destruct (assoc (_ <$> _) (Reg r)) eqn:E1; [done|].
    assert (Hrv : r ∉ co_volatile cv).
    { intros Hin. by apply (assoc_fmap_None _ _ _ _ E1 r Hin). }
    rewrite Hreg by done. apply (mo_rest _ _ _ Hm); [|by rewrite Hout].
    cbn in Hr. by rewrite bool_decide_false in Hr.
  - intros k v Ho. apply Hregs in Ho as [(r & _ & ? & _)|[_ Ho]]; [done|by eapply mo_args].
  - intros r v Ho. apply Hregs in Ho as [(r' & Hr & [= ->] & _)|[_ Ho]]; [|by eapply mo_regs_ok].
    unfold guard_out. apply elem_of_app. left. by apply Hg.
  - intros p v [Hp Hpv]%Hmem. rewrite Hkeep by done. by apply (mo_mem _ _ _ Hm).
  - intros p v [_ Hpv]%Hmem. by apply (mo_mem_ok _ _ _ Hm p v).
  - done.
  - cbn. lia.
Qed.

Lemma sym_end_sound base y s : at_end cv a y = true → models base y s →
  regs s (rho 0%nat) = sr (co_ret cv) ∧ keeps a rho s0 s.
Proof using Hset.
  unfold at_end. rewrite !andb_true_iff, bool_decide_eq_true, forallb_forall.
  intros [[Ho Hres] Hall] Hm. split.
  - transitivity (rd c rho (Arg 0) s); [|by apply (sym_get_sound base y (Arg 0) (After (co_ret cv)))].
    unfold rd. cbn. rewrite decide_False; [done|]. apply (se_nz Hset), constrs_pos.
  - destruct shape_facts as (Hout & _). intros r Hr Hc. rewrite Hout in Hr. cbn in Hr.
    apply not_elem_of_cons in Hr as [Hr _].
    destruct (assoc (sy_regs y) (Reg r)) as [v|] eqn:E; [|by apply (mo_rest _ _ _ Hm)].
    pose proof (mo_regs_ok _ _ _ Hm _ _ E) as Hg.
    apply assoc_elem, list_elem_of_In, Hall in E. cbn in E.
    rewrite !orb_true_iff, !andb_true_iff, negb_true_iff, !bool_decide_eq_true in E.
    rewrite <- (rd_reg_out r s Hg).
    destruct E as [[?|E]|[[-> Hna] E]]; [done| |].
    + by apply (sym_get_sound base y _ (Init r) s E Hm).
    + rewrite (sym_get_sound base y _ _ s E Hm). cbn. unfold aligned_sp. rewrite Hna. lia.
Qed.

Lemma sym_at_call_sound base y m t s : at_call cv a m t y = true → models base y s →
  (su_realigns cv = false → regs s0 sp mod 2 ^ co_align cv = 0) →
  rd c rho (Reg t) s = default 0 (words0 !! su_first cv) ∧
  rd c rho (Reg sp) s mod 2 ^ co_align cv = 0 ∧
  (∀ k, (k < m)%nat → match co_args cv !! k with
    | Some r => rd c rho (Reg r) s
    | None => mem s (rd c rho (Reg sp) s + co_stack cv + W * Z.of_nat (k - length (co_args cv)))
    end = default 0 (words0 !! S (su_first cv + k))) ∧
  (∀ r g, (r, g) ∈ su_also cv → rd c rho (Reg r) s =
    denote (match g with GWord k => Word k | GInput j => Input j end)) ∧
  (∀ x, regs s0 sp ≤ x → (∀ p, p ∈ su_keeps cv → slot_addr ptr top p ≠ x) → mem s x = base x) ∧
  sy_out y = false.
Proof using Hset.
  unfold at_call. rewrite !andb_true_iff, bool_decide_eq_true, negb_true_iff, !forallb_forall.
  intros [[[[Ht Hargs] Halso] Hst] Ho] Hm Hal.
  destruct (sym_frame cv a y sp) as [d|] eqn:Hd; [|done].
  rewrite andb_true_iff, Z.eqb_eq, forallb_forall in Hargs. destruct Hargs as [Hdm Hargs].
  pose proof (sym_frame_sound base y sp d s Hd Hm) as Hsp. split_and!.
  - by apply (sym_get_sound base y (Reg t) (Word (su_first cv))).
  - rewrite Hsp. assert (Htop : top mod 2 ^ co_align cv = 0).
    { unfold aligned_sp in *. destruct (su_realigns cv); [|by apply Hal].
      destruct shape_facts as (_ & _ & _ & _ & Ha).
      assert (0 < 2 ^ co_align cv) by (apply Z.pow_pos_nonneg; lia).
      rewrite Zminus_mod_idemp_r, Z.sub_diag. apply Zmod_0_l. }
    by rewrite Zplus_mod, Htop, Hdm.
  - intros k Hk. assert (Hin : k ∈ seq 0 m) by (apply elem_of_seq; lia).
    specialize (Hargs k (proj1 (list_elem_of_In _ _) Hin)).
    unfold arg_ok in Hargs. destruct (co_args cv !! k) as [r|]; apply bool_decide_eq_true in Hargs.
    + by apply (sym_get_sound base y (Reg r) _ s Hargs).
    + rewrite Hsp. etransitivity; [|exact (mo_mem _ _ _ Hm _ _ Hargs)]. f_equal. cbn. lia.
  - intros r g Hg. specialize (Halso _ (proj1 (list_elem_of_In _ _) Hg)). unfold also_ok in Halso.
    apply bool_decide_eq_true in Halso. exact (sym_get_sound base y (Reg r) _ s Halso Hm).
  - intros x Hx Hk. apply (mo_base _ _ _ Hm). intros p v Hp.
    pose proof (mo_mem_ok _ _ _ Hm _ _ Hp) as Hok. destruct p as [e|e].
    + apply Hk. apply assoc_elem, list_elem_of_In, Hst in Hp. by apply bool_decide_eq_true in Hp.
    + pose proof top_range. cbn in Hok |- *. rewrite andb_true_iff, Z.leb_le, Z.ltb_lt in Hok. lia.
  - done.
Qed.
End sound.

(** ** The template around the call *)
Lemma no_store_mem c rho l s : forallb no_store l = true → mem (exec c rho l s) = mem s.
Proof.
  revert s. induction l as [|i l IH]; intros s H; [done|].
  apply andb_true_iff in H as [Hi Hl]. transitivity (mem (exec1 c rho i s)); [by apply IH|].
  destruct i; try done; cbn [exec1]; unfold wr; repeat case_decide; done.
Qed.

Lemma match_special_length a l m l' : match_special a l = Some (m, l') → (length l' < length l)%nat.
Proof.
  unfold match_special. case_bool_decide; [|done].
  destruct (drop (length (a_preamble a)) l) as [|i l2] eqn:E; [done|].
  intros Hm. apply bind_Some in Hm as (m' & _ & [= _ <-]).
  apply (f_equal length) in E. rewrite length_drop in E. cbn in E. lia.
Qed.

Lemma split_run (cv : setup) rho answer nraddr gpr2 callee pre t post k l s : co_arch cv ∈ archs →
  split_call cv l = Some (pre, t, post) → forallb (plain_b cv) post = true → (length l ≤ k)%nat →
  vg_exec (co_arch cv) rho answer nraddr gpr2 callee k l s =
  exec (co_cpu cv) rho post
    (callee (regs (exec (co_cpu cv) rho pre s) t) (exec (co_cpu cv) rho pre s)).
Proof.
  intros Ha Hl Hp. assert (Hp' : Forall (plain (co_arch cv)) post).
  { apply Forall_forall. intros i Hi%list_elem_of_In. rewrite forallb_forall in Hp.
    apply Hp in Hi. by apply bool_decide_eq_true in Hi. }
  revert k pre s Hl. induction l as [|i l IH]; intros k pre s Hl Hk; [done|].
  destruct k as [|k]; [cbn in Hk; lia|]. cbn [split_call] in Hl. cbn [vg_exec].
  destruct (match_special (co_arch cv) (i :: l)) as [[m post']|] eqn:Hm.
  - destruct m; try done. injection Hl as <- <- <-. apply match_special_length in Hm.
    apply (vg_exec_more _ Ha); [cbn in Hk, Hm; lia|done].
  - destruct (split_call cv l) as [[[pre' t'] post']|] eqn:El; [|done]. injection Hl as <- <- <-.
    rewrite (IH k pre') by (done || (cbn in Hk; lia)). done.
Qed.

(** ** The theorem *)
Section call.
Context (cv : setup) (q : request) (ptr : Z) (rho : nat → string).
Abbreviation c := (co_cpu cv).
Abbreviation W := (bytes c).
Abbreviation sp := (stack_reg c).
Abbreviation asm_stmt := (zzq_asm q).

(** What a macro counts on when it starts in [s]: what the compiler promises of its
    operands, [_argvec] in memory, above the stack pointer, and the stack aligned
    where the macro leaves that to the caller. *)
Record call_pre (s : state) : Prop := {
  cp_alloc : allocation c asm_stmt rho;
  cp_fixed : ∀ k, (k < length (constrs asm_stmt))%nat → rho k ∉ co_fixed cv;
  cp_entered : entered c asm_stmt rho s;
  cp_block : ∀ k w, zzq_args q !! k = Some w → mem s (ptr + W * Z.of_nat k) = w;
  cp_sp : 2 * depth ≤ regs s sp ≤ ptr;
  cp_ptr : ptr + W * Z.of_nat (length (zzq_args q)) ≤ 2 ^ bits c;
  cp_align : su_realigns cv = false → regs s sp mod 2 ^ co_align cv = 0;
}.

(** A function that keeps the registers of its caller, and what the macro has saved. *)
Record callee_ok (s : state) (callee : Z → state → state) : Prop := {
  ce_regs : ∀ t x r, r ∉ co_volatile cv → regs (callee t x) r = regs x r;
  ce_mem : ∀ t x p, p ∈ su_keeps cv →
    let p := slot_addr ptr (aligned_sp cv s) p in mem (callee t x) p = mem x p;
}.

(** The state [sc] of the call follows the convention: the stack is aligned, the [m]
    arguments are in their registers and on the stack in order, and nothing above the
    stack pointer has changed but where the macro saves something. *)
Record convention_met (m : nat) (s sc : state) : Prop := {
  cm_align : regs sc sp mod 2 ^ co_align cv = 0;
  cm_args : ∀ k, (k < m)%nat →
    arg_place cv sc k = default 0 (zzq_args q !! S (su_first cv + k));
  cm_also : ∀ r g, (r, g) ∈ su_also cv → regs sc r = given_value c q g;
  cm_mem : ∀ x, regs s sp ≤ x →
    (∀ p, p ∈ su_keeps cv → slot_addr ptr (aligned_sp cv s) p ≠ x) → mem sc x = mem s x;
}.

Definition target : Z := default 0 (zzq_args q !! su_first cv).

Lemma call_setting m s : call_pre s → rho 0%nat ∉ su_result_not cv → check_call cv asm_stmt (length (zzq_args q)) m = true →
  setting cv asm_stmt (length (zzq_args q)) rho s ptr.
Proof.
  intros [[_ _ Hcl Hz Hst _] Hfix [_ Hw] _ Hsp Hptr _] Hout Hc.
  unfold check_call in Hc. destruct (split_call _ _) as [[[pre t] post]|]; [|done].
  rewrite !andb_true_iff in Hc. destruct Hc as ((((Hsh & Hv) & _) & _) & _).
  unfold volatile_ok in Hv. rewrite andb_true_iff in Hv. destruct Hv as [_ Hv].
  assert (Hlen : (0 < length (constrs asm_stmt))%nat).
  { unfold shape_ok in Hsh. rewrite !andb_true_iff, bool_decide_eq_true in Hsh.
    unfold constrs. rewrite length_app. destruct_and?. lia. }
  assert (Hin : ∀ k, (k < length (constrs asm_stmt))%nat → rho k ∉ guard_in cv asm_stmt).
  { intros k Hk. unfold guard_in. rewrite not_elem_of_app, not_elem_of_cons.
    split_and!; [by apply Hcl|by apply not_eq_sym, Hst|by apply Hfix]. }
  split; try done.
  - destruct (zero_reg c); [|done]. by apply bool_decide_eq_true in Hv.
  - unfold guard_out. rewrite not_elem_of_app. by split; [apply Hin|].
  - apply Hw.
Qed.

Lemma check_call_sound m k answer nraddr gpr2 callee s :
  co_arch cv ∈ archs → check_call cv asm_stmt (length (zzq_args q)) m = true →
  inputs asm_stmt !! 0%nat = Some (k, ptr + W * Z.of_nat (su_first cv)) →
  (su_first cv < length (zzq_args q))%nat →
  call_pre s → rho 0%nat ∉ su_result_not cv → callee_ok s callee →
  ∃ sc, convention_met m s sc ∧
    let s' := vg_run (co_arch cv) rho answer nraddr gpr2 callee (template asm_stmt) s in
    let sr := callee target sc in
    regs s' (rho 0%nat) = regs sr (co_ret cv) ∧ keeps asm_stmt rho s s' ∧ mem s' = mem sr.
Proof.
  intros Ha Hc Hk Hf Hpre Hnot [Hcr Hcm]. pose proof (call_setting m s Hpre Hnot Hc) as Hset.
  destruct Hpre as [_ _ Hent Hblock _ _ Hal]. unfold check_call in Hc.
  destruct (split_call cv (template asm_stmt)) as [[[pre t] post]|] eqn:Hsplit; [|done].
  rewrite !andb_true_iff in Hc. destruct Hc as ((((_ & Hv) & Hp) & Hns) & Hc).
  destruct (sym_exec _ _ _ _ pre) as [y|] eqn:Hy; [|done].
  rewrite andb_true_iff in Hc. destruct Hc as [Hcall Hend].
  destruct (sym_exec _ _ _ _ post) as [y'|] eqn:Hy'; [|done].
  set (sc := exec c rho pre s). set (sr := callee target sc).
  set (M := models cv asm_stmt (length (zzq_args q)) rho s (regs sr) ptr (zzq_args q)).
  assert (Hsc : M (mem s) y sc).
  { eapply sym_exec_sound; [done|done|]. by eapply sym_start_sound. }
  destruct (sym_at_call_sound cv asm_stmt _ rho s (regs sr) ptr _ Hset (mem s) y m t sc Hcall Hsc Hal)
    as (Ht & Hsp & Hargs & Halso & Hmem & Hout).
  assert (Hrd : ∀ o v, sym_get cv asm_stmt y (Reg o) = Some v → rd c rho (Reg o) sc = regs sc o).
  { intros o v Ho. apply (rd_reg_out cv asm_stmt _ rho s ptr Hset). unfold sym_get in Ho.
    destruct (assoc _ _) eqn:E; [by eapply (mo_regs_ok _ _ _ _ _ _ _ _ _ _ _ Hsc)|].
    by case_bool_decide. }
  unfold at_call in Hcall. rewrite !andb_true_iff, bool_decide_eq_true, !forallb_forall in Hcall.
  destruct Hcall as [[[[Hgt Hga] Hgal] _] _].
  rewrite (Hrd _ _ Hgt) in Ht.
  destruct (sym_frame cv asm_stmt y sp) as [d|] eqn:Hd; [|done].
  assert (Hspr : rd c rho (Reg sp) sc = regs sc sp).
  { unfold sym_frame in Hd. destruct (sym_get cv asm_stmt y sp) eqn:E; [|done]. by eapply Hrd. }
  rewrite Hspr in Hsp.
  exists sc. split.
  - split; [done| | |done].
    + intros j Hj. pose proof (Hargs j Hj) as Hx. rewrite Hspr in Hx. rewrite <- Hx. clear Hx.
      unfold arg_place. destruct (co_args cv !! j) as [r|] eqn:Er; [|done].
      rewrite andb_true_iff, forallb_forall in Hga. destruct Hga as [_ Hga].
      assert (Hin : j ∈ seq 0 m) by (apply elem_of_seq; lia).
      specialize (Hga j (proj1 (list_elem_of_In _ _) Hin)). unfold arg_ok in Hga. rewrite Er in Hga.
      apply bool_decide_eq_true in Hga. symmetry. by eapply Hrd.
    + intros r g Hg. specialize (Hgal _ (proj1 (list_elem_of_In _ _) Hg)). unfold also_ok in Hgal.
      apply bool_decide_eq_true in Hgal. transitivity (rd c rho (Reg r) sc); [symmetry; by eapply Hrd|].
      rewrite (Halso r g Hg). by destruct g.
  - assert (Hsr : M (mem sr) (sym_call cv y) sr).
    { eapply sym_call_sound; [done|done|done|done| | |]; [|done|].
      - intros r Hr. by apply Hcr.
      - intros p Hkp. by apply (Hcm target sc p). }
    eapply sym_exec_sound in Hy'; [|done|exact Hsr].
    destruct (sym_end_sound cv asm_stmt _ rho s (regs sr) ptr _ Hset _ _ _ Hend Hy') as [Hres Hkeeps].
    assert (Hrun : vg_run (co_arch cv) rho answer nraddr gpr2 callee (template asm_stmt) s =
      exec c rho post sr).
    { unfold vg_run. rewrite (split_run cv rho _ _ _ _ pre t post) by done.
      fold sc. unfold sr. by rewrite Ht. }
    cbn zeta. rewrite Hrun. split_and!; [done|done|]. by apply no_store_mem.
Qed.
End call.
