(* ===== verification/CallsProps.v ===== *)
(** * The hand-made calls of the other platforms

    On the PowerPC, ARM, s390x and MIPS every [CALL_FN_W_*] is a call by the
    convention of its platform.  The macros are checked one by one by [check_call];
    what the check means is in CallSound. *)
From stdpp Require Import functions.
From S2P Require Import Prelude Asm Valgrind ValgrindProps CallPpc CallArm CallMips Calls.
From S2P Require Import CallCheck CallSound.
Local Open Scope string_scope.
Local Open Scope Z_scope.
Local Open Scope list_scope.

(** The offset of an input is a number. *)
Ltac eval_offset :=
  match goal with |- _ = _ + ?e => let v := eval vm_compute in e in change e with v; lia end.

(** With a [long] of 64 bits the cast changes nothing. *)
Lemma cast_64 v : word mips64_cpu (v mod 2 ^ 64) = word mips64_cpu (MIPS64_LONG2REG_CAST 64 v).
Proof.
  unfold word, MIPS64_LONG2REG_CAST. change (bits mips64_cpu) with 64.
  rewrite Zmod_mod, <- Zminus_mod_idemp_l, Zmod_mod, Zminus_mod_idemp_l. f_equal. lia.
Qed.

(** Up to twelve arguments there is a macro; its array, its first input, and the check *)
Lemma macro_checked w ptr orig args q : CALL_FN_W w ptr orig args = Some q →
  sound_call w (length args) →
  zzq_args q = word (co_cpu (conv w)) <$>
    header w ++ as_register w orig :: (as_register w <$> args) ∧
  (∃ k v, inputs (zzq_asm q) !! 0%nat = Some (k, v) ∧
    v = ptr + bytes (co_cpu (conv w)) * Z.of_nat (su_first (setup_of w))) ∧
  check_call (setup_of w) (zzq_asm q) (length (zzq_args q)) (length args) = true.
Proof.
  destruct w as [|u r2|u r2| | |[cfa|]| |lb]; cbn [CALL_FN_W];
    do 13 (destruct args as [|? args];
      [intros [= <-] Hs; split;
       [first [reflexivity|
               destruct Hs as [_ Hs]; rewrite (Hs ltac:(set_solver)); cbn -[Z.pow word];
               by rewrite cast_64]|];
       split; [do 2 eexists; split; [reflexivity|eval_offset]|
               first [vm_compute; reflexivity|by destruct Hs as [Hs _]; exfalso; apply Hs; set_solver]]|]);
    discriminate.
Qed.

Lemma conv_arch w : co_arch (conv w) ∈ archs.
Proof. destruct w; cbn; set_solver. Qed.

Lemma setup_conv w : su_conv (setup_of w) = conv w.
Proof. by destruct w as [| | | | |[]| |]. Qed.

Lemma header_first w : length (header w) = su_first (setup_of w).
Proof. by destruct w as [| | | | |[]| |]. Qed.

(** C38. The hand-made calls on the PowerPC, ARM, s390x and MIPS, for every number of
    arguments ([sound_call] names the exceptions, which are on mips64): at the call the
    arguments are in their registers and on the stack in order, where the convention of
    the platform has them, the stack is aligned, the register with the TOC pointer or the
    frame's address is set, and nothing above the stack pointer has changed but the words
    the macro saves.  Afterwards the result is the function's, and every register but the
    clobbered ones, the stack pointer included, is as before, for any function that keeps
    to the convention.  On s390x, where the frame's address is an input, this needs that
    the compiler has not chosen r11 for the result, which nothing in the macro asks for. *)
Theorem calls_follow_convention w ptr orig args q rho answer nraddr gpr2 callee s :
  let su := setup_of w in let c := co_cpu su in
  CALL_FN_W w ptr orig args = Some q → sound_call w (length args) →
  call_pre su q ptr rho s → rho 0%nat ∉ su_result_not su → callee_ok su ptr s callee →
  ∃ sc, regs sc (stack_reg c) mod 2 ^ co_align su = 0 ∧
    (∀ k v, args !! k = Some v → arg_place su sc k = word c (as_register w v)) ∧
    (∀ r g, (r, g) ∈ su_also su → regs sc r = given_value c q g) ∧
    (∀ x, regs s (stack_reg c) ≤ x →
      (∀ p, p ∈ su_keeps su → slot_addr ptr (aligned_sp su s) p ≠ x) → mem sc x = mem s x) ∧
    let s' := vg_run (co_arch su) rho answer nraddr gpr2 callee (template (zzq_asm q)) s in
    let sr := callee (word c (as_register w orig)) sc in
    regs s' (rho 0%nat) = regs sr (co_ret su) ∧ keeps (zzq_asm q) rho s s' ∧ mem s' = mem sr.
Proof.
  intros su c Hq Hsound Hpre Hnot Hcallee.
  destruct (macro_checked w ptr orig args q Hq Hsound) as (Hargs & Hin & Hcheck).
  destruct Hin as (k & v & Hin & Hv). subst v. pose proof (header_first w) as Hf.
  rewrite <- setup_conv in Hargs, Hin. fold su in Hargs, Hin, Hf, Hcheck.
  assert (Hat : ∀ j, zzq_args q !! (su_first su + j)%nat =
    (word c <$> as_register w orig :: (as_register w <$> args)) !! j).
  { intros j. rewrite Hargs, fmap_app, lookup_app_r by (rewrite length_fmap; lia).
    f_equal. rewrite length_fmap. lia. }
  assert (Hlen : (su_first su < length (zzq_args q))%nat).
  { apply lookup_lt_is_Some. rewrite <- (Nat.add_0_r (su_first su)), Hat. by eexists. }
  assert (Harch : co_arch su ∈ archs) by (unfold su; rewrite setup_conv; apply conv_arch).
  destruct (check_call_sound su q ptr rho (length args) k answer nraddr gpr2 callee s
    Harch Hcheck Hin Hlen Hpre Hnot Hcallee) as (sc & [Hal Hp Halso Hmem] & Hres).
  exists sc. split_and!; [done| |done|done|].
  - intros j x Hj. rewrite Hp by by eapply lookup_lt_Some.
    rewrite <- Nat.add_succ_r, Hat, fmap_cons.
    rewrite lookup_cons. by rewrite !list_lookup_fmap, Hj.
  - replace (target su q) with (word c (as_register w orig)) in Hres; [done|].
    unfold target. by rewrite <- (Nat.add_0_r (su_first su)), Hat.
Qed.

(** ** The theorem on a call

    Nine arguments on the big-endian ppc64: the ninth is on the stack, and the
    function, which adds it to the first, has another TOC pointer and changes r2. *)
Definition ppc_sum_rho (k : nat) : string := match k with 1%nat => "r31" | _ => "r30" end.
Definition ppc_sum_state : state :=
  State (λ r, if decide (r = "r1") then 8192 else if decide (r = "r31") then 16400
              else if decide (r = "r2") then 77 else 0)
    (λ p, if decide (p = 16384) then 0 else if decide (p = 16392) then 500
          else 1000 + (p - 16400) / 8).
Definition ppc_add (t : Z) (s : state) : state :=
  State (<["r3" := regs s "r3" + mem s (regs s "r1" + 112)]> (<["r2" := 3]> (regs s))) (mem s).
Definition ppc_sum : request :=
  ppc64be_CALL_FN_W_9W 0 500 16384 1000 1001 1002 1003 1004 1005 1006 1007 1008 1009.

Lemma ppc_sum_pre : call_pre (setup_of (Ppc64be 0 500)) ppc_sum 16384 ppc_sum_rho ppc_sum_state.
Proof.
  split.
  - split.
    + intros [|[|k]] r; cbn; intros; by simplify_eq.
    + intros [|[|k]] j; cbn; intros; by simplify_eq.
    + intros [|[|k]]; cbn; try lia; intros _; apply (bool_decide_unpack _); vm_compute; exact I.
    + done.
    + intros [|[|k]]; cbn; try lia; done.
    + intros [|i] [|j] x y; cbn; intros; by simplify_eq.
  - intros [|[|k]]; cbn; try lia; intros _; apply (bool_decide_unpack _); vm_compute; exact I.
  - split.
    + intros [|j] k v; cbn; intros; by simplify_eq.
    + intros r. cbn. repeat case_decide; by vm_compute.
  - intros k w Hk. do 12 (destruct k as [|k]; [injection Hk as <-; reflexivity|]). done.
  - by vm_compute.
  - by vm_compute.
  - done.
Qed.

Lemma ppc_add_ok : callee_ok (setup_of (Ppc64be 0 500)) 16384 ppc_sum_state ppc_add.
Proof.
  split; [|done]. intros t x r Hr. cbn. rewrite !fn_lookup_insert_ne; [done|..];
    intros <-; apply Hr; apply (bool_decide_unpack _); vm_compute; exact I.
Qed.

Lemma calls_follow_convention_witness :
  let s' := vg_run ppc64be ppc_sum_rho (λ _, 0) 0 0 ppc_add (template (zzq_asm ppc_sum)) ppc_sum_state in
  regs s' "r30" = 1001 + 1009 ∧ regs s' "r1" = 8192 ∧ regs s' "r2" = 77.
Proof.
  destruct (calls_follow_convention (Ppc64be 0 500) 16384 1000
    [1001; 1002; 1003; 1004; 1005; 1006; 1007; 1008; 1009] ppc_sum ppc_sum_rho (λ _, 0) 0 0 ppc_add
    ppc_sum_state eq_refl I ppc_sum_pre ltac:(apply not_elem_of_nil) ppc_add_ok) as (sc & _ & Hargs & _ & _ & Hres & Hk & _).
  split_and!.
  - cbn zeta in Hres. change (ppc_sum_rho 0) with "r30" in Hres. etransitivity; [exact Hres|].
    pose proof (Hargs 0%nat _ eq_refl) as H0. pose proof (Hargs 8%nat _ eq_refl) as H8.
    cbn [ppc_add regs co_ret conv ppc64be_conv]. rewrite fn_lookup_insert. f_equal; [exact H0|].
    etransitivity; [|exact H8]. unfold arg_place. cbn. f_equal. lia.
  - apply Hk; apply (bool_decide_unpack _); vm_compute; exact I.
  - apply Hk; apply (bool_decide_unpack _); vm_compute; exact I.
Defined.

(** ** Where the convention is in danger

    On s390x nothing keeps the compiler from choosing r11 for the result, which the
    macros move there before they restore r11: the result is lost. *)
Definition s390x_rho (k : nat) : string := match k with O => "11" | 1%nat => "8" | _ => "9" end.
Definition s390x_five (t : Z) (s : state) : state := State (<["2" := 5]> (regs s)) (mem s).
Definition s390x_start : state :=
  State (λ r, if decide (r = "8") then 8192 else if decide (r = "15") then 4096
              else if decide (r = "11") then 9 else 0) (λ p, 1000).

Lemma s390x_result_lost :
  let q := s390x_CALL_FN_W_v (Some 0) 8192 1000 in
  allocation s390x_cpu (zzq_asm q) s390x_rho ∧ entered s390x_cpu (zzq_asm q) s390x_rho s390x_start ∧
  (∀ t s, regs (s390x_five t s) "2" = 5) ∧
  regs (vg_run s390x s390x_rho (λ _, 0) 0 0 s390x_five (template (zzq_asm q)) s390x_start)
    (s390x_rho 0) = 9.
Proof.
  cbv zeta. split_and!; [| | |vm_compute; reflexivity].
  - split.
    + intros [|[|[|k]]] r; cbn; intros; by simplify_eq.
    + intros [|[|[|k]]] j; cbn; intros; by simplify_eq.
    + intros [|[|[|k]]]; cbn; try lia; intros _; apply (bool_decide_unpack _); vm_compute; exact I.
    + done.
    + intros [|[|[|k]]]; cbn; try lia; done.
    + intros [|[|i]] [|[|j]] x y; cbn; intros; by simplify_eq.
  - split.
    + intros [|[|j]] k v; cbn; intros; by simplify_eq.
    + intros r. cbn. repeat case_decide; by vm_compute.
  - intros t s. apply fn_lookup_insert.
Qed.

(** With a [long] of 32 bits, the address of a function of two or three arguments is
    not sign-extended as for the other numbers. *)
Lemma mips64_cast_missing ptr a1 a2 :
  zzq_args (mips64_CALL_FN_W_WW 32 ptr 0x80000000 a1 a2) !! 0%nat = Some 0x80000000 ∧
  word mips64_cpu (as_register (Mips64 32) 0x80000000) = 0xffffffff80000000.
Proof. by vm_compute. Qed.

(** With nine or eleven arguments the stack is not aligned to 16 bytes at the call, from a
    stack pointer that is: a function that returns its last four bits returns 8. *)
Definition mips64_rho (k : nat) : string := match k with O => "$16" | _ => "$17" end.
Definition sp_probe (t : Z) (s : state) : state :=
  State (<["$2" := regs s "$29" mod 16]> (regs s)) (mem s).
Definition mips64_start : state :=
  State (λ r, if decide (r = "$17") then 8192 else if decide (r = "$29") then 4096 else 0) (λ p, 1000).
Definition probed (q : request) : Z :=
  regs (vg_run mips64 mips64_rho (λ _, 0) 0 0 sp_probe (template (zzq_asm q)) mips64_start)
    (mips64_rho 0).

Lemma mips64_stack_misaligned :
  let q9 := mips64_CALL_FN_W_9W 64 8192 1000 1 2 3 4 5 6 7 8 9 in
  let q11 := mips64_CALL_FN_W_11W 64 8192 1000 1 2 3 4 5 6 7 8 9 10 11 in
  allocation mips64_cpu (zzq_asm q9) mips64_rho ∧ allocation mips64_cpu (zzq_asm q11) mips64_rho ∧
  entered mips64_cpu (zzq_asm q9) mips64_rho mips64_start ∧
  entered mips64_cpu (zzq_asm q11) mips64_rho mips64_start ∧
  regs mips64_start "$29" mod 2 ^ co_align mips64_conv = 0 ∧ probed q9 = 8 ∧ probed q11 = 8.
Proof.
  cbv zeta. pose (stmt t := Asm t [AnyReg] [(AnyReg, 8192)] (["memory"] ++ mips64_CALLER_SAVED_REGS)).
  assert (Ha : ∀ t, allocation mips64_cpu (stmt t) mips64_rho).
  { intros t. split.
    + intros [|[|k]] r; cbn; intros; by simplify_eq.
    + intros [|[|k]] j; cbn; intros; by simplify_eq.
    + intros [|[|k]]; cbn; try lia; intros _; apply (bool_decide_unpack _); vm_compute; exact I.
    + intros [|[|k]]; cbn; try lia; done.
    + intros [|[|k]]; cbn; try lia; done.
    + intros [|i] [|j] x y; cbn; intros; by simplify_eq. }
  assert (He : ∀ t, entered mips64_cpu (stmt t) mips64_rho mips64_start).
  { intros t. split.
    + intros [|j] k v; cbn; intros; by simplify_eq.
    + intros r. cbn. repeat case_decide; by vm_compute. }
  split_and!; [apply Ha|apply Ha|apply He|apply He|by vm_compute..].
Qed.
